(* ===== verification/_CoqProject ===== *)
-Q . S2P
Prelude.v
Model.v
GoStrings.v
UserStore.v
UserMem.v
UserHistory.v
UserConc.v
SyncJobs.v
Membership.v
OrgStore.v
GroupStore.v
Auth.v
UserService.v
DirectoryService.v
App.v
AppHistory.v
Udp.v
GoJson.v
GoJsonText.v
GoIO.v
UdsMessages.v
UdsCodec.v
UdsHandshake.v
UdsHandler.v
UdsServer.v
Rest.v
Sql.v
PgStore.v
Idpctl.v
AppInterfaces.v
Main.v
