(* ===== verification/Prelude.v ===== *)
(** * Identity directory service: verification library

    The program (a Go service under [src/]) keeps a directory of users, organizations, groups and
    synchronisation jobs in memory and offers it over three interfaces: a REST API
    ([internal/api]), a local socket with framed or line-based JSON ([internal/uds]), and UDP
    packets that only log in ([internal/udp]). [cmd/main.go] creates the first account, builds one
    set of stores, hands it to two services, and starts the three servers on them.

    ** Files and what they model

    - [Prelude]: outcomes of a call ([res]: a value, an error, a panic), the monad [GoM] of methods
      on a state, 64-bit integers ([int_wrap]), slices and the pagination block of the stores.
    - [Model]: [internal/model/models.go] and the error values of the packages.
    - [GoStrings], [GoJson], [GoJsonText], [GoIO]: the parts of the Go standard library the source
      calls ([strings], [strconv], [encoding/json], [io], [bufio], [encoding/binary], [net]).
    - [UserStore]: the interface [user.Store] as a class of operations, the abstract directory
      (one map from identifiers to users), and the class of laws that an implementation refines it.
    - [UserMem], [UserHistory], [UserConc]: [user.MemoryStore] of [internal/user/memory_store.go].
      Its three [sync.Map]s have no common lock, so a method is a program over atomic map calls:
      run alone in [UserMem] and [UserHistory], interleaved with others in [UserConc].
    - [SyncJobs], [Membership], [OrgStore], [GroupStore]: the other in-memory stores. Each method
      holds one mutex, so it is one transition. [Membership] has the two mirrored member maps once.
    - [Auth]: [internal/auth/service.go]; the token library is a class with the laws the code uses.
    - [UserService], [DirectoryService]: [internal/service]. Written against the store interfaces;
      the theorems use the laws of the user store only.
    - [App]: the stores behind both services, and which calls change nothing when they fail.
      [AppHistory]: what every service call preserves.
    - [Udp]: [internal/udp/server.go], the packet syntax and the server as a transition system.
    - [UdsMessages], [UdsCodec], [UdsHandshake], [UdsHandler], [UdsServer]: [internal/uds]. Messages
      and codecs over a byte stream that arrives in any pieces, the detection of the format by the
      first byte, one definition per action, and the server's goroutines as a transition system.
    - [Rest]: [internal/api], one definition per handler, the token middleware, the route table.
    - [Sql], [PgStore]: the SQL of [internal/user/pg_store.go] over the table of
      [migrations/001_init.sql], and [user.PGStore], the store [main] does not build.
    - [Idpctl]: the command-line client [cmd/idpctl], every command, over HTTP and over the local
      socket, composed with [Rest] and [UdsServer].
    - [AppInterfaces]: what the handlers of the three interfaces preserve, and that they agree.
    - [Main]: [cmd/main.go], and the whole program as a transition system.

    ** State and operations

    A Go object is a record of its fields and a method a function [GoM error State Result] with the
    name of the method: it returns the outcome and the state on every branch, since the fields of
    an object survive an error and a recovered panic. What a call draws from its surroundings is an
    argument: the clock, a fresh identifier, and the order in which a map happens to be enumerated
    ([Env] in the handlers). Calls on sockets enter as their outcomes. The servers are step
    relations written as functions ([server_step], [udp_step], [program_step]): a label names the
    goroutine that moves and what it meets, and the theorems range over all sequences of labels.
    A UDS request is read, handled and answered in one step, a UDP packet is verified and answered
    in one step, and an HTTP request is one step; that calls on the user store interleave more
    finely is the subject of [UserConc].

    ** What the theorems show

    - Stores: the memory store answers every history of calls as the abstract directory does; its
      indexes are exact; usernames stay unique under every interleaving and every call ends in
      a bounded number of its own steps; listings are partitions of the live users; organization
      and group memberships mirror each other; stored paths spell lineages.
    - PostgreSQL store: it answers calls as the abstract directory does, whenever the server does not
      fail, up to listed differences; its table stays consistent over every history and failure;
      what its pages and searches hold.
    - Services: exactly the right credentials are accepted; what create, update, login, listing and
      counting do on every branch; member lists show the current data of known users.
    - Tokens: an issued token validates to its user until the announced expiry, and only tokens
      signed under the service's secret are accepted.
    - Interfaces: REST answers nothing without a token but the health check and the login, error
      answers change nothing, a session logs in and out; UDS requests are answered under their
      identifier, one for one and in order, and read back as they were written under either codec;
      the handshake is transparent; the connection count is exact; a stopped server drains; each UDP
      packet is answered once. The three interfaces accept the same credentials.
    - Client: a command over the local socket reaches the handler as it was given and prints the
      start of the answer; over HTTP a login is one login, and the commands on organizations and groups reach no route.
    - Program: it starts exactly when its sockets do, with one account; over every interleaving of
      the interfaces the shared state stays well formed, accounts are never lost, and new ones come
      only from authorised REST requests.

    Several theorems record behaviour a caller may not expect (a listing with a negative offset
    panics, an update can undo a concurrent deletion, the connection limit can be exceeded, a JSON
    request read drops what arrived behind its line).

    ** Bounds and fuel

    [int] is 64 bits. The JSON parser runs on fuel twice the length of its input and two more; by
    [GoJsonText.decode_fuel] more fuel never changes its result, and its nesting limit is the
    package's 10000. The read loops of [GoIO] run on fuel that every well-behaved reader leaves
    unused. A frame is limited to [MaxMessageSize] and a line to [MaxJSONMessageSize], as in the
    source. [run] in [UserMem] and the pools of [UserConc] need no fuel: the programs are trees without loops. Printing an
    integer has fuel for 20 digits, and a 64-bit integer has at most 19.

    ** Not modelled

    The token library, Gin's JSON binding and its matching of a path against the route table, and
    the database server are parameters with the laws the code relies on. Left out: logging; the
    parsing of the command line by cobra; the generated [pb/idp.pb.go], which the running program
    never uses; what a profiling page shows; deadlines as times (a deadline that passes is an error
    that ends a stream). *)

From Stdlib Require Import ZArith Lia.
From stdpp Require Import base tactics numbers list gmap strings.

Declare Scope go_scope.
Delimit Scope go_scope with go.

(** ** Outcomes of a Go call

    [Ok] is a normal return, [Err] a return whose [error] result is not nil, and
    [Panic] a run-time panic (an index or slice out of range). *)
Inductive res (E A : Type) : Type :=
| Ok (a : A)
| Err (e : E)
| Panic.
Arguments Ok {E A} a.
Arguments Err {E A} e.
Arguments Panic {E A}.

#[export] Instance res_eq_dec `{EqDecision E, EqDecision A} : EqDecision (res E A).
Proof. solve_decision. Defined.

Definition is_ok {E A} (r : res E A) : bool :=
  match r with Ok _ => true | _ => false end.

(** A method of a Go object whose fields are [S]: the fields survive an error
    return and a recovered panic, so the state is returned on every branch. *)
Definition GoM (E S A : Type) : Type := S → res E A * S.

#[export] Instance gom_ret {E S} : MRet (GoM E S) := λ A a s, (Ok a, s).
#[export] Instance gom_bind {E S} : MBind (GoM E S) := λ A B f m s,
  match m s with
  | (Ok a, s') => f a s'
  | (Err e, s') => (Err e, s')
  | (Panic, s') => (Panic, s')
  end.

Definition throw {E S A} (e : E) : GoM E S A := λ s, (Err e, s).
Definition panic {E S A} : GoM E S A := λ s, (Panic, s).
Definition get {E S} : GoM E S S := λ s, (Ok s, s).
Definition put {E S} (s' : S) : GoM E S unit := λ _, (Ok (), s').

(** [try m] runs [m] and hands its outcome to the caller, as [v, err := m()] does;
    a panic still unwinds. *)
Definition try {E S A} (m : GoM E S A) : GoM E S (A + E) := λ s,
  match m s with
  | (Ok a, s') => (Ok (inl a), s')
  | (Err e, s') => (Ok (inr e), s')
  | (Panic, s') => (Panic, s')
  end.

(** A method of a field of the receiver, run on the receiver. *)
Definition zoom {E S T A} (proj : T → S) (upd : S → T → T) (m : GoM E S A) : GoM E T A :=
  λ t, let '(r, s') := m (proj t) in (r, upd s' t).

(** A call that returns [(v, err)] and touches no state. *)
Definition of_sum {E S A} (r : E + A) : GoM E S A := λ s,
  match r with inl e => (Err e, s) | inr a => (Ok a, s) end.

(** A loop that appends one result per element and stops at the first failure. *)
Fixpoint collect {E S A B} (f : A → GoM E S B) (l : list A) : GoM E S (list B) :=
  match l with
  | [] => mret []
  | x :: l => y ← f x; ys ← collect f l; mret (y :: ys)
  end.

Section GoM_laws.
Context {E S : Type}.

Lemma bind_ok {A B} (m : GoM E S A) (f : A → GoM E S B) s a s' :
  m s = (Ok a, s') → (m ≫= f) s = f a s'.
Proof. unfold mbind, gom_bind. by intros ->. Qed.

Lemma bind_err {A B} (m : GoM E S A) (f : A → GoM E S B) s e s' :
  m s = (Err e, s') → (m ≫= f) s = (Err e, s').
Proof. unfold mbind, gom_bind. by intros ->. Qed.

Lemma bind_panic {A B} (m : GoM E S A) (f : A → GoM E S B) s s' :
  m s = (Panic, s') → (m ≫= f) s = (Panic, s').
Proof. unfold mbind, gom_bind. by intros ->. Qed.

Lemma bind_try {A B} (m : GoM E S A) (f : A + E → GoM E S B) s :
  (try m ≫= f) s = match m s with
                   | (Ok a, s') => f (inl a) s'
                   | (Err e, s') => f (inr e) s'
                   | (Panic, s') => (Panic, s')
                   end.
Proof. unfold mbind, gom_bind, try. by destruct (m s) as [[] ?]. Qed.

Lemma bind_get {B} (f : S → GoM E S B) s : (get ≫= f) s = f s s.
Proof. done. Qed.

Lemma bind_inv_ok {A B} (m : GoM E S A) (f : A → GoM E S B) s b s'' :
  (m ≫= f) s = (Ok b, s'') → ∃ a s', m s = (Ok a, s') ∧ f a s' = (Ok b, s'').
Proof. unfold mbind, gom_bind. destruct (m s) as [[] ?]; naive_solver. Qed.
End GoM_laws.

(** ** Machine integers

    Go's [int] is 64 bits wide on the platforms the service is built for. *)
Definition min_int : Z := - 2 ^ 63.
Definition max_int : Z := 2 ^ 63 - 1.
Definition int_wrap (z : Z) : Z := (z + 2 ^ 63) `mod` 2 ^ 64 - 2 ^ 63.
Definition int_add (x y : Z) : Z := int_wrap (x + y).

Definition is_int (z : Z) : Prop := (min_int ≤ z ≤ max_int)%Z.

Lemma int_wrap_id z : is_int z → int_wrap z = z.
Proof. unfold is_int, min_int, max_int, int_wrap. intros. rewrite Z.mod_small; lia. Qed.

Lemma int_wrap_is_int z : is_int (int_wrap z).
Proof.
  unfold is_int, min_int, max_int, int_wrap.
  pose proof (Z.mod_pos_bound (z + 2 ^ 63) (2 ^ 64) ltac:(lia)). lia.
Qed.

Lemma int_add_id x y : is_int (x + y) → int_add x y = (x + y)%Z.
Proof. apply int_wrap_id. Qed.

(** [len(l)] as an [int]. *)
Definition len {A} (l : list A) : Z := Z.of_nat (length l).

(** ** Slices *)

(** [l[lo:hi]]: a panic ([None]) unless [0 <= lo <= hi <= len(l)]. *)
Definition go_slice {A} (l : list A) (lo hi : Z) : option (list A) :=
  if bool_decide (0 ≤ lo ∧ lo ≤ hi ∧ hi ≤ len l)%Z
  then Some (take (Z.to_nat (hi - lo)) (drop (Z.to_nat lo) l))
  else None.

(** The pagination block every [List] and [Search] of the stores ends with:
    [total], the early return on [offset >= len(all)], the clamped [end], and the
    slice expression. [None] is the panic of the slice expression. *)
Definition paginate {A} (all : list A) (offset limit : Z) : option (list A * Z) :=
  let total := len all in
  if bool_decide (len all ≤ offset)%Z then Some ([], total)
  else
    let end_ := int_add offset limit in
    let end_ := if bool_decide (len all < end_)%Z then len all else end_ in
    match go_slice all offset end_ with
    | Some page => Some (page, total)
    | None => None
    end.

Section paginate_facts.
Context {A : Type}.
Implicit Types (l : list A) (off lim : Z).

Lemma len_nonneg l : (0 ≤ len l)%Z.
Proof. unfold len. lia. Qed.

(** A page asked with a valid offset and limit is the expected segment. *)
Lemma paginate_segment l off lim :
  (0 ≤ off)%Z → (0 ≤ lim)%Z → is_int (off + lim) →
  paginate l off lim = Some (take (Z.to_nat lim) (drop (Z.to_nat off) l), len l).
Proof.
  intros Hoff Hlim Hint. unfold paginate, go_slice. cbv zeta.
  pose proof (len_nonneg l) as Hlen. rewrite (int_add_id _ _ Hint).
  case_bool_decide as Hge.
  - rewrite drop_ge by (unfold len in *; lia). by rewrite take_nil.
  - destruct (decide (len l < off + lim)%Z) as [Hgt|Hgt].
    + rewrite (bool_decide_eq_true_2 (len l < _)%Z) by done.
      rewrite bool_decide_eq_true_2 by lia. do 2 f_equal.
      rewrite !take_ge; [done| |]; rewrite length_drop; unfold len in *; lia.
    + rewrite (bool_decide_eq_false_2 (len l < _)%Z) by done.
      rewrite bool_decide_eq_true_2 by lia. do 3 f_equal. lia.
Qed.

(** The page panics exactly when the offset is negative or when the wrapped end
    of the page falls before its start. *)
Lemma paginate_panics l off lim :
  paginate l off lim = None ↔
  (off < len l)%Z ∧ ((off < 0)%Z ∨ (int_add off lim < off)%Z).
Proof.
  unfold paginate, go_slice. pose proof (len_nonneg l).
  repeat case_bool_decide; split; intros; try done; try lia.
Qed.

Lemma negative_offset_panics l off lim : (off < 0)%Z → paginate l off lim = None.
Proof. intros Hoff. apply paginate_panics. pose proof (len_nonneg l). lia. Qed.

Lemma paginate_total l off lim p n : paginate l off lim = Some (p, n) → n = len l.
Proof.
  unfold paginate, go_slice. repeat case_bool_decide; naive_solver.
Qed.

(** The elements of a page come from the list and are at most [limit] many. *)
Lemma paginate_sublist l off lim p n :
  paginate l off lim = Some (p, n) → p `sublist_of` l.
Proof.
  unfold paginate, go_slice. repeat case_bool_decide; intros; simplify_eq;
    try apply sublist_nil_l; (etrans; [apply sublist_take|apply sublist_drop]).
Qed.

Lemma paginate_bound l off lim p n :
  (0 ≤ lim)%Z → is_int (off + lim) → paginate l off lim = Some (p, n) → (len p ≤ lim)%Z.
Proof.
  intros Hlim Hint. unfold paginate, go_slice. rewrite (int_add_id _ _ Hint).
  repeat case_bool_decide; intros; simplify_eq; unfold len in *; simpl; try lia;
    rewrite length_take; lia.
Qed.
End paginate_facts.

Lemma elem_of_segment {A} (l : list A) n k x : x ∈ take n (drop k l) → x ∈ l.
Proof.
  intros Hx. rewrite <- (take_drop k l), elem_of_app. right.
  rewrite <- (take_drop n (drop k l)), elem_of_app. by left.
Qed.

(** Consecutive segments of length [n] cover a list. *)
Lemma concat_segments {A} (l : list A) (n k : nat) :
  concat ((λ i, take n (drop (i * n) l)) <$> seq 0 k) = take (k * n) l.
Proof.
  induction k as [|k IH]; [done|].
  rewrite seq_S, fmap_app, concat_app, IH. simpl.
  rewrite app_nil_r, take_take_drop. f_equal. lia.
Qed.

(** ** Shared automation *)

(** Case analysis on the guards of a translated method: [if], [match] and
    [bool_decide] in the goal or a hypothesis, innermost scrutinee first. *)
Ltac go_cases :=
  repeat first
    [ progress simplify_eq/=
    | case_bool_decide
    | case_match ].

(** Case analysis on one named guard. *)
Tactic Notation "guard" constr(P) "as" ident(H) :=
  destruct (decide P) as [H|H];
  [ rewrite ?(bool_decide_eq_true_2 P H) | rewrite ?(bool_decide_eq_false_2 P H) ].

(** A decidable closed fact, by evaluation. *)
Ltac decided := apply (bool_decide_unpack _); vm_compute; exact I.

Tactic Notation "guard" constr(P) "as" ident(H) "in" hyp(G) :=
  destruct (decide P) as [H|H];
  [ rewrite ?(bool_decide_eq_true_2 P H) in G | rewrite ?(bool_decide_eq_false_2 P H) in G ].

Create HintDb go.
Create Rewrite HintDb go.
#[export] Hint Resolve len_nonneg int_wrap_is_int : go.
#[export] Hint Rewrite @bool_decide_eq_true @bool_decide_eq_false : go.
