(* ===== verification/Model.v ===== *)
(** * Data model

    The entities and requests of [internal/model/models.go] and the error values
    the packages declare. A Go string is a byte string ([string]); an instant is
    an integer count of nanoseconds since Go's zero time, so the zero value of
    [time.Time] is [0]; a [*time.Time] is an option. *)

From Stdlib Require Import ZArith Lia.
From stdpp Require Import base tactics numbers list gmap strings.
From S2P Require Import Prelude.

Definition Time : Type := Z.
Definition zero_time : Time := 0%Z.

(** ** Errors

    The sentinel errors are compared by identity in the code; [ErrorString]
    stands for a value of [errors.New] or [fmt.Errorf] built at the call. *)
Inductive error : Type :=
| ErrUserNotFound
| ErrUserAlreadyExists
| ErrInvalidCredentials
| ErrUserDisabled
| ErrOrgNotFound
| ErrOrgAlreadyExists
| ErrGroupNotFound
| ErrMemberNotFound
| ErrMemberExists
| ErrorString (msg : string).

#[export] Instance error_eq_dec : EqDecision error.
Proof. solve_decision. Defined.

(** The method [Error() string]. *)
Definition Error (e : error) : string :=
  match e with
  | ErrUserNotFound => "user not found"
  | ErrUserAlreadyExists => "user already exists"
  | ErrInvalidCredentials => "invalid credentials"
  | ErrUserDisabled => "user is disabled"
  | ErrOrgNotFound => "organization not found"
  | ErrOrgAlreadyExists => "organization already exists"
  | ErrGroupNotFound => "group not found"
  | ErrMemberNotFound => "member not found"
  | ErrMemberExists => "member already exists"
  | ErrorString msg => msg
  end.

(** ** Users *)
Definition UserStatus : Type := string.
Definition UserStatusActive : UserStatus := "active".
Definition UserStatusDisabled : UserStatus := "disabled".
Definition UserStatusDeleted : UserStatus := "deleted".

Record User : Type := mkUser {
  User_ID : string;
  User_Username : string;
  User_Email : string;
  User_PasswordHash : string;
  User_DisplayName : string;
  User_Status : UserStatus;
  User_IsOnline : bool;
  User_ExternalID : string;
  User_SourceSystem : string;
  User_CreatedAt : Time;
  User_UpdatedAt : Time;
}.

#[export] Instance User_eq_dec : EqDecision User.
Proof. solve_decision. Defined.

(** The zero value [model.User{}]. *)
Definition User_zero : User :=
  mkUser "" "" "" "" "" "" false "" "" zero_time zero_time.

(** Field assignments [u.F = v]. *)
Definition set_User_Email (v : string) (u : User) : User :=
  mkUser (User_ID u) (User_Username u) v (User_PasswordHash u) (User_DisplayName u)
    (User_Status u) (User_IsOnline u) (User_ExternalID u) (User_SourceSystem u)
    (User_CreatedAt u) (User_UpdatedAt u).
Definition set_User_DisplayName (v : string) (u : User) : User :=
  mkUser (User_ID u) (User_Username u) (User_Email u) (User_PasswordHash u) v
    (User_Status u) (User_IsOnline u) (User_ExternalID u) (User_SourceSystem u)
    (User_CreatedAt u) (User_UpdatedAt u).
Definition set_User_Status (v : UserStatus) (u : User) : User :=
  mkUser (User_ID u) (User_Username u) (User_Email u) (User_PasswordHash u)
    (User_DisplayName u) v (User_IsOnline u) (User_ExternalID u) (User_SourceSystem u)
    (User_CreatedAt u) (User_UpdatedAt u).
Definition set_User_IsOnline (v : bool) (u : User) : User :=
  mkUser (User_ID u) (User_Username u) (User_Email u) (User_PasswordHash u)
    (User_DisplayName u) (User_Status u) v (User_ExternalID u) (User_SourceSystem u)
    (User_CreatedAt u) (User_UpdatedAt u).
Definition set_User_CreatedAt (v : Time) (u : User) : User :=
  mkUser (User_ID u) (User_Username u) (User_Email u) (User_PasswordHash u)
    (User_DisplayName u) (User_Status u) (User_IsOnline u) (User_ExternalID u)
    (User_SourceSystem u) v (User_UpdatedAt u).
Definition set_User_UpdatedAt (v : Time) (u : User) : User :=
  mkUser (User_ID u) (User_Username u) (User_Email u) (User_PasswordHash u)
    (User_DisplayName u) (User_Status u) (User_IsOnline u) (User_ExternalID u)
    (User_SourceSystem u) (User_CreatedAt u) v.

(** ** Organizations, groups and memberships *)
Record Organization : Type := mkOrganization {
  Org_ID : string;
  Org_Name : string;
  Org_ParentID : string;
  Org_Path : string;
  Org_ExternalID : string;
  Org_SourceSystem : string;
  Org_CreatedAt : Time;
  Org_UpdatedAt : Time;
}.

Record Group : Type := mkGroup {
  Group_ID : string;
  Group_Name : string;
  Group_Description : string;
  Group_Type : string;
  Group_CreatedAt : Time;
  Group_UpdatedAt : Time;
}.

Record UserOrgRelation : Type := mkUserOrgRelation {
  UOR_UserID : string;
  UOR_OrgID : string;
  UOR_Role : string;
  UOR_IsPrimary : bool;
}.

Record GroupMember : Type := mkGroupMember {
  GM_GroupID : string;
  GM_UserID : string;
  GM_Role : string;
  GM_JoinedAt : Time;
}.

#[export] Instance Organization_eq_dec : EqDecision Organization.
Proof. solve_decision. Defined.
#[export] Instance Group_eq_dec : EqDecision Group.
Proof. solve_decision. Defined.
#[export] Instance UserOrgRelation_eq_dec : EqDecision UserOrgRelation.
Proof. solve_decision. Defined.
#[export] Instance GroupMember_eq_dec : EqDecision GroupMember.
Proof. solve_decision. Defined.

(** ** Synchronisation jobs *)
Definition SyncJobStatus : Type := string.
Definition SyncJobStatusPending : SyncJobStatus := "pending".
Definition SyncJobStatusRunning : SyncJobStatus := "running".
Definition SyncJobStatusDone : SyncJobStatus := "done".
Definition SyncJobStatusFailed : SyncJobStatus := "failed".
Definition SyncJobStatusCanceled : SyncJobStatus := "canceled".

Definition SyncType : Type := string.
Definition SyncTypeFull : SyncType := "full".
Definition SyncTypeIncremental : SyncType := "incremental".

Record SyncJob : Type := mkSyncJob {
  SyncJob_ID : string;
  SyncJob_SourceSystem : string;
  SyncJob_SyncType : SyncType;
  SyncJob_Status : SyncJobStatus;
  SyncJob_StartedAt : option Time;
  SyncJob_FinishedAt : option Time;
  SyncJob_ErrorMessage : string;
  SyncJob_CreatedAt : Time;
  SyncJob_UpdatedAt : Time;
}.

#[export] Instance SyncJob_eq_dec : EqDecision SyncJob.
Proof. solve_decision. Defined.

Definition set_SyncJob_CreatedAt (v : Time) (j : SyncJob) : SyncJob :=
  mkSyncJob (SyncJob_ID j) (SyncJob_SourceSystem j) (SyncJob_SyncType j)
    (SyncJob_Status j) (SyncJob_StartedAt j) (SyncJob_FinishedAt j)
    (SyncJob_ErrorMessage j) v (SyncJob_UpdatedAt j).
Definition set_SyncJob_UpdatedAt (v : Time) (j : SyncJob) : SyncJob :=
  mkSyncJob (SyncJob_ID j) (SyncJob_SourceSystem j) (SyncJob_SyncType j)
    (SyncJob_Status j) (SyncJob_StartedAt j) (SyncJob_FinishedAt j)
    (SyncJob_ErrorMessage j) (SyncJob_CreatedAt j) v.

(** ** Requests and responses of the services *)
Record CreateUserRequest : Type := mkCreateUserRequest {
  CUR_Username : string;
  CUR_Email : string;
  CUR_Password : string;
  CUR_DisplayName : string;
}.

Record UpdateUserRequest : Type := mkUpdateUserRequest {
  UUR_Email : string;
  UUR_DisplayName : string;
  UUR_Status : UserStatus;
}.

Record LoginRequest : Type := mkLoginRequest {
  LR_Username : string;
  LR_Password : string;
}.

Record LoginResponse : Type := mkLoginResponse {
  LResp_Token : string;
  LResp_Expires : Z;
  LResp_User : User;
}.

Record CreateSyncJobRequest : Type := mkCreateSyncJobRequest {
  CSJR_SourceSystem : string;
  CSJR_SyncType : SyncType;
}.

Record CreateOrgRequest : Type := mkCreateOrgRequest {
  COR_Name : string;
  COR_ParentID : string;
  COR_ExternalID : string;
  COR_SourceSystem : string;
}.

Record UpdateOrgRequest : Type := mkUpdateOrgRequest {
  UOReq_Name : string;
  UOReq_ParentID : string;
}.

Record AddOrgMemberRequest : Type := mkAddOrgMemberRequest {
  AOMR_UserID : string;
  AOMR_Role : string;
  AOMR_IsPrimary : bool;
}.

Record OrgMemberDetail : Type := mkOrgMemberDetail {
  OMD_Relation : UserOrgRelation;
  OMD_Username : string;
  OMD_Email : string;
  OMD_DisplayName : string;
  OMD_Status : UserStatus;
}.

Record CreateGroupRequest : Type := mkCreateGroupRequest {
  CGR_Name : string;
  CGR_Description : string;
  CGR_Type : string;
}.

Record UpdateGroupRequest : Type := mkUpdateGroupRequest {
  UGR_Name : string;
  UGR_Description : string;
  UGR_Type : string;
}.

Record AddGroupMemberRequest : Type := mkAddGroupMemberRequest {
  AGMR_UserID : string;
  AGMR_Role : string;
}.

Record GroupMemberDetail : Type := mkGroupMemberDetail {
  GMD_Member : GroupMember;
  GMD_Username : string;
  GMD_Email : string;
  GMD_DisplayName : string;
  GMD_Status : UserStatus;
}.
