(* ===== verification/GoStrings.v ===== *)
(** * Go standard library: packages strings and strconv

    The functions of [strings] and [strconv] the source calls, on byte strings. *)

From Stdlib Require Import ZArith Lia Ascii.
From stdpp Require Import base tactics numbers list gmap strings.
From S2P Require Import Prelude.

(** The Unicode case tables [strings.ToLower] consults for a string that is not
    ASCII; they are data of the Go distribution, not of the source. *)
Class UnicodeTables : Type := { unicode_ToLower : string → string }.

Definition is_ascii_byte (c : ascii) : bool := bool_decide (nat_of_ascii c < 128).

Fixpoint string_forallb (f : ascii → bool) (s : string) : bool :=
  match s with
  | EmptyString => true
  | String c s' => f c && string_forallb f s'
  end.

Fixpoint string_map (f : ascii → ascii) (s : string) : string :=
  match s with
  | EmptyString => EmptyString
  | String c s' => String (f c) (string_map f s')
  end.

Definition lower_byte (c : ascii) : ascii :=
  if bool_decide (65 ≤ nat_of_ascii c ≤ 90) then ascii_of_nat (nat_of_ascii c + 32) else c.

(** [strings.ToLower]: the byte loop on ASCII strings, the tables otherwise. *)
Definition ToLower `{UnicodeTables} (s : string) : string :=
  if string_forallb is_ascii_byte s then string_map lower_byte s else unicode_ToLower s.

(** [strings.Contains(s, sub)]. *)
Fixpoint Contains (s sub : string) : bool :=
  String.prefix sub s ||
  match s with
  | EmptyString => false
  | String _ s' => Contains s' sub
  end.

(** [strings.HasPrefix(s, p)]. *)
Definition HasPrefix (s p : string) : bool := String.prefix p s.

Fixpoint string_drop (n : nat) (s : string) : string :=
  match n, s with
  | O, _ => s
  | S n', String _ s' => string_drop n' s'
  | S _, EmptyString => EmptyString
  end.

(** [strings.Cut(s, sep)]: the text before and after the first [sep], and whether
    it occurs. *)
Fixpoint Cut (s sep : string) : string * string * bool :=
  if String.prefix sep s then ("", string_drop (String.length sep) s, true)
  else match s with
       | EmptyString => ("", "", false)
       | String c s' =>
           let '(before, after, found) := Cut s' sep in
           (String c before, after, found)
       end.

(** [strings.SplitN(s, sep, 2)] for a non-empty [sep]: one part when [sep] does not
    occur in [s], two around its first occurrence otherwise. *)
Definition SplitN2 (s sep : string) : list string :=
  match Cut s sep with
  | (before, after, true) => [before; after]
  | (_, _, false) => [s]
  end.

(** The pieces of a text between occurrences of a byte. *)
Fixpoint split_byte (c : ascii) (s : string) : string * list string :=
  match s with
  | EmptyString => ("", [])
  | String x s' =>
      let '(h, t) := split_byte c s' in
      if Ascii.eqb x c then ("", h :: t) else (String x h, t)
  end.

(** A [[]byte]. *)
Notation bytes := (list ascii).

(** The value of a hexadecimal digit. *)
Definition unhex (c : ascii) : option nat :=
  let n := nat_of_ascii c in
  if bool_decide (48 ≤ n ≤ 57) then Some (n - 48)
  else if bool_decide (97 ≤ n ≤ 102) then Some (n - 97 + 10)
  else if bool_decide (65 ≤ n ≤ 70) then Some (n - 65 + 10)
  else None.

(** ** Package [strconv] *)
Definition max_uint : Z := 2 ^ 64 - 1.

Inductive uint_result : Type :=
| UintOk (n : Z)
| UintRange
| UintSyntax.

(** The digit loop of [ParseUint]; it stops at the first overflow or bad byte. *)
Fixpoint parse_uint (n : Z) (s : string) : uint_result :=
  match s with
  | EmptyString => UintOk n
  | String c r =>
      let d := (Z.of_nat (nat_of_ascii c) - 48)%Z in
      if bool_decide (0 ≤ d ≤ 9)%Z then
        if bool_decide (max_uint `div` 10 + 1 ≤ n)%Z then UintRange
        else if bool_decide (max_uint < n * 10 + d)%Z then UintRange
        else parse_uint (n * 10 + d)%Z r
      else UintSyntax
  end.

(** [strconv.ParseInt(s, 10, 64)] and [strconv.Atoi]: the value, and whether there was no error.
    The value is 0 for a syntax error and the nearest 64-bit value for a number out of range. *)
Definition ParseInt (s : string) : Z * bool :=
  let '(neg, digits) :=
    match s with
    | String "-" r => (true, r)
    | String "+" r => (false, r)
    | _ => (false, s)
    end in
  if bool_decide (digits = "") then (0%Z, false)
  else match parse_uint 0 digits with
       | UintSyntax => (0%Z, false)
       | UintRange => (if neg then min_int else max_int, false)
       | UintOk n =>
           if neg then (if bool_decide (2 ^ 63 < n)%Z then (min_int, false) else (- n, true))
           else (if bool_decide (2 ^ 63 ≤ n)%Z then (max_int, false) else (n, true))
       end%Z.

(** The value of [strconv.Atoi(s)] when its error is dropped. *)
Definition Atoi (s : string) : Z := (ParseInt s).1.

(** The digits of a number that is not negative, before [acc]. *)
Fixpoint format_uint (fuel : nat) (n : Z) (acc : string) : string :=
  match fuel with
  | O => acc
  | S fuel =>
      let acc := String (ascii_of_nat (48 + Z.to_nat (n `mod` 10))) acc in
      if bool_decide (n < 10)%Z then acc else format_uint fuel (n `div` 10) acc
  end.

(** [strconv.FormatInt(n, 10)]; a 64-bit integer has at most 20 digits. *)
Definition FormatInt (n : Z) : string :=
  if bool_decide (n < 0)%Z then String "-" (format_uint 20 (- n) "") else format_uint 20 n "".

(** ** Facts *)

(** Let [simpl] compute appends of constructors (stdpp keeps them folded). *)
#[local] Arguments String.append : simpl nomatch.
#[local] Arguments String.prefix : simpl never.

Lemma string_app_nil_r s : s +:+ "" = s.
Proof. induction s; simpl; congruence. Qed.

Lemma string_app_assoc s1 s2 s3 : s1 +:+ (s2 +:+ s3) = (s1 +:+ s2) +:+ s3.
Proof. induction s1; simpl; congruence. Qed.

Lemma string_length_app s1 s2 : String.length (s1 +:+ s2) = (String.length s1 + String.length s2).
Proof. induction s1; simpl; lia. Qed.

Lemma string_drop_app s1 s2 : string_drop (String.length s1) (s1 +:+ s2) = s2.
Proof. induction s1; simpl; done. Qed.

Lemma prefix_nil s : String.prefix "" s = true.
Proof. by destruct s. Qed.

Lemma prefix_cons c p c' s :
  String.prefix (String c p) (String c' s) = Ascii.eqb c c' && String.prefix p s.
Proof.
  change (String.prefix (String c p) (String c' s))
    with (if ascii_dec c c' then String.prefix p s else false).
  destruct (ascii_dec c c'), (Ascii.eqb_spec c c'); done.
Qed.

Lemma prefix_spec p s : String.prefix p s = true ↔ ∃ r, s = p +:+ r.
Proof.
  revert s. induction p as [|c p IH]; intros s.
  - rewrite prefix_nil. split; [by exists s|done].
  - destruct s as [|c' s].
    + split; [done|]. by intros [r Hr].
    + rewrite prefix_cons, andb_true_iff, IH, Ascii.eqb_eq. simpl.
      split; [intros [-> [r ->]]; by exists r|intros [r [= -> ->]]; eauto].
Qed.

Lemma prefix_app p r : String.prefix p (p +:+ r) = true.
Proof. apply prefix_spec. by exists r. Qed.

Lemma Contains_spec s sub : Contains s sub = true ↔ ∃ a b, s = a +:+ sub +:+ b.
Proof.
  induction s as [|c s IH]; simpl; rewrite orb_true_iff, prefix_spec.
  - split.
    + intros [[r Hr]|[=]]. by exists "", r.
    + intros (a & b & Hab). left. destruct a; [by exists b|done].
  - rewrite IH. split.
    + intros [[r Hr]|(a & b & ->)]; [by exists "", r|by exists (String c a), b].
    + intros ([|c' a] & b & Hab); [left; by exists b|].
      right. simpl in Hab. simplify_eq. by exists a, b.
Qed.

Lemma Contains_empty s : Contains s "" = true.
Proof. apply Contains_spec. by exists "", s. Qed.

(** [Cut] splits at the first occurrence: the parts rebuild the string, and no
    earlier position matches. *)
Lemma Cut_found s sep before after :
  Cut s sep = (before, after, true) → s = before +:+ sep +:+ after.
Proof.
  revert before. induction s as [|c s IH]; intros before; simpl.
  - destruct (String.prefix sep "") eqn:Hp; intros; simplify_eq.
    apply prefix_spec in Hp as [r Hr]. destruct sep; by simplify_eq/=.
  - destruct (String.prefix sep (String c s)) eqn:Hp; intros; simplify_eq.
    + apply prefix_spec in Hp as [r Hr]. rewrite Hr, string_drop_app. done.
    + destruct (Cut s sep) as [[b a] f]. simplify_eq. simpl. f_equal. by apply IH.
Qed.

Lemma Cut_not_found s sep before after :
  Cut s sep = (before, after, false) → before = s ∧ Contains s sep = false.
Proof.
  revert before. induction s as [|c s IH]; intros before; simpl.
  - destruct (String.prefix sep "") eqn:Hp; intros; by simplify_eq.
  - destruct (String.prefix sep (String c s)) eqn:Hp; intros; simplify_eq.
    destruct (Cut s sep) as [[b a] f] eqn:Hc. simplify_eq.
    destruct (IH _ eq_refl) as [-> ->]. done.
Qed.

(** The string with its first byte removed from a cut at a text free of [sep]. *)
Lemma Cut_first s c rest :
  string_forallb (λ x, negb (Ascii.eqb x c)) s = true →
  Cut (s +:+ String c rest) (String c "") = (s, rest, true).
Proof.
  induction s as [|x s IH]; simpl.
  - by rewrite prefix_cons, Ascii.eqb_refl, prefix_nil.
  - intros [Hx Hs]%andb_true_iff. rewrite prefix_cons, (Ascii.eqb_sym c x).
    apply negb_true_iff in Hx. by rewrite Hx, (IH Hs).
Qed.

Lemma Cut_none s c :
  string_forallb (λ x, negb (Ascii.eqb x c)) s = true →
  Cut s (String c "") = (s, "", false).
Proof.
  induction s as [|x s IH]; simpl; [done|].
  intros [Hx Hs]%andb_true_iff. rewrite prefix_cons, (Ascii.eqb_sym c x).
  apply negb_true_iff in Hx. by rewrite Hx, (IH Hs).
Qed.

Lemma string_forallb_app f s1 s2 :
  string_forallb f (s1 +:+ s2) = string_forallb f s1 && string_forallb f s2.
Proof. induction s1; simpl; [done|]. by rewrite IHs1, andb_assoc. Qed.

Lemma string_map_length f s : String.length (string_map f s) = String.length s.
Proof. induction s; simpl; congruence. Qed.

(** Parsing formatted digits goes on with the text behind them. *)
Lemma parse_format_uint fuel n acc :
  (0 ≤ n < 10 ^ Z.of_nat fuel)%Z → fuel ≠ 0 → (n ≤ max_uint)%Z →
  parse_uint 0 (format_uint fuel n acc) = parse_uint n acc.
Proof.
  revert n acc. induction fuel as [|fuel IH]; intros n acc Hn Hf Hmax; [done|].
  cbn [format_uint]. pose proof (Z.mod_pos_bound n 10 ltac:(lia)) as Hm.
  pose proof (Z.div_mod n 10 ltac:(lia)) as Hdm.
  assert (∀ m s, m = (n `div` 10)%Z →
    parse_uint m (String (ascii_of_nat (48 + Z.to_nat (n `mod` 10))) s) = parse_uint n s) as Hstep.
  { intros m s ->. cbn [parse_uint]. rewrite nat_ascii_embedding by lia.
    rewrite (bool_decide_eq_true_2 (0 ≤ _ ≤ 9)%Z) by lia.
    change (max_uint `div` 10)%Z with 1844674407370955161%Z.
    change max_uint with 18446744073709551615%Z in *.
    rewrite (bool_decide_eq_false_2 (_ + 1 ≤ _)%Z) by lia.
    rewrite bool_decide_eq_false_2 by lia. f_equal. lia. }
  case_bool_decide as Hlt.
  - apply Hstep. symmetry. apply Z.div_small. lia.
  - rewrite IH; [by apply Hstep| |intros ->; simpl in Hn; lia|unfold max_uint in *; lia].
    rewrite Nat2Z.inj_succ, Z.pow_succ_r in Hn by lia. lia.
Qed.

(** The digits, and no leading zero. *)
Lemma format_uint_digits fuel n acc : (0 ≤ n < 10 ^ Z.of_nat fuel)%Z → fuel ≠ 0 →
  ∃ d s, format_uint fuel n acc = String d (s +:+ acc) ∧
    string_forallb (λ c, bool_decide (48 ≤ nat_of_ascii c ≤ 57)) (String d s) = true ∧
    (nat_of_ascii d = 48 → n = 0%Z ∧ s = "").
Proof.
  revert n acc. induction fuel as [|fuel IH]; intros n acc Hn Hf; [done|]. cbn [format_uint].
  pose proof (Z.mod_pos_bound n 10 ltac:(lia)) as Hm. set (d := ascii_of_nat _).
  assert (48 ≤ nat_of_ascii d ≤ 57) as Hd by (unfold d; rewrite nat_ascii_embedding; lia).
  case_bool_decide as Hlt.
  - exists d, "". split_and!; [done| |].
    + cbn [string_forallb]. by rewrite bool_decide_eq_true_2.
    + unfold d. rewrite nat_ascii_embedding by lia. intros H. split; [|done].
      rewrite Z.mod_small in H by lia. lia.
  - assert (0 ≤ n `div` 10 < 10 ^ Z.of_nat fuel)%Z as Hn'.
    { rewrite Nat2Z.inj_succ, Z.pow_succ_r in Hn by lia. pose proof (Z.div_mod n 10 ltac:(lia)). lia. }
    destruct (IH (n `div` 10)%Z (String d acc) Hn') as (x & s & Heq & Hs & Hx).
    { intros ->. simpl in Hn'. pose proof (Z.div_mod n 10 ltac:(lia)). lia. }
    exists x, (s +:+ String d ""). split_and!.
    + rewrite Heq. by rewrite <- string_app_assoc.
    + cbn [string_forallb] in Hs |- *. apply andb_true_iff in Hs as [-> Hs].
      rewrite string_forallb_app, Hs. cbn [string_forallb]. by rewrite bool_decide_eq_true_2.
    + intros [Hx0 _]%Hx. pose proof (Z.div_mod n 10 ltac:(lia)). lia.
Qed.

(** Formatted 64-bit integers are parsed back. *)
Lemma ParseInt_FormatInt n : is_int n → ParseInt (FormatInt n) = (n, true).
Proof.
  unfold is_int, min_int, max_int, FormatInt. intros Hn.
  assert (∀ m, (0 ≤ m ≤ 2 ^ 63)%Z → parse_uint 0 (format_uint 20 m "") = UintOk m ∧
    ∃ d s, format_uint 20 m "" = String d s ∧ 48 ≤ nat_of_ascii d) as Hu.
  { intros m Hm. split.
    - rewrite parse_format_uint; [done|lia|done|unfold max_uint; lia].
    - destruct (format_uint_digits 20 m "" ltac:(lia) ltac:(done)) as (d & s & -> & Hs & _).
      cbn [string_forallb] in Hs. apply andb_true_iff in Hs as [Hs%bool_decide_eq_true _]. eexists _, _. split; [done|lia]. }
  case_bool_decide as Hneg.
  - destruct (Hu (- n)%Z ltac:(lia)) as (Hp & d & s & Hs & _). unfold ParseInt. cbv zeta beta iota.
    rewrite bool_decide_eq_false_2 by (by rewrite Hs). rewrite Hp.
    rewrite bool_decide_eq_false_2 by lia. f_equal. lia.
  - destruct (Hu n ltac:(lia)) as (Hp & d & s & Hs & Hd). unfold ParseInt.
    rewrite Hs in Hp |- *.
    replace (match String d s with String "-" r => (true, r) | String "+" r => (false, r) | _ => (false, String d s) end)
      with (false, String d s).
    2:{ destruct d as [[] [] [] [] [] [] [] []]; try done; exfalso; vm_compute in Hd; lia. }
    rewrite bool_decide_eq_false_2 by done. rewrite Hp. by rewrite bool_decide_eq_false_2 by lia.
Qed.

#[export] Hint Rewrite string_app_nil_r string_length_app string_drop_app : go.
