(* ===== verification/UserStore.v ===== *)
(** * The user store interface

    [user.Store] of [internal/user/store.go] as a type class of operations, the
    abstract user directory that the interface promises, and the class of laws
    relating an implementation to it. The services are proved against the laws. *)

From Stdlib Require Import ZArith Lia.
From stdpp Require Import base tactics numbers list gmap strings.
From S2P Require Import Prelude Model GoStrings.

(** ** Operations

    [now] is the reading of [time.Now()] an operation takes, [iter] the order in
    which the runtime happens to enumerate the ids of the map. *)
Class UserStore (US : Type) : Type := {
  us_Create : Time → User → GoM error US User;
  us_GetByID : string → GoM error US User;
  us_GetByUsername : string → GoM error US User;
  us_GetByEmail : string → GoM error US User;
  us_Update : Time → User → GoM error US unit;
  us_Delete : Time → string → GoM error US unit;
  us_List : list string → Z → Z → GoM error US (list User * Z);
  us_Search : list string → string → Z → Z → GoM error US (list User * Z);
}.

(** ** The abstract directory: one finite map from ids to users *)

Definition live (u : User) : Prop := User_Status u ≠ UserStatusDeleted.
#[export] Instance live_dec u : Decision (live u).
Proof. unfold live. apply _. Defined.

(** A user satisfying [P], if any. *)
Definition find_user (P : User → Prop) `{∀ u, Decision (P u)} (m : gmap string User) : option User :=
  head (filter P (map_to_list m).*2).

Definition dir_lookup (P : User → Prop) `{∀ u, Decision (P u)} : GoM error (gmap string User) User :=
  λ m, match find_user (λ u, P u ∧ live u) m with
       | Some u => (Ok u, m)
       | None => (Err ErrUserNotFound, m)
       end.

Definition dir_create (now : Time) (u : User) : GoM error (gmap string User) User := λ m,
  match find_user (λ v, User_Username v = User_Username u) m,
        find_user (λ v, User_Email v = User_Email u) m with
  | None, None =>
      let u := set_User_UpdatedAt now (set_User_CreatedAt now u) in
      let u := if bool_decide (User_Status u = "") then set_User_Status UserStatusActive u else u in
      (Ok u, <[User_ID u := u]> m)
  | _, _ => (Err ErrUserAlreadyExists, m)
  end.

Definition dir_getByID (id : string) : GoM error (gmap string User) User := λ m,
  match m !! id with
  | Some u => if decide (live u) then (Ok u, m) else (Err ErrUserNotFound, m)
  | None => (Err ErrUserNotFound, m)
  end.

(** The effect of [Update(patch)] on a stored user: empty fields of the patch keep
    the old value, the online flag is always taken from the patch. *)
Definition merge_user (now : Time) (patch old : User) : User :=
  let u := old in
  let u := if bool_decide (User_Email patch ≠ "") then set_User_Email (User_Email patch) u else u in
  let u := if bool_decide (User_DisplayName patch ≠ "")
           then set_User_DisplayName (User_DisplayName patch) u else u in
  let u := if bool_decide (User_Status patch ≠ "")
           then set_User_Status (User_Status patch) u else u in
  set_User_UpdatedAt now (set_User_IsOnline (User_IsOnline patch) u).

Definition dir_update (now : Time) (patch : User) : GoM error (gmap string User) unit := λ m,
  match m !! User_ID patch with
  | Some old =>
      if decide (live old) then
        if bool_decide (User_Email patch ≠ "" ∧ User_Email patch ≠ User_Email old ∧
             is_Some (find_user (λ v, User_Email v = User_Email patch) m))
        then (Err ErrUserAlreadyExists, m)
        else (Ok (), <[User_ID patch := merge_user now patch old]> m)
      else (Err ErrUserNotFound, m)
  | None => (Err ErrUserNotFound, m)
  end.

Definition dir_delete (now : Time) (id : string) : GoM error (gmap string User) unit := λ m,
  match m !! id with
  | Some old =>
      if decide (live old)
      then (Ok (), <[id := set_User_UpdatedAt now (set_User_Status UserStatusDeleted old)]> m)
      else (Err ErrUserNotFound, m)
  | None => (Err ErrUserNotFound, m)
  end.

(** The users enumerated in the order [iter]. *)
Definition enumerate {V} (iter : list string) (m : gmap string V) : list V := omap (m !!.) iter.

Definition dir_list (iter : list string) (offset limit : Z) :
    GoM error (gmap string User) (list User * Z) := λ m,
  match paginate (filter live (enumerate iter m)) offset limit with
  | Some page => (Ok page, m)
  | None => (Panic, m)
  end.

Definition matches `{UnicodeTables} (q : string) (u : User) : Prop :=
  Contains (ToLower (User_Username u)) (ToLower q) = true ∨
  Contains (ToLower (User_Email u)) (ToLower q) = true ∨
  Contains (ToLower (User_DisplayName u)) (ToLower q) = true.
#[export] Instance matches_dec `{UnicodeTables} q u : Decision (matches q u).
Proof. unfold matches. apply _. Defined.

Definition dir_search `{UnicodeTables} (iter : list string) (q : string) (offset limit : Z) :
    GoM error (gmap string User) (list User * Z) := λ m,
  match paginate (filter (λ u, live u ∧ matches q u) (enumerate iter m)) offset limit with
  | Some page => (Ok page, m)
  | None => (Panic, m)
  end.

(** Consistency of a directory: ids are the keys, usernames and emails are unique
    (over deleted users too: a soft-deleted user keeps both). *)
Record dir_ok (m : gmap string User) : Prop := {
  dir_ids : ∀ i u, m !! i = Some u → User_ID u = i;
  dir_usernames : ∀ i j u v,
    m !! i = Some u → m !! j = Some v → User_Username u = User_Username v → i = j;
  dir_emails : ∀ i j u v,
    m !! i = Some u → m !! j = Some v → User_Email u = User_Email v → i = j;
}.

(** ** Laws *)

(** [impl] run on a store that satisfies the invariant returns what [spec] returns on
    its users, keeps the invariant, and leaves the users [spec] leaves. *)
Definition refines {US A} (inv : US → Prop) (users : US → gmap string User)
    (pre : gmap string User → Prop)
    (impl : GoM error US A) (spec : GoM error (gmap string User) A) : Prop :=
  ∀ s, inv s → pre (users s) →
    let '(r, s') := impl s in inv s' ∧ spec (users s) = (r, users s').

Class UserStoreLaws (US : Type) `{UserStore US} `{UnicodeTables} : Type := {
  us_inv : US → Prop;
  us_users : US → gmap string User;
  us_ok s : us_inv s → dir_ok (us_users s);
  us_create_refines now u :
    refines us_inv us_users (λ m, m !! User_ID u = None) (us_Create now u) (dir_create now u);
  us_getByID_refines id :
    refines us_inv us_users (λ _, True) (us_GetByID id) (dir_getByID id);
  us_getByUsername_refines n :
    refines us_inv us_users (λ _, True) (us_GetByUsername n)
      (dir_lookup (λ u, User_Username u = n));
  us_getByEmail_refines e :
    refines us_inv us_users (λ _, True) (us_GetByEmail e)
      (dir_lookup (λ u, User_Email u = e));
  us_update_refines now patch :
    refines us_inv us_users (λ _, True) (us_Update now patch) (dir_update now patch);
  us_delete_refines now id :
    refines us_inv us_users (λ _, True) (us_Delete now id) (dir_delete now id);
  us_list_refines iter off lim :
    refines us_inv us_users (λ _, True) (us_List iter off lim) (dir_list iter off lim);
  us_search_refines iter q off lim :
    refines us_inv us_users (λ _, True) (us_Search iter q off lim) (dir_search iter q off lim);
}.

(** ** Facts about the abstract directory *)

Lemma elem_of_values {V} (m : gmap string V) (u : V) :
  u ∈ (map_to_list m).*2 ↔ ∃ i, m !! i = Some u.
Proof.
  rewrite list_elem_of_fmap. setoid_rewrite <- elem_of_map_to_list. split.
  - intros [[i v] [-> Hin]]. by exists i.
  - intros [i Hi]. by exists (i, u).
Qed.

Section find_user_facts.
Context (P : User → Prop) `{∀ u, Decision (P u)}.

Lemma find_user_Some m u : find_user P m = Some u → P u ∧ ∃ i, m !! i = Some u.
Proof.
  unfold find_user. intros Hh%head_Some_elem_of.
  apply list_elem_of_filter in Hh as [HP Hin]. split; [done|]. by apply elem_of_values.
Qed.

Lemma find_user_None m : find_user P m = None ↔ ∀ i u, m !! i = Some u → ¬ P u.
Proof.
  unfold find_user. rewrite head_None. split.
  - intros Hnil i u Hi HP.
    assert (u ∈ filter P (map_to_list m).*2) as Hin.
    { apply list_elem_of_filter. split; [done|]. apply elem_of_values. by exists i. }
    rewrite Hnil in Hin. by apply not_elem_of_nil in Hin.
  - intros Hall.
    destruct (filter P (map_to_list m).*2) as [|u l] eqn:E; [done|].
    assert (u ∈ filter P (map_to_list m).*2) as Hin by (rewrite E; left).
    apply list_elem_of_filter in Hin as [HP Hin]. apply elem_of_values in Hin as [i Hi].
    by destruct (Hall i u Hi).
Qed.

(** When [P] selects at most one user, [find_user] is that user. *)
Lemma find_user_unique m i u :
  m !! i = Some u → P u →
  (∀ j v, m !! j = Some v → P v → v = u) →
  find_user P m = Some u.
Proof.
  intros Hi HP Huniq. destruct (find_user P m) as [v|] eqn:E.
  - apply find_user_Some in E as [HPv [j Hj]]. f_equal. by eapply Huniq.
  - rewrite find_user_None in E. by destruct (E i u Hi).
Qed.
End find_user_facts.

(** Enumerating every key of a map in any order yields its values. *)
Lemma enumerate_perm {V} (iter : list string) (m : gmap string V) :
  iter ≡ₚ (map_to_list m).*1 → enumerate iter m ≡ₚ (map_to_list m).*2.
Proof.
  intros Hiter. unfold enumerate. rewrite Hiter.
  assert (∀ l : list (string * V), (∀ i v, (i, v) ∈ l → m !! i = Some v) →
    omap (m !!.) l.*1 = l.*2) as Hl.
  { induction l as [|[i v] l IH]; intros Hin; [done|]. csimpl.
    rewrite (Hin i v) by left. f_equal. apply IH. intros j w Hj. apply Hin. by right. }
  rewrite Hl; [done|]. intros i v. by rewrite elem_of_map_to_list.
Qed.
