(* ===== verification/UserMem.v ===== *)
(** * The in-memory user store

    [MemoryStore] of [internal/user/memory_store.go]. Its three fields are
    [sync.Map]s and no lock spans a method, so each method is written once as a
    program over the atomic [sync.Map] calls it makes. Running a program alone
    ([run]) gives the method's sequential meaning; [UserConc] interleaves several. *)

From Stdlib Require Import ZArith Lia.
From stdpp Require Import base tactics numbers list gmap strings.
From S2P Require Import Prelude Model GoStrings UserStore.

(** ** State *)
Record MemoryStore : Type := mkMemoryStore {
  users : gmap string User;         (* id -> user *)
  byUsername : gmap string string;  (* username -> id *)
  byEmail : gmap string string;     (* email -> id *)
}.

Definition NewMemoryStore : MemoryStore := mkMemoryStore ∅ ∅ ∅.

(** ** Atomic events *)
Inductive event : Type → Type :=
| UsersLoad (id : string) : event (option User)
| UsersStore (id : string) (u : User) : event unit
| UsersRange : event (list User)
| UsernameLoad (n : string) : event (option string)
| UsernameLoadOrStore (n id : string) : event bool
| UsernameDelete (n : string) : event unit
| EmailLoad (e : string) : event (option string)
| EmailLoadOrStore (e id : string) : event bool
| EmailDelete (e : string) : event unit
| TimeNow : event Time.

(** The effect of one event on the maps; [LoadOrStore] answers whether the key was
    present. [iter] is the order in which [Range] visits the keys. *)
Definition exec (now : Time) (iter : list string) {X} (e : event X) (s : MemoryStore) :
    X * MemoryStore :=
  match e in event X return X * MemoryStore with
  | UsersLoad id => (users s !! id, s)
  | UsersStore id u => ((), mkMemoryStore (<[id := u]> (users s)) (byUsername s) (byEmail s))
  | UsersRange => (enumerate iter (users s), s)
  | UsernameLoad n => (byUsername s !! n, s)
  | UsernameLoadOrStore n id =>
      match byUsername s !! n with
      | Some _ => (true, s)
      | None => (false, mkMemoryStore (users s) (<[n := id]> (byUsername s)) (byEmail s))
      end
  | UsernameDelete n => ((), mkMemoryStore (users s) (delete n (byUsername s)) (byEmail s))
  | EmailLoad e => (byEmail s !! e, s)
  | EmailLoadOrStore e id =>
      match byEmail s !! e with
      | Some _ => (true, s)
      | None => (false, mkMemoryStore (users s) (byUsername s) (<[e := id]> (byEmail s)))
      end
  | EmailDelete e => ((), mkMemoryStore (users s) (byUsername s) (delete e (byEmail s)))
  | TimeNow => (now, s)
  end.

(** ** Programs *)
Inductive prog (A : Type) : Type :=
| Ret (r : res error A)
| Vis {X : Type} (e : event X) (k : X → prog A).
Arguments Ret {A} r.
Arguments Vis {A X} e k.

Fixpoint prog_bind {A B} (f : A → prog B) (p : prog A) : prog B :=
  match p with
  | Ret (Ok a) => f a
  | Ret (Err e) => Ret (Err e)
  | Ret Panic => Ret Panic
  | Vis e k => Vis e (λ x, prog_bind f (k x))
  end.

#[export] Instance prog_mret : MRet prog := λ A a, Ret (Ok a).
#[export] Instance prog_mbind : MBind prog := @prog_bind.

Definition do_ {X} (e : event X) : prog X := Vis e (λ x, Ret (Ok x)).
Definition fail {A} (e : error) : prog A := Ret (Err e).

(** A program run alone on the maps. *)
Fixpoint run {A} (now : Time) (iter : list string) (p : prog A) : GoM error MemoryStore A := λ s,
  match p with
  | Ret r => (r, s)
  | Vis e k => let '(x, s') := exec now iter e s in run now iter (k x) s'
  end.

(** ** Methods *)

(** The [*model.User] argument is mutated; the caller's object after the call is the
    value returned. *)
Definition MemoryStore_Create (user : User) : prog User :=
  exists_ ← do_ (UsernameLoadOrStore (User_Username user) (User_ID user));
  if (exists_ : bool) then fail ErrUserAlreadyExists else
  exists_ ← do_ (EmailLoadOrStore (User_Email user) (User_ID user));
  if (exists_ : bool) then
    do_ (UsernameDelete (User_Username user)) ;;
    fail ErrUserAlreadyExists
  else
  now ← do_ TimeNow;
  let user := set_User_CreatedAt now user in
  let user := set_User_UpdatedAt now user in
  let user := if bool_decide (User_Status user = "")
              then set_User_Status UserStatusActive user else user in
  do_ (UsersStore (User_ID user) user) ;;
  mret user.

Definition MemoryStore_GetByID (id : string) : prog User :=
  val ← do_ (UsersLoad id);
  match val with
  | None => fail ErrUserNotFound
  | Some u =>
      if bool_decide (User_Status u = UserStatusDeleted) then fail ErrUserNotFound
      else mret u
  end.

Definition MemoryStore_GetByUsername (username : string) : prog User :=
  idVal ← do_ (UsernameLoad username);
  match idVal with
  | None => fail ErrUserNotFound
  | Some id => MemoryStore_GetByID id
  end.

Definition MemoryStore_GetByEmail (email : string) : prog User :=
  idVal ← do_ (EmailLoad email);
  match idVal with
  | None => fail ErrUserNotFound
  | Some id => MemoryStore_GetByID id
  end.

(** The assignments of [Update] after the email index, up to the final [Store]. *)
Definition MemoryStore_Update_finish (user updated : User) : prog unit :=
  let updated := if bool_decide (User_DisplayName user ≠ "")
                 then set_User_DisplayName (User_DisplayName user) updated else updated in
  let updated := if bool_decide (User_Status user ≠ "")
                 then set_User_Status (User_Status user) updated else updated in
  let updated := set_User_IsOnline (User_IsOnline user) updated in
  now ← do_ TimeNow;
  let updated := set_User_UpdatedAt now updated in
  do_ (UsersStore (User_ID user) updated).

Definition MemoryStore_Update (user : User) : prog unit :=
  val ← do_ (UsersLoad (User_ID user));
  match val with
  | None => fail ErrUserNotFound
  | Some existing =>
      if bool_decide (User_Status existing = UserStatusDeleted) then fail ErrUserNotFound else
      let updated := existing in
      if bool_decide (User_Email user ≠ "" ∧ User_Email user ≠ User_Email existing) then
        exists_ ← do_ (EmailLoadOrStore (User_Email user) (User_ID user));
        if (exists_ : bool) then fail ErrUserAlreadyExists else
        do_ (EmailDelete (User_Email existing)) ;;
        MemoryStore_Update_finish user (set_User_Email (User_Email user) updated)
      else MemoryStore_Update_finish user updated
  end.

Definition MemoryStore_Delete (id : string) : prog unit :=
  val ← do_ (UsersLoad id);
  match val with
  | None => fail ErrUserNotFound
  | Some u =>
      if bool_decide (User_Status u = UserStatusDeleted) then fail ErrUserNotFound else
      let updated := set_User_Status UserStatusDeleted u in
      now ← do_ TimeNow;
      let updated := set_User_UpdatedAt now updated in
      do_ (UsersStore id updated)
  end.

(** The common tail of [List] and [Search]. *)
Definition return_page {A} (all : list A) (offset limit : Z) : prog (list A * Z) :=
  match paginate all offset limit with
  | Some page => mret page
  | None => Ret Panic
  end.

Definition MemoryStore_List (offset limit : Z) : prog (list User * Z) :=
  visited ← do_ UsersRange;
  let all := filter (λ u, User_Status u ≠ UserStatusDeleted) visited in
  return_page all offset limit.

Definition MemoryStore_Search `{UnicodeTables} (query : string) (offset limit : Z) :
    prog (list User * Z) :=
  let query := ToLower query in
  visited ← do_ UsersRange;
  let matched := filter (λ u, User_Status u ≠ UserStatusDeleted ∧
    (Contains (ToLower (User_Username u)) query = true ∨
     Contains (ToLower (User_Email u)) query = true ∨
     Contains (ToLower (User_DisplayName u)) query = true)) visited in
  return_page matched offset limit.

#[export] Instance MemoryStore_UserStore `{UnicodeTables} : UserStore MemoryStore := {
  us_Create now u := run now [] (MemoryStore_Create u);
  us_GetByID id := run zero_time [] (MemoryStore_GetByID id);
  us_GetByUsername n := run zero_time [] (MemoryStore_GetByUsername n);
  us_GetByEmail e := run zero_time [] (MemoryStore_GetByEmail e);
  us_Update now u := run now [] (MemoryStore_Update u);
  us_Delete now id := run now [] (MemoryStore_Delete id);
  us_List iter off lim := run zero_time iter (MemoryStore_List off lim);
  us_Search iter q off lim := run zero_time iter (MemoryStore_Search q off lim);
}.

(** ** The index invariant *)

(** [idx] maps exactly the keys of the stored users to their ids. *)
Definition index_ok (key : User → string) (m : gmap string User) (idx : gmap string string) : Prop :=
  ∀ n i, idx !! n = Some i ↔ ∃ u, m !! i = Some u ∧ key u = n.

Record store_inv (s : MemoryStore) : Prop := {
  inv_ids : ∀ i u, users s !! i = Some u → User_ID u = i;
  inv_usernames : index_ok User_Username (users s) (byUsername s);
  inv_emails : index_ok User_Email (users s) (byEmail s);
}.

Section index_facts.
Context (key : User → string).
Implicit Types (m : gmap string User) (idx : gmap string string).

Lemma index_unique m idx i j u v :
  index_ok key m idx → m !! i = Some u → m !! j = Some v → key u = key v → i = j.
Proof.
  intros Hidx Hi Hj Heq.
  assert (idx !! key u = Some i) by (apply Hidx; eauto).
  assert (idx !! key u = Some j) by (apply Hidx; eauto). congruence.
Qed.

Lemma index_absent m idx n :
  index_ok key m idx → idx !! n = None ↔ find_user (λ v, key v = n) m = None.
Proof.
  intros Hidx. rewrite find_user_None. split.
  - intros Hn i u Hi Hk. assert (idx !! n = Some i) by (apply Hidx; eauto). congruence.
  - intros Hall. destruct (idx !! n) as [i|] eqn:E; [|done].
    apply Hidx in E as (u & Hi & Hk). by destruct (Hall i u Hi).
Qed.

Lemma index_present m idx n i :
  index_ok key m idx → idx !! n = Some i →
  ∃ u, m !! i = Some u ∧ key u = n ∧ find_user (λ v, key v = n) m = Some u.
Proof.
  intros Hidx Hn. pose proof Hn as (u & Hi & Hk)%Hidx. exists u. split_and!; [done..|].
  apply (find_user_unique _ _ i); [done..|]. intros j v Hj Hkv.
  assert (j = i) as -> by (eapply index_unique; eauto; congruence). congruence.
Qed.

Lemma index_insert_new m idx i u :
  index_ok key m idx → m !! i = None → idx !! key u = None →
  index_ok key (<[i := u]> m) (<[key u := i]> idx).
Proof.
  intros Hidx Hi Hn n j. rewrite !lookup_insert. case_decide as Hk; split.
  - intros [= <-]. exists u. by rewrite decide_True.
  - intros (v & Hj & Hv). case_decide as Hij; [congruence|].
    assert (idx !! n = Some j) by (apply Hidx; eauto). congruence.
  - intros (v & Hj & Hv)%Hidx. exists v. case_decide; [congruence|done].
  - intros (v & Hj & Hv). case_decide; simplify_eq. apply Hidx; eauto.
Qed.

Lemma index_same_key m idx i old u :
  index_ok key m idx → m !! i = Some old → key u = key old →
  index_ok key (<[i := u]> m) idx.
Proof.
  intros Hidx Hi Hk n j. rewrite (Hidx n j), lookup_insert. case_decide as Hij; [subst|done].
  split; intros (v & Hj & Hv); simplify_eq; eexists; split; eauto; congruence.
Qed.

Lemma index_rekey m idx i old u :
  index_ok key m idx → m !! i = Some old → key u ≠ key old → idx !! key u = None →
  index_ok key (<[i := u]> m) (delete (key old) (<[key u := i]> idx)).
Proof.
  intros Hidx Hi Hne Hn n j.
  assert (∀ j v, m !! j = Some v → key v = key old → j = i) as Huniq.
  { intros k v Hk Hv. by eapply index_unique. }
  assert (∀ j v, m !! j = Some v → key v ≠ key u) as Hfree.
  { intros k v Hk Hv. assert (idx !! key u = Some k) by (apply Hidx; eauto). congruence. }
  specialize (Hidx n j). rewrite lookup_delete, !lookup_insert.
  repeat case_decide; subst; naive_solver.
Qed.
End index_facts.

Lemma store_inv_dir_ok s : store_inv s → dir_ok (users s).
Proof.
  intros [Hids Hn He]. split; [done|..].
  - intros i j u v ???. by eapply (index_unique User_Username).
  - intros i j u v ???. by eapply (index_unique User_Email).
Qed.

Lemma store_inv_empty : store_inv NewMemoryStore.
Proof. split; [done|..]; intros n i; simpl; split; naive_solver. Qed.

(** ** Refinement of the abstract directory, method by method *)

Abbreviation mem_refines pre impl spec := (refines store_inv users pre impl spec).

(** A lookup of the users map, as the read methods make it. *)
Lemma getByID_run now iter id s :
  run now iter (MemoryStore_GetByID id) s = (fst (dir_getByID id (users s)), s).
Proof.
  unfold dir_getByID. simpl. destruct (users s !! id) as [u|]; simpl; [|done].
  unfold live. by case_bool_decide; case_decide.
Qed.

Lemma getByID_refines now iter id :
  mem_refines (λ _, True) (run now iter (MemoryStore_GetByID id)) (dir_getByID id).
Proof.
  intros s Hinv _. rewrite getByID_run. split; [done|].
  unfold dir_getByID. destruct (users s !! id); [case_decide|]; done.
Qed.

(** The read through an index agrees with the search of the directory. *)
Lemma lookup_by_index_refines now iter (key : User → string) idx n s :
  index_ok key (users s) idx →
  run now iter (match idx !! n with
                | Some id => MemoryStore_GetByID id
                | None => fail ErrUserNotFound
                end) s = (fst (dir_lookup (λ u, key u = n) (users s)), s).
Proof.
  intros Hidx. unfold dir_lookup. destruct (idx !! n) as [i|] eqn:E.
  - pose proof E as (u & Hi & Hk & _)%(index_present key _ _ _ _ Hidx).
    rewrite getByID_run. unfold dir_getByID. rewrite Hi. case_decide as Hl.
    + rewrite (find_user_unique _ _ i u); [done..|]. intros j v Hj [Hkv _].
      assert (j = i) as -> by (apply (index_unique key (users s) idx j i v u); [done..|congruence]).
      congruence.
    + assert (find_user (λ v, key v = n ∧ live v) (users s) = None) as ->; [|done].
      apply find_user_None. intros j v Hj [Hkv Hlv].
      assert (j = i) as -> by (apply (index_unique key (users s) idx j i v u); [done..|congruence]).
      by simplify_eq.
  - assert (find_user (λ v, key v = n ∧ live v) (users s) = None) as ->; [|done].
    apply find_user_None. intros j v Hj [Hkv _].
    rewrite (index_absent key _ _ _ Hidx), find_user_None in E. by apply (E j v).
Qed.

Lemma dir_lookup_state P `{∀ u, Decision (P u)} m :
  dir_lookup P m = (fst (dir_lookup P m), m).
Proof. unfold dir_lookup. by destruct (find_user _ m). Qed.

Lemma getByUsername_refines now iter n :
  mem_refines (λ _, True) (run now iter (MemoryStore_GetByUsername n))
    (dir_lookup (λ u, User_Username u = n)).
Proof.
  intros s Hinv _. change (run now iter (MemoryStore_GetByUsername n) s) with
    (run now iter (match byUsername s !! n with
                   | None => fail ErrUserNotFound
                   | Some id => MemoryStore_GetByID id
                   end) s).
  rewrite (lookup_by_index_refines now iter User_Username _ _ _ (inv_usernames _ Hinv)).
  split; [done|apply dir_lookup_state].
Qed.

Lemma getByEmail_refines now iter e :
  mem_refines (λ _, True) (run now iter (MemoryStore_GetByEmail e))
    (dir_lookup (λ u, User_Email u = e)).
Proof.
  intros s Hinv _. change (run now iter (MemoryStore_GetByEmail e) s) with
    (run now iter (match byEmail s !! e with
                   | None => fail ErrUserNotFound
                   | Some id => MemoryStore_GetByID id
                   end) s).
  rewrite (lookup_by_index_refines now iter User_Email _ _ _ (inv_emails _ Hinv)).
  split; [done|apply dir_lookup_state].
Qed.

(** *** Create *)

Definition created (now : Time) (u : User) : User :=
  let u := set_User_UpdatedAt now (set_User_CreatedAt now u) in
  if bool_decide (User_Status u = "") then set_User_Status UserStatusActive u else u.

Lemma created_ID now u : User_ID (created now u) = User_ID u.
Proof. unfold created. by case_bool_decide. Qed.
Lemma created_Username now u : User_Username (created now u) = User_Username u.
Proof. unfold created. by case_bool_decide. Qed.
Lemma created_Email now u : User_Email (created now u) = User_Email u.
Proof. unfold created. by case_bool_decide. Qed.

(** The three outcomes of [Create], on the maps themselves. *)
Lemma create_run now iter u s :
  run now iter (MemoryStore_Create u) s =
  match byUsername s !! User_Username u with
  | Some _ => (Err ErrUserAlreadyExists, s)
  | None =>
      match byEmail s !! User_Email u with
      | Some _ => (Err ErrUserAlreadyExists, s)
      | None => (Ok (created now u),
                 mkMemoryStore (<[User_ID u := created now u]> (users s))
                   (<[User_Username u := User_ID u]> (byUsername s))
                   (<[User_Email u := User_ID u]> (byEmail s)))
      end
  end.
Proof.
  unfold MemoryStore_Create. simpl.
  destruct (byUsername s !! User_Username u) eqn:En; simpl; [done|].
  destruct (byEmail s !! User_Email u) eqn:Ee; simpl.
  - rewrite (delete_insert_id _ _ _ En). by destruct s.
  - change (if bool_decide _ then _ else _) with (created now u). by rewrite created_ID.
Qed.

Lemma store_inv_create now u s :
  store_inv s → users s !! User_ID u = None →
  byUsername s !! User_Username u = None → byEmail s !! User_Email u = None →
  store_inv (mkMemoryStore (<[User_ID u := created now u]> (users s))
    (<[User_Username u := User_ID u]> (byUsername s)) (<[User_Email u := User_ID u]> (byEmail s))).
Proof.
  intros [Hids Hn He] Hfresh Hnu Hne. split; simpl.
  - intros i v. rewrite lookup_insert. case_decide; [|apply Hids].
    intros [= <-]. by rewrite created_ID.
  - rewrite <- (created_Username now u) in Hnu |- *. by apply index_insert_new.
  - rewrite <- (created_Email now u) in Hne |- *. by apply index_insert_new.
Qed.

Lemma create_refines now iter u :
  mem_refines (λ m, m !! User_ID u = None) (run now iter (MemoryStore_Create u)) (dir_create now u).
Proof.
  intros s Hinv Hfresh. rewrite create_run. unfold dir_create.
  destruct (byUsername s !! User_Username u) as [i|] eqn:En.
  { apply (index_present User_Username _ _ _ _ (inv_usernames _ Hinv)) in En as (v & _ & _ & ->).
    done. }
  pose proof En as ->%(index_absent User_Username _ _ _ (inv_usernames _ Hinv)).
  destruct (byEmail s !! User_Email u) as [i|] eqn:Ee.
  { apply (index_present User_Email _ _ _ _ (inv_emails _ Hinv)) in Ee as (v & _ & _ & ->).
    done. }
  pose proof Ee as ->%(index_absent User_Email _ _ _ (inv_emails _ Hinv)).
  split; [by apply store_inv_create|]. change (if bool_decide _ then _ else _) with (created now u).
  by rewrite created_ID.
Qed.

(** *** Update and Delete *)

Lemma set_User_Email_id u : set_User_Email (User_Email u) u = u.
Proof. by destruct u. Qed.

Lemma update_finish_run now iter user updated s :
  run now iter (MemoryStore_Update_finish user updated) s =
  (Ok (), mkMemoryStore
     (<[User_ID user :=
        set_User_UpdatedAt now (set_User_IsOnline (User_IsOnline user)
          (let v := if bool_decide (User_DisplayName user ≠ "")
                    then set_User_DisplayName (User_DisplayName user) updated else updated in
           if bool_decide (User_Status user ≠ "")
           then set_User_Status (User_Status user) v else v))]> (users s))
     (byUsername s) (byEmail s)).
Proof. done. Qed.

Lemma update_run now iter user s :
  run now iter (MemoryStore_Update user) s =
  match users s !! User_ID user with
  | None => (Err ErrUserNotFound, s)
  | Some old =>
      if bool_decide (User_Status old = UserStatusDeleted) then (Err ErrUserNotFound, s)
      else if bool_decide (User_Email user ≠ "" ∧ User_Email user ≠ User_Email old) then
        match byEmail s !! User_Email user with
        | Some _ => (Err ErrUserAlreadyExists, s)
        | None => (Ok (), mkMemoryStore (<[User_ID user := merge_user now user old]> (users s))
                     (byUsername s)
                     (delete (User_Email old) (<[User_Email user := User_ID user]> (byEmail s))))
        end
      else (Ok (), mkMemoryStore (<[User_ID user := merge_user now user old]> (users s))
                     (byUsername s) (byEmail s))
  end.
Proof.
  unfold MemoryStore_Update. simpl. destruct (users s !! User_ID user) as [old|]; simpl; [|done].
  case_bool_decide as Hdel; simpl; [done|]. unfold merge_user.
  case_bool_decide as Hem; simpl.
  - destruct (byEmail s !! User_Email user); simpl; [done|].
    by rewrite (bool_decide_eq_true_2 (User_Email user ≠ "")) by naive_solver.
  - destruct (decide (User_Email user = "")) as [->|Hne]; [done|].
    rewrite (bool_decide_eq_true_2 (User_Email user ≠ "")) by done.
    destruct (decide (User_Email user = User_Email old)) as [->|]; [|naive_solver].
    by rewrite set_User_Email_id.
Qed.

Lemma merge_user_ID now p u : User_ID (merge_user now p u) = User_ID u.
Proof. unfold merge_user. by repeat case_bool_decide. Qed.
Lemma merge_user_Username now p u : User_Username (merge_user now p u) = User_Username u.
Proof. unfold merge_user. by repeat case_bool_decide. Qed.
Lemma merge_user_Email now p u :
  User_Email (merge_user now p u) =
  if bool_decide (User_Email p ≠ "") then User_Email p else User_Email u.
Proof. unfold merge_user. by repeat case_bool_decide. Qed.

(** Replacing a stored user by one of the same id and username. *)
Lemma store_inv_replace s i old u idx :
  store_inv s → users s !! i = Some old →
  User_ID u = User_ID old → User_Username u = User_Username old →
  index_ok User_Email (<[i := u]> (users s)) idx →
  store_inv (mkMemoryStore (<[i := u]> (users s)) (byUsername s) idx).
Proof.
  intros [Hids Hn He] Hi Hid Hun Hidx. split; simpl; [..|done].
  - intros j v. rewrite lookup_insert. case_decide; [|apply Hids].
    intros [= <-]. subst. rewrite Hid. by apply Hids.
  - by eapply index_same_key.
Qed.

Lemma update_refines now iter user :
  mem_refines (λ _, True) (run now iter (MemoryStore_Update user)) (dir_update now user).
Proof.
  intros s Hinv _. rewrite update_run. unfold dir_update.
  destruct (users s !! User_ID user) as [old|] eqn:Hold; [|done].
  unfold live. case_bool_decide as Hdel; case_decide; try done.
  assert (∀ idx, index_ok User_Email (<[User_ID user := merge_user now user old]> (users s)) idx →
    store_inv (mkMemoryStore (<[User_ID user := merge_user now user old]> (users s))
      (byUsername s) idx)) as Hrep.
  { intros idx. apply (store_inv_replace _ _ old); [done..| |].
    - apply merge_user_ID.
    - apply merge_user_Username. }
  pose proof (inv_emails _ Hinv) as He. pose proof (merge_user_Email now user old) as Hme.
  guard (User_Email user ≠ "" ∧ User_Email user ≠ User_Email old) as Hem.
  - destruct Hem as [Hne Hch]. rewrite (bool_decide_eq_true_2 _ Hne) in Hme.
    destruct (byEmail s !! User_Email user) as [i|] eqn:E.
    + apply (index_present User_Email _ _ _ _ He) in E as (v & _ & _ & ->).
      by rewrite bool_decide_eq_true_2 by eauto.
    + rewrite bool_decide_eq_false_2.
      * split; [|done]. apply Hrep. rewrite <- Hme in E |- *. apply index_rekey; [done..|congruence|done].
      * rewrite (index_absent User_Email _ _ _ He) in E. rewrite E. by intros (_ & _ & []%is_Some_None).
  - rewrite bool_decide_eq_false_2 by naive_solver. split; [|done]. apply Hrep.
    eapply index_same_key; [done..|]. rewrite Hme. case_bool_decide; [|done].
    destruct (decide (User_Email user = User_Email old)); naive_solver.
Qed.

Lemma delete_run now iter id s :
  run now iter (MemoryStore_Delete id) s =
  match users s !! id with
  | None => (Err ErrUserNotFound, s)
  | Some old =>
      if bool_decide (User_Status old = UserStatusDeleted) then (Err ErrUserNotFound, s)
      else (Ok (), mkMemoryStore
              (<[id := set_User_UpdatedAt now (set_User_Status UserStatusDeleted old)]> (users s))
              (byUsername s) (byEmail s))
  end.
Proof.
  unfold MemoryStore_Delete. simpl. destruct (users s !! id); simpl; [|done].
  by case_bool_decide.
Qed.

Lemma delete_refines now iter id :
  mem_refines (λ _, True) (run now iter (MemoryStore_Delete id)) (dir_delete now id).
Proof.
  intros s Hinv _. rewrite delete_run. unfold dir_delete, live.
  destruct (users s !! id) as [old|] eqn:Hold; [|done].
  case_bool_decide; case_decide; try done. split; [|done].
  apply (store_inv_replace _ _ old); [done..|].
  eapply index_same_key; [apply (inv_emails _ Hinv)|done..].
Qed.

(** *** List and Search *)

Lemma return_page_run {A} now iter (all : list A) off lim s :
  run now iter (return_page all off lim) s =
  match paginate all off lim with Some p => (Ok p, s) | None => (Panic, s) end.
Proof. unfold return_page. by destruct (paginate all off lim). Qed.

Lemma list_refines now iter off lim :
  mem_refines (λ _, True) (run now iter (MemoryStore_List off lim)) (dir_list iter off lim).
Proof.
  intros s Hinv _. unfold MemoryStore_List. simpl. rewrite return_page_run.
  unfold dir_list.
  by destruct (paginate _ off lim).
Qed.

Lemma search_refines `{UnicodeTables} now iter q off lim :
  mem_refines (λ _, True) (run now iter (MemoryStore_Search q off lim))
    (dir_search iter q off lim).
Proof.
  intros s Hinv _. unfold MemoryStore_Search. simpl. rewrite return_page_run.
  unfold dir_search.
  by destruct (paginate _ off lim).
Qed.

(** The memory store discharges the laws of the interface. *)
#[export] Instance MemoryStore_laws `{UnicodeTables} : UserStoreLaws MemoryStore := {
  us_inv := store_inv;
  us_users := users;
  us_ok := store_inv_dir_ok;
  us_create_refines now := create_refines now [];
  us_getByID_refines := getByID_refines zero_time [];
  us_getByUsername_refines := getByUsername_refines zero_time [];
  us_getByEmail_refines := getByEmail_refines zero_time [];
  us_update_refines now := update_refines now [];
  us_delete_refines now := delete_refines now [];
  us_list_refines := list_refines zero_time;
  us_search_refines := search_refines zero_time;
}.
