(* ===== verification/UserHistory.v ===== *)
(** * Histories of the user store

    Sequences of calls on a user store, run on the memory store and on the abstract
    directory; the refinement of one by the other over whole histories, and the
    properties of the memory store that a caller of [user.Store] relies on. *)

From Stdlib Require Import ZArith Lia.
From stdpp Require Import base tactics numbers list gmap strings.
From S2P Require Import Prelude Model GoStrings UserStore UserMem.

(** The directory is itself a store. *)
#[export] Instance dir_UserStore `{UnicodeTables} : UserStore (gmap string User) := {
  us_Create := dir_create;
  us_GetByID := dir_getByID;
  us_GetByUsername n := dir_lookup (λ u, User_Username u = n);
  us_GetByEmail e := dir_lookup (λ u, User_Email u = e);
  us_Update := dir_update;
  us_Delete := dir_delete;
  us_List := dir_list;
  us_Search := dir_search;
}.

(** ** Calls and their answers *)
Inductive call : Type :=
| CallCreate (now : Time) (u : User)
| CallGetByID (id : string)
| CallGetByUsername (n : string)
| CallGetByEmail (e : string)
| CallUpdate (now : Time) (patch : User)
| CallDelete (now : Time) (id : string)
| CallList (iter : list string) (offset limit : Z)
| CallSearch (iter : list string) (q : string) (offset limit : Z).

Inductive answer : Type :=
| AnsUser (r : res error User)
| AnsUnit (r : res error unit)
| AnsPage (r : res error (list User * Z)).

Definition do_call {US} `{UserStore US} (c : call) (s : US) : answer * US :=
  match c with
  | CallCreate now u => let '(r, s) := us_Create now u s in (AnsUser r, s)
  | CallGetByID id => let '(r, s) := us_GetByID id s in (AnsUser r, s)
  | CallGetByUsername n => let '(r, s) := us_GetByUsername n s in (AnsUser r, s)
  | CallGetByEmail e => let '(r, s) := us_GetByEmail e s in (AnsUser r, s)
  | CallUpdate now p => let '(r, s) := us_Update now p s in (AnsUnit r, s)
  | CallDelete now id => let '(r, s) := us_Delete now id s in (AnsUnit r, s)
  | CallList iter off lim => let '(r, s) := us_List iter off lim s in (AnsPage r, s)
  | CallSearch iter q off lim => let '(r, s) := us_Search iter q off lim s in (AnsPage r, s)
  end.

Fixpoint do_calls {US} `{UserStore US} (cs : list call) (s : US) : list answer * US :=
  match cs with
  | [] => ([], s)
  | c :: cs => let '(a, s) := do_call c s in let '(l, s) := do_calls cs s in (a :: l, s)
  end.

Definition created_id (c : call) : option string :=
  match c with CallCreate _ u => Some (User_ID u) | _ => None end.

(** ** Refinement over histories *)

Section history.
Context `{UT : UnicodeTables}.

Definition fresh_call (m : gmap string User) (c : call) : Prop :=
  ∀ id, created_id c = Some id → m !! id = None.

Ltac by_refinement Hr :=
  match type of Hr with
  | let '(r, s') := ?impl in _ => destruct impl as [r s'] eqn:?
  end; destruct Hr as [? Hr]; simpl in Hr; rewrite ?Hr; done.

Lemma do_call_refines {US} `{!UserStore US, !UserStoreLaws US} c (s : US) :
  us_inv s → fresh_call (us_users s) c →
  us_inv (do_call c s).2 ∧
  do_call c (us_users s) = ((do_call c s).1, us_users (do_call c s).2).
Proof.
  intros Hinv Hfresh. destruct c as [now u|id|n|e|now p|now id|iter off lim|iter q off lim];
    simpl.
  - pose proof (us_create_refines now u s Hinv (Hfresh _ eq_refl)) as Hr. by_refinement Hr.
  - pose proof (us_getByID_refines id s Hinv I) as Hr. by_refinement Hr.
  - pose proof (us_getByUsername_refines n s Hinv I) as Hr. by_refinement Hr.
  - pose proof (us_getByEmail_refines e s Hinv I) as Hr. by_refinement Hr.
  - pose proof (us_update_refines now p s Hinv I) as Hr. by_refinement Hr.
  - pose proof (us_delete_refines now id s Hinv I) as Hr. by_refinement Hr.
  - pose proof (us_list_refines iter off lim s Hinv I) as Hr. by_refinement Hr.
  - pose proof (us_search_refines iter q off lim s Hinv I) as Hr. by_refinement Hr.
Qed.

(** A call adds to the directory at most the id it creates. *)
Lemma do_call_ids c (m : gmap string User) i :
  is_Some ((do_call c m).2 !! i) → is_Some (m !! i) ∨ created_id c = Some i.
Proof.
  intros HS. destruct c as [now u|id|n|e|now p|now id|iter off lim|iter q off lim]; simpl in HS;
    unfold dir_create, dir_getByID, dir_lookup, dir_update, dir_delete, dir_list, dir_search in HS;
    repeat case_match; simplify_eq/=; try (by left);
    (rewrite lookup_insert in HS; case_decide; subst; [|by left]).
  all: try (right; repeat case_bool_decide; done).
  all: left; by eexists.
Qed.

(** Calls whose created ids are pairwise distinct, and new to the store, are all
    fresh when they are made. *)
Lemma do_calls_refines {US} `{!UserStore US, !UserStoreLaws US} cs (s : US) :
  us_inv s → NoDup (omap created_id cs) →
  (∀ i, i ∈ omap created_id cs → us_users s !! i = None) →
  us_inv (do_calls cs s).2 ∧
  do_calls cs (us_users s) = ((do_calls cs s).1, us_users (do_calls cs s).2).
Proof.
  revert s. induction cs as [|c cs IH]; intros s Hinv Hnd Hnew; [done|]. simpl.
  assert (fresh_call (us_users s) c) as Hfresh.
  { intros id Hid. apply Hnew. simpl. rewrite Hid. left. }
  destruct (do_call_refines c s Hinv Hfresh) as [Hinv' Hstep].
  pose proof (do_call_ids c (us_users s)) as Hids. rewrite Hstep in Hids |- *. simpl in Hids.
  destruct (do_call c s) as [a s']. simpl in *.
  destruct (IH s') as [Hinv'' Hrest]; [done|..].
  - destruct (created_id c); [by apply NoDup_cons in Hnd as [_ ?]|done].
  - intros i Hi. apply eq_None_not_Some. intros [HS|Hc]%Hids.
    + rewrite Hnew in HS; [by destruct HS|]. destruct (created_id c); [by right|done].
    + rewrite Hc in Hnd. by apply NoDup_cons in Hnd as [? _].
  - rewrite Hrest. by destruct (do_calls cs s').
Qed.

(** States the memory store reaches from empty when every created user has a new id. *)
Definition reachable (s : MemoryStore) : Prop :=
  ∃ cs, NoDup (omap created_id cs) ∧ (do_calls cs NewMemoryStore).2 = s.

Lemma reachable_inv s : reachable s → store_inv s.
Proof.
  intros (cs & Hnd & <-).
  refine (proj1 (do_calls_refines (US := MemoryStore) cs NewMemoryStore _ Hnd _)).
  - apply store_inv_empty.
  - done.
Qed.
End history.

(** ** A concrete history for the witnesses *)
Module Sample.
#[export] Instance ascii_tables : UnicodeTables := { unicode_ToLower s := s }.
Definition alice : User :=
  mkUser "1" "alice" "a@x.io" "Alice@8888" "Alice Wang" "" false "" "" 0%Z 0%Z.
Definition bob : User :=
  mkUser "2" "bob" "b@x.io" "Bob@88888" "Bob" UserStatusActive false "" "" 0%Z 0%Z.
Definition eve : User :=
  mkUser "3" "eve" "b@x.io" "Eve@88888" "Eve" UserStatusActive false "" "" 0%Z 0%Z.
Definition rename_bob : User := set_User_Email "bob@x.io" (set_User_DisplayName "Bobby" (
  mkUser "2" "" "" "" "" "" false "" "" 0%Z 0%Z)).
Definition calls : list call :=
  [ CallCreate 10%Z alice; CallCreate 11%Z bob; CallCreate 12%Z eve;
    CallUpdate 13%Z rename_bob; CallGetByEmail "b@x.io"; CallGetByUsername "bob";
    CallDelete 14%Z "1"; CallGetByUsername "alice"; CallList ["2"; "1"] 0%Z 20%Z;
    CallSearch ["1"; "2"] "BOB" 0%Z 20%Z; CallList ["1"; "2"] (-1)%Z 20%Z ].
Definition setup : list call := [CallCreate 10%Z alice; CallCreate 11%Z bob].
Definition store : MemoryStore := (do_calls setup NewMemoryStore).2.
Lemma store_reachable : reachable store.
Proof. exists setup. split; [decided|reflexivity]. Qed.
End Sample.

(** ** Properties *)

(** C1. Refinement: for every history of calls in which the created users have
    pairwise distinct ids, the memory store gives, call by call, the answers of the
    abstract directory (one map from ids to users with unique usernames and emails),
    and ends with the directory's users. *)
Theorem memory_store_refines_directory `{UnicodeTables} (cs : list call) :
  NoDup (omap created_id cs) →
  do_calls cs (∅ : gmap string User) =
    ((do_calls cs NewMemoryStore).1, users (do_calls cs NewMemoryStore).2).
Proof.
  intros Hnd. refine (proj2 (do_calls_refines (US := MemoryStore) cs NewMemoryStore _ Hnd _)).
  - apply store_inv_empty.
  - done.
Qed.

(** C11. Every state the memory store reaches from empty (created users having distinct
    ids) has exact indexes: the username and email maps hold the stored users' keys and
    nothing else, so usernames and emails are unique, deleted users included. *)
Theorem memory_store_indexes_exact `{UnicodeTables} (s : MemoryStore) :
  reachable s →
  (∀ i u, users s !! i = Some u → User_ID u = i) ∧
  (∀ n i, byUsername s !! n = Some i ↔ ∃ u, users s !! i = Some u ∧ User_Username u = n) ∧
  (∀ e i, byEmail s !! e = Some i ↔ ∃ u, users s !! i = Some u ∧ User_Email u = e) ∧
  (∀ i j u v, users s !! i = Some u → users s !! j = Some v →
     User_Username u = User_Username v ∨ User_Email u = User_Email v → i = j).
Proof.
  intros Hinv%reachable_inv. pose proof (store_inv_dir_ok _ Hinv) as [_ Hn He].
  destruct Hinv. split_and!; [done..|]. intros i j u v ?? [?|?]; eauto.
Qed.

(** [Create] is all or nothing, on any state: if the username or the email is taken it
    fails and the three maps are exactly as before (the provisional username entry is
    rolled back); otherwise the new user is found by id, username and email. *)
Theorem create_all_or_nothing now (u : User) (s : MemoryStore) :
  let '(r, s') := run now [] (MemoryStore_Create u) s in
  (r = Err ErrUserAlreadyExists ∧ s' = s ∧
     (is_Some (byUsername s !! User_Username u) ∨ is_Some (byEmail s !! User_Email u))) ∨
  (byUsername s !! User_Username u = None ∧ byEmail s !! User_Email u = None ∧
   ∃ v, r = Ok v ∧ User_Username v = User_Username u ∧ User_CreatedAt v = now ∧
     (User_Status u ≠ UserStatusDeleted →
      run 0%Z [] (MemoryStore_GetByID (User_ID u)) s' = (Ok v, s') ∧
      run 0%Z [] (MemoryStore_GetByUsername (User_Username u)) s' = (Ok v, s') ∧
      run 0%Z [] (MemoryStore_GetByEmail (User_Email u)) s' = (Ok v, s'))).
Proof.
  rewrite create_run.
  destruct (byUsername s !! User_Username u) eqn:En; [left; eauto|].
  destruct (byEmail s !! User_Email u) eqn:Ee; [left; eauto|].
  right. split_and!; [done..|]. exists (created now u). split_and!; [done| | |].
  - apply created_Username.
  - unfold created. by case_bool_decide.
  - intros Hst. assert (User_Status (created now u) ≠ UserStatusDeleted) as Hst'.
    { unfold created. by case_bool_decide. }
    repeat (simpl; rewrite ?lookup_insert_eq; rewrite ?(bool_decide_eq_false_2 _ Hst')). done.
Qed.

(** Soft deletion: after a successful [Delete(id)] the user is not found by id,
    username or email, deleting again fails, but the username and the email stay
    reserved: creating another user with either one still fails. *)
Theorem delete_hides_and_reserves now (id : string) (s s' : MemoryStore) (old : User) :
  store_inv s → users s !! id = Some old →
  run now [] (MemoryStore_Delete id) s = (Ok (), s') →
  run 0%Z [] (MemoryStore_GetByID id) s' = (Err ErrUserNotFound, s') ∧
  run 0%Z [] (MemoryStore_GetByUsername (User_Username old)) s' = (Err ErrUserNotFound, s') ∧
  run 0%Z [] (MemoryStore_GetByEmail (User_Email old)) s' = (Err ErrUserNotFound, s') ∧
  run now [] (MemoryStore_Delete id) s' = (Err ErrUserNotFound, s') ∧
  (∀ u, User_Username u = User_Username old ∨ User_Email u = User_Email old →
     run now [] (MemoryStore_Create u) s' = (Err ErrUserAlreadyExists, s')).
Proof.
  intros Hinv Hold. rewrite delete_run, Hold. case_bool_decide; [done|]. intros [= <-].
  assert (byUsername s !! User_Username old = Some id) as Hn by (apply inv_usernames; eauto).
  assert (byEmail s !! User_Email old = Some id) as He by (apply inv_emails; eauto).
  split_and!.
  - simpl. by rewrite lookup_insert_eq.
  - simpl. rewrite Hn. simpl. by rewrite lookup_insert_eq.
  - simpl. rewrite He. simpl. by rewrite lookup_insert_eq.
  - rewrite delete_run. simpl. by rewrite lookup_insert_eq.
  - intros u Hu. rewrite create_run. simpl. destruct Hu as [->| ->].
    + by rewrite Hn.
    + rewrite He. destruct (byUsername s !! User_Username u); reflexivity.
Qed.

(** A successful [Update] that changes the email re-points the email index: the user
    is found under the new email, nobody is found under the old one, the username
    lookup follows, and the other users are untouched. *)
Theorem update_moves_email now (p old : User) (s s' : MemoryStore) :
  store_inv s → users s !! User_ID p = Some old →
  User_Email p ≠ "" → User_Email p ≠ User_Email old → User_Status p ≠ UserStatusDeleted →
  run now [] (MemoryStore_Update p) s = (Ok (), s') →
  run 0%Z [] (MemoryStore_GetByEmail (User_Email p)) s' = (Ok (merge_user now p old), s') ∧
  run 0%Z [] (MemoryStore_GetByEmail (User_Email old)) s' = (Err ErrUserNotFound, s') ∧
  run 0%Z [] (MemoryStore_GetByUsername (User_Username old)) s' = (Ok (merge_user now p old), s') ∧
  (∀ j, j ≠ User_ID p → users s' !! j = users s !! j) ∧ store_inv s'.
Proof.
  intros Hinv Hold Hne Hch Hst Hrun.
  assert (store_inv s') as Hinv'.
  { pose proof (update_refines now [] p s Hinv I) as Hr. rewrite Hrun in Hr. by destruct Hr. }
  assert (byUsername s !! User_Username old = Some (User_ID p)) as Hn
    by (apply inv_usernames; eauto).
  rewrite update_run, Hold in Hrun.
  guard (User_Status old = UserStatusDeleted) as Hdel in Hrun; [done|].
  rewrite (bool_decide_eq_true_2 (_ ∧ _)) in Hrun by done.
  destruct (byEmail s !! User_Email p) eqn:Ee; simplify_eq.
  assert (User_Status (merge_user now p old) ≠ UserStatusDeleted) as Hst'.
  { unfold merge_user. by repeat case_bool_decide. }
  split_and!; [| | | |done].
  - simpl. rewrite lookup_delete_ne, lookup_insert_eq by done. simpl.
    rewrite lookup_insert_eq. by rewrite (bool_decide_eq_false_2 _ Hst').
  - simpl. by rewrite lookup_delete_eq.
  - simpl. rewrite Hn. simpl. rewrite lookup_insert_eq. by rewrite (bool_decide_eq_false_2 _ Hst').
  - intros j Hj. simpl. by rewrite lookup_insert_ne.
Qed.

(** *** Listing *)

(** The live users of a store, as [List] collects them. *)
Definition live_users (s : MemoryStore) : list User := filter live (map_to_list (users s)).*2.

(** [iter] enumerates every id of the store once, as [sync.Map.Range] does. *)
Definition enumerates (iter : list string) (s : MemoryStore) : Prop :=
  iter ≡ₚ (map_to_list (users s)).*1.

Lemma listed_perm iter s :
  enumerates iter s → filter live (enumerate iter (users s)) ≡ₚ live_users s.
Proof. intros Hiter. unfold live_users. by rewrite (enumerate_perm _ _ Hiter). Qed.

Lemma list_run now iter off lim s :
  run now iter (MemoryStore_List off lim) s =
  match paginate (filter live (enumerate iter (users s))) off lim with
  | Some p => (Ok p, s)
  | None => (Panic, s)
  end.
Proof. unfold MemoryStore_List. simpl. by rewrite return_page_run. Qed.

Lemma search_run `{UnicodeTables} now iter q off lim s :
  run now iter (MemoryStore_Search q off lim) s =
  match paginate (filter (λ u, live u ∧ matches q u) (enumerate iter (users s))) off lim with
  | Some p => (Ok p, s)
  | None => (Panic, s)
  end.
Proof. unfold MemoryStore_Search. simpl. by rewrite return_page_run. Qed.

Lemma NoDup_values (m : gmap string User) :
  (∀ i u, m !! i = Some u → User_ID u = i) → NoDup (map_to_list m).*2.
Proof.
  intros Hids. apply (NoDup_fmap_1 User_ID). rewrite <- list_fmap_compose.
  rewrite (list_fmap_ext _ fst).
  - apply NoDup_fst_map_to_list.
  - intros i [j u] Hl%list_elem_of_lookup_2%elem_of_map_to_list. simpl. eauto.
Qed.

(** As long as the runtime enumerates the map in one order, consecutive pages
    partition the live users: [n] pages of [lim] users that reach the end list every live
    user exactly once, and every page reports the same total. *)
Theorem list_pages_partition (s : MemoryStore) (iter : list string) (lim : Z) (n : nat) :
  store_inv s → enumerates iter s → (0 < lim)%Z → is_int (lim * (Z.of_nat n + 1)) →
  (len (live_users s) ≤ lim * Z.of_nat n)%Z →
  ∃ pages, length pages = n ∧ concat pages ≡ₚ live_users s ∧ NoDup (concat pages) ∧
    ∀ k page, pages !! k = Some page →
      run zero_time iter (MemoryStore_List (lim * Z.of_nat k) lim) s =
        (Ok (page, len (live_users s)), s) ∧ (len page ≤ lim)%Z.
Proof.
  intros Hinv Hiter Hlim Hint Hlen.
  set (l := filter live (enumerate iter (users s))).
  assert (l ≡ₚ live_users s) as Hperm by by apply listed_perm.
  assert (len l = len (live_users s)) as Hl by (unfold len; by rewrite Hperm).
  set (lim' := Z.to_nat lim).
  exists ((λ i, take lim' (drop (i * lim') l)) <$> seq 0 n).
  assert (concat ((λ i, take lim' (drop (i * lim') l)) <$> seq 0 n) = l) as Hcat.
  { rewrite concat_segments. apply take_ge. unfold len in *. nia. }
  split_and!.
  - by rewrite length_fmap, length_seq.
  - by rewrite Hcat.
  - rewrite Hcat, Hperm. apply NoDup_filter, NoDup_values, Hinv.
  - intros k page. rewrite list_lookup_fmap. intros (i & Hi & ->)%fmap_Some.
    apply lookup_seq in Hi as [-> Hk]. cbn [Nat.add]. rewrite list_run. fold l.
    assert (is_int (lim * Z.of_nat k + lim)) as Hik.
    { revert Hint. unfold is_int, min_int, max_int. nia. }
    rewrite (paginate_segment l (lim * Z.of_nat k) lim ltac:(nia) ltac:(lia) Hik), Hl. split.
    + by rewrite Z2Nat.inj_mul, Nat2Z.id, (Nat.mul_comm (Z.to_nat lim)) by lia.
    + unfold len. rewrite length_take. lia.
Qed.

(** [List] never returns an error; it panics exactly when the requested page starts at
    a negative offset below the number of live users, or when [offset + limit] wraps
    around (or [limit] is negative) so that the page would end before it starts. *)
Theorem list_panics_iff (s : MemoryStore) (iter : list string) (off lim : Z) :
  let '(r, s') := run zero_time iter (MemoryStore_List off lim) s in
  s' = s ∧ (∀ e, r ≠ Err e) ∧
  (r = Panic ↔
     (off < len (filter live (enumerate iter (users s))))%Z ∧
     ((off < 0)%Z ∨ (int_add off lim < off)%Z)).
Proof.
  rewrite list_run. pose proof (paginate_panics (filter live (enumerate iter (users s))) off lim) as Hp.
  destruct (paginate _ off lim); (split_and!; [done..|]); rewrite <- Hp; done.
Qed.

(** [Search] with a page large enough returns exactly the live users one of whose
    username, email or display name contains the query, ignoring case, each once, and
    the total is their number. *)
Theorem search_exact `{UnicodeTables} (s : MemoryStore) (iter : list string) (q : string) (lim : Z) :
  store_inv s → enumerates iter s → is_int lim → (Z.of_nat (size (users s)) ≤ lim)%Z →
  ∃ page, run zero_time iter (MemoryStore_Search q 0 lim) s = (Ok (page, len page), s) ∧
    NoDup page ∧
    ∀ u, u ∈ page ↔ (∃ i, users s !! i = Some u) ∧ live u ∧ matches q u.
Proof.
  intros Hinv Hiter Hint Hlen.
  set (l := filter (λ u, live u ∧ matches q u) (enumerate iter (users s))).
  pose proof (enumerate_perm _ _ Hiter) as Hperm.
  assert (length l ≤ size (users s)) as Hll.
  { unfold l. rewrite length_filter, Hperm, length_fmap. by rewrite length_map_to_list. }
  exists l. rewrite search_run. fold l.
  rewrite (paginate_segment l 0 lim) by (try done; lia). split_and!.
  - rewrite drop_0, take_ge; [done|]. lia.
  - unfold l. rewrite Hperm. apply NoDup_filter, NoDup_values, Hinv.
  - intros u. unfold l. rewrite list_elem_of_filter, Hperm, elem_of_values. tauto.
Qed.

(** Paging is not stable: [sync.Map.Range] may enumerate in a different order on each
    call, and then two consecutive pages of one user each, over two live users, can list
    the same user twice and never list the other. *)
Theorem pages_can_miss_a_user :
  ∃ (s : MemoryStore) (iter1 iter2 : list string) (u v : User),
    store_inv s ∧ enumerates iter1 s ∧ enumerates iter2 s ∧
    live_users s ≡ₚ [u; v] ∧ u ≠ v ∧
    run zero_time iter1 (MemoryStore_List 0 1) s = (Ok ([u], 2%Z), s) ∧
    run zero_time iter2 (MemoryStore_List 1 1) s = (Ok ([u], 2%Z), s).
Proof.
  exists Sample.store, ["1"; "2"], ["2"; "1"].
  exists (created 10%Z Sample.alice), (created 11%Z Sample.bob).
  split_and!; [apply (reachable_inv (UT := Sample.ascii_tables)), Sample.store_reachable|..];
    first [ decided | vm_compute; first [reflexivity | apply perm_swap] ].
Qed.

(** ** Witnesses *)
Section witnesses.
#[local] Existing Instance Sample.ascii_tables.

Lemma sample_inv : store_inv Sample.store.
Proof. apply reachable_inv, Sample.store_reachable. Qed.

Lemma sample_enumerates : enumerates ["1"; "2"] Sample.store.
Proof. vm_compute. first [reflexivity | apply perm_swap]. Qed.

Lemma memory_store_refines_directory_witness :
  NoDup (omap created_id Sample.calls) ∧
  (do_calls Sample.calls NewMemoryStore).1 !! 2%nat = Some (AnsUser (Err ErrUserAlreadyExists)) ∧
  do_calls Sample.calls (∅ : gmap string User) =
    ((do_calls Sample.calls NewMemoryStore).1, users (do_calls Sample.calls NewMemoryStore).2).
Proof.
  assert (NoDup (omap created_id Sample.calls)) as Hnd by decided.
  split; [exact Hnd|]. split; [vm_compute; reflexivity|].
  apply (memory_store_refines_directory Sample.calls Hnd).
Defined.

Lemma memory_store_indexes_exact_witness :
  reachable Sample.store ∧ byUsername Sample.store !! "bob" = Some "2" ∧
  (∃ u, users Sample.store !! "2" = Some u ∧ User_Username u = "bob").
Proof.
  split; [exact Sample.store_reachable|]. split; [reflexivity|].
  apply (proj1 (proj2 (memory_store_indexes_exact Sample.store Sample.store_reachable))).
  reflexivity.
Defined.

Lemma delete_hides_and_reserves_witness :
  let s' := (run 20%Z [] (MemoryStore_Delete "2") Sample.store).2 in
  users Sample.store !! "2" = Some (created 11%Z Sample.bob) ∧
  run 20%Z [] (MemoryStore_Create Sample.bob) s' = (Err ErrUserAlreadyExists, s').
Proof.
  split; [reflexivity|].
  apply (delete_hides_and_reserves 20%Z "2" Sample.store _ (created 11%Z Sample.bob));
    [exact sample_inv|reflexivity|reflexivity|left; reflexivity].
Defined.

Lemma update_moves_email_witness :
  let s' := (run 20%Z [] (MemoryStore_Update Sample.rename_bob) Sample.store).2 in
  run 0%Z [] (MemoryStore_GetByEmail "bob@x.io") s' =
    (Ok (merge_user 20%Z Sample.rename_bob (created 11%Z Sample.bob)), s') ∧
  run 0%Z [] (MemoryStore_GetByEmail "b@x.io") s' = (Err ErrUserNotFound, s').
Proof.
  pose proof (update_moves_email 20%Z Sample.rename_bob (created 11%Z Sample.bob) Sample.store
    (run 20%Z [] (MemoryStore_Update Sample.rename_bob) Sample.store).2 sample_inv
    eq_refl ltac:(decided) ltac:(decided) ltac:(decided) eq_refl) as (H1 & H2 & _).
  exact (conj H1 H2).
Defined.

Lemma list_pages_partition_witness :
  enumerates ["1"; "2"] Sample.store ∧
  ∃ pages, length pages = 2%nat ∧ concat pages ≡ₚ live_users Sample.store ∧
    NoDup (concat pages) ∧
    ∀ k page, pages !! k = Some page →
      run zero_time ["1"; "2"] (MemoryStore_List (1 * Z.of_nat k) 1) Sample.store =
        (Ok (page, len (live_users Sample.store)), Sample.store) ∧ (len page ≤ 1)%Z.
Proof.
  split; [exact sample_enumerates|].
  apply (list_pages_partition Sample.store ["1"; "2"] 1 2);
    [exact sample_inv|exact sample_enumerates|done| |]; vm_compute; done.
Defined.

Lemma search_exact_witness :
  ∃ page, run zero_time ["1"; "2"] (MemoryStore_Search "WANG" 0 20) Sample.store =
      (Ok (page, len page), Sample.store) ∧ NoDup page ∧
    ∀ u, u ∈ page ↔ (∃ i, users Sample.store !! i = Some u) ∧ live u ∧ matches "WANG" u.
Proof.
  apply (search_exact Sample.store ["1"; "2"] "WANG" 20);
    [exact sample_inv|exact sample_enumerates| |]; vm_compute; done.
Defined.
End witnesses.
