(* ===== verification/UserConc.v ===== *)
(** * Concurrent calls on the in-memory user store

    No lock spans a method of [MemoryStore], so calls from several goroutines (one
    REST request, one UDS connection, one UDP packet each) interleave between their
    atomic [sync.Map] operations. This file interleaves the programs of [UserMem],
    proves by rely-guarantee reasoning what survives every interleaving (username
    uniqueness), and exhibits the races that do not (lost deletions, duplicate
    emails). *)

From Stdlib Require Import ZArith Lia.
From stdpp Require Import base tactics numbers list gmap strings relations.
From S2P Require Import Prelude Model GoStrings UserStore UserMem UserHistory.

(** ** Pools of calls *)

Fixpoint answer_of {A} (f : res error A → answer) (p : prog A) : prog answer :=
  match p with
  | Ret r => Ret (Ok (f r))
  | Vis e k => Vis e (λ x, answer_of f (k x))
  end.

(** The goroutine that serves one call. *)
Definition call_prog `{UnicodeTables} (c : call) : prog answer :=
  match c with
  | CallCreate _ u => answer_of AnsUser (MemoryStore_Create u)
  | CallGetByID id => answer_of AnsUser (MemoryStore_GetByID id)
  | CallGetByUsername n => answer_of AnsUser (MemoryStore_GetByUsername n)
  | CallGetByEmail e => answer_of AnsUser (MemoryStore_GetByEmail e)
  | CallUpdate _ p => answer_of AnsUnit (MemoryStore_Update p)
  | CallDelete _ id => answer_of AnsUnit (MemoryStore_Delete id)
  | CallList _ off lim => answer_of AnsPage (MemoryStore_List off lim)
  | CallSearch _ q off lim => answer_of AnsPage (MemoryStore_Search q off lim)
  end.

Definition config : Type := MemoryStore * list (prog answer).

(** One atomic operation of one goroutine; the clock reading and the enumeration
    order are whatever the runtime gives. *)
Inductive step : config → config → Prop :=
| step_thread s ps i X (e : event X) k now iter :
    ps !! i = Some (Vis e k) →
    step (s, ps) ((exec now iter e s).2, <[i := k (exec now iter e s).1]> ps).

Definition finished (c : config) : Prop := ∀ p, p ∈ c.2 → ∃ r, p = Ret r.

(** ** Rely and guarantee

    A goroutine that creates a user owns the user's id. *)

Definition owns (o : option string) (i : string) : Prop := o = Some i.

Record guarantee (o : option string) (s s' : MemoryStore) : Prop := {
  g_absent i : ¬ owns o i → users s !! i = None → users s' !! i = None;
  g_persist i u : users s !! i = Some u →
    ∃ u', users s' !! i = Some u' ∧ User_Username u' = User_Username u;
  g_index n i : ¬ owns o i → byUsername s !! n = Some i ↔ byUsername s' !! n = Some i;
}.

Record rely (o : option string) (s s' : MemoryStore) : Prop := {
  r_absent i : owns o i → users s !! i = None → users s' !! i = None;
  r_persist i u : users s !! i = Some u →
    ∃ u', users s' !! i = Some u' ∧ User_Username u' = User_Username u;
  r_index n i : owns o i → byUsername s !! n = Some i ↔ byUsername s' !! n = Some i;
}.

(** What every atomic operation keeps: a stored user sits under its id and its
    username points back at it. *)
Definition names_ok (s : MemoryStore) : Prop :=
  ∀ i u, users s !! i = Some u → User_ID u = i ∧ byUsername s !! User_Username u = Some i.

#[export] Instance rely_refl o : Reflexive (rely o).
Proof. intros s. split; eauto. Qed.

#[export] Instance rely_trans o : Transitive (rely o).
Proof.
  intros s1 s2 s3 [A1 P1 I1] [A2 P2 I2]. split; [eauto| |].
  - intros i u Hi. destruct (P1 i u Hi) as (u2 & H2 & E2).
    destruct (P2 i u2 H2) as (u3 & H3 & E3). exists u3. by rewrite E3.
  - intros n i Ho. by rewrite (I1 n i Ho), (I2 n i Ho).
Qed.

Lemma guarantee_rely o o' s s' :
  guarantee o s s' → (∀ i, owns o i → ¬ owns o' i) → rely o' s s'.
Proof. intros [A P I] Hdis. split; [|done|]; intros; [apply A|apply I]; naive_solver. Qed.

(** An operation that leaves the users and the username index alone. *)
Lemma guarantee_inert o s s' :
  users s' = users s → byUsername s' = byUsername s → guarantee o s s'.
Proof. intros Hu Hn. split; rewrite ?Hu, ?Hn; eauto. Qed.

Lemma names_ok_inert s s' :
  users s' = users s → byUsername s' = byUsername s → names_ok s → names_ok s'.
Proof. unfold names_ok. by intros -> ->. Qed.

(** [safe o p s]: started now and interleaved with goroutines that keep [rely o], the
    program makes only steps that keep [guarantee o] and [names_ok]. *)
Fixpoint safe {A} (o : option string) (p : prog A) (s : MemoryStore) : Prop :=
  match p with
  | Ret _ => True
  | Vis e k => ∀ s1 now iter, rely o s s1 → names_ok s1 →
      let '(x, s2) := exec now iter e s1 in
      guarantee o s1 s2 ∧ names_ok s2 ∧ safe o (k x) s2
  end.

Lemma safe_rely {A} o (p : prog A) s s' : rely o s s' → safe o p s → safe o p s'.
Proof.
  destruct p as [r|X e k]; simpl; [done|]. intros Hr Hs s1 now iter Hr1 Hok.
  apply Hs; [by etrans|done].
Qed.

Lemma safe_answer {A} o (f : res error A → answer) p s : safe o p s → safe o (answer_of f p) s.
Proof.
  revert s. induction p as [r|X e k IH]; simpl; [done|]. intros s Hs s1 now iter Hr Hok.
  specialize (Hs s1 now iter Hr Hok). destruct (exec now iter e s1) as [x s2]. naive_solver.
Qed.

(** Reads and index operations on emails need only their continuation checked. *)
Definition inert {X} (e : event X) : bool :=
  match e with
  | UsersLoad _ | UsersRange | UsernameLoad _ | EmailLoad _ | EmailLoadOrStore _ _
  | EmailDelete _ | TimeNow => true
  | UsersStore _ _ | UsernameLoadOrStore _ _ | UsernameDelete _ => false
  end.

Lemma exec_inert {X} now iter (e : event X) s :
  inert e = true →
  users (exec now iter e s).2 = users s ∧ byUsername (exec now iter e s).2 = byUsername s.
Proof. destruct e; simpl; try done. by destruct (byEmail s !! _). Qed.

Lemma safe_inert {A X} o (e : event X) (k : X → prog A) s :
  inert e = true →
  (∀ s1 now iter, rely o s s1 → names_ok s1 → names_ok (exec now iter e s1).2 →
     rely o s (exec now iter e s1).2 →
     safe o (k (exec now iter e s1).1) (exec now iter e s1).2) →
  safe o (Vis e k) s.
Proof.
  intros He Hk s1 now iter Hr Hok. destruct (exec_inert now iter e s1 He) as [Hu Hn].
  specialize (Hk s1 now iter Hr Hok). destruct (exec now iter e s1) as [x s2]. simpl in *.
  split_and!; [by apply guarantee_inert|by eapply names_ok_inert|]. apply Hk.
  - by eapply names_ok_inert.
  - etrans; [done|]. split; rewrite ?Hu, ?Hn; eauto.
Qed.

(** ** Each method is safe *)

#[local] Arguments safe : simpl never.

Lemma safe_ret {A} o (r : res error A) s : safe o (Ret r) s.
Proof. exact I. Qed.
#[local] Hint Resolve safe_ret : core.

Lemma safe_getByID o id s : safe o (MemoryStore_GetByID id) s.
Proof.
  apply safe_inert; [done|]. intros. simpl. repeat case_match; apply safe_ret.
Qed.

Lemma safe_by_index o (ev : event (option string)) s :
  inert ev = true →
  safe o (x ← do_ ev; match x with None => fail ErrUserNotFound | Some id => MemoryStore_GetByID id end) s.
Proof.
  intros Hev. apply safe_inert; [done|]. intros. simpl.
  destruct (exec now iter ev s1).1; [apply safe_getByID|done].
Qed.

(** Storing over a user of the same id and username. *)
Lemma safe_store_over o i u (s s1 : MemoryStore) old :
  users s !! i = Some old → User_ID u = i → User_Username u = User_Username old →
  rely o s s1 → names_ok s1 →
  let s2 := mkMemoryStore (<[i := u]> (users s1)) (byUsername s1) (byEmail s1) in
  guarantee o s1 s2 ∧ names_ok s2.
Proof.
  intros Hold Hid Hun Hr Hok. destruct (r_persist _ _ _ Hr i old Hold) as (cur & Hcur & Heq).
  destruct (Hok i cur Hcur) as [_ Hidx]. split; [split|]; simpl.
  - intros j _ Hj. rewrite lookup_insert_ne; [done|]. congruence.
  - intros j v Hj. rewrite lookup_insert. case_decide; [|eauto].
    subst. exists u. split; [done|]. congruence.
  - done.
  - intros j v. simpl. rewrite lookup_insert. case_decide; [|apply Hok].
    intros [= <-]. subst. split; [done|]. by rewrite Hun, <- Heq.
Qed.

(** Read the clock, then store a version of the user loaded before. *)
Lemma safe_clock_store o i (f : Time → User) s old :
  users s !! i = Some old →
  (∀ t, User_ID (f t) = i ∧ User_Username (f t) = User_Username old) →
  safe o (now ← do_ TimeNow; do_ (UsersStore i (f now))) s.
Proof.
  intros Hold Hf. apply safe_inert; [done|].
  intros s1 now iter Hr Hok _ Hr1 s2 now' iter' Hr2 Hok2. simpl in *.
  destruct (Hf now) as [Hid Hun].
  destruct (safe_store_over o i (f now) s s2 old) as [Hg Hn]; [done..|by etrans|done|done].
Qed.

Lemma safe_delete o id s : safe o (MemoryStore_Delete id) s.
Proof.
  apply safe_inert; [done|]. intros s1 now iter Hr Hok _ _. simpl in *.
  destruct (users s1 !! id) as [old|] eqn:Hold; simpl; [|done].
  case_bool_decide; simpl; [done|].
  destruct (Hok id old Hold) as [Hid _].
  by apply (safe_clock_store o id (λ t, set_User_UpdatedAt t (set_User_Status UserStatusDeleted old))
    s1 old).
Qed.

Lemma safe_update_finish o p updated s old :
  users s !! User_ID p = Some old →
  User_ID updated = User_ID p → User_Username updated = User_Username old →
  safe o (MemoryStore_Update_finish p updated) s.
Proof.
  intros Hold Hid Hun. unfold MemoryStore_Update_finish.
  eapply (safe_clock_store o (User_ID p) (λ t, set_User_UpdatedAt t _) s old); [done|].
  intros t. by repeat case_bool_decide.
Qed.

Lemma safe_update o p s : safe o (MemoryStore_Update p) s.
Proof.
  apply safe_inert; [done|]. intros s1 now iter Hr Hok _ _. simpl in *.
  destruct (users s1 !! User_ID p) as [old|] eqn:Hold; simpl; [|done].
  destruct (Hok _ old Hold) as [Hid _].
  case_bool_decide; simpl; [done|]. case_bool_decide; simpl; [|by eapply safe_update_finish].
  apply safe_inert; [done|]. intros s2 now2 iter2 Hr2 Hok2 _ Hr2'.
  destruct (exec now2 iter2 _ s2) as [[] s3]; simpl in *; [done|].
  apply safe_inert; [done|]. intros s4 now4 iter4 Hr4 Hok4 _ Hr4'. simpl in *.
  assert (rely o s1 (mkMemoryStore (users s4) (byUsername s4) (delete (User_Email old) (byEmail s4))))
    as Hr5 by (by etrans).
  destruct (r_persist _ _ _ Hr5 _ old Hold) as (cur & Hcur & Heq).
  by eapply safe_update_finish.
Qed.

(** Adding or removing the creator's own username entry, its user being absent. *)
Lemma safe_create u s :
  users s !! User_ID u = None → (∀ n, byUsername s !! n ≠ Some (User_ID u)) →
  safe (Some (User_ID u)) (MemoryStore_Create u) s.
Proof.
  intros Hnew Hfree s1 now iter Hr Hok. simpl.
  pose proof (r_absent _ _ _ Hr _ eq_refl Hnew) as Hnew1.
  destruct (byUsername s1 !! User_Username u) as [j|] eqn:En; simpl.
  { split_and!; [by apply guarantee_inert|done..]. }
  set (s2 := mkMemoryStore (users s1) (<[User_Username u := User_ID u]> (byUsername s1)) (byEmail s1)).
  assert (names_ok s2) as Hok2.
  { intros i v Hi. destruct (Hok i v Hi) as [? Hv]. split; [done|]. simpl.
    rewrite lookup_insert_ne; [done|]. congruence. }
  split_and!; [|done|].
  { split; simpl; [done|by eauto|]. intros n i Hi. rewrite lookup_insert.
    case_decide; [subst|done]. rewrite En. split; [done|]. intros ?; simplify_eq. by destruct Hi. }
  assert (users s2 !! User_ID u = None) as Hnew2 by done.
  assert (byUsername s2 !! User_Username u = Some (User_ID u)) as Hown2 by apply lookup_insert_eq.
  clearbody s2. apply safe_inert; [done|]. intros s3 now3 iter3 _ _ Hok3 Hr3.
  destruct (exec now3 iter3 _ s3) as [[] s4]; simpl in *.
  - (* the email is taken: remove the provisional entry *)
    intros s5 now5 iter5 Hr5 Hok5. simpl.
    assert (rely (Some (User_ID u)) s2 s5) as Hr25 by (by etrans).
    pose proof (r_absent _ _ _ Hr25 _ eq_refl Hnew2) as Hnew5.
    pose proof (proj1 (r_index _ _ _ Hr25 _ _ eq_refl) Hown2) as Hown5.
    split_and!; [split; simpl; [done|by eauto|]| |done].
    + intros n i Hi. rewrite lookup_delete. case_decide; [subst|done].
      split; [|done]. rewrite Hown5. intros ?; simplify_eq. by destruct Hi.
    + intros i v Hi. simpl in *. destruct (Hok5 i v Hi) as [Hid Hv]. split; [done|].
      rewrite lookup_delete_ne; [done|]. intros Heq. rewrite Heq, Hv in Hown5. congruence.
  - (* store the user *)
    apply safe_inert; [done|]. intros s5 now5 iter5 _ _ _ Hr45 s6 now6 iter6 Hr6 Hok6.
    assert (rely (Some (User_ID u)) s2 s6) as Hr26 by (by etrans; [done|etrans]).
    pose proof (r_absent _ _ _ Hr26 _ eq_refl Hnew2) as Hnew6.
    pose proof (proj1 (r_index _ _ _ Hr26 _ _ eq_refl) Hown2) as Hown6.
    change (let s7 := mkMemoryStore (<[User_ID (created now5 u) := created now5 u]> (users s6))
              (byUsername s6) (byEmail s6) in
            guarantee (Some (User_ID u)) s6 s7 ∧ names_ok s7 ∧
            safe (Some (User_ID u)) (Ret (Ok (created now5 u))) s7).
    rewrite created_ID. cbv zeta. split_and!; [split; simpl| |done].
    + intros i Hi Hni. rewrite lookup_insert_ne; [done|]. intros ?; simplify_eq. by destruct Hi.
    + intros i v Hi. rewrite lookup_insert_ne by congruence. eauto.
    + done.
    + intros i v. simpl. rewrite lookup_insert. case_decide; [|apply Hok6].
      intros [= <-]. subst. by rewrite created_ID, created_Username.
Qed.

(** ** Soundness: pools of safe goroutines *)

(** Goroutine [n] of the pool is safe for the owner [os !! n], and no two goroutines own
    the same id. *)
Record pool_ok (os : list (option string)) (c : config) : Prop := {
  pool_names : names_ok c.1;
  pool_owners : ∀ m n i, os !! m = Some (Some i) → os !! n = Some (Some i) → m = n;
  pool_length : length os = length c.2;
  pool_safe : ∀ n o p, os !! n = Some o → c.2 !! n = Some p → safe o p c.1;
}.

Lemma pool_step os c c' : pool_ok os c → step c c' → pool_ok os c'.
Proof.
  intros [Hn Ho Hl Hs] Hstep. destruct Hstep as [s ps i X e k now iter Hi]. simpl in *.
  destruct (lookup_lt_is_Some_2 os i) as [o Hoi]; [rewrite Hl; by eapply lookup_lt_Some|].
  pose proof (Hs i o _ Hoi Hi s now iter ltac:(done) Hn) as Hnow.
  destruct (exec now iter e s) as [x s']. destruct Hnow as (Hg & Hok & Hk). simpl.
  split; simpl; [done|done|by rewrite length_insert|].
  intros n o' p Hno Hnp. destruct (decide (i = n)) as [<-|Hne].
  - rewrite list_lookup_insert_eq in Hnp by (by eapply lookup_lt_Some). by simplify_eq.
  - rewrite list_lookup_insert_ne in Hnp by done.
    apply (safe_rely _ _ s); [|by eapply Hs]. apply (guarantee_rely o); [done|].
    unfold owns. intros j -> ->. by destruct Hne; eapply Ho.
Qed.

Lemma pool_steps os c c' : pool_ok os c → rtc step c c' → pool_ok os c'.
Proof. intros Hok Hsteps. induction Hsteps; eauto using pool_step. Qed.

Section calls.
Context `{UT : UnicodeTables}.

Lemma call_safe c s :
  (∀ i, created_id c = Some i → users s !! i = None ∧ ∀ n, byUsername s !! n ≠ Some i) →
  safe (created_id c) (call_prog c) s.
Proof.
  intros Hfresh. destruct c; cbn [created_id call_prog] in *; apply safe_answer.
  - by apply safe_create; apply Hfresh.
  - apply safe_getByID.
  - by apply safe_by_index.
  - by apply safe_by_index.
  - apply safe_update.
  - apply safe_delete.
  - apply safe_inert; [done|]. intros. simpl. unfold return_page. case_match; apply safe_ret.
  - apply safe_inert; [done|]. intros. simpl. unfold return_page. case_match; apply safe_ret.
Qed.

Lemma NoDup_omap_inj {A} (f : A → option string) l m n x y i :
  NoDup (omap f l) → l !! m = Some x → l !! n = Some y → f x = Some i → f y = Some i → m = n.
Proof.
  revert m n. induction l as [|z l IH]; intros m n Hnd Hm Hn Hx Hy; [done|]. simpl in Hnd.
  assert (∀ k w, l !! k = Some w → f w = Some i → i ∈ omap f l) as Hin.
  { intros k w Hk Hw. apply list_elem_of_omap. exists w. split; [|done].
    by eapply list_elem_of_lookup_2. }
  destruct m, n; simplify_eq/=; [done| | |].
  - rewrite Hx in Hnd. apply NoDup_cons in Hnd as [Hni _]. by destruct Hni; eapply Hin.
  - rewrite Hy in Hnd. apply NoDup_cons in Hnd as [Hni _]. by destruct Hni; eapply Hin.
  - f_equal. destruct (f z); [apply NoDup_cons in Hnd as [_ Hnd]|]; by eapply IH.
Qed.

Lemma initial_pool cs s :
  store_inv s → NoDup (omap created_id cs) →
  (∀ i, i ∈ omap created_id cs → users s !! i = None) →
  pool_ok (created_id <$> cs) (s, call_prog <$> cs).
Proof.
  intros [Hids Hn He] Hnd Hnew. split; simpl.
  - intros i u Hi. split; [by apply Hids|]. apply Hn. eauto.
  - intros m n i. rewrite !list_lookup_fmap.
    intros (x & Hm & Hx)%fmap_Some (y & Hy & Hn')%fmap_Some.
    by eapply (NoDup_omap_inj created_id cs m n x y i).
  - by rewrite !length_fmap.
  - intros n o p. rewrite !list_lookup_fmap.
    intros (c & Hc & ->)%fmap_Some (c' & Hc' & ->)%fmap_Some. simplify_eq.
    apply call_safe. intros i Hi.
    assert (users s !! i = None) as Hi0.
    { apply Hnew, list_elem_of_omap. exists c. split; [by eapply list_elem_of_lookup_2|done]. }
    split; [done|]. intros n' Hn'%Hn. destruct Hn' as (v & Hv & _). congruence.
Qed.
End calls.

(** ** Wait-freedom *)

(** The program makes at most [n] atomic operations, whatever they answer. *)
Fixpoint steps_le {A} (n : nat) (p : prog A) : Prop :=
  match p, n with
  | Ret _, _ => True
  | Vis e k, O => False
  | Vis e k, S n' => ∀ x, steps_le n' (k x)
  end.

Lemma steps_le_mono {A} n m (p : prog A) : n ≤ m → steps_le n p → steps_le m p.
Proof.
  revert n m. induction p as [r|X e k IH]; intros n m Hnm; [by destruct m|].
  destruct n, m; simpl; try done; [lia|]. intros Hk x. apply (IH x n); [lia|apply Hk].
Qed.

#[local] Arguments steps_le : simpl nomatch.
#[local] Arguments answer_of : simpl nomatch.




(** ** Schedules *)

(** Runs the goroutines in the given order, one operation each. *)
Fixpoint run_schedule (l : list nat) (c : config) : config :=
  match l with
  | [] => c
  | i :: l =>
      match c.2 !! i with
      | Some (Vis e k) =>
          let '(x, s') := exec zero_time [] e c.1 in run_schedule l (s', <[i := k x]> c.2)
      | _ => run_schedule l c
      end
  end.

Lemma run_schedule_steps l c : rtc step c (run_schedule l c).
Proof.
  revert c. induction l as [|i l IH]; intros [s ps]; simpl; [done|].
  destruct (ps !! i) as [[r|X e k]|] eqn:Hi; [apply IH| |apply IH].
  pose proof (step_thread s ps i X e k zero_time [] Hi) as Hstep.
  destruct (exec zero_time [] e s) as [x s']. simpl in Hstep. by eapply rtc_l.
Qed.

(** Two clients change the email of user 1 while two others register with the email
    it had. *)
Module Races.
Definition new_user (id name email : string) : User :=
  mkUser id name email "Secret@88" name UserStatusActive false "" "" 0%Z 0%Z.
Definition email_patch (id email : string) : User :=
  mkUser id "" email "" "" "" false "" "" 0%Z 0%Z.
Definition before : MemoryStore :=
  (run 5%Z [] (MemoryStore_Create (new_user "1" "ann" "a@x.io")) NewMemoryStore).2.
Definition calls : list call :=
  [ CallUpdate 6%Z (email_patch "1" "b@x.io"); CallUpdate 6%Z (email_patch "1" "c@x.io");
    CallCreate 6%Z (new_user "2" "bea" "a@x.io"); CallCreate 6%Z (new_user "3" "cat" "a@x.io") ].
(** Goroutine 1 loads the user, goroutines 0 and 2 run, 1 resumes, then 3 runs. *)
Definition schedule : list nat := [1; 0; 0; 0; 0; 0; 2; 2; 2; 2; 1; 1; 1; 1; 3; 3; 3; 3].
End Races.

Lemma races_before_inv : store_inv Races.before.
Proof.
  pose proof (create_refines 5%Z [] (Races.new_user "1" "ann" "a@x.io") NewMemoryStore
    store_inv_empty eq_refl) as Hr. revert Hr. unfold Races.before.
  destruct (run _ _ _ _) as [r s']. by intros [? _].
Qed.

(** ** Properties *)

(** C9. Usernames stay unique under every interleaving: whatever the order in which any
    number of concurrent calls (creating users with distinct new ids) perform their
    atomic map operations, at every moment no two stored users share a username and the
    username index leads to each of them. *)
Theorem usernames_unique_under_interleaving `{UnicodeTables} (cs : list call)
    (s s' : MemoryStore) (ps' : list (prog answer)) :
  store_inv s → NoDup (omap created_id cs) →
  (∀ i, i ∈ omap created_id cs → users s !! i = None) →
  rtc step (s, call_prog <$> cs) (s', ps') →
  (∀ i u, users s' !! i = Some u → User_ID u = i ∧ byUsername s' !! User_Username u = Some i) ∧
  (∀ i j u v, users s' !! i = Some u → users s' !! j = Some v →
     User_Username u = User_Username v → i = j).
Proof.
  intros Hinv Hnd Hnew Hsteps.
  pose proof (pool_names _ _ (pool_steps _ _ _ (initial_pool cs s Hinv Hnd Hnew) Hsteps)) as Hok.
  split; [exact Hok|]. intros i j u v Hi Hj Heq.
  destruct (Hok i u Hi) as [_ Hi']. destruct (Hok j v Hj) as [_ Hj']. congruence.
Qed.


(** A deletion can be lost: when a status-free update (a login or logout sets only the
    online flag) loads the user before a concurrent [Delete] and stores it after, both
    calls report success and the user is live again. *)
Theorem delete_can_be_lost `{UnicodeTables} (s : MemoryStore) (p old : User) (now : Time) :
  users s !! User_ID p = Some old → live old → User_Email p = "" → User_Status p = "" →
  ∃ s' u', rtc step (s, call_prog <$> [CallUpdate now p; CallDelete now (User_ID p)])
             (s', [Ret (Ok (AnsUnit (Ok ()))); Ret (Ok (AnsUnit (Ok ())))]) ∧
    users s' !! User_ID p = Some u' ∧ live u'.
Proof.
  intros Hold Hlive Hem Hst. unfold live in *.
  assert (∃ s', run_schedule [0; 1; 1; 1; 0; 0]
      (s, call_prog <$> [CallUpdate now p; CallDelete now (User_ID p)]) =
      (s', [Ret (Ok (AnsUnit (Ok ()))); Ret (Ok (AnsUnit (Ok ())))]) ∧
    ∃ u', users s' !! User_ID p = Some u' ∧ User_Status u' ≠ UserStatusDeleted)
    as (s' & Hs' & u' & Hu' & Hl').
  { eexists. split.
    - simpl. repeat (rewrite ?Hold, ?Hem, ?Hst, ?(bool_decide_eq_false_2 _ Hlive); simpl).
      reflexivity.
    - simpl. eexists. split; [apply lookup_insert_eq|]. by repeat case_bool_decide. }
  exists s', u'. rewrite <- Hs'. split; [apply run_schedule_steps|done].
Qed.

(** Emails do not stay unique: concurrent updates of one user's email, interleaved with
    registrations, can delete another user's email index entry, after which two live users
    share an email although every one of the four calls reported success. *)
Theorem emails_can_be_duplicated `{UnicodeTables} :
  ∃ s' u v, rtc step (Races.before, call_prog <$> Races.calls)
      (s', Ret ∘ Ok <$> [AnsUnit (Ok ()); AnsUnit (Ok ()); AnsUser (Ok u); AnsUser (Ok v)]) ∧
    users s' !! "2" = Some u ∧ users s' !! "3" = Some v ∧ live u ∧ live v ∧
    User_Email u = User_Email v.
Proof.
  pose proof (run_schedule_steps Races.schedule (Races.before, call_prog <$> Races.calls)) as Hrun.
  vm_compute in Hrun. eexists _, _, _. split; [exact Hrun|].
  vm_compute. done.
Qed.

(** ** Witnesses *)
Section conc_witnesses.
#[local] Existing Instance Sample.ascii_tables.

Lemma usernames_unique_under_interleaving_witness :
  let c := run_schedule Races.schedule (Races.before, call_prog <$> Races.calls) in
  byUsername c.1 !! "bea" = Some "2" ∧
  ∀ i j u v, users c.1 !! i = Some u → users c.1 !! j = Some v →
    User_Username u = User_Username v → i = j.
Proof.
  split; [vm_compute; reflexivity|].
  refine (proj2 (usernames_unique_under_interleaving Races.calls Races.before _
    ((run_schedule Races.schedule (Races.before, call_prog <$> Races.calls)).2) _ _ _ _)).
  - exact races_before_inv.
  - decided.
  - apply Forall_forall. repeat constructor.
  - rewrite <- surjective_pairing. apply run_schedule_steps.
Defined.


Lemma delete_can_be_lost_witness :
  ∃ s' u', rtc step (Races.before, call_prog <$>
      [CallUpdate 7%Z (Races.email_patch "1" ""); CallDelete 7%Z "1"])
    (s', [Ret (Ok (AnsUnit (Ok ()))); Ret (Ok (AnsUnit (Ok ())))]) ∧
    users s' !! "1" = Some u' ∧ live u'.
Proof.
  apply (delete_can_be_lost Races.before (Races.email_patch "1" "")
    (created 5%Z (Races.new_user "1" "ann" "a@x.io")) 7%Z); [reflexivity|decided|reflexivity..].
Defined.
End conc_witnesses.
