(* ===== verification/SyncJobs.v ===== *)
(** * The in-memory synchronisation job store

    [MemorySyncJobStore] of [internal/user/memory_store.go]: one map under a
    read-write mutex, so each method is one atomic state transition. *)

From Stdlib Require Import ZArith Lia.
From stdpp Require Import base tactics numbers list gmap strings.
From S2P Require Import Prelude Model UserStore.

(** The interface [user.SyncJobStore]. *)
Class SyncJobStore (SS : Type) : Type := {
  ss_Create : Time → SyncJob → GoM error SS SyncJob;
  ss_GetByID : string → GoM error SS SyncJob;
  ss_Update : Time → SyncJob → GoM error SS SyncJob;
  ss_List : list string → Z → Z → GoM error SS (list SyncJob * Z);
}.

Record MemorySyncJobStore : Type := mkMemorySyncJobStore { jobs : gmap string SyncJob }.

Definition NewMemorySyncJobStore : MemorySyncJobStore := mkMemorySyncJobStore ∅.

Definition ErrSyncJobNotFound : error := ErrorString "sync job not found".

(** The [*model.SyncJob] argument is mutated; the caller's object is returned. *)
Definition MemorySyncJobStore_Create (now : Time) (job : SyncJob) :
    GoM error MemorySyncJobStore SyncJob := λ s,
  let job := set_SyncJob_CreatedAt now job in
  let job := set_SyncJob_UpdatedAt now job in
  (Ok job, mkMemorySyncJobStore (<[SyncJob_ID job := job]> (jobs s))).

Definition MemorySyncJobStore_GetByID (id : string) : GoM error MemorySyncJobStore SyncJob := λ s,
  match jobs s !! id with
  | None => (Err ErrSyncJobNotFound, s)
  | Some j => (Ok j, s)
  end.

Definition MemorySyncJobStore_Update (now : Time) (job : SyncJob) :
    GoM error MemorySyncJobStore SyncJob := λ s,
  match jobs s !! SyncJob_ID job with
  | None => (Err ErrSyncJobNotFound, s)
  | Some _ =>
      let job := set_SyncJob_UpdatedAt now job in
      (Ok job, mkMemorySyncJobStore (<[SyncJob_ID job := job]> (jobs s)))
  end.

(** [iter] is the order in which [range] visits the map. *)
Definition MemorySyncJobStore_List (iter : list string) (offset limit : Z) :
    GoM error MemorySyncJobStore (list SyncJob * Z) := λ s,
  let all := enumerate iter (jobs s) in
  match paginate all offset limit with
  | Some page => (Ok page, s)
  | None => (Panic, s)
  end.

#[export] Instance MemorySyncJobStore_SyncJobStore : SyncJobStore MemorySyncJobStore := {
  ss_Create := MemorySyncJobStore_Create;
  ss_GetByID := MemorySyncJobStore_GetByID;
  ss_Update := MemorySyncJobStore_Update;
  ss_List := MemorySyncJobStore_List;
}.

(** ** Properties *)

(** A job created or updated is read back as stored, with its update time; updating an
    unknown id fails and changes nothing; other jobs are untouched. *)
Theorem sync_job_round_trip (now : Time) (job : SyncJob) (s : MemorySyncJobStore) :
  let '(r, s') := MemorySyncJobStore_Create now job s in
  (∃ j, r = Ok j ∧ SyncJob_CreatedAt j = now ∧ SyncJob_UpdatedAt j = now ∧
     MemorySyncJobStore_GetByID (SyncJob_ID job) s' = (Ok j, s')) ∧
  (∀ id, id ≠ SyncJob_ID job →
     (MemorySyncJobStore_GetByID id s').1 = (MemorySyncJobStore_GetByID id s).1) ∧
  (∀ later job', SyncJob_ID job' = SyncJob_ID job →
     let '(r2, s2) := MemorySyncJobStore_Update later job' s' in
     MemorySyncJobStore_GetByID (SyncJob_ID job) s2 =
       (Ok (set_SyncJob_UpdatedAt later job'), s2)) ∧
  (∀ later job', SyncJob_ID job' ≠ SyncJob_ID job → jobs s !! SyncJob_ID job' = None →
     MemorySyncJobStore_Update later job' s' = (Err ErrSyncJobNotFound, s')).
Proof.
  unfold MemorySyncJobStore_GetByID, MemorySyncJobStore_Update. simpl. split_and!.
  - eexists. by rewrite lookup_insert_eq.
  - intros id Hne. rewrite lookup_insert_ne by done. by destruct (jobs s !! id).
  - intros later job' Heq. rewrite Heq, lookup_insert_eq. simpl. by rewrite ?Heq, lookup_insert_eq.
  - intros later job' Hne Hnone. rewrite lookup_insert_ne by done. by rewrite Hnone.
Qed.
