(* ===== verification/Membership.v ===== *)
(** * Memberships kept in two mirrored maps

    Both directory stores keep a membership relation twice: by container
    (organization or group) and by user. The bookkeeping is the same in
    [MemoryOrgStore] and [MemoryGroupStore]; this file has its operations and its
    mirror invariant once, over an abstract kind of membership. *)

From Stdlib Require Import ZArith Lia.
From stdpp Require Import base tactics numbers list gmap strings.
From S2P Require Import Prelude.

(** Reading an absent key of a Go map of slices gives the nil slice. *)
Definition at_key {R} (m : gmap string (list R)) (k : string) : list R := default [] (m !! k).

Lemma at_key_insert {R} (m : gmap string (list R)) k l k' :
  at_key (<[k := l]> m) k' = if decide (k = k') then l else at_key m k'.
Proof. unfold at_key. rewrite lookup_insert. by case_decide. Qed.

Lemma at_key_delete {R} (m : gmap string (list R)) k k' :
  at_key (delete k m) k' = if decide (k = k') then [] else at_key m k'.
Proof. unfold at_key. rewrite lookup_delete. by case_decide. Qed.

Lemma NoDup_fmap_filter {A B} (f : A → B) (P : A → Prop) `{∀ x, Decision (P x)} (l : list A) :
  NoDup (f <$> l) → NoDup (f <$> filter P l).
Proof.
  induction l as [|x l IH]; [done|]. rewrite fmap_cons, NoDup_cons. intros [Hx Hl].
  rewrite filter_cons. case_decide; [|by apply IH]. rewrite fmap_cons, NoDup_cons.
  split; [|by apply IH]. intros (y & Hy & Hin)%list_elem_of_fmap. apply Hx.
  apply list_elem_of_filter in Hin as [_ Hin]. rewrite Hy. by apply list_elem_of_fmap_2.
Qed.

(** [append(m[k], r)] stored back. *)
Definition push {R} (m : gmap string (list R)) (k : string) (r : R) : gmap string (list R) :=
  <[k := at_key m k ++ [r]]> m.

Lemma elem_of_push {R} (m : gmap string (list R)) k r k' r' :
  r' ∈ at_key (push m k r) k' ↔ r' ∈ at_key m k' ∨ (k = k' ∧ r' = r).
Proof.
  unfold push. rewrite at_key_insert. case_decide; [subst|naive_solver].
  rewrite elem_of_app, list_elem_of_singleton. naive_solver.
Qed.

Lemma nodup_push {R} (f : R → string) (m : gmap string (list R)) k r :
  (∀ k', NoDup (f <$> at_key m k')) → f r ∉ f <$> at_key m k →
  ∀ k', NoDup (f <$> at_key (push m k r) k').
Proof.
  intros Hm Hr k'. unfold push. rewrite at_key_insert. case_decide; [subst|done].
  rewrite fmap_app, NoDup_app. split_and!; [done| |apply NoDup_singleton].
  intros x Hx. cbn. rewrite list_elem_of_singleton. by intros ->.
Qed.

Lemma at_key_insert_eq {R} (m : gmap string (list R)) k l : at_key (<[k := l]> m) k = l.
Proof. rewrite at_key_insert. by case_decide. Qed.

(** The duplicate check of the [AddMember] loops. *)
Lemma existsb_key {R} (f : R → string) (l : list R) u :
  existsb (λ r, String.eqb (f r) u) l = true ↔ u ∈ f <$> l.
Proof.
  rewrite existsb_exists, list_elem_of_fmap. split; intros (r & H1 & H2); exists r.
  - apply String.eqb_eq in H2. by rewrite list_elem_of_In.
  - by rewrite String.eqb_eq, <- list_elem_of_In.
Qed.

(** A filter that every element passes. *)
Lemma filter_keeps {A} (P : A → Prop) `{∀ x, Decision (P x)} (l : list A) :
  (∀ x, x ∈ l → P x) → filter P l = l.
Proof.
  induction l as [|x l IH]; [done|]. intros Hl. rewrite filter_cons_True by (apply Hl; left).
  f_equal. apply IH. intros y Hy. apply Hl. by right.
Qed.

(** Filtering the last element out of a list in which its key is new. *)
Lemma filter_snoc_fresh {R} (f : R → string) (l : list R) r :
  f r ∉ f <$> l → filter (λ r', f r' ≠ f r) (l ++ [r]) = l.
Proof.
  intros Hr. rewrite filter_app, filter_cons, filter_nil. case_decide; [done|]. rewrite app_nil_r.
  induction l as [|x l IH]; [done|]. rewrite fmap_cons, not_elem_of_cons in Hr.
  destruct Hr as [Hx Hr]. rewrite filter_cons. case_decide; [|congruence]. f_equal. by apply IH.
Qed.

(** Pushing and filtering out again restores every list. *)
Lemma at_key_remove_push {R} (f : R → string) (m : gmap string (list R)) k r k' :
  f r ∉ f <$> at_key m k →
  at_key (<[k := filter (λ r', f r' ≠ f r) (at_key (push m k r) k)]> (push m k r)) k' = at_key m k'.
Proof.
  intros Hr. rewrite at_key_insert. case_decide; [subst|unfold push; rewrite at_key_insert; by case_decide].
  unfold push. by rewrite at_key_insert_eq, filter_snoc_fresh.
Qed.

Section membership.
Context {R : Type} (container user : R → string).
Implicit Types (r : R) (members byUser : gmap string (list R)).

(** The loop that keeps the memberships of other containers, stored back. *)
Definition drop_container (byUser : gmap string (list R)) (u c : string) : gmap string (list R) :=
  <[u := filter (λ r, container r ≠ c) (at_key byUser u)]> byUser.

(** [drop_container] for the user of each membership of a list. *)
Definition drop_all (byUser : gmap string (list R)) (l : list R) (c : string) :
    gmap string (list R) :=
  foldl (λ m r, drop_container m (user r) c) byUser l.

(** The two maps hold the same memberships, each under its own container and user, and
    no pair of container and user twice. *)
Record mirror (members byUser : gmap string (list R)) : Prop := {
  mirror_container c r : r ∈ at_key members c → container r = c;
  mirror_user u r : r ∈ at_key byUser u → user r = u;
  mirror_same r : r ∈ at_key members (container r) ↔ r ∈ at_key byUser (user r);
  mirror_nodup c : NoDup (user <$> at_key members c);
  mirror_nodup_user u : NoDup (container <$> at_key byUser u);
}.

Lemma mirror_empty : mirror ∅ ∅.
Proof.
  assert (∀ k, at_key (∅ : gmap string (list R)) k = []) as He
    by (intros k; unfold at_key; by rewrite lookup_empty).
  split; intros *; rewrite ?He; try constructor; intros Hr; inversion Hr.
Qed.

(** A membership new in its container is new for its user. *)
Lemma mirror_push_fresh members byUser r :
  mirror members byUser → user r ∉ user <$> at_key members (container r) →
  container r ∉ container <$> at_key byUser (user r).
Proof.
  intros [Hc Hu Hs Hn Hnu] Hnew (r' & Hr' & Hin)%list_elem_of_fmap. apply Hnew.
  rewrite <- (Hu _ _ Hin). apply list_elem_of_fmap_2. rewrite Hr'. apply Hs.
  by rewrite (Hu _ _ Hin).
Qed.

Lemma mirror_push members byUser r :
  mirror members byUser → user r ∉ user <$> at_key members (container r) →
  mirror (push members (container r) r) (push byUser (user r) r).
Proof.
  intros Hm Hnew. pose proof (mirror_push_fresh _ _ _ Hm Hnew) as Hnew'.
  destruct Hm as [Hc Hu Hs Hn Hnu]. split.
  - intros c r' [Hin|[<- ->]]%elem_of_push; [by apply Hc|done].
  - intros u r' [Hin|[<- ->]]%elem_of_push; [by apply Hu|done].
  - intros r'. rewrite !elem_of_push, Hs. naive_solver.
  - by apply nodup_push.
  - by apply nodup_push.
Qed.

Lemma drop_container_push byUser r u :
  container r ∉ container <$> at_key byUser (user r) →
  at_key (drop_container (push byUser (user r) r) (user r) (container r)) u = at_key byUser u.
Proof. apply at_key_remove_push. Qed.

Lemma elem_of_drop_container byUser u c u' r :
  r ∈ at_key (drop_container byUser u c) u' ↔
  r ∈ at_key byUser u' ∧ ¬ (u = u' ∧ container r = c).
Proof.
  unfold drop_container. rewrite at_key_insert. case_decide; [subst|naive_solver].
  rewrite list_elem_of_filter. naive_solver.
Qed.

Lemma nodup_drop_container byUser u c :
  (∀ u', NoDup (container <$> at_key byUser u')) →
  ∀ u', NoDup (container <$> at_key (drop_container byUser u c) u').
Proof.
  intros Hn u'. unfold drop_container. rewrite at_key_insert. case_decide; [|done].
  by apply NoDup_fmap_filter.
Qed.

(** Removing user [u] from container [c] in both maps. *)
Lemma mirror_remove members byUser c u :
  mirror members byUser →
  mirror (<[c := filter (λ r, user r ≠ u) (at_key members c)]> members)
         (drop_container byUser u c).
Proof.
  intros [Hc Hu Hs Hn Hnu].
  assert (∀ c' r, r ∈ at_key (<[c := filter (λ r, user r ≠ u) (at_key members c)]> members) c' ↔
    r ∈ at_key members c' ∧ ¬ (c = c' ∧ user r = u)) as Hin.
  { intros c' r. rewrite at_key_insert. case_decide; [subst|naive_solver].
    rewrite list_elem_of_filter. naive_solver. }
  split.
  - intros c' r [Hr _]%Hin. by apply Hc.
  - intros u' r [Hr _]%elem_of_drop_container. by apply Hu.
  - intros r. rewrite Hin, elem_of_drop_container, Hs. naive_solver.
  - intros c'. rewrite at_key_insert. case_decide; [|done]. by apply NoDup_fmap_filter.
  - by apply nodup_drop_container.
Qed.

Lemma elem_of_drop_all byUser l c u' r :
  r ∈ at_key (drop_all byUser l c) u' ↔
  r ∈ at_key byUser u' ∧ ¬ (u' ∈ user <$> l ∧ container r = c).
Proof.
  revert byUser. induction l as [|x l IH]; intros byUser; simpl.
  - rewrite elem_of_nil. naive_solver.
  - rewrite IH, elem_of_drop_container, elem_of_cons. naive_solver.
Qed.

Lemma nodup_drop_all byUser l c :
  (∀ u', NoDup (container <$> at_key byUser u')) →
  ∀ u', NoDup (container <$> at_key (drop_all byUser l c) u').
Proof.
  revert byUser. induction l as [|x l IH]; intros byUser Hn; simpl; [done|].
  apply IH. by apply nodup_drop_container.
Qed.

(** Removing a whole container: its members' entries, then its list. *)
Lemma mirror_drop members byUser c :
  mirror members byUser →
  mirror (delete c members) (drop_all byUser (at_key members c) c).
Proof.
  intros [Hc Hu Hs Hn Hnu]. split.
  - intros c' r. rewrite at_key_delete. case_decide; [by intros ?%elem_of_nil|apply Hc].
  - intros u r [Hr _]%elem_of_drop_all. by apply Hu.
  - intros r. rewrite at_key_delete, elem_of_drop_all, <- Hs. case_decide as Heq.
    + split; [by intros ?%elem_of_nil|]. intros [Hr Hno]. destruct Hno.
      split; [|done]. rewrite Heq. by apply list_elem_of_fmap_2.
    + naive_solver.
  - intros c'. rewrite at_key_delete. case_decide; [constructor|done].
  - by apply nodup_drop_all.
Qed.

Lemma at_key_drop_all_other byUser l c u :
  u ∉ user <$> l → at_key (drop_all byUser l c) u = at_key byUser u.
Proof.
  revert byUser. induction l as [|x l IH]; intros byUser; simpl; [done|].
  intros [Hx Hl]%not_elem_of_cons. rewrite IH by done. unfold drop_container.
  rewrite at_key_insert. by case_decide.
Qed.

(** After the removal no user is in the container, and every other membership stays. *)
Lemma drop_exact members byUser c u r :
  mirror members byUser →
  r ∈ at_key (drop_all byUser (at_key members c) c) u ↔ r ∈ at_key byUser u ∧ container r ≠ c.
Proof.
  intros [Hc Hu Hs Hn Hnu]. rewrite elem_of_drop_all. split.
  - intros [Hr Hno]. split; [done|]. intros Heq. apply Hno. split; [|done].
    rewrite <- (Hu u r Hr). apply list_elem_of_fmap_2. rewrite <- Heq. apply Hs.
    by rewrite (Hu u r Hr).
  - naive_solver.
Qed.

(** The same on the lists: each user keeps the memberships of other containers, in order. *)
Lemma at_key_drop_all members byUser c u :
  mirror members byUser →
  at_key (drop_all byUser (at_key members c) c) u
  = filter (λ r, container r ≠ c) (at_key byUser u).
Proof.
  intros Hm. destruct (decide (u ∈ user <$> at_key members c)) as [Hu|Hu].
  - revert Hu. generalize (at_key members c) as l. clear Hm members. intros l. revert byUser.
    induction l as [|x l IH]; intros byUser; simpl; [by intros ?%elem_of_nil|].
    intros Hu. destruct (decide (u ∈ user <$> l)) as [Hl|Hl].
    + rewrite IH by done. unfold drop_container. rewrite at_key_insert. case_decide; [|done].
      subst. apply filter_keeps. by intros r [? _]%list_elem_of_filter.
    + apply elem_of_cons in Hu as [->|?]; [|done]. rewrite at_key_drop_all_other by done.
      unfold drop_container. by rewrite at_key_insert_eq.
  - rewrite at_key_drop_all_other by done. symmetry. apply filter_keeps.
    intros r Hr Heq. apply Hu. rewrite <- (mirror_user _ _ Hm u r Hr).
    apply list_elem_of_fmap_2. rewrite <- Heq. apply (mirror_same _ _ Hm).
    by rewrite (mirror_user _ _ Hm u r Hr).
Qed.
End membership.
