(* ===== verification/OrgStore.v ===== *)
(** * The in-memory organization store

    [MemoryOrgStore] of [internal/directory/memory_store.go]: three maps under one
    read-write mutex, so each method is one atomic state transition. The two slices
    that hold a membership share one clone of it, which no method modifies after it
    is added, so the model keeps the value in both. *)

From Stdlib Require Import ZArith Lia.
From stdpp Require Import base tactics numbers list gmap strings relations.
From S2P Require Import Prelude Model GoStrings UserStore Membership.

(** The interface [directory.OrgStore]. *)
Class OrgStore (OS : Type) : Type := {
  os_Create : Time → Organization → GoM error OS Organization;
  os_GetByID : string → GoM error OS Organization;
  os_Update : Time → Organization → GoM error OS unit;
  os_Delete : string → GoM error OS unit;
  os_List : list string → Z → Z → GoM error OS (list Organization * Z);
  os_ListChildren : list string → string → GoM error OS (list Organization);
  os_AddMember : UserOrgRelation → GoM error OS unit;
  os_RemoveMember : string → string → GoM error OS unit;
  os_ListMembers : string → GoM error OS (list UserOrgRelation);
  os_GetUserOrgs : string → GoM error OS (list UserOrgRelation);
}.

(** ** State *)
Record MemoryOrgStore : Type := mkMemoryOrgStore {
  orgs : gmap string Organization;                 (* id -> org *)
  org_members : gmap string (list UserOrgRelation); (* orgID -> relations *)
  userOrgs : gmap string (list UserOrgRelation);    (* userID -> relations *)
}.

Definition NewMemoryOrgStore : MemoryOrgStore := mkMemoryOrgStore ∅ ∅ ∅.

Definition set_orgs (v : gmap string Organization) (s : MemoryOrgStore) : MemoryOrgStore :=
  mkMemoryOrgStore v (org_members s) (userOrgs s).

(** Field assignments of an organization. *)
Definition set_Org_stamps (now : Time) (o : Organization) : Organization :=
  mkOrganization (Org_ID o) (Org_Name o) (Org_ParentID o) (Org_Path o) (Org_ExternalID o)
    (Org_SourceSystem o) now now.
Definition set_Org_Path (p : string) (o : Organization) : Organization :=
  mkOrganization (Org_ID o) (Org_Name o) (Org_ParentID o) p (Org_ExternalID o)
    (Org_SourceSystem o) (Org_CreatedAt o) (Org_UpdatedAt o).
Definition set_Org_Name (v : string) (o : Organization) : Organization :=
  mkOrganization (Org_ID o) v (Org_ParentID o) (Org_Path o) (Org_ExternalID o)
    (Org_SourceSystem o) (Org_CreatedAt o) (Org_UpdatedAt o).
Definition set_Org_ParentID (v : string) (o : Organization) : Organization :=
  mkOrganization (Org_ID o) (Org_Name o) v (Org_Path o) (Org_ExternalID o)
    (Org_SourceSystem o) (Org_CreatedAt o) (Org_UpdatedAt o).
Definition set_Org_UpdatedAt (v : Time) (o : Organization) : Organization :=
  mkOrganization (Org_ID o) (Org_Name o) (Org_ParentID o) (Org_Path o) (Org_ExternalID o)
    (Org_SourceSystem o) (Org_CreatedAt o) v.

(** ** Methods *)

(** The [*model.Organization] argument is mutated; the caller's object is returned. *)
Definition MemoryOrgStore_Create (now : Time) (org : Organization) :
    GoM error MemoryOrgStore Organization := λ s,
  match orgs s !! Org_ID org with
  | Some _ => (Err ErrOrgAlreadyExists, s)
  | None =>
      let org := set_Org_stamps now org in
      if bool_decide (Org_ParentID org = "") then
        let org := set_Org_Path ("/" +:+ Org_ID org) org in
        (Ok org, set_orgs (<[Org_ID org := org]> (orgs s)) s)
      else
        match orgs s !! Org_ParentID org with
        | None =>
            (Err (ErrorString ("parent organization " +:+ Org_ParentID org +:+ " not found")), s)
        | Some parent =>
            let org := set_Org_Path (Org_Path parent +:+ "/" +:+ Org_ID org) org in
            (Ok org, set_orgs (<[Org_ID org := org]> (orgs s)) s)
        end
  end.

Definition MemoryOrgStore_GetByID (id : string) : GoM error MemoryOrgStore Organization := λ s,
  match orgs s !! id with
  | None => (Err ErrOrgNotFound, s)
  | Some org => (Ok org, s)
  end.

Definition MemoryOrgStore_Update (now : Time) (org : Organization) :
    GoM error MemoryOrgStore unit := λ s,
  match orgs s !! Org_ID org with
  | None => (Err ErrOrgNotFound, s)
  | Some existing =>
      let existing := if bool_decide (Org_Name org ≠ "")
                      then set_Org_Name (Org_Name org) existing else existing in
      let existing := if bool_decide (Org_ParentID org ≠ "")
                      then set_Org_ParentID (Org_ParentID org) existing else existing in
      let existing := set_Org_UpdatedAt now existing in
      (Ok (), set_orgs (<[Org_ID org := existing]> (orgs s)) s)
  end.

Definition removeUserOrgRelation (userID orgID : string) (m : gmap string (list UserOrgRelation)) :
    gmap string (list UserOrgRelation) :=
  drop_container UOR_OrgID m userID orgID.

Definition MemoryOrgStore_Delete (id : string) : GoM error MemoryOrgStore unit := λ s,
  match orgs s !! id with
  | None => (Err ErrOrgNotFound, s)
  | Some _ =>
      let userOrgs' := foldl (λ m rel, removeUserOrgRelation (UOR_UserID rel) id m)
                         (userOrgs s) (at_key (org_members s) id) in
      (Ok (), mkMemoryOrgStore (delete id (orgs s)) (delete id (org_members s)) userOrgs')
  end.

Definition MemoryOrgStore_List (iter : list string) (offset limit : Z) :
    GoM error MemoryOrgStore (list Organization * Z) := λ s,
  let all := enumerate iter (orgs s) in
  match paginate all offset limit with
  | Some page => (Ok page, s)
  | None => (Panic, s)
  end.

Definition MemoryOrgStore_ListChildren (iter : list string) (parentID : string) :
    GoM error MemoryOrgStore (list Organization) := λ s,
  (Ok (filter (λ o, Org_ParentID o = parentID) (enumerate iter (orgs s))), s).

Definition MemoryOrgStore_AddMember (rel : UserOrgRelation) : GoM error MemoryOrgStore unit := λ s,
  match orgs s !! UOR_OrgID rel with
  | None => (Err ErrOrgNotFound, s)
  | Some _ =>
      if existsb (λ r, String.eqb (UOR_UserID r) (UOR_UserID rel))
           (at_key (org_members s) (UOR_OrgID rel))
      then (Err ErrMemberExists, s)
      else (Ok (), mkMemoryOrgStore (orgs s)
                     (push (org_members s) (UOR_OrgID rel) rel)
                     (push (userOrgs s) (UOR_UserID rel) rel))
  end.

Definition MemoryOrgStore_RemoveMember (orgID userID : string) :
    GoM error MemoryOrgStore unit := λ s,
  let rels := at_key (org_members s) orgID in
  let kept := filter (λ r, UOR_UserID r ≠ userID) rels in
  let found := existsb (λ r, String.eqb (UOR_UserID r) userID) rels in
  if negb found then (Err ErrMemberNotFound, s)
  else (Ok (), mkMemoryOrgStore (orgs s) (<[orgID := kept]> (org_members s))
                 (removeUserOrgRelation userID orgID (userOrgs s))).

Definition MemoryOrgStore_ListMembers (orgID : string) :
    GoM error MemoryOrgStore (list UserOrgRelation) := λ s,
  match orgs s !! orgID with
  | None => (Err ErrOrgNotFound, s)
  | Some _ => (Ok (at_key (org_members s) orgID), s)
  end.

Definition MemoryOrgStore_GetUserOrgs (userID : string) :
    GoM error MemoryOrgStore (list UserOrgRelation) := λ s,
  (Ok (at_key (userOrgs s) userID), s).

#[export] Instance MemoryOrgStore_OrgStore : OrgStore MemoryOrgStore := {
  os_Create := MemoryOrgStore_Create;
  os_GetByID := MemoryOrgStore_GetByID;
  os_Update := MemoryOrgStore_Update;
  os_Delete := MemoryOrgStore_Delete;
  os_List := MemoryOrgStore_List;
  os_ListChildren := MemoryOrgStore_ListChildren;
  os_AddMember := MemoryOrgStore_AddMember;
  os_RemoveMember := MemoryOrgStore_RemoveMember;
  os_ListMembers := MemoryOrgStore_ListMembers;
  os_GetUserOrgs := MemoryOrgStore_GetUserOrgs;
}.

(** ** Histories *)
Inductive org_call : Type :=
| OrgCreate (now : Time) (org : Organization)
| OrgUpdate (now : Time) (org : Organization)
| OrgDelete (id : string)
| OrgAddMember (rel : UserOrgRelation)
| OrgRemoveMember (orgID userID : string).

Definition org_exec (c : org_call) (s : MemoryOrgStore) : MemoryOrgStore :=
  match c with
  | OrgCreate now org => (MemoryOrgStore_Create now org s).2
  | OrgUpdate now org => (MemoryOrgStore_Update now org s).2
  | OrgDelete id => (MemoryOrgStore_Delete id s).2
  | OrgAddMember rel => (MemoryOrgStore_AddMember rel s).2
  | OrgRemoveMember o u => (MemoryOrgStore_RemoveMember o u s).2
  end.

Definition org_execs (cs : list org_call) (s : MemoryOrgStore) : MemoryOrgStore :=
  foldl (λ s c, org_exec c s) s cs.

(** ** The membership invariant *)

Record org_inv (s : MemoryOrgStore) : Prop := {
  org_ids i o : orgs s !! i = Some o → Org_ID o = i;
  org_mirror : mirror UOR_OrgID UOR_UserID (org_members s) (userOrgs s);
  org_members_exist c r : r ∈ at_key (org_members s) c → is_Some (orgs s !! c);
}.

Lemma org_inv_new : org_inv NewMemoryOrgStore.
Proof.
  split; simpl; [done|apply mirror_empty|].
  intros c r Hr. unfold at_key in Hr. rewrite lookup_empty in Hr. inversion Hr.
Qed.

(** Replacing or adding one organization under its own id. *)
Lemma org_inv_insert s i o :
  org_inv s → Org_ID o = i → org_inv (set_orgs (<[i := o]> (orgs s)) s).
Proof.
  intros [Hids Hm He] Hi. split; simpl; [|done|].
  - intros j o'. rewrite lookup_insert. case_decide; [|apply Hids]. intros [= <-]. by subst.
  - intros c r Hr%He. rewrite lookup_insert. by case_decide.
Qed.

Lemma org_inv_exec c s : org_inv s → org_inv (org_exec c s).
Proof.
  intros Hinv. destruct c as [now org|now org|id|rel|o u]; simpl.
  - unfold MemoryOrgStore_Create. destruct (orgs s !! Org_ID org); [done|].
    case_bool_decide; [by apply org_inv_insert|].
    destruct (orgs s !! _); [by apply org_inv_insert|done].
  - unfold MemoryOrgStore_Update. destruct (orgs s !! Org_ID org) as [ex|] eqn:E; [|done].
    apply org_inv_insert; [done|]. repeat case_bool_decide; simpl; by apply (org_ids s Hinv).
  - unfold MemoryOrgStore_Delete. destruct (orgs s !! id) as [od|]; [|done].
    destruct Hinv as [Hids Hm He]. split; simpl.
    + intros i o' [_ Hi]%lookup_delete_Some. by apply Hids.
    + by apply (mirror_drop UOR_OrgID UOR_UserID).
    + intros c r. rewrite at_key_delete. case_decide; [by intros ?%elem_of_nil|].
      intros Hr%He. by rewrite lookup_delete_ne.
  - unfold MemoryOrgStore_AddMember. destruct (orgs s !! UOR_OrgID rel) eqn:E; [|done].
    destruct (existsb _ _) eqn:Hex; [done|]. destruct Hinv as [Hids Hm He]. split; simpl; [done| |].
    + apply (mirror_push UOR_OrgID UOR_UserID); [done|]. by rewrite <- existsb_key, Hex.
    + intros c r [Hr|[<- ->]]%elem_of_push; [by eapply He|by rewrite E].
  - unfold MemoryOrgStore_RemoveMember. destruct (existsb _ _); simpl; [|done].
    destruct Hinv as [Hids Hm He]. split; simpl; [done|by apply (mirror_remove UOR_OrgID UOR_UserID)|].
    intros c r. rewrite at_key_insert. case_decide; [subst|by apply He].
    intros [_ Hr]%list_elem_of_filter. by eapply He.
Qed.

Lemma org_inv_execs cs s : org_inv s → org_inv (org_execs cs s).
Proof. revert s. induction cs; intros s Hinv; simpl; [done|]. by apply IHcs, org_inv_exec. Qed.

(** Where the memberships of a user come from. *)
Lemma org_exec_source c s u r :
  r ∈ at_key (userOrgs (org_exec c s)) u →
  r ∈ at_key (userOrgs s) u ∨ (c = OrgAddMember r ∧ UOR_UserID r = u).
Proof.
  destruct c as [now og|now og|id|rel|o u']; simpl.
  - unfold MemoryOrgStore_Create. destruct (orgs s !! Org_ID og); [by left|].
    case_bool_decide; [by left|]. destruct (orgs s !! _); by left.
  - unfold MemoryOrgStore_Update. destruct (orgs s !! Org_ID og); by left.
  - unfold MemoryOrgStore_Delete. destruct (orgs s !! id); [|by left].
    intros [? _]%(elem_of_drop_all UOR_OrgID UOR_UserID). by left.
  - unfold MemoryOrgStore_AddMember. destruct (orgs s !! _); [|by left].
    destruct (existsb _ _); [by left|]. simpl. rewrite elem_of_push. naive_solver.
  - unfold MemoryOrgStore_RemoveMember. destruct (existsb _ _); [|by left].
    intros [? _]%(elem_of_drop_container UOR_OrgID UOR_UserID). by left.
Qed.

(** ** The hierarchy *)

(** Every organization carries the path of its parent followed by its own id. *)
Definition path_ok (s : MemoryOrgStore) : Prop :=
  ∀ i o, orgs s !! i = Some o → Org_ID o = i ∧
    ((Org_ParentID o = "" ∧ Org_Path o = "/" +:+ i) ∨
     (Org_ParentID o ≠ "" ∧ ∃ p, orgs s !! Org_ParentID o = Some p ∧
        Org_Path o = Org_Path p +:+ "/" +:+ i)).

(** The calls that respect the hierarchy: anything but changing a parent and deleting an
    organization that has children. *)
Definition tame (s : MemoryOrgStore) (c : org_call) : Prop :=
  match c with
  | OrgUpdate _ org => Org_ParentID org = ""
  | OrgDelete id => ∀ j o, orgs s !! j = Some o → Org_ParentID o ≠ id
  | _ => True
  end.

Inductive tame_reach : MemoryOrgStore → Prop :=
| tame_new : tame_reach NewMemoryOrgStore
| tame_call s c : tame_reach s → tame s c → tame_reach (org_exec c s).

(** The ids from a root down to an organization. *)
Inductive lineage (m : gmap string Organization) : string → list string → Prop :=
| lineage_root i o : m !! i = Some o → Org_ParentID o = "" → lineage m i [i]
| lineage_child i o l : m !! i = Some o → Org_ParentID o ≠ "" →
    lineage m (Org_ParentID o) l → lineage m i (l ++ [i]).

Definition path_of (l : list string) : string := foldr (λ x acc, "/" +:+ x +:+ acc) "" l.

Lemma path_of_snoc l x : path_of (l ++ [x]) = path_of l +:+ "/" +:+ x.
Proof.
  induction l as [|y l IH]; [by unfold path_of; simpl; rewrite string_app_nil_r|].
  change (path_of ((y :: l) ++ [x])) with ("/" +:+ (y +:+ path_of (l ++ [x]))).
  change (path_of (y :: l)) with ("/" +:+ (y +:+ path_of l)).
  by rewrite IH, !string_app_assoc.
Qed.

Lemma path_ok_create s i o :
  path_ok s → orgs s !! i = None → Org_ID o = i →
  ((Org_ParentID o = "" ∧ Org_Path o = "/" +:+ i) ∨
   (Org_ParentID o ≠ "" ∧ ∃ p, orgs s !! Org_ParentID o = Some p ∧
      Org_Path o = Org_Path p +:+ "/" +:+ i)) →
  path_ok (set_orgs (<[i := o]> (orgs s)) s).
Proof.
  intros Hp Hi Hid Ho j o'. simpl. rewrite lookup_insert. case_decide as Hij.
  - intros [= <-]. subst j. split; [done|]. destruct Ho as [Ho|(Hne & p & Hpar & Hpath)]; [by left|].
    right. split; [done|]. exists p. by rewrite lookup_insert_ne by congruence.
  - intros Hj. destruct (Hp j o' Hj) as (Hjd & [Hr|(Hne & p & Hpar & Hpath)]); [by auto|].
    split; [done|]. right. split; [done|]. exists p. by rewrite lookup_insert_ne by congruence.
Qed.

(** Replacing an organization by one with the same id, parent and path. *)
Lemma path_ok_replace s i ex ex' :
  path_ok s → orgs s !! i = Some ex →
  Org_ID ex' = Org_ID ex → Org_ParentID ex' = Org_ParentID ex → Org_Path ex' = Org_Path ex →
  path_ok (set_orgs (<[i := ex']> (orgs s)) s).
Proof.
  intros Hp E H1 H2 H3.
  assert (∀ k p, orgs s !! k = Some p →
    ∃ p', <[i := ex']> (orgs s) !! k = Some p' ∧ Org_Path p' = Org_Path p) as Hup.
  { intros k p Hk. rewrite lookup_insert. case_decide; [|by eauto]. exists ex'. naive_solver. }
  assert (∀ j o, <[i := ex']> (orgs s) !! j = Some o → ∃ o0, orgs s !! j = Some o0 ∧
    Org_ID o = Org_ID o0 ∧ Org_ParentID o = Org_ParentID o0 ∧ Org_Path o = Org_Path o0) as Hdown.
  { intros j o. rewrite lookup_insert. case_decide; [|by eauto]. intros [= <-]. subst. by exists ex. }
  intros j o (o0 & Hj & Hid & Hpar & Hpath)%Hdown. rewrite Hid, Hpar, Hpath.
  destruct (Hp j o0 Hj) as (Hjd & [?|(? & p & Hpk & Ho)]); [by auto|].
  split; [done|]. right. split; [done|]. destruct (Hup _ _ Hpk) as (p' & ? & Hp').
  exists p'. by rewrite Hp'.
Qed.

Lemma path_ok_exec s c : path_ok s → tame s c → path_ok (org_exec c s).
Proof.
  intros Hp Ht. destruct c as [now org|now org|id|rel|org u]; simpl in *.
  - unfold MemoryOrgStore_Create. destruct (orgs s !! Org_ID org) eqn:E; [done|].
    case_bool_decide as Hpar; [apply path_ok_create; simpl; [done|done|done|by left]|].
    destruct (orgs s !! Org_ParentID (set_Org_stamps now org)) as [p|] eqn:Ep; [|done].
    apply path_ok_create; simpl; [done|done|done|]. right. split; [done|]. by exists p.
  - unfold MemoryOrgStore_Update. destruct (orgs s !! Org_ID org) as [ex|] eqn:E; [|done].
    rewrite Ht. rewrite (bool_decide_eq_false_2 ("" ≠ "")) by naive_solver.
    eapply path_ok_replace; [done|done|..]; by case_bool_decide.
  - unfold MemoryOrgStore_Delete. destruct (orgs s !! id) as [od|]; [|done].
    intros j o. simpl. intros [Hne Hj]%lookup_delete_Some.
    destruct (Hp j o Hj) as (Hjd & [?|(? & p & Hpar & Hpath)]); [by auto|].
    split; [done|]. right. split; [done|]. exists p. split; [|done].
    rewrite lookup_delete_ne; [done|]. apply not_eq_sym. by eapply Ht.
  - unfold MemoryOrgStore_AddMember. destruct (orgs s !! _); [|done]. by destruct (existsb _ _).
  - unfold MemoryOrgStore_RemoveMember. by destruct (existsb _ _).
Qed.

Lemma tame_path_ok s : tame_reach s → path_ok s.
Proof. induction 1; [done|]. by apply path_ok_exec. Qed.

(** Walking up the parents reaches a root, without visiting an organization twice. *)
Lemma path_ok_lineage s i o :
  path_ok s → orgs s !! i = Some o →
  ∃ l, lineage (orgs s) i l ∧ Org_Path o = path_of l ∧ NoDup l ∧
    ∀ j, j ∈ l → ∃ oj, orgs s !! j = Some oj ∧
      String.length (Org_Path oj) ≤ String.length (Org_Path o).
Proof.
  intros Hp. remember (String.length (Org_Path o)) as n eqn:Hn.
  revert i o Hn. induction (lt_wf n) as [n _ IH]. intros i o -> Hi.
  destruct (Hp i o Hi) as (Hid & [(Hroot & Hpath)|(Hne & p & Hpar & Hpath)]).
  - exists [i]. split_and!; [by eapply lineage_root| |apply NoDup_singleton|].
    + rewrite Hpath. unfold path_of. simpl. by rewrite string_app_nil_r.
    + intros j ->%list_elem_of_singleton. eauto.
  - assert (String.length (Org_Path p) < String.length (Org_Path o)) as Hlt.
    { rewrite Hpath, string_length_app. simpl. lia. }
    destruct (IH _ Hlt _ p eq_refl Hpar) as (l & Hl & Hpl & Hnd & Hle).
    exists (l ++ [i]). split_and!; [by eapply lineage_child| | |].
    + by rewrite path_of_snoc, <- Hpl.
    + apply NoDup_app. split_and!; [done| |apply NoDup_singleton].
      intros j Hj ->%list_elem_of_singleton. destruct (Hle _ Hj) as (oi & Hoi & Hlen).
      simplify_eq. lia.
    + intros j [Hj| ->%list_elem_of_singleton]%elem_of_app; [|by eauto].
      destruct (Hle _ Hj) as (oj & Hoj & Hlen). exists oj. split; [done|]. lia.
Qed.

(** ** Observations *)

Definition with_parent (id parent : string) : Organization :=
  mkOrganization id "" parent "" "" "" zero_time zero_time.

Lemma lineage_fun m i l l' : lineage m i l → lineage m i l' → l = l'.
Proof.
  intros Hl. revert l'.
  induction Hl as [i o Ho Hr|i o l Ho Hne Hl IH]; intros l' Hl';
    inversion Hl' as [i' o' Ho'|i' o' l0 Ho' Hne' Hl0]; simplify_eq; try done.
  f_equal. by apply IH.
Qed.

Lemma lineage_up m i o l :
  m !! i = Some o → Org_ParentID o ≠ "" → lineage m i l →
  ∃ l0, l = l0 ++ [i] ∧ lineage m (Org_ParentID o) l0.
Proof. intros Hi Hne. inversion 1; simplify_eq; by eauto. Qed.

(** No lineage goes round a cycle of two. *)
Lemma lineage_no_cycle m a b oa ob l :
  m !! a = Some oa → m !! b = Some ob → Org_ParentID oa = b → Org_ParentID ob = a →
  a ≠ "" → b ≠ "" → ¬ lineage m a l.
Proof.
  intros Ha Hb <- <- Hna Hnb Hl.
  destruct (lineage_up _ _ _ _ Ha Hnb Hl) as (l1 & -> & Hl1).
  destruct (lineage_up _ _ _ _ Hb Hna Hl1) as (l2 & -> & Hl2).
  pose proof (lineage_fun _ _ _ _ Hl Hl2) as Heq.
  apply (f_equal length) in Heq. rewrite !length_app in Heq. simpl in Heq. lia.
Qed.

(** A company "a" with a department "b". *)
Definition org_a : Organization := mkOrganization "a" "Company" "" "" "" "" zero_time zero_time.
Definition org_b : Organization := mkOrganization "b" "Department" "a" "" "" "" zero_time zero_time.
Definition org_history : list org_call := [OrgCreate 1%Z org_a; OrgCreate 2%Z org_b].
Definition org_sample : MemoryOrgStore := org_execs org_history NewMemoryOrgStore.
Definition rel_b : UserOrgRelation := mkUserOrgRelation "u" "b" "member" true.

Lemma org_sample_tame : tame_reach org_sample.
Proof.
  apply (tame_call (org_exec (OrgCreate 1%Z org_a) NewMemoryOrgStore) (OrgCreate 2%Z org_b));
    [|done].
  apply (tame_call NewMemoryOrgStore (OrgCreate 1%Z org_a)); [apply tame_new|done].
Qed.

(** ** Properties *)

(** C8. After any history of calls, the two views of the memberships agree: a member listed for
    an organization is listed for its user and conversely, every membership refers to an existing
    organization, and a user appears at most once in an organization. *)
Theorem org_memberships_mirror (cs : list org_call) :
  let s := org_execs cs NewMemoryOrgStore in
  (∀ o rels, MemoryOrgStore_ListMembers o s = (Ok rels, s) →
     NoDup (UOR_UserID <$> rels) ∧
     ∀ r, r ∈ rels → UOR_OrgID r = o ∧
       ∃ rels', MemoryOrgStore_GetUserOrgs (UOR_UserID r) s = (Ok rels', s) ∧ r ∈ rels') ∧
  (∀ u rels, MemoryOrgStore_GetUserOrgs u s = (Ok rels, s) →
     NoDup (UOR_OrgID <$> rels) ∧
     ∀ r, r ∈ rels → UOR_UserID r = u ∧
       ∃ rels', MemoryOrgStore_ListMembers (UOR_OrgID r) s = (Ok rels', s) ∧ r ∈ rels').
Proof.
  intros s. destruct (org_inv_execs cs _ org_inv_new) as [_ [Hc Hu Hs Hn Hnu] He]. fold s in Hc, Hu, Hs, Hn, Hnu, He.
  unfold MemoryOrgStore_ListMembers, MemoryOrgStore_GetUserOrgs. split.
  - intros o rels. destruct (orgs s !! o); [|done]. intros [= <-]. split; [done|].
    intros r Hr. pose proof (Hc _ _ Hr) as Heq. split; [done|]. eexists. split; [done|].
    apply Hs. by rewrite Heq.
  - intros u rels [= <-]. split; [done|]. intros r Hr. pose proof (Hu _ _ Hr) as Heq.
    split; [done|]. rewrite <- Heq in Hr. apply Hs in Hr. destruct (He _ _ Hr) as [x ->]. by eexists.
Qed.

(** Adding a member and removing it again: after the addition both lists end with it and a
    second addition is refused; after the removal every organization and every user has the
    memberships it had, and a second removal is refused. *)
Theorem org_member_add_remove (cs : list org_call) (rel : UserOrgRelation) (s' : MemoryOrgStore) :
  let s := org_execs cs NewMemoryOrgStore in
  MemoryOrgStore_AddMember rel s = (Ok (), s') →
  MemoryOrgStore_ListMembers (UOR_OrgID rel) s'
    = (Ok (at_key (org_members s) (UOR_OrgID rel) ++ [rel]), s') ∧
  MemoryOrgStore_AddMember rel s' = (Err ErrMemberExists, s') ∧
  ∃ s'', MemoryOrgStore_RemoveMember (UOR_OrgID rel) (UOR_UserID rel) s' = (Ok (), s'') ∧
    (∀ o, (MemoryOrgStore_ListMembers o s'').1 = (MemoryOrgStore_ListMembers o s).1) ∧
    (∀ u, (MemoryOrgStore_GetUserOrgs u s'').1 = (MemoryOrgStore_GetUserOrgs u s).1) ∧
    MemoryOrgStore_RemoveMember (UOR_OrgID rel) (UOR_UserID rel) s'' = (Err ErrMemberNotFound, s'').
Proof.
  intros s. destruct (org_inv_execs cs _ org_inv_new) as [_ Hm _]. fold s in Hm. clearbody s.
  unfold MemoryOrgStore_AddMember. destruct (orgs s !! UOR_OrgID rel) as [o|] eqn:Ho; [|done].
  destruct (existsb _ _) eqn:Hex; [done|]. intros [= <-]. simpl.
  assert (UOR_UserID rel ∉ UOR_UserID <$> at_key (org_members s) (UOR_OrgID rel)) as Hnew
    by (by rewrite <- existsb_key, Hex).
  pose proof (mirror_push_fresh UOR_OrgID UOR_UserID _ _ _ Hm Hnew) as Hnew'.
  unfold MemoryOrgStore_ListMembers, MemoryOrgStore_RemoveMember, MemoryOrgStore_GetUserOrgs. simpl.
  rewrite Ho. assert (existsb (λ r, UOR_UserID r =? UOR_UserID rel)%string
    (at_key (push (org_members s) (UOR_OrgID rel) rel) (UOR_OrgID rel)) = true) as Hin.
  { apply existsb_key, list_elem_of_fmap. exists rel. rewrite elem_of_push. auto. }
  rewrite Hin. unfold push at 1. rewrite at_key_insert_eq. split_and!; [done|done|].
  eexists. split; [done|]. simpl. unfold removeUserOrgRelation. split_and!.
  - intros o'. destruct (orgs s !! o'); simpl; [|done]. by rewrite at_key_remove_push.
  - intros u. by rewrite drop_container_push.
  - rewrite at_key_remove_push by done. by rewrite Hex.
Qed.

Lemma org_member_add_remove_witness :
  ∃ s'', MemoryOrgStore_RemoveMember "b" "u" (MemoryOrgStore_AddMember rel_b org_sample).2
           = (Ok (), s'') ∧
    MemoryOrgStore_RemoveMember "b" "u" s'' = (Err ErrMemberNotFound, s'').
Proof.
  destruct (org_member_add_remove org_history rel_b (MemoryOrgStore_AddMember rel_b org_sample).2)
    as (_ & _ & s'' & H & _ & _ & H'); [vm_compute; reflexivity|].
  exists s''. split; [exact H|exact H'].
Defined.

(** Deleting an existing organization makes it unknown and removes exactly its memberships:
    every other organization keeps its record and members, every user keeps the memberships of
    the other organizations, in their order. *)
Theorem org_delete_removes_memberships (cs : list org_call) (id : string) :
  let s := org_execs cs NewMemoryOrgStore in
  let '(r, s') := MemoryOrgStore_Delete id s in
  r = (if decide (is_Some (orgs s !! id)) then Ok () else Err ErrOrgNotFound) ∧
  (MemoryOrgStore_GetByID id s').1 = Err ErrOrgNotFound ∧
  (MemoryOrgStore_ListMembers id s').1 = Err ErrOrgNotFound ∧
  (∀ o, o ≠ id → (MemoryOrgStore_GetByID o s').1 = (MemoryOrgStore_GetByID o s).1 ∧
     (MemoryOrgStore_ListMembers o s').1 = (MemoryOrgStore_ListMembers o s).1) ∧
  (∀ u, MemoryOrgStore_GetUserOrgs u s'
     = (Ok (filter (λ r, UOR_OrgID r ≠ id) (at_key (userOrgs s) u)), s')).
Proof.
  intros s. destruct (org_inv_execs cs _ org_inv_new) as [_ Hm He]. fold s in Hm, He. clearbody s.
  unfold MemoryOrgStore_Delete, MemoryOrgStore_GetByID, MemoryOrgStore_ListMembers,
    MemoryOrgStore_GetUserOrgs.
  destruct (orgs s !! id) as [od|] eqn:E; simpl; rewrite ?E.
  - rewrite lookup_delete_eq. split_and!; [done..| |].
    + intros o Hne. rewrite lookup_delete_ne, at_key_delete, decide_False by done.
      by destruct (orgs s !! o).
    + intros u. repeat f_equal. by apply (at_key_drop_all UOR_OrgID UOR_UserID (org_members s)).
  - split_and!; [done..|].
    intros u. repeat f_equal. symmetry. apply filter_keeps. intros r Hr Heq.
    destruct (He id r) as [x Hx]; [|congruence].
    rewrite <- Heq. apply (mirror_same _ _ _ _ Hm). by rewrite (mirror_user _ _ _ _ Hm u r Hr).
Qed.

(** C29. As long as parents are not changed and organizations with children are not deleted, every
    organization has a finite line of existing ancestors up to a root, with no repetition, and
    its stored path spells that line. *)
Theorem org_paths_spell_lineages (s : MemoryOrgStore) (i : string) (o : Organization) :
  tame_reach s → (MemoryOrgStore_GetByID i s).1 = Ok o →
  ∃ l, lineage (orgs s) i l ∧ NoDup l ∧ Org_Path o = path_of l.
Proof.
  intros Hs%tame_path_ok. unfold MemoryOrgStore_GetByID.
  destruct (orgs s !! i) as [o'|] eqn:E; [|done]. intros [= <-].
  destruct (path_ok_lineage s i o' Hs E) as (l & ? & ? & ? & _). by exists l.
Qed.

Lemma org_paths_spell_lineages_witness :
  ∃ l, lineage (orgs org_sample) "b" l ∧ NoDup l ∧ "/a/b" = path_of l.
Proof.
  apply (org_paths_spell_lineages org_sample "b"
    (set_Org_Path "/a/b" (set_Org_stamps 2%Z org_b)) org_sample_tame).
  vm_compute. reflexivity.
Defined.

Lemma Update_with_parent s id now o p :
  orgs s !! id = Some o → p ≠ "" →
  MemoryOrgStore_Update now (with_parent id p) s
  = (Ok (), set_orgs (<[id := set_Org_UpdatedAt now (set_Org_ParentID p o)]> (orgs s)) s).
Proof.
  intros Ho Hp. unfold MemoryOrgStore_Update. simpl. rewrite Ho.
  by rewrite (bool_decide_eq_true_2 (p ≠ "")).
Qed.

(** Changing a parent is unchecked: any non-empty parent id is stored, even one that names no
    organization, and the path is left as it was; moving an organization under its own child
    leaves it without any line of ancestors to a root. *)
Theorem org_update_parent_unchecked (s : MemoryOrgStore) (now : Time) (a b : string)
    (oa : Organization) :
  (MemoryOrgStore_GetByID a s).1 = Ok oa → b ≠ "" →
  let '(r, s') := MemoryOrgStore_Update now (with_parent a b) s in
  r = Ok () ∧
  (∃ oa', (MemoryOrgStore_GetByID a s').1 = Ok oa' ∧ Org_ParentID oa' = b ∧
     Org_Path oa' = Org_Path oa) ∧
  (∀ ob, a ≠ "" → a ≠ b → (MemoryOrgStore_GetByID b s).1 = Ok ob → Org_ParentID ob = a →
     ∀ l, ¬ lineage (orgs s') a l).
Proof.
  unfold MemoryOrgStore_GetByID. destruct (orgs s !! a) as [oa'|] eqn:Ea; [|done].
  intros [= ->] Hb. rewrite (Update_with_parent _ _ _ _ _ Ea Hb). simpl.
  rewrite lookup_insert_eq. split_and!; [done|by eexists|].
  intros ob Hna Hab. destruct (orgs s !! b) as [ob'|] eqn:Eb; [|done]. intros [= ->] Hpar l.
  eapply (lineage_no_cycle _ a b); [apply lookup_insert_eq| |done|done|done|done].
  by rewrite lookup_insert_ne.
Qed.

Lemma org_update_parent_unchecked_witness :
  (MemoryOrgStore_Update 3%Z (with_parent "a" "b") org_sample).1 = Ok () ∧
  ∀ l, ¬ lineage (orgs (MemoryOrgStore_Update 3%Z (with_parent "a" "b") org_sample).2) "a" l.
Proof.
  split; [vm_compute; reflexivity|].
  destruct (org_update_parent_unchecked org_sample 3%Z "a" "b"
    (set_Org_Path "/a" (set_Org_stamps 1%Z org_a))) as (_ & _ & H);
    [vm_compute; reflexivity|done|].
  apply (H (set_Org_Path "/a/b" (set_Org_stamps 2%Z org_b))); [done|done|vm_compute; reflexivity|done].
Defined.

(** Whatever the iteration order of the map, the children of an organization are listed
    exactly once each. *)
Theorem org_children_exact (cs : list org_call) (iter : list string) (p : string) :
  let s := org_execs cs NewMemoryOrgStore in
  iter ≡ₚ (map_to_list (orgs s)).*1 →
  ∃ l, MemoryOrgStore_ListChildren iter p s = (Ok l, s) ∧ NoDup (Org_ID <$> l) ∧
    ∀ o, o ∈ l ↔ (MemoryOrgStore_GetByID (Org_ID o) s).1 = Ok o ∧ Org_ParentID o = p.
Proof.
  intros s. destruct (org_inv_execs cs _ org_inv_new) as [Hids _ _]. fold s in Hids. clearbody s.
  intros Hiter. eexists. split; [done|].
  assert (enumerate iter (orgs s) ≡ₚ (map_to_list (orgs s)).*2) as Hen by by apply enumerate_perm.
  assert (∀ o, o ∈ enumerate iter (orgs s) ↔ orgs s !! Org_ID o = Some o) as Hin.
  { intros o. rewrite Hen, list_elem_of_fmap. split.
    - intros ([i o'] & -> & Hio%elem_of_map_to_list). simpl. by rewrite (Hids _ _ Hio).
    - intros Ho. exists (Org_ID o, o). by rewrite elem_of_map_to_list. }
  split.
  - apply NoDup_fmap_filter. rewrite Hen, <- list_fmap_compose.
    erewrite list_fmap_ext; [apply NoDup_fst_map_to_list|].
    intros ? [i o] Hio%list_elem_of_lookup_2%elem_of_map_to_list. simpl. by apply Hids.
  - intros o. rewrite list_elem_of_filter, Hin. unfold MemoryOrgStore_GetByID.
    destruct (orgs s !! Org_ID o); naive_solver.
Qed.

Lemma org_children_exact_witness :
  ∃ l, MemoryOrgStore_ListChildren ["b"; "a"] "a" org_sample = (Ok l, org_sample) ∧
    NoDup (Org_ID <$> l) ∧
    ∀ o, o ∈ l ↔ (MemoryOrgStore_GetByID (Org_ID o) org_sample).1 = Ok o ∧ Org_ParentID o = "a".
Proof. apply (org_children_exact org_history). decided. Defined.
