(* ===== verification/GroupStore.v ===== *)
(** * The in-memory group store

    [MemoryGroupStore] of [internal/directory/memory_store.go]: like the organization store
    without a hierarchy; [AddMember] stamps the membership with the time of joining. *)

From Stdlib Require Import ZArith Lia.
From stdpp Require Import base tactics numbers list gmap strings.
From S2P Require Import Prelude Model GoStrings UserStore Membership.

(** The interface [directory.GroupStore]. *)
Class GroupStore (GS : Type) : Type := {
  gs_Create : Time → Group → GoM error GS Group;
  gs_GetByID : string → GoM error GS Group;
  gs_Update : Time → Group → GoM error GS unit;
  gs_Delete : string → GoM error GS unit;
  gs_List : list string → Z → Z → GoM error GS (list Group * Z);
  gs_AddMember : Time → GroupMember → GoM error GS GroupMember;
  gs_RemoveMember : string → string → GoM error GS unit;
  gs_ListMembers : string → GoM error GS (list GroupMember);
  gs_GetUserGroups : string → GoM error GS (list GroupMember);
}.

(** ** State *)
Record MemoryGroupStore : Type := mkMemoryGroupStore {
  groups : gmap string Group;                     (* id -> group *)
  group_members : gmap string (list GroupMember); (* groupID -> members *)
  userGroups : gmap string (list GroupMember);    (* userID -> members *)
}.

Definition NewMemoryGroupStore : MemoryGroupStore := mkMemoryGroupStore ∅ ∅ ∅.

Definition set_groups (v : gmap string Group) (s : MemoryGroupStore) : MemoryGroupStore :=
  mkMemoryGroupStore v (group_members s) (userGroups s).

(** Field assignments. *)
Definition set_Group_stamps (now : Time) (g : Group) : Group :=
  mkGroup (Group_ID g) (Group_Name g) (Group_Description g) (Group_Type g) now now.
Definition set_Group_Name (v : string) (g : Group) : Group :=
  mkGroup (Group_ID g) v (Group_Description g) (Group_Type g) (Group_CreatedAt g) (Group_UpdatedAt g).
Definition set_Group_Description (v : string) (g : Group) : Group :=
  mkGroup (Group_ID g) (Group_Name g) v (Group_Type g) (Group_CreatedAt g) (Group_UpdatedAt g).
Definition set_Group_Type (v : string) (g : Group) : Group :=
  mkGroup (Group_ID g) (Group_Name g) (Group_Description g) v (Group_CreatedAt g) (Group_UpdatedAt g).
Definition set_Group_UpdatedAt (v : Time) (g : Group) : Group :=
  mkGroup (Group_ID g) (Group_Name g) (Group_Description g) (Group_Type g) (Group_CreatedAt g) v.
Definition set_GM_JoinedAt (v : Time) (m : GroupMember) : GroupMember :=
  mkGroupMember (GM_GroupID m) (GM_UserID m) (GM_Role m) v.

(** ** Methods *)

(** The pointer arguments of [Create] and [AddMember] are mutated; the caller's object is
    returned. *)
Definition MemoryGroupStore_Create (now : Time) (group : Group) :
    GoM error MemoryGroupStore Group := λ s,
  match groups s !! Group_ID group with
  | Some _ => (Err (ErrorString "group already exists"), s)
  | None =>
      let group := set_Group_stamps now group in
      (Ok group, set_groups (<[Group_ID group := group]> (groups s)) s)
  end.

Definition MemoryGroupStore_GetByID (id : string) : GoM error MemoryGroupStore Group := λ s,
  match groups s !! id with
  | None => (Err ErrGroupNotFound, s)
  | Some g => (Ok g, s)
  end.

Definition MemoryGroupStore_Update (now : Time) (group : Group) :
    GoM error MemoryGroupStore unit := λ s,
  match groups s !! Group_ID group with
  | None => (Err ErrGroupNotFound, s)
  | Some existing =>
      let existing := if bool_decide (Group_Name group ≠ "")
                      then set_Group_Name (Group_Name group) existing else existing in
      let existing := if bool_decide (Group_Description group ≠ "")
                      then set_Group_Description (Group_Description group) existing else existing in
      let existing := if bool_decide (Group_Type group ≠ "")
                      then set_Group_Type (Group_Type group) existing else existing in
      let existing := set_Group_UpdatedAt now existing in
      (Ok (), set_groups (<[Group_ID group := existing]> (groups s)) s)
  end.

Definition removeUserGroupRelation (userID groupID : string) (m : gmap string (list GroupMember)) :
    gmap string (list GroupMember) :=
  drop_container GM_GroupID m userID groupID.

Definition MemoryGroupStore_Delete (id : string) : GoM error MemoryGroupStore unit := λ s,
  match groups s !! id with
  | None => (Err ErrGroupNotFound, s)
  | Some _ =>
      let userGroups' := foldl (λ acc m, removeUserGroupRelation (GM_UserID m) id acc)
                           (userGroups s) (at_key (group_members s) id) in
      (Ok (), mkMemoryGroupStore (delete id (groups s)) (delete id (group_members s)) userGroups')
  end.

Definition MemoryGroupStore_List (iter : list string) (offset limit : Z) :
    GoM error MemoryGroupStore (list Group * Z) := λ s,
  let all := enumerate iter (groups s) in
  match paginate all offset limit with
  | Some page => (Ok page, s)
  | None => (Panic, s)
  end.

Definition MemoryGroupStore_AddMember (now : Time) (member : GroupMember) :
    GoM error MemoryGroupStore GroupMember := λ s,
  match groups s !! GM_GroupID member with
  | None => (Err ErrGroupNotFound, s)
  | Some _ =>
      if existsb (λ m, String.eqb (GM_UserID m) (GM_UserID member))
           (at_key (group_members s) (GM_GroupID member))
      then (Err ErrMemberExists, s)
      else
        let member := set_GM_JoinedAt now member in
        (Ok member, mkMemoryGroupStore (groups s)
                      (push (group_members s) (GM_GroupID member) member)
                      (push (userGroups s) (GM_UserID member) member))
  end.

Definition MemoryGroupStore_RemoveMember (groupID userID : string) :
    GoM error MemoryGroupStore unit := λ s,
  let rels := at_key (group_members s) groupID in
  let kept := filter (λ m, GM_UserID m ≠ userID) rels in
  let found := existsb (λ m, String.eqb (GM_UserID m) userID) rels in
  if negb found then (Err ErrMemberNotFound, s)
  else (Ok (), mkMemoryGroupStore (groups s) (<[groupID := kept]> (group_members s))
                 (removeUserGroupRelation userID groupID (userGroups s))).

Definition MemoryGroupStore_ListMembers (groupID : string) :
    GoM error MemoryGroupStore (list GroupMember) := λ s,
  match groups s !! groupID with
  | None => (Err ErrGroupNotFound, s)
  | Some _ => (Ok (at_key (group_members s) groupID), s)
  end.

Definition MemoryGroupStore_GetUserGroups (userID : string) :
    GoM error MemoryGroupStore (list GroupMember) := λ s,
  (Ok (at_key (userGroups s) userID), s).

#[export] Instance MemoryGroupStore_GroupStore : GroupStore MemoryGroupStore := {
  gs_Create := MemoryGroupStore_Create;
  gs_GetByID := MemoryGroupStore_GetByID;
  gs_Update := MemoryGroupStore_Update;
  gs_Delete := MemoryGroupStore_Delete;
  gs_List := MemoryGroupStore_List;
  gs_AddMember := MemoryGroupStore_AddMember;
  gs_RemoveMember := MemoryGroupStore_RemoveMember;
  gs_ListMembers := MemoryGroupStore_ListMembers;
  gs_GetUserGroups := MemoryGroupStore_GetUserGroups;
}.

(** ** Histories and their invariant *)
Inductive group_call : Type :=
| GroupCreate (now : Time) (g : Group)
| GroupUpdate (now : Time) (g : Group)
| GroupDelete (id : string)
| GroupAddMember (now : Time) (m : GroupMember)
| GroupRemoveMember (groupID userID : string).

Definition group_exec (c : group_call) (s : MemoryGroupStore) : MemoryGroupStore :=
  match c with
  | GroupCreate now g => (MemoryGroupStore_Create now g s).2
  | GroupUpdate now g => (MemoryGroupStore_Update now g s).2
  | GroupDelete id => (MemoryGroupStore_Delete id s).2
  | GroupAddMember now m => (MemoryGroupStore_AddMember now m s).2
  | GroupRemoveMember g u => (MemoryGroupStore_RemoveMember g u s).2
  end.

Definition group_execs (cs : list group_call) (s : MemoryGroupStore) : MemoryGroupStore :=
  foldl (λ s c, group_exec c s) s cs.

Record group_inv (s : MemoryGroupStore) : Prop := {
  group_ids i g : groups s !! i = Some g → Group_ID g = i;
  group_mirror : mirror GM_GroupID GM_UserID (group_members s) (userGroups s);
  group_members_exist c r : r ∈ at_key (group_members s) c → is_Some (groups s !! c);
}.

Lemma group_inv_new : group_inv NewMemoryGroupStore.
Proof.
  split; simpl; [done|apply mirror_empty|].
  intros c r Hr. unfold at_key in Hr. rewrite lookup_empty in Hr. inversion Hr.
Qed.

Lemma group_inv_insert s i g :
  group_inv s → Group_ID g = i → group_inv (set_groups (<[i := g]> (groups s)) s).
Proof.
  intros [Hids Hm He] Hi. split; simpl; [|done|].
  - intros j g'. rewrite lookup_insert. case_decide; [|apply Hids]. intros [= <-]. by subst.
  - intros c r Hr%He. rewrite lookup_insert. by case_decide.
Qed.

Lemma group_inv_exec c s : group_inv s → group_inv (group_exec c s).
Proof.
  intros Hinv. destruct c as [now g|now g|id|now m|g u]; simpl.
  - unfold MemoryGroupStore_Create. destruct (groups s !! Group_ID g); [done|].
    by apply group_inv_insert.
  - unfold MemoryGroupStore_Update. destruct (groups s !! Group_ID g) as [ex|] eqn:E; [|done].
    apply group_inv_insert; [done|]. repeat case_bool_decide; simpl; by apply (group_ids s Hinv).
  - unfold MemoryGroupStore_Delete. destruct (groups s !! id); [|done].
    destruct Hinv as [Hids Hm He]. split; simpl.
    + intros i g' [_ Hi]%lookup_delete_Some. by apply Hids.
    + by apply (mirror_drop GM_GroupID GM_UserID).
    + intros c r. rewrite at_key_delete. case_decide; [by intros ?%elem_of_nil|].
      intros Hr%He. by rewrite lookup_delete_ne.
  - unfold MemoryGroupStore_AddMember. destruct (groups s !! GM_GroupID m) eqn:E; [|done].
    destruct (existsb _ _) eqn:Hex; [done|]. destruct Hinv as [Hids Hm He]. split; simpl; [done| |].
    + apply (mirror_push GM_GroupID GM_UserID _ _ (set_GM_JoinedAt now m)); [done|].
      simpl. by rewrite <- existsb_key, Hex.
    + intros c r [Hr|[<- ->]]%elem_of_push; [by eapply He|by rewrite E].
  - unfold MemoryGroupStore_RemoveMember. destruct (existsb _ _); simpl; [|done].
    destruct Hinv as [Hids Hm He]. split; simpl; [done|by apply (mirror_remove GM_GroupID GM_UserID)|].
    intros c r. rewrite at_key_insert. case_decide; [subst|by apply He].
    intros [_ Hr]%list_elem_of_filter. by eapply He.
Qed.

Lemma group_inv_execs cs s : group_inv s → group_inv (group_execs cs s).
Proof. revert s. induction cs; intros s Hinv; simpl; [done|]. by apply IHcs, group_inv_exec. Qed.

(** Where the memberships of a user come from. *)
Lemma group_exec_source c s u r :
  r ∈ at_key (userGroups (group_exec c s)) u →
  r ∈ at_key (userGroups s) u ∨
    ∃ now m, c = GroupAddMember now m ∧ r = set_GM_JoinedAt now m ∧ GM_UserID m = u.
Proof.
  destruct c as [now g|now g|id|now m|g u']; simpl.
  - unfold MemoryGroupStore_Create. destruct (groups s !! Group_ID g); by left.
  - unfold MemoryGroupStore_Update. destruct (groups s !! Group_ID g); by left.
  - unfold MemoryGroupStore_Delete. destruct (groups s !! id); [|by left].
    intros [? _]%(elem_of_drop_all GM_GroupID GM_UserID). by left.
  - unfold MemoryGroupStore_AddMember. destruct (groups s !! _); [|by left].
    destruct (existsb _ _); [by left|]. simpl. rewrite elem_of_push.
    intros [?|[? ->]]; [by left|right]. by exists now, m.
  - unfold MemoryGroupStore_RemoveMember. destruct (existsb _ _); [|by left].
    intros [? _]%(elem_of_drop_container GM_GroupID GM_UserID). by left.
Qed.

(** A group "g" and a member "u". *)
Definition group_g : Group := mkGroup "g" "Developers" "" "team" zero_time zero_time.
Definition member_g : GroupMember := mkGroupMember "g" "u" "member" zero_time.
Definition group_history : list group_call := [GroupCreate 1%Z group_g].

(** ** Properties *)

(** C30. After any history of calls on the group store, the members listed for a group are exactly
    the memberships listed for their users, all of existing groups, each pair once; a deleted
    group is unknown and nobody is listed in it. *)
Theorem group_memberships_mirror (cs : list group_call) :
  let s := group_execs cs NewMemoryGroupStore in
  (∀ g rels, MemoryGroupStore_ListMembers g s = (Ok rels, s) →
     NoDup (GM_UserID <$> rels) ∧
     ∀ r, r ∈ rels → GM_GroupID r = g ∧
       ∃ rels', MemoryGroupStore_GetUserGroups (GM_UserID r) s = (Ok rels', s) ∧ r ∈ rels') ∧
  (∀ u rels, MemoryGroupStore_GetUserGroups u s = (Ok rels, s) →
     NoDup (GM_GroupID <$> rels) ∧
     ∀ r, r ∈ rels → GM_UserID r = u ∧
       ∃ rels', MemoryGroupStore_ListMembers (GM_GroupID r) s = (Ok rels', s) ∧ r ∈ rels') ∧
  (∀ g, let '(r, s') := MemoryGroupStore_Delete g s in
     (MemoryGroupStore_GetByID g s').1 = Err ErrGroupNotFound ∧
     ∀ u, MemoryGroupStore_GetUserGroups u s'
       = (Ok (filter (λ m, GM_GroupID m ≠ g) (at_key (userGroups s) u)), s')).
Proof.
  intros s. destruct (group_inv_execs cs _ group_inv_new) as [_ Hm He]. fold s in Hm, He.
  clearbody s. pose proof Hm as [Hc Hu Hs Hn Hnu].
  unfold MemoryGroupStore_ListMembers, MemoryGroupStore_GetUserGroups, MemoryGroupStore_Delete,
    MemoryGroupStore_GetByID. split_and!.
  - intros g rels. destruct (groups s !! g); [|done]. intros [= <-]. split; [done|].
    intros r Hr. pose proof (Hc _ _ Hr) as Heq. split; [done|]. eexists. split; [done|].
    apply Hs. by rewrite Heq.
  - intros u rels [= <-]. split; [done|]. intros r Hr. pose proof (Hu _ _ Hr) as Heq.
    split; [done|]. rewrite <- Heq in Hr. apply Hs in Hr. destruct (He _ _ Hr) as [x ->]. by eexists.
  - intros g. destruct (groups s !! g) as [og|] eqn:E; simpl; rewrite ?E.
    + rewrite lookup_delete_eq. split; [done|]. intros u. repeat f_equal.
      by apply (at_key_drop_all GM_GroupID GM_UserID (group_members s)).
    + split; [done|]. intros u. repeat f_equal. symmetry. apply filter_keeps. intros r Hr Heq.
      destruct (He g r) as [x Hx]; [|congruence].
      rewrite <- Heq. apply Hs. by rewrite (Hu u r Hr).
Qed.

(** Adding a group member stamps the membership with the time of the call and appends it to
    both lists; a second addition is refused; removing the member restores the lists of every
    group and user, and a second removal is refused. *)
Theorem group_member_add_remove (cs : list group_call) (now : Time) (m m' : GroupMember)
    (s' : MemoryGroupStore) :
  let s := group_execs cs NewMemoryGroupStore in
  MemoryGroupStore_AddMember now m s = (Ok m', s') →
  m' = set_GM_JoinedAt now m ∧
  MemoryGroupStore_ListMembers (GM_GroupID m) s'
    = (Ok (at_key (group_members s) (GM_GroupID m) ++ [m']), s') ∧
  MemoryGroupStore_GetUserGroups (GM_UserID m) s'
    = (Ok (at_key (userGroups s) (GM_UserID m) ++ [m']), s') ∧
  (∀ later, MemoryGroupStore_AddMember later m s' = (Err ErrMemberExists, s')) ∧
  ∃ s'', MemoryGroupStore_RemoveMember (GM_GroupID m) (GM_UserID m) s' = (Ok (), s'') ∧
    (∀ g, (MemoryGroupStore_ListMembers g s'').1 = (MemoryGroupStore_ListMembers g s).1) ∧
    (∀ u, (MemoryGroupStore_GetUserGroups u s'').1 = (MemoryGroupStore_GetUserGroups u s).1) ∧
    MemoryGroupStore_RemoveMember (GM_GroupID m) (GM_UserID m) s'' = (Err ErrMemberNotFound, s'').
Proof.
  intros s. destruct (group_inv_execs cs _ group_inv_new) as [_ Hm _]. fold s in Hm. clearbody s.
  unfold MemoryGroupStore_AddMember. destruct (groups s !! GM_GroupID m) as [o|] eqn:Ho; [|done].
  destruct (existsb _ _) eqn:Hex; [done|]. simpl. set (m0 := set_GM_JoinedAt now m).
  intros [= <- <-]. simpl.
  assert (GM_UserID m0 ∉ GM_UserID <$> at_key (group_members s) (GM_GroupID m0)) as Hnew
    by (rewrite <- existsb_key; intros Ht; exact (diff_true_false (eq_trans (eq_sym Ht) Hex))).
  pose proof (mirror_push_fresh GM_GroupID GM_UserID _ _ _ Hm Hnew) as Hnew'.
  unfold MemoryGroupStore_ListMembers, MemoryGroupStore_RemoveMember,
    MemoryGroupStore_GetUserGroups. simpl.
  change (GM_GroupID m) with (GM_GroupID m0) in *. change (GM_UserID m) with (GM_UserID m0) in *.
  rewrite Ho. assert (existsb (λ r, GM_UserID r =? GM_UserID m0)%string
    (at_key (push (group_members s) (GM_GroupID m0) m0) (GM_GroupID m0)) = true) as Hin.
  { apply existsb_key, list_elem_of_fmap. exists m0. rewrite elem_of_push. auto. }
  rewrite Hin. unfold push at 1. rewrite at_key_insert_eq.
  split_and!; [done|done|by unfold push; rewrite at_key_insert_eq|done|].
  eexists. split; [done|]. simpl. unfold removeUserGroupRelation. split_and!.
  - intros o'. destruct (groups s !! o'); simpl; [|done]. f_equal.
    exact (at_key_remove_push GM_UserID _ _ m0 o' Hnew).
  - intros u. f_equal. exact (drop_container_push GM_GroupID GM_UserID _ m0 u Hnew').
  - match goal with |- context [at_key (<[_ := ?l]> _) _] =>
      assert (l = at_key (group_members s) (GM_GroupID m)) as -> end;
      [|rewrite at_key_insert_eq; by destruct (existsb _ _)].
    etrans; [|exact (at_key_remove_push GM_UserID _ _ m0 (GM_GroupID m0) Hnew)].
    by rewrite at_key_insert_eq.
Qed.

Lemma group_member_add_remove_witness :
  ∃ s'', MemoryGroupStore_RemoveMember "g" "u"
           (MemoryGroupStore_AddMember 5%Z member_g (group_execs group_history NewMemoryGroupStore)).2
         = (Ok (), s'') ∧
    MemoryGroupStore_RemoveMember "g" "u" s'' = (Err ErrMemberNotFound, s'').
Proof.
  destruct (group_member_add_remove group_history 5%Z member_g (set_GM_JoinedAt 5%Z member_g)
    (MemoryGroupStore_AddMember 5%Z member_g (group_execs group_history NewMemoryGroupStore)).2)
    as (_ & _ & _ & _ & s'' & H & _ & _ & H'); [vm_compute; reflexivity|].
  exists s''. split; [exact H|exact H'].
Defined.
