(* ===== verification/Auth.v ===== *)
(** * Authentication service

    [internal/auth/service.go]: configuration defaults, password storage and comparison, and
    the signed tokens. The token library is a parameter ([Class JWT]) with the part of its
    documented behaviour that the code relies on ([Class JWTLaws]). *)

From Stdlib Require Import Ascii ZArith Lia.
From stdpp Require Import base tactics numbers list gmap strings.
From S2P Require Import Prelude Model GoStrings.

(** ** Time *)
Definition Duration : Type := Z.
Definition Second : Duration := 1000000000%Z.
Definition Hour : Duration := (3600 * Second)%Z.

(** [t.Unix()]: whole seconds since 1970, for a time counted from Go's zero time. *)
Definition Unix (t : Time) : Z := (t / Second - 62135596800)%Z.

(** [jwt.NewNumericDate(t)] keeps whole seconds ([t.Truncate(time.Second)]). *)
Definition NewNumericDate (t : Time) : Time := (t / Second * Second)%Z.

(** ** Data *)
Definition DefaultBcryptCost : Z := 10.
Definition DefaultTokenExpiry : Duration := (24 * Hour)%Z.

Record Claims : Type := mkClaims {
  Claims_UserID : string;
  Claims_Username : string;
  Claims_ExpiresAt : option Time;
  Claims_IssuedAt : option Time;
  Claims_Subject : string;
}.

#[export] Instance Claims_eq_dec : EqDecision Claims.
Proof. solve_decision. Defined.

Record AuthService : Type := mkAuthService {
  jwtSecret : string;
  tokenExpiry : Duration;
  bcryptCost : Z;
}.

Record Config : Type := mkConfig {
  JWTSecret : string;
  TokenExpiry : Duration;
  BcryptCost : Z;
}.

Definition NewService (cfg : Config) : AuthService :=
  let expiry := if bool_decide (TokenExpiry cfg = 0%Z) then DefaultTokenExpiry
                else TokenExpiry cfg in
  let cost := if bool_decide (BcryptCost cfg = 0%Z) then DefaultBcryptCost
              else BcryptCost cfg in
  mkAuthService (JWTSecret cfg) expiry cost.

(** ** The token library *)

(** The signing methods the key function distinguishes by a type assertion. *)
Inductive SigningMethod : Type :=
| SigningMethodHMAC
| SigningMethodOther (alg : string).

#[export] Instance SigningMethod_eq_dec : EqDecision SigningMethod.
Proof. solve_decision. Defined.

Class JWT : Type := {
  (** [jwt.NewWithClaims(jwt.SigningMethodHS256, claims).SignedString(key)] *)
  SignedString : string → Claims → error + string;
  (** [jwt.ParseWithClaims(tok, &Claims{}, keyFunc)] at a time: the claims and [token.Valid] *)
  ParseWithClaims : Time → string → (SigningMethod → error + string) → error + (Claims * bool);
  (** The header and claims a token string spells, and whether a signature matches a key. *)
  token_contents : string → option (SigningMethod * Claims);
  token_verifies : SigningMethod → string → string → bool;
}.

(** A token is not expired: claims without an expiry never are. *)
Definition unexpired (now : Time) (c : Claims) : Prop :=
  match Claims_ExpiresAt c with Some e => (now < e)%Z | None => True end.
#[export] Instance unexpired_dec now c : Decision (unexpired now c).
Proof. unfold unexpired. destruct (Claims_ExpiresAt c); apply _. Defined.

Class JWTLaws `{JWT} : Prop := {
  (** parsing asks the key function for the key of the token's own method, checks the
      signature under that key, then the expiry *)
  parse_spec now tok kf c v :
    ParseWithClaims now tok kf = inr (c, v) ↔
    v = true ∧ ∃ m key, token_contents tok = Some (m, c) ∧ kf m = inr key ∧
      token_verifies m key tok = true ∧ unexpired now c;
  (** a signed token is not empty, spells its claims and verifies under the signing key *)
  signed_spec key c tok :
    SignedString key c = inr tok →
    tok ≠ "" ∧ token_contents tok = Some (SigningMethodHMAC, c) ∧
    token_verifies SigningMethodHMAC key tok = true;
}.

(** ** Methods *)
Definition ErrPasswordTooShort : error := ErrorString "password must be at least 8 characters".

(** [len(password)] counts bytes. *)
Definition HashPassword (s : AuthService) (password : string) : error + string :=
  if bool_decide (Z.of_nat (String.length password) < 8)%Z
  then inl ErrPasswordTooShort
  else inr password.

Definition VerifyPassword (s : AuthService) (hash password : string) : bool :=
  String.eqb hash password.

(** [now1] and [now2] are the two readings of the clock. *)
Definition GenerateToken `{JWT} (s : AuthService) (now1 now2 : Time) (userID username : string) :
    error + (string * Z) :=
  let expiry := (now1 + tokenExpiry s)%Z in
  let claims := mkClaims userID username (Some (NewNumericDate expiry))
                  (Some (NewNumericDate now2)) userID in
  match SignedString (jwtSecret s) claims with
  | inl err => inl err
  | inr tokenString => inr (tokenString, Unix expiry)
  end.

Definition key_func (s : AuthService) (m : SigningMethod) : error + string :=
  match m with
  | SigningMethodHMAC => inr (jwtSecret s)
  | SigningMethodOther _ => inl (ErrorString "unexpected signing method")
  end.

Definition ValidateToken `{JWT} (s : AuthService) (now : Time) (tokenString : string) :
    error + Claims :=
  match ParseWithClaims now tokenString (key_func s) with
  | inl err => inl err
  | inr (claims, valid) =>
      if negb valid then inl (ErrorString "invalid token") else inr claims
  end.

(** ** Facts *)

Lemma validate_spec `{JWTLaws} s now tok c :
  ValidateToken s now tok = inr c ↔
  token_contents tok = Some (SigningMethodHMAC, c) ∧
  token_verifies SigningMethodHMAC (jwtSecret s) tok = true ∧ unexpired now c.
Proof.
  unfold ValidateToken. split.
  - destruct (ParseWithClaims now tok (key_func s)) as [e|[c' v]] eqn:E; [done|].
    apply parse_spec in E as (-> & m & key & Hc & Hk & Hv & Hu). simpl. intros [= ->].
    destruct m; simplify_eq/=. done.
  - intros (Hc & Hv & Hu).
    assert (ParseWithClaims now tok (key_func s) = inr (c, true)) as ->; [|done].
    apply parse_spec. split; [done|]. by exists SigningMethodHMAC, (jwtSecret s).
Qed.

(** The claims of an issued token, and how long they validate. *)
Lemma token_exact `{JWTLaws} s now1 now2 id name tok expires :
  GenerateToken s now1 now2 id name = inr (tok, expires) →
  ∃ c, (∀ t, (Unix t < expires)%Z ↔ ValidateToken s t tok = inr c) ∧
    Claims_UserID c = id ∧ Claims_Username c = name ∧ Claims_Subject c = id ∧
    (∀ t c', ValidateToken s t tok = inr c' → c' = c) ∧ tok ≠ "" ∧
    expires = Unix (now1 + tokenExpiry s)%Z.
Proof.
  unfold GenerateToken. set (c := mkClaims _ _ _ _ _).
  destruct (SignedString (jwtSecret s) c) as [e|t] eqn:E; [done|]. intros [= <- <-].
  apply signed_spec in E as (Hne & Hc & Hv). exists c. split_and!; [|done|done|done| |done|done].
  - intros now. rewrite validate_spec.
    assert (unexpired now c ↔ (Unix now < Unix (now1 + tokenExpiry s))%Z) as ->.
    { unfold unexpired, c, Unix, NewNumericDate, Second. simpl.
      pose proof (Z.div_mod now 1000000000 ltac:(lia)).
      pose proof (Z.mod_pos_bound now 1000000000 ltac:(lia)). nia. }
    tauto.
  - intros now c' (Hc' & _)%validate_spec. congruence.
Qed.

(** A concrete token format, for the witnesses: the method, the key and the claims in the clear,
    as a string of binary digits. *)
Module Clear.
Fixpoint digits (p : positive) : string :=
  match p with
  | xH => ""
  | xO p => String "0"%char (digits p)
  | xI p => String "1"%char (digits p)
  end.
Fixpoint undigits (s : string) : positive :=
  match s with
  | String "0"%char s => xO (undigits s)
  | String _ s => xI (undigits s)
  | EmptyString => xH
  end.

Lemma undigits_digits p : undigits (digits p) = p.
Proof. induction p; simpl; by f_equal. Qed.

Definition payload : Type := option string * string * (string * string * option Z * option Z * string).

Definition of_claims (c : Claims) : string * string * option Z * option Z * string :=
  (Claims_UserID c, Claims_Username c, Claims_ExpiresAt c, Claims_IssuedAt c, Claims_Subject c).
Definition to_claims (p : string * string * option Z * option Z * string) : Claims :=
  let '(u, n, e, i, sub) := p in mkClaims u n e i sub.

Definition method (alg : option string) : SigningMethod :=
  match alg with None => SigningMethodHMAC | Some a => SigningMethodOther a end.

Definition issue (alg : option string) (key : string) (c : Claims) : string :=
  String "t"%char (digits (encode (alg, key, of_claims c))).
Definition inspect (tok : string) : option payload :=
  match tok with String _ d => decode (undigits d) | EmptyString => None end.

Definition contents (tok : string) : option (SigningMethod * Claims) :=
  '(alg, _, p) ← inspect tok; Some (method alg, to_claims p).
Definition verifies (m : SigningMethod) (key tok : string) : bool :=
  match inspect tok with
  | Some (alg, key', _) => bool_decide (method alg = m ∧ key' = key)
  | None => false
  end.

Lemma inspect_issue alg key c : inspect (issue alg key c) = Some (alg, key, of_claims c).
Proof. unfold inspect, issue. by rewrite undigits_digits, decode_encode. Qed.

#[export] Instance jwt : JWT := {
  SignedString key c := inr (issue None key c);
  ParseWithClaims now tok kf :=
    match contents tok with
    | None => inl (ErrorString "token is malformed")
    | Some (m, c) =>
        match kf m with
        | inl e => inl e
        | inr key =>
            if negb (verifies m key tok) then inl (ErrorString "signature is invalid")
            else if decide (unexpired now c) then inr (c, true)
            else inl (ErrorString "token is expired")
        end
    end;
  token_contents := contents;
  token_verifies := verifies;
}.

#[export] Instance jwt_laws : JWTLaws.
Proof.
  split; simpl.
  - intros now tok kf c v. split.
    + destruct (contents tok) as [[m c']|]; [|done].
      destruct (kf m) as [e|key] eqn:Ekf; [done|].
      destruct (verifies m key tok) eqn:Ev; simpl; [|done].
      destruct (decide (unexpired now c')); [|done]. intros [= <- <-]. split; [done|]. by exists m, key.
    + intros (-> & m & key & -> & -> & -> & Hu). simpl. by rewrite decide_True.
  - intros key c tok [= <-]. split; [done|]. unfold contents, verifies. rewrite inspect_issue. simpl.
    split; [by destruct c|]. by apply bool_decide_eq_true_2.
Qed.
End Clear.

(** ** Properties *)

(** C10. A token issued for a user validates, under the same service, to claims naming that user
    until the announced expiry, and never from the announced expiry on; the announced expiry is
    the time of issue plus the configured lifetime, to the second. *)
Theorem token_round_trip `{JWTLaws} (s : AuthService) (now1 now2 now : Time)
    (id name tok : string) (expires : Z) :
  GenerateToken s now1 now2 id name = inr (tok, expires) →
  expires = Unix (now1 + tokenExpiry s)%Z ∧
  if bool_decide (Unix now < expires)%Z
  then ∃ c, ValidateToken s now tok = inr c ∧ Claims_UserID c = id ∧ Claims_Username c = name ∧
         Claims_Subject c = id
  else ∃ e, ValidateToken s now tok = inl e.
Proof.
  intros Hg. destruct (token_exact _ _ _ _ _ _ _ Hg) as (c & Hc & Hu & Hn & Hs & Huniq & _ & ->).
  split; [done|]. case_bool_decide as Hlt; [exists c; by rewrite <- Hc|].
  destruct (ValidateToken s now tok) as [e|c'] eqn:Ev; [by eexists|].
  pose proof (Huniq _ _ Ev) as ->. by apply Hc in Ev.
Qed.


Section witnesses.
#[local] Existing Instance Clear.jwt.
#[local] Existing Instance Clear.jwt_laws.

Definition sample_auth : AuthService := NewService (mkConfig "s" 0%Z 0%Z).

Lemma token_round_trip_witness :
  let tok := Clear.issue None "s"
    (mkClaims "1" "al" (Some 86400000000000%Z) (Some 0%Z) "1") in
  (∃ c, ValidateToken sample_auth 86399999999999%Z tok = inr c ∧ Claims_UserID c = "1" ∧
     Claims_Username c = "al" ∧ Claims_Subject c = "1") ∧
  ∃ e, ValidateToken sample_auth 86400000000000%Z tok = inl e.
Proof.
  assert (GenerateToken sample_auth 7%Z 8%Z "1" "al" = inr (Clear.issue None "s"
    (mkClaims "1" "al" (Some 86400000000000%Z) (Some 0%Z) "1"), -62135510400)%Z) as Hg
    by (vm_compute; reflexivity).
  split.
  - exact (proj2 (token_round_trip sample_auth 7%Z 8%Z 86399999999999%Z _ _ _ _ Hg)).
  - exact (proj2 (token_round_trip sample_auth 7%Z 8%Z 86400000000000%Z _ _ _ _ Hg)).
Defined.

End witnesses.
