(* ===== verification/UserService.v ===== *)
(** * User service

    [internal/service/user.go]: the use cases over a user store, a job store and the
    authentication service. The methods are written against the interfaces [UserStore] and
    [SyncJobStore]; the theorems use the laws of the user store only, so they hold for the
    in-memory store and for any other lawful implementation. *)

From Stdlib Require Import ZArith Lia.
From stdpp Require Import base tactics numbers list gmap strings.
From S2P Require Import Prelude Model GoStrings UserStore UserMem UserHistory SyncJobs Auth.

(** ** State *)
Record UserService (US SS : Type) : Type := mkUserService {
  userStore : US;
  syncStore : SS;
  authSvc : AuthService;
}.
Arguments mkUserService {US SS} _ _ _.
Arguments userStore {US SS} _.
Arguments syncStore {US SS} _.
Arguments authSvc {US SS} _.

Definition set_userStore {US SS} (v : US) (s : UserService US SS) : UserService US SS :=
  mkUserService v (syncStore s) (authSvc s).
Definition set_syncStore {US SS} (v : SS) (s : UserService US SS) : UserService US SS :=
  mkUserService (userStore s) v (authSvc s).

(** ** Methods

    [id] is the value [uuid.New().String()] draws, [now] a reading of the clock. *)
Section methods.
Context {US SS : Type} `{!UserStore US, !SyncJobStore SS}.
Notation M := (GoM error (UserService US SS)).

Definition on_users {A} (m : GoM error US A) : M A := zoom userStore set_userStore m.
Definition on_jobs {A} (m : GoM error SS A) : M A := zoom syncStore set_syncStore m.

Definition UserService_CreateUser (now : Time) (id : string) (req : CreateUserRequest) : M User :=
  s ← get;
  hash ← of_sum (HashPassword (authSvc s) (CUR_Password req));
  on_users (us_Create now
    (mkUser id (CUR_Username req) (CUR_Email req) hash (CUR_DisplayName req)
       UserStatusActive false "" "" zero_time zero_time)).

Definition UserService_GetUser (id : string) : M User := on_users (us_GetByID id).

Definition UserService_GetUserByUsername (username : string) : M User :=
  on_users (us_GetByUsername username).

Definition UserService_UpdateUser (now : Time) (id : string) (req : UpdateUserRequest) : M User :=
  _ ← on_users (us_Update now
        (mkUser id "" (UUR_Email req) "" (UUR_DisplayName req) (UUR_Status req)
           false "" "" zero_time zero_time));
  on_users (us_GetByID id).

Definition UserService_DeleteUser (now : Time) (id : string) : M unit :=
  on_users (us_Delete now id).

(** The limits the services accept; anything else becomes 20. *)
Definition clamp_limit (limit : Z) : Z :=
  if bool_decide (limit ≤ 0 ∨ 100 < limit)%Z then 20 else limit.

Definition UserService_ListUsers (iter : list string) (q : string) (offset limit : Z) :
    M (list User * Z) :=
  let limit := clamp_limit limit in
  if bool_decide (q ≠ "") then on_users (us_Search iter q offset limit)
  else on_users (us_List iter offset limit).

Definition UserService_VerifyCredentials (username password : string) : M User :=
  s ← get;
  r ← try (on_users (us_GetByUsername username));
  match r with
  | inr _ => throw ErrInvalidCredentials
  | inl u =>
      if bool_decide (User_Status u ≠ UserStatusActive) then throw ErrUserDisabled
      else if negb (VerifyPassword (authSvc s) (User_PasswordHash u) password)
      then throw ErrInvalidCredentials
      else mret u
  end.

(** The patch [&model.User{ID: id, IsOnline: b}]. *)
Definition online_patch (id : string) (b : bool) : User :=
  mkUser id "" "" "" "" "" b "" "" zero_time zero_time.

(** The result of [Update] is dropped. *)
Definition UserService_Login `{JWT} (now now1 now2 : Time) (username password : string) :
    M LoginResponse :=
  u ← UserService_VerifyCredentials username password;
  _ ← try (on_users (us_Update now (online_patch (User_ID u) true)));
  let u := set_User_IsOnline true u in
  s ← get;
  r ← of_sum (GenerateToken (authSvc s) now1 now2 (User_ID u) (User_Username u));
  mret (mkLoginResponse r.1 r.2 u).

(** [now] is read for [StartedAt], [now1] inside the store. *)
Definition UserService_CreateSyncJob (now now1 : Time) (id : string) (req : CreateSyncJobRequest) :
    M SyncJob :=
  on_jobs (ss_Create now1
    (mkSyncJob id (CSJR_SourceSystem req) (CSJR_SyncType req) SyncJobStatusPending
       (Some now) None "" zero_time zero_time)).

Definition UserService_GetSyncJob (id : string) : M SyncJob := on_jobs (ss_GetByID id).

Definition UserService_Logout (now : Time) (userID : string) : M unit :=
  on_users (us_Update now (online_patch userID false)).

Definition UserService_SetOnline (now : Time) (userID : string) (online : bool) : M unit :=
  on_users (us_Update now (online_patch userID online)).

Definition count_online (l : list User) : Z :=
  foldl (λ count u, if User_IsOnline u then (count + 1)%Z else count) 0%Z l.

Definition UserService_GetOnlineCount (iter : list string) : M Z :=
  r ← on_users (us_List iter 0 10000);
  mret (count_online r.1).
End methods.

(** ** Running the store *)
Section laws.
Context `{UT : UnicodeTables} {US SS : Type} `{!UserStore US, !UserStoreLaws US, !SyncJobStore SS}.
Implicit Types (s : UserService US SS).

(** The users a service state stands for, and the states its store can be in. *)
Definition directory (s : UserService US SS) : gmap string User := us_users (userStore s).
Definition service_ok (s : UserService US SS) : Prop := us_inv (userStore s).

Lemma on_users_run {A} pre (impl : GoM error US A) spec s :
  refines us_inv us_users pre impl spec → service_ok s → pre (directory s) →
  ∃ us, on_users impl s = ((spec (directory s)).1, set_userStore us s) ∧
    service_ok (set_userStore us s) ∧ directory (set_userStore us s) = (spec (directory s)).2.
Proof.
  intros Hr Hs Hpre. specialize (Hr _ Hs Hpre). unfold on_users, zoom.
  destruct (impl (userStore s)) as [r us]. destruct Hr as [Hinv Hr]. unfold directory. rewrite Hr.
  by exists us.
Qed.

(** The live account of a name. *)
Definition account (m : gmap string User) (n : string) : option User :=
  find_user (λ u, User_Username u = n ∧ live u) m.

Lemma account_Some m n u :
  dir_ok m → account m n = Some u ↔ m !! User_ID u = Some u ∧ User_Username u = n ∧ live u.
Proof.
  intros Hok. unfold account. split.
  - intros [[Hn Hl] [i Hi]]%find_user_Some. by rewrite (dir_ids _ Hok _ _ Hi).
  - intros (Hi & Hn & Hl). apply (find_user_unique _ _ (User_ID u)); [done|done|].
    intros j v Hj [Hv _]. assert (j = User_ID u) as ->; [|congruence].
    apply (dir_usernames _ Hok j (User_ID u) v u); congruence.
Qed.

Lemma get_by_username_run n s :
  service_ok s → ∃ us, on_users (us_GetByUsername n) s
    = (match account (directory s) n with Some u => Ok u | None => Err ErrUserNotFound end,
       set_userStore us s) ∧
    service_ok (set_userStore us s) ∧ directory (set_userStore us s) = directory s.
Proof.
  intros Hs. destruct (on_users_run _ _ _ s (us_getByUsername_refines n) Hs I) as (us & -> & Hok & Hd).
  exists us. revert Hd. unfold dir_lookup, account.
  by destruct (find_user _ (directory s)).
Qed.

Lemma get_by_id_run id s :
  service_ok s → ∃ us, on_users (us_GetByID id) s
    = ((dir_getByID id (directory s)).1, set_userStore us s) ∧
    service_ok (set_userStore us s) ∧ directory (set_userStore us s) = directory s.
Proof.
  intros Hs. destruct (on_users_run _ _ _ s (us_getByID_refines id) Hs I) as (us & -> & Hok & Hd).
  exists us. split; [done|]. split; [done|]. rewrite Hd. unfold dir_getByID.
  destruct (directory s !! id); [|done]. by case_decide.
Qed.

(** What [VerifyCredentials] answers, as a function of the users. *)
Definition verify_spec (m : gmap string User) (n p : string) : res error User :=
  match account m n with
  | None => Err ErrInvalidCredentials
  | Some u =>
      if bool_decide (User_Status u ≠ UserStatusActive) then Err ErrUserDisabled
      else if bool_decide (User_PasswordHash u = p) then Ok u else Err ErrInvalidCredentials
  end.

Lemma verify_run n p s :
  service_ok s → ∃ us, UserService_VerifyCredentials n p s
    = (verify_spec (directory s) n p, set_userStore us s) ∧
    service_ok (set_userStore us s) ∧ directory (set_userStore us s) = directory s.
Proof.
  intros Hs. destruct (get_by_username_run n s Hs) as (us & Hrun & Hok & Hd). exists us.
  split; [|done]. unfold UserService_VerifyCredentials, verify_spec.
  rewrite bind_get, bind_try, Hrun.
  destruct (account (directory s) n) as [u|]; [|done]. simpl.
  case_bool_decide; [done|]. unfold VerifyPassword.
  by destruct (String.eqb_spec (User_PasswordHash u) p) as [->|Hne];
    [rewrite bool_decide_eq_true_2|rewrite bool_decide_eq_false_2].
Qed.

Lemma verify_credentials_live n p m u :
  dir_ok m → verify_spec m n p = Ok u → m !! User_ID u = Some u ∧ live u.
Proof.
  intros Hok Hv. assert (account m n = Some u) as Ha.
  { unfold verify_spec in Hv. repeat case_match; by simplify_eq. }
  by apply account_Some in Ha as (? & _ & ?).
Qed.

Lemma on_users_update_run now patch s :
  service_ok s → ∃ us, on_users (us_Update now patch) s
    = ((dir_update now patch (directory s)).1, set_userStore us s) ∧
    service_ok (set_userStore us s) ∧
    directory (set_userStore us s) = (dir_update now patch (directory s)).2.
Proof. intros Hs. by apply (on_users_run (λ _, True)); [apply us_update_refines|..]. Qed.

(** A patch that only carries the online flag always applies to a live user. *)
Lemma online_patch_update now id b m u :
  m !! id = Some u → live u →
  dir_update now (online_patch id b) m
    = (Ok (), <[id := set_User_UpdatedAt now (set_User_IsOnline b u)]> m).
Proof.
  intros Hi Hl. unfold dir_update, merge_user. simpl. by rewrite Hi, decide_True.
Qed.

Lemma online_patch_missing now id b m :
  (∀ u, m !! id = Some u → ¬ live u) →
  dir_update now (online_patch id b) m = (Err ErrUserNotFound, m).
Proof.
  intros Hi. unfold dir_update. simpl. destruct (m !! id) as [u|]; [|done].
  rewrite decide_False; [done|by apply Hi].
Qed.

(** ** Properties of the service *)

(** C7. [VerifyCredentials] accepts exactly the active, not deleted user of that name with that
    password, and returns it; it reports a disabled user whatever the password, answers every
    other attempt alike, and changes no user. *)
Theorem verify_credentials_exact (s : UserService US SS) (n p : string) :
  service_ok s →
  let '(r, s') := UserService_VerifyCredentials n p s in
  directory s' = directory s ∧
  (∀ u, r = Ok u ↔ directory s !! User_ID u = Some u ∧ User_Username u = n ∧
     User_Status u = UserStatusActive ∧ User_PasswordHash u = p) ∧
  (r = Err ErrUserDisabled ↔ ∃ u, directory s !! User_ID u = Some u ∧ User_Username u = n ∧
     User_Status u ≠ UserStatusDeleted ∧ User_Status u ≠ UserStatusActive) ∧
  ((∀ u, r ≠ Ok u) → r ≠ Err ErrUserDisabled → r = Err ErrInvalidCredentials).
Proof.
  intros Hs. pose proof (us_ok _ Hs) as Hok. fold (directory s) in Hok.
  destruct (verify_run n p s Hs) as (us & -> & _ & Hd). split; [done|]. clear Hd.
  assert (UserStatusActive ≠ UserStatusDeleted) as Had by done.
  assert (∀ u, account (directory s) n = Some u ↔ directory s !! User_ID u = Some u ∧
    User_Username u = n ∧ User_Status u ≠ UserStatusDeleted) as Hacc by (intros u; by apply account_Some).
  unfold verify_spec. destruct (account (directory s) n) as [v|] eqn:E.
  - pose proof (proj1 (Hacc v) eq_refl) as (Hi & Hn & Hl).
    assert (∀ u, directory s !! User_ID u = Some u → User_Username u = n → u = v) as Hu.
    { intros u Hu Hun. pose proof (dir_usernames _ Hok _ _ _ _ Hu Hi) as Heq.
      rewrite Heq in Hu by congruence. congruence. }
    repeat case_bool_decide; split_and!; naive_solver.
  - assert (∀ u, directory s !! User_ID u = Some u → User_Username u = n →
      User_Status u = UserStatusDeleted) as Hno.
    { intros u Hi Hn. destruct (decide (User_Status u = UserStatusDeleted)); [done|].
      by assert (None = Some u) by by apply Hacc. }
    split_and!; [|split; [done|]|done].
    + intros u. split; [done|]. intros (Hi & Hn & Ha & _). specialize (Hno u Hi Hn). congruence.
    + intros (u & Hi & Hn & Hl & _). by destruct Hl; apply Hno.
Qed.
(** C31. A user created through the service is returned as stored, can be read by id, and logs in
    with exactly the password given at creation; a password under eight bytes, or a taken name or
    email, is refused and changes nothing. *)
Theorem create_user_then_verify (s : UserService US SS) (now : Time) (id : string)
    (req : CreateUserRequest) :
  service_ok s → directory s !! id = None →
  let '(r, s') := UserService_CreateUser now id req s in
  (∀ u, r = Ok u →
     User_ID u = id ∧ User_Status u = UserStatusActive ∧ User_IsOnline u = false ∧
     directory s' = <[id := u]> (directory s) ∧
     (UserService_GetUser id s').1 = Ok u ∧
     ∀ p, (UserService_VerifyCredentials (CUR_Username req) p s').1
       = if bool_decide (p = CUR_Password req) then Ok u else Err ErrInvalidCredentials) ∧
  (∀ e, r = Err e → directory s' = directory s ∧
     (e = ErrPasswordTooShort ∧ (Z.of_nat (String.length (CUR_Password req)) < 8)%Z ∨
      e = ErrUserAlreadyExists ∧ ∃ i u, directory s !! i = Some u ∧
        (User_Username u = CUR_Username req ∨ User_Email u = CUR_Email req))).
Proof.
  intros Hs Hfresh. unfold UserService_CreateUser. rewrite bind_get. unfold HashPassword.
  case_bool_decide as Hlen; [simpl; by naive_solver|].
  rewrite (bind_ok (of_sum (inr _)) _ s _ s eq_refl). set (u0 := mkUser _ _ _ _ _ _ _ _ _ _ _).
  destruct (on_users_run (λ m, m !! User_ID u0 = None) _ _ s (us_create_refines now u0) Hs Hfresh)
    as (us & -> & Hok' & Hd).
  revert Hd. unfold dir_create.
  destruct (find_user (λ v, User_Username v = User_Username u0) (directory s)) as [x|] eqn:E1.
  { apply find_user_Some in E1 as (Hx & i & Hi). intros Hd. split; [done|]. intros e [= <-].
    split; [done|]. right. split; [done|]. exists i, x. auto. }
  destruct (find_user (λ v, User_Email v = User_Email u0) (directory s)) as [x|] eqn:E2.
  { apply find_user_Some in E2 as (Hx & i & Hi). intros Hd. split; [done|]. intros e [= <-].
    split; [done|]. right. split; [done|]. exists i, x. auto. }
  set (u1 := set_User_UpdatedAt now (set_User_CreatedAt now u0)).
  rewrite (bool_decide_eq_false_2 (User_Status u1 = "")) by done.
  change (User_ID u1) with id. simpl. intros Hd. split; [|done]. intros u [= <-].
  set (s' := set_userStore us s) in *. split_and!; [done..|by rewrite Hd| |].
  - destruct (get_by_id_run id s' Hok') as (us' & Hrun & _). unfold UserService_GetUser.
    rewrite Hrun. simpl. unfold dir_getByID. rewrite Hd, lookup_insert_eq. by rewrite decide_True.
  - intros p. destruct (verify_run (CUR_Username req) p s' Hok') as (us' & -> & _). simpl.
    assert (account (directory s') (CUR_Username req) = Some u1) as Hacc.
    { apply account_Some; [by apply us_ok|]. rewrite Hd. by rewrite lookup_insert_eq. }
    unfold verify_spec. rewrite Hacc. rewrite (bool_decide_eq_false_2 (_ ≠ _)) by (intros Hn; by apply Hn).
    apply symmetry. repeat case_bool_decide; naive_solver.
Qed.

(** The users after setting the online flag of one of them. *)
Definition with_online (now : Time) (id : string) (b : bool) (m : gmap string User) :=
  alter (λ u, set_User_UpdatedAt now (set_User_IsOnline b u)) id m.

Lemma alter_Some {A} (f : A → A) (m : gmap string A) i x :
  m !! i = Some x → alter f i m = <[i := f x]> m.
Proof.
  intros Hi. apply map_eq. intros j. rewrite lookup_alter, lookup_insert.
  case_decide; [subst; by rewrite Hi|done].
Qed.

Lemma set_online_run now id b s :
  service_ok s →
  ∃ us, UserService_SetOnline now id b s
    = (match directory s !! id with
       | Some u => if decide (live u) then Ok () else Err ErrUserNotFound
       | None => Err ErrUserNotFound
       end, set_userStore us s) ∧ service_ok (set_userStore us s) ∧
    directory (set_userStore us s)
      = match directory s !! id with
        | Some u => if decide (live u) then with_online now id b (directory s) else directory s
        | None => directory s
        end.
Proof.
  intros Hs. destruct (on_users_update_run now (online_patch id b) s Hs) as (us & Hrun & Hok & Hd).
  exists us. unfold UserService_SetOnline. rewrite Hrun. clear Hrun.
  destruct (directory s !! id) as [u|] eqn:E; [destruct (decide (live u)) as [Hl|Hl]|].
  - rewrite (online_patch_update _ _ _ _ u) in Hd |- * by done. split; [done|]. split; [done|].
    rewrite Hd. unfold with_online. simpl. by rewrite (alter_Some _ _ _ u).
  - rewrite online_patch_missing in Hd |- * by naive_solver. done.
  - rewrite online_patch_missing in Hd |- * by naive_solver. done.
Qed.
(** A successful login: the user it verified, the flag it set, the token it issued. *)
Lemma login_ok `{JWT} now now1 now2 n p s resp s' :
  service_ok s → UserService_Login now now1 now2 n p s = (Ok resp, s') →
  ∃ u, verify_spec (directory s) n p = Ok u ∧ LResp_User resp = set_User_IsOnline true u ∧
    directory s !! User_ID u = Some u ∧ live u ∧ User_Username u = n ∧
    service_ok s' ∧ authSvc s' = authSvc s ∧
    directory s' = with_online now (User_ID u) true (directory s) ∧
    GenerateToken (authSvc s) now1 now2 (User_ID u) (User_Username u)
      = inr (LResp_Token resp, LResp_Expires resp).
Proof.
  intros Hs. destruct (verify_run n p s Hs) as (us & Hrun & Hok & Hd). unfold UserService_Login.
  destruct (verify_spec (directory s) n p) as [u|e|] eqn:Ev;
    [rewrite (bind_ok _ _ _ _ _ Hrun), bind_try|by rewrite (bind_err _ _ _ _ _ Hrun)|
     by rewrite (bind_panic _ _ _ _ Hrun)].
  assert (directory s !! User_ID u = Some u ∧ User_Username u = n ∧ live u) as (Hi & Hn & Hl).
  { apply account_Some; [by apply us_ok|]. unfold verify_spec in Ev. repeat case_match; by simplify_eq. }
  destruct (on_users_update_run now (online_patch (User_ID u) true) _ Hok) as (us' & -> & Hok' & Hd').
  rewrite Hd, (online_patch_update _ _ _ _ u) in Hd' |- * by done. simpl.
  change (set_userStore us' (set_userStore us s)) with (set_userStore us' s) in *.
  rewrite bind_get. destruct (GenerateToken _ _ _ _ _) as [e|[tok ex]] eqn:Eg; [done|].
  simpl. intros [= <- <-]. exists u. split_and!; try done.
  rewrite Hd'. unfold with_online. simpl. by rewrite (alter_Some _ _ _ u).
Qed.

(** C13. A successful login returns the verified user marked online, sets the online flag of that
    user and of nobody else, and its token validates to that user until the announced expiry; a
    login refused by [VerifyCredentials] returns its error and changes no user. *)
Theorem login_effect `{JWTLaws} (s : UserService US SS) (now now1 now2 : Time) (n p : string) :
  service_ok s →
  let '(r, s') := UserService_Login now now1 now2 n p s in
  (∀ resp, r = Ok resp → ∃ u,
     (UserService_VerifyCredentials n p s).1 = Ok u ∧
     LResp_User resp = set_User_IsOnline true u ∧
     directory s' = with_online now (User_ID u) true (directory s) ∧
     ∀ t, (Unix t < LResp_Expires resp)%Z → ∃ c,
       ValidateToken (authSvc s) t (LResp_Token resp) = inr c ∧
       Claims_UserID c = User_ID u ∧ Claims_Username c = n) ∧
  (∀ e, (UserService_VerifyCredentials n p s).1 = Err e → r = Err e ∧ directory s' = directory s).
Proof.
  intros Hs. destruct (UserService_Login now now1 now2 n p s) as [r s'] eqn:Hlogin.
  destruct (verify_run n p s Hs) as (us & Hrun & Hok & Hd). rewrite Hrun. simpl. split.
  - intros resp ->. destruct (login_ok _ _ _ _ _ _ _ _ Hs Hlogin)
      as (u & Hv & Hu & _ & _ & Hn & _ & _ & Hd' & Hg). exists u. split_and!; [done..|].
    intros t Ht. destruct (token_exact _ _ _ _ _ _ _ Hg) as (c & Hc & Huc & Hnc & _).
    exists c. split_and!; [by apply Hc|done|congruence].
  - intros e Hv. unfold UserService_Login in Hlogin. rewrite Hv in Hrun.
    rewrite (bind_err _ _ _ _ _ Hrun) in Hlogin. by simplify_eq.
Qed.

(** The record an accepted update request leaves. *)
Definition or_keep (new old : string) : string := if bool_decide (new = "") then old else new.
Definition updated_user (now : Time) (req : UpdateUserRequest) (old : User) : User :=
  mkUser (User_ID old) (User_Username old) (or_keep (UUR_Email req) (User_Email old))
    (User_PasswordHash old) (or_keep (UUR_DisplayName req) (User_DisplayName old))
    (or_keep (UUR_Status req) (User_Status old)) false (User_ExternalID old)
    (User_SourceSystem old) (User_CreatedAt old) now.

Lemma merge_user_request now id req old :
  merge_user now (mkUser id "" (UUR_Email req) "" (UUR_DisplayName req) (UUR_Status req)
                    false "" "" zero_time zero_time) old = updated_user now req old.
Proof.
  unfold merge_user, updated_user, or_keep. simpl. rewrite !bool_decide_not.
  by do 4 (case_bool_decide; simpl).
Qed.

Lemma live_updated now req old :
  live old → live (updated_user now req old) ↔ UUR_Status req ≠ UserStatusDeleted.
Proof.
  unfold live, updated_user, or_keep. simpl. intros Hl.
  case_bool_decide as Hst; [by rewrite Hst|done].
Qed.

(** C32. [UpdateUser] on a live user replaces the non-empty fields, keeps name, password and
    external identity, and always clears the online flag; it fails without effect when the user
    is unknown or deleted or the new email belongs to another user. A request that sets the
    status to deleted takes effect and still reports that the user is not found. *)
Theorem update_user_outcome (s : UserService US SS) (now : Time) (id : string)
    (req : UpdateUserRequest) :
  service_ok s →
  let '(r, s') := UserService_UpdateUser now id req s in
  match directory s !! id with
  | Some old =>
      if bool_decide (User_Status old = UserStatusDeleted)
      then r = Err ErrUserNotFound ∧ directory s' = directory s
      else if bool_decide (UUR_Email req ≠ "" ∧ UUR_Email req ≠ User_Email old ∧
                 is_Some (find_user (λ v, User_Email v = UUR_Email req) (directory s)))
      then r = Err ErrUserAlreadyExists ∧ directory s' = directory s
      else
        directory s' = <[id := updated_user now req old]> (directory s) ∧
        r = if bool_decide (UUR_Status req = UserStatusDeleted) then Err ErrUserNotFound
            else Ok (updated_user now req old)
  | None => r = Err ErrUserNotFound ∧ directory s' = directory s
  end.
Proof.
  intros Hs. unfold UserService_UpdateUser. set (patch := mkUser _ _ _ _ _ _ _ _ _ _ _).
  destruct (on_users_update_run now patch s Hs) as (us & Hrun & Hok & Hd).
  revert Hrun Hd. unfold dir_update. change (User_ID patch) with id.
  destruct (directory s !! id) as [old|] eqn:E; [|intros Hrun Hd; by rewrite (bind_err _ _ _ _ _ Hrun)].
  guard (User_Status old = UserStatusDeleted) as Hdel.
  { rewrite decide_False by (by intros Hl; apply Hl).
    intros Hrun Hd; by rewrite (bind_err _ _ _ _ _ Hrun). }
  rewrite decide_True by done. change (User_Email patch) with (UUR_Email req).
  destruct (bool_decide (UUR_Email req ≠ "" ∧ _)).
  { intros Hrun Hd; by rewrite (bind_err _ _ _ _ _ Hrun). }
  simpl. intros Hrun Hd. rewrite (bind_ok _ _ _ _ _ Hrun).
  destruct (get_by_id_run id _ Hok) as (us' & -> & _ & Hd'). rewrite Hd', Hd.
  unfold dir_getByID. rewrite lookup_insert_eq.
  unfold patch. rewrite merge_user_request. split; [done|].
  assert (live (updated_user now req old) ↔ UUR_Status req ≠ UserStatusDeleted) as Hl
    by by apply live_updated.
  guard (UUR_Status req = UserStatusDeleted) as Hst;
    [rewrite decide_False by (by intros ?%Hl)|rewrite decide_True by (by apply Hl)]; done.
Qed.
Lemma clamp_limit_bounds lim : (1 ≤ clamp_limit lim ≤ 100)%Z.
Proof. unfold clamp_limit. case_bool_decide; lia. Qed.

(** A page read from the store under a clamped limit. *)
Lemma page_run (P : User → Prop) `{∀ u, Decision (P u)} impl spec s iter off lim :
  refines us_inv us_users (λ _, True) impl spec → service_ok s →
  (∀ m, spec m = match paginate (filter P (enumerate iter m)) off lim with
                 | Some page => (Ok page, m) | None => (Panic, m) end) →
  (1 ≤ lim ≤ 100)%Z →
  let '(r, s') := on_users impl s in
  directory s' = directory s ∧
  ((0 ≤ off ≤ max_int - 100)%Z → ∃ page, 
     r = Ok (page, len (filter P (enumerate iter (directory s)))) ∧ (len page ≤ 100)%Z ∧
     ∀ u, u ∈ page → P u ∧ ∃ i, directory s !! i = Some u) ∧
  ((off < 0)%Z → r = Panic).
Proof.
  intros Hr Hs Hspec Hlim. destruct (on_users_run _ _ _ s Hr Hs I) as (us & -> & _ & Hd).
  rewrite Hspec in Hd |- *. set (l := filter P (enumerate iter (directory s))) in *. split_and!.
  - rewrite Hd. by destruct (paginate l off lim).
  - intros Hoff. rewrite paginate_segment by (unfold is_int, min_int, max_int in *; lia). simpl.
    eexists. split; [done|]. split.
    + unfold len. rewrite length_take. lia.
    + intros u Hu. apply elem_of_segment in Hu.
      apply list_elem_of_filter in Hu as [HP Hu]. split; [done|].
      apply list_elem_of_omap in Hu as (i & _ & Hi). by exists i.
  - intros Hoff. assert (paginate l off lim = None) as ->; [|done].
    apply paginate_panics. pose proof (len_nonneg l). lia.
Qed.

(** Whatever limit is asked, a page of users holds at most a hundred of them, all live, stored
    and matching the query; a negative offset panics; the call changes no user. *)
Theorem list_users_bounded (s : UserService US SS) (iter : list string) (q : string)
    (off lim : Z) :
  service_ok s →
  let '(r, s') := UserService_ListUsers iter q off lim s in
  directory s' = directory s ∧
  ((0 ≤ off ≤ max_int - 100)%Z → ∃ page total, r = Ok (page, total) ∧ (len page ≤ 100)%Z ∧
     ∀ u, u ∈ page → live u ∧ (q = "" ∨ matches q u) ∧ ∃ i, directory s !! i = Some u) ∧
  ((off < 0)%Z → r = Panic).
Proof.
  intros Hs. unfold UserService_ListUsers. pose proof (clamp_limit_bounds lim) as Hlim. cbv zeta.
  case_bool_decide as Hq.
  - pose proof (page_run (λ u, live u ∧ matches q u) _ _ s iter off _
      (us_search_refines iter q off (clamp_limit lim)) Hs (λ _, eq_refl) Hlim) as H.
    destruct (on_users _ s) as [r s']. destruct H as (Hd & Hok & Hneg). split_and!; [done| |done].
    intros (page & -> & Hlen & Hin)%Hok. exists page. eexists. split_and!; [done|done|].
    intros u ([??]&?)%Hin. auto.
  - pose proof (page_run live _ _ s iter off _
      (us_list_refines iter off (clamp_limit lim)) Hs (λ _, eq_refl) Hlim) as H.
    destruct (on_users _ s) as [r s']. destruct H as (Hd & Hok & Hneg). split_and!; [done| |done].
    intros (page & -> & Hlen & Hin)%Hok. exists page. eexists. split_and!; [done|done|].
    intros u (?&?)%Hin. split; [done|]. split; [left|done].
    destruct (decide (q = "")); [done|by destruct Hq].
Qed.

Lemma count_online_filter l : count_online l = len (filter (λ u, User_IsOnline u = true) l).
Proof.
  unfold count_online, len. enough (∀ c, foldl (λ count u, if User_IsOnline u then (count + 1)%Z else count) c l
    = (c + Z.of_nat (length (filter (λ u, User_IsOnline u = true) l)))%Z) as -> by lia.
  induction l as [|u l IH]; intros c; simpl; [lia|]. rewrite IH, filter_cons.
  destruct (User_IsOnline u); case_decide; try done; simpl; lia.
Qed.

(** The online count is the number of live users whose flag is set, as long as the directory
    has at most ten thousand live users; beyond that it never exceeds ten thousand. *)
Theorem online_count_exact (s : UserService US SS) (iter : list string) :
  service_ok s → iter ≡ₚ (map_to_list (directory s)).*1 →
  ∃ n s', UserService_GetOnlineCount iter s = (Ok n, s') ∧ directory s' = directory s ∧
    (0 ≤ n ≤ 10000)%Z ∧
    ((len (filter live (map_to_list (directory s)).*2) ≤ 10000)%Z →
      n = len (filter (λ u, live u ∧ User_IsOnline u = true) (map_to_list (directory s)).*2)).
Proof.
  intros Hs Hiter. unfold UserService_GetOnlineCount.
  destruct (on_users_run _ _ _ s (us_list_refines iter 0 10000) Hs I) as (us & Hrun & _ & Hd).
  revert Hrun Hd. unfold dir_list. rewrite paginate_segment by done.
  intros Hrun Hd. eexists _, (set_userStore us s). split; [by rewrite (bind_ok _ _ _ _ _ Hrun)|].
  split; [done|]. simpl. rewrite count_online_filter, drop_0.
  pose proof (enumerate_perm iter (directory s) Hiter) as Hen.
  set (l := filter live (enumerate iter (directory s))) in *. split.
  - unfold len. split; [lia|]. 
    pose proof (length_filter (λ u, User_IsOnline u = true) (take (Z.to_nat 10000) l)) as Hf.
    rewrite length_take in Hf. lia.
  - intros Hlen. assert (l ≡ₚ filter live (map_to_list (directory s)).*2) as Hl by (unfold l; by rewrite Hen).
    unfold len in *. rewrite <- Hl in Hlen. rewrite take_ge by lia. f_equal.
    rewrite Hl, list_filter_filter. f_equal. apply list_filter_iff. tauto.
Qed.
End laws.

(** ** Concrete instances *)
Section witnesses.
#[local] Existing Instance Sample.ascii_tables.
#[local] Existing Instance Clear.jwt.
#[local] Existing Instance Clear.jwt_laws.

(** The service over the memory stores, with users "alice" and "bob". *)
Definition service_sample : UserService MemoryStore MemorySyncJobStore :=
  mkUserService Sample.store NewMemorySyncJobStore sample_auth.

Lemma service_sample_ok : service_ok service_sample.
Proof. apply reachable_inv, Sample.store_reachable. Qed.

Definition carol : CreateUserRequest := mkCreateUserRequest "carol" "c@x.io" "Carol@888" "Carol".

Lemma verify_credentials_exact_witness :
  (UserService_VerifyCredentials "bob" "Bob@88888" service_sample).1 = Ok (created 11%Z Sample.bob) ∧
  (UserService_VerifyCredentials "bob" "guess" service_sample).1 = Err ErrInvalidCredentials.
Proof.
  split.
  - apply (proj1 (proj2 (verify_credentials_exact service_sample "bob" "Bob@88888"
      service_sample_ok))). split_and!; vm_compute; reflexivity.
  - apply (proj2 (proj2 (proj2 (verify_credentials_exact service_sample "bob" "guess"
      service_sample_ok)))); vm_compute; [intros u|]; intros; discriminate.
Defined.

Lemma create_user_then_verify_witness :
  let s' := (UserService_CreateUser 30%Z "3" carol service_sample).2 in
  ∃ u, (UserService_VerifyCredentials "carol" "Carol@888" s').1 = Ok u ∧ User_ID u = "3".
Proof.
  pose proof (create_user_then_verify service_sample 30%Z "3" carol service_sample_ok
    ltac:(vm_compute; reflexivity)) as H.
  destruct (proj1 H _ ltac:(vm_compute; reflexivity)) as (Hid & _ & _ & _ & _ & Hv).
  eexists. split; [exact (Hv "Carol@888")|exact Hid].
Defined.

Lemma login_effect_witness :
  let '(r, s') := UserService_Login 30%Z 40%Z 41%Z "bob" "Bob@88888" service_sample in
  ∃ resp, r = Ok resp ∧ User_IsOnline (LResp_User resp) = true ∧
    ∃ c, ValidateToken sample_auth 50%Z (LResp_Token resp) = inr c ∧ Claims_UserID c = "2".
Proof.
  pose proof (login_effect service_sample 30%Z 40%Z 41%Z "bob" "Bob@88888" service_sample_ok) as H.
  assert (∃ resp s', UserService_Login 30%Z 40%Z 41%Z "bob" "Bob@88888" service_sample = (Ok resp, s')
    ∧ LResp_Expires resp = (-62135510400)%Z) as (resp & s' & Hrun & Hexp)
    by (eexists _, _; split; vm_compute; reflexivity).
  rewrite Hrun in H |- *. destruct H as [H _].
  destruct (H resp eq_refl) as (u & Hu & Huser & _ & Htok). exists resp.
  split; [reflexivity|]. split; [rewrite Huser; reflexivity|].
  destruct (Htok 50%Z ltac:(rewrite Hexp; reflexivity)) as (c & Hc & Hid & _).
  exists c. split; [exact Hc|]. rewrite Hid. vm_compute in Hu. injection Hu as <-; reflexivity.
Defined.

Lemma update_user_outcome_witness :
  (UserService_UpdateUser 30%Z "2" (mkUpdateUserRequest "" "" "deleted") service_sample).1
    = Err ErrUserNotFound ∧
  (UserService_UpdateUser 30%Z "2" (mkUpdateUserRequest "a@x.io" "" "") service_sample).1
    = Err ErrUserAlreadyExists.
Proof.
  pose proof (update_user_outcome service_sample 30%Z "2" (mkUpdateUserRequest "" "" "deleted")
    service_sample_ok) as H1.
  pose proof (update_user_outcome service_sample 30%Z "2" (mkUpdateUserRequest "a@x.io" "" "")
    service_sample_ok) as H2.
  vm_compute in H1, H2. split; vm_compute; [apply H1|apply H2].
Defined.

Lemma list_users_bounded_witness :
  (UserService_ListUsers ["1"; "2"] "" (-1) 20 service_sample).1 = Panic ∧
  ∃ page total, (UserService_ListUsers ["1"; "2"] "" 0 500 service_sample).1 = Ok (page, total) ∧
    (len page ≤ 100)%Z.
Proof.
  split.
  - apply (list_users_bounded service_sample ["1"; "2"] "" (-1) 20 service_sample_ok). done.
  - destruct (proj1 (proj2 (list_users_bounded service_sample ["1"; "2"] "" 0 500 service_sample_ok)))
      as (page & total & H & Hlen & _); [done|].
    exists page, total. split; [exact H|exact Hlen].
Defined.

Lemma online_count_exact_witness :
  ∃ n s', UserService_GetOnlineCount ["1"; "2"] service_sample = (Ok n, s') ∧ n = 0%Z.
Proof.
  destruct (online_count_exact service_sample ["1"; "2"] service_sample_ok
    ltac:(vm_compute; first [reflexivity|apply perm_swap])) as (n & s' & H & _ & _ & Hn).
  exists n, s'. split; [exact H|]. rewrite Hn; [vm_compute; reflexivity|vm_compute; discriminate].
Defined.
End witnesses.
