(* ===== verification/DirectoryService.v ===== *)
(** * Directory service

    [internal/service/directory.go]: organizations, groups and their members over the stores.
    The methods are written against the three store interfaces; the theorems are about the
    in-memory organization and group stores and any lawful user store. *)

From Stdlib Require Import ZArith Lia.
From stdpp Require Import base tactics numbers list gmap strings.
From S2P Require Import Prelude Model GoStrings UserStore UserMem UserHistory Membership OrgStore GroupStore UserService.

(** ** State *)
Record DirectoryService (US OS GS : Type) : Type := mkDirectoryService {
  orgStore : OS;
  groupStore : GS;
  ds_userStore : US;
}.
Arguments mkDirectoryService {US OS GS} _ _ _.
Arguments orgStore {US OS GS} _.
Arguments groupStore {US OS GS} _.
Arguments ds_userStore {US OS GS} _.

Section methods.
Context {US OS GS : Type} `{!UserStore US, !OrgStore OS, !GroupStore GS}.
Notation D := (DirectoryService US OS GS).
Notation M := (GoM error D).

Definition set_orgStore (v : OS) (s : D) : D := mkDirectoryService v (groupStore s) (ds_userStore s).
Definition set_groupStore (v : GS) (s : D) : D := mkDirectoryService (orgStore s) v (ds_userStore s).
Definition set_ds_userStore (v : US) (s : D) : D := mkDirectoryService (orgStore s) (groupStore s) v.

Definition on_orgs {A} (m : GoM error OS A) : M A := zoom orgStore set_orgStore m.
Definition on_groups {A} (m : GoM error GS A) : M A := zoom groupStore set_groupStore m.
Definition on_ds_users {A} (m : GoM error US A) : M A := zoom ds_userStore set_ds_userStore m.

(** ** Organizations *)
Definition DirectoryService_CreateOrg (now : Time) (id : string) (req : CreateOrgRequest) :
    M Organization :=
  on_orgs (os_Create now (mkOrganization id (COR_Name req) (COR_ParentID req) ""
    (COR_ExternalID req) (COR_SourceSystem req) zero_time zero_time)).

Definition DirectoryService_GetOrg (id : string) : M Organization := on_orgs (os_GetByID id).

Definition DirectoryService_UpdateOrg (now : Time) (id : string) (req : UpdateOrgRequest) :
    M Organization :=
  _ ← on_orgs (os_Update now (mkOrganization id (UOReq_Name req) (UOReq_ParentID req) "" "" ""
        zero_time zero_time));
  on_orgs (os_GetByID id).

Definition DirectoryService_DeleteOrg (id : string) : M unit := on_orgs (os_Delete id).

Definition DirectoryService_ListOrgs (iter : list string) (offset limit : Z) :
    M (list Organization * Z) :=
  on_orgs (os_List iter offset (clamp_limit limit)).

Definition DirectoryService_ListOrgChildren (iter : list string) (parentID : string) :
    M (list Organization) :=
  on_orgs (os_ListChildren iter parentID).

Definition default_role (role : string) : string :=
  if bool_decide (role = "") then "member" else role.

Definition DirectoryService_AddOrgMember (orgID : string) (req : AddOrgMemberRequest) :
    M UserOrgRelation :=
  r ← try (on_ds_users (us_GetByID (AOMR_UserID req)));
  match r with
  | inr _ => throw ErrUserNotFound
  | inl _ =>
      let rel := mkUserOrgRelation (AOMR_UserID req) orgID (default_role (AOMR_Role req))
                   (AOMR_IsPrimary req) in
      _ ← on_orgs (os_AddMember rel);
      mret rel
  end.

Definition DirectoryService_RemoveOrgMember (orgID userID : string) : M unit :=
  on_orgs (os_RemoveMember orgID userID).

(** The body of the loop over the relations: the user's fields where the user is found. *)
Definition org_member_detail (rel : UserOrgRelation) : M OrgMemberDetail :=
  r ← try (on_ds_users (us_GetByID (UOR_UserID rel)));
  match r with
  | inl u => mret (mkOrgMemberDetail rel (User_Username u) (User_Email u) (User_DisplayName u)
                     (User_Status u))
  | inr _ => mret (mkOrgMemberDetail rel "" "" "" "")
  end.

Definition DirectoryService_ListOrgMembers (orgID : string) : M (list OrgMemberDetail) :=
  rels ← on_orgs (os_ListMembers orgID);
  collect org_member_detail rels.

Definition DirectoryService_GetUserOrgs (userID : string) : M (list UserOrgRelation) :=
  on_orgs (os_GetUserOrgs userID).

(** ** Groups *)
Definition DirectoryService_CreateGroup (now : Time) (id : string) (req : CreateGroupRequest) :
    M Group :=
  on_groups (gs_Create now (mkGroup id (CGR_Name req) (CGR_Description req) (CGR_Type req)
    zero_time zero_time)).

Definition DirectoryService_GetGroup (id : string) : M Group := on_groups (gs_GetByID id).

Definition DirectoryService_UpdateGroup (now : Time) (id : string) (req : UpdateGroupRequest) :
    M Group :=
  _ ← on_groups (gs_Update now (mkGroup id (UGR_Name req) (UGR_Description req) (UGR_Type req)
        zero_time zero_time));
  on_groups (gs_GetByID id).

Definition DirectoryService_DeleteGroup (id : string) : M unit := on_groups (gs_Delete id).

Definition DirectoryService_ListGroups (iter : list string) (offset limit : Z) :
    M (list Group * Z) :=
  on_groups (gs_List iter offset (clamp_limit limit)).

Definition DirectoryService_AddGroupMember (now : Time) (groupID : string)
    (req : AddGroupMemberRequest) : M GroupMember :=
  r ← try (on_ds_users (us_GetByID (AGMR_UserID req)));
  match r with
  | inr _ => throw ErrUserNotFound
  | inl _ =>
      on_groups (gs_AddMember now (mkGroupMember groupID (AGMR_UserID req)
        (default_role (AGMR_Role req)) zero_time))
  end.

Definition DirectoryService_RemoveGroupMember (groupID userID : string) : M unit :=
  on_groups (gs_RemoveMember groupID userID).

Definition group_member_detail (m : GroupMember) : M GroupMemberDetail :=
  r ← try (on_ds_users (us_GetByID (GM_UserID m)));
  match r with
  | inl u => mret (mkGroupMemberDetail m (User_Username u) (User_Email u) (User_DisplayName u)
                     (User_Status u))
  | inr _ => mret (mkGroupMemberDetail m "" "" "" "")
  end.

Definition DirectoryService_ListGroupMembers (groupID : string) : M (list GroupMemberDetail) :=
  members ← on_groups (gs_ListMembers groupID);
  collect group_member_detail members.

Definition DirectoryService_GetUserGroups (userID : string) : M (list GroupMember) :=
  on_groups (gs_GetUserGroups userID).
End methods.

(** ** Running over lawful users *)
Section laws.
Context `{UT : UnicodeTables} {US : Type} `{!UserStore US, !UserStoreLaws US}.
Notation D := (DirectoryService US MemoryOrgStore MemoryGroupStore).
Implicit Types (s : D).

Definition ds_users s : gmap string User := us_users (ds_userStore s).
Definition ds_ok s : Prop := us_inv (ds_userStore s).

Definition live_user (m : gmap string User) (id : string) : option User :=
  u ← m !! id; if decide (live u) then Some u else None.

(** Looking a user up leaves the stores alone. *)
Lemma find_live_run {B} id (f : User + error → GoM error D B) s :
  ds_ok s → ∃ s1,
    (try (on_ds_users (us_GetByID id)) ≫= f) s =
      match live_user (ds_users s) id with
      | Some u => f (inl u) s1
      | None => f (inr ErrUserNotFound) s1
      end ∧
    ds_ok s1 ∧ ds_users s1 = ds_users s ∧ orgStore s1 = orgStore s ∧ groupStore s1 = groupStore s.
Proof.
  intros Hs. pose proof (us_getByID_refines id _ Hs I) as Hr. rewrite bind_try.
  unfold on_ds_users, zoom. destruct (us_GetByID id (ds_userStore s)) as [r us]. destruct Hr as [Hinv Hr].
  exists (set_ds_userStore us s). revert Hr. unfold dir_getByID, live_user.
  change (us_users (ds_userStore s)) with (ds_users s).
  destruct (ds_users s !! id) as [u|]; simpl; [case_decide|]; by intros [= <- ->].
Qed.

(** Runs the user look-up a method starts with. *)
Ltac look_up_user Hs s1 H :=
  match goal with
  | |- context [(try (on_ds_users (us_GetByID ?id)) ≫= ?f) ?s] =>
      destruct (find_live_run id f s Hs) as (s1 & -> & H)
  end.

(** The detail line of a membership, given the users. *)
Definition org_detail (m : gmap string User) (rel : UserOrgRelation) : OrgMemberDetail :=
  match live_user m (UOR_UserID rel) with
  | Some u => mkOrgMemberDetail rel (User_Username u) (User_Email u) (User_DisplayName u) (User_Status u)
  | None => mkOrgMemberDetail rel "" "" "" ""
  end.
Definition group_detail (m : gmap string User) (gm : GroupMember) : GroupMemberDetail :=
  match live_user m (GM_UserID gm) with
  | Some u => mkGroupMemberDetail gm (User_Username u) (User_Email u) (User_DisplayName u) (User_Status u)
  | None => mkGroupMemberDetail gm "" "" "" ""
  end.

(** A loop whose body reads one user and never fails is a map. *)
Lemma collect_run {A B} (f : A → GoM error D B) (g : gmap string User → A → B) l s :
  (∀ x s, ds_ok s → ∃ s1, f x s = (Ok (g (ds_users s) x), s1) ∧ ds_ok s1 ∧
     ds_users s1 = ds_users s ∧ orgStore s1 = orgStore s ∧ groupStore s1 = groupStore s) →
  ds_ok s → ∃ s1, collect f l s = (Ok (g (ds_users s) <$> l), s1) ∧ ds_ok s1 ∧
     ds_users s1 = ds_users s ∧ orgStore s1 = orgStore s ∧ groupStore s1 = groupStore s.
Proof.
  intros Hf. revert s. induction l as [|x l IH]; intros s Hs; simpl; [by exists s|].
  destruct (Hf x s Hs) as (s1 & H1 & Hok1 & Hu1 & Ho1 & Hg1). rewrite (bind_ok _ _ _ _ _ H1).
  destruct (IH s1 Hok1) as (s2 & H2 & Hok2 & Hu2 & Ho2 & Hg2). rewrite (bind_ok _ _ _ _ _ H2).
  exists s2. rewrite Hu1. split_and!; congruence || done.
Qed.

Lemma org_member_detail_run x s : ds_ok s → ∃ s1,
  org_member_detail x s = (Ok (org_detail (ds_users s) x), s1) ∧ ds_ok s1 ∧
  ds_users s1 = ds_users s ∧ orgStore s1 = orgStore s ∧ groupStore s1 = groupStore s.
Proof.
  intros Hs. unfold org_member_detail. look_up_user Hs s1 H.
  exists s1. unfold org_detail. by destruct (live_user _ _).
Qed.

Lemma group_member_detail_run x s : ds_ok s → ∃ s1,
  group_member_detail x s = (Ok (group_detail (ds_users s) x), s1) ∧ ds_ok s1 ∧
  ds_users s1 = ds_users s ∧ orgStore s1 = orgStore s ∧ groupStore s1 = groupStore s.
Proof.
  intros Hs. unfold group_member_detail. look_up_user Hs s1 H.
  exists s1. unfold group_detail. by destruct (live_user _ _).
Qed.
(** The details of an organization's members, as a function of the stores. *)
Lemma list_org_members_run o s : ds_ok s → ∃ s1,
  DirectoryService_ListOrgMembers o s
    = (match orgs (orgStore s) !! o with
       | Some _ => Ok (org_detail (ds_users s) <$> at_key (org_members (orgStore s)) o)
       | None => Err ErrOrgNotFound
       end, s1) ∧
  ds_ok s1 ∧ ds_users s1 = ds_users s ∧ orgStore s1 = orgStore s ∧ groupStore s1 = groupStore s.
Proof.
  intros Hs. unfold DirectoryService_ListOrgMembers, on_orgs, zoom, os_ListMembers. simpl.
  unfold MemoryOrgStore_ListMembers. destruct (orgs (orgStore s) !! o) as [og|] eqn:E.
  - destruct (collect_run org_member_detail org_detail (at_key (org_members (orgStore s)) o) s
      org_member_detail_run Hs) as (s1 & H & Hrest).
    exists s1. split; [|done]. erewrite bind_ok; [exact H|]. rewrite E. by destruct s.
  - exists s. split; [|done]. erewrite bind_err; [done|]. rewrite E. by destruct s.
Qed.

Lemma list_group_members_run g s : ds_ok s → ∃ s1,
  DirectoryService_ListGroupMembers g s
    = (match groups (groupStore s) !! g with
       | Some _ => Ok (group_detail (ds_users s) <$> at_key (group_members (groupStore s)) g)
       | None => Err ErrGroupNotFound
       end, s1) ∧
  ds_ok s1 ∧ ds_users s1 = ds_users s ∧ orgStore s1 = orgStore s ∧ groupStore s1 = groupStore s.
Proof.
  intros Hs. unfold DirectoryService_ListGroupMembers, on_groups, zoom, gs_ListMembers. simpl.
  unfold MemoryGroupStore_ListMembers. destruct (groups (groupStore s) !! g) as [og|] eqn:E.
  - destruct (collect_run group_member_detail group_detail (at_key (group_members (groupStore s)) g) s
      group_member_detail_run Hs) as (s1 & H & Hrest).
    exists s1. split; [|done]. erewrite bind_ok; [exact H|]. rewrite E. by destruct s.
  - exists s. split; [|done]. erewrite bind_err; [done|]. rewrite E. by destruct s.
Qed.

Definition org_membership (o : string) (req : AddOrgMemberRequest) : UserOrgRelation :=
  mkUserOrgRelation (AOMR_UserID req) o (default_role (AOMR_Role req)) (AOMR_IsPrimary req).

Lemma add_org_member_run o req s : ds_ok s → ∃ s1,
  ds_ok s1 ∧ ds_users s1 = ds_users s ∧ groupStore s1 = groupStore s ∧
  (DirectoryService_AddOrgMember o req s).2 = s1 ∧
  orgStore s1 = match live_user (ds_users s) (AOMR_UserID req) with
                | Some _ => (MemoryOrgStore_AddMember (org_membership o req) (orgStore s)).2
                | None => orgStore s
                end ∧
  (DirectoryService_AddOrgMember o req s).1
    = match live_user (ds_users s) (AOMR_UserID req) with
      | None => Err ErrUserNotFound
      | Some _ =>
          match (MemoryOrgStore_AddMember (org_membership o req) (orgStore s)).1 with
          | Ok _ => Ok (org_membership o req)
          | Err e => Err e
          | Panic => Panic
          end
      end.
Proof.
  intros Hs. unfold DirectoryService_AddOrgMember. look_up_user Hs s1 H.
  destruct H as (Hok & Hu & Ho & Hg).
  destruct (live_user (ds_users s) _); [|by exists s1].
  unfold mbind, gom_bind, on_orgs, zoom, os_AddMember. simpl.
  fold (org_membership o req). rewrite Ho.
  destruct (MemoryOrgStore_AddMember _ (orgStore s)) as [r os].
  exists (set_orgStore os s1). destruct r; simpl; done.
Qed.

Lemma add_group_member_run now g req s : ds_ok s → ∃ s1,
  ds_ok s1 ∧ ds_users s1 = ds_users s ∧ orgStore s1 = orgStore s ∧
  (DirectoryService_AddGroupMember now g req s).2 = s1 ∧
  groupStore s1 = match live_user (ds_users s) (AGMR_UserID req) with
                  | Some _ => (MemoryGroupStore_AddMember now (mkGroupMember g (AGMR_UserID req)
                      (default_role (AGMR_Role req)) zero_time) (groupStore s)).2
                  | None => groupStore s
                  end.
Proof.
  intros Hs. unfold DirectoryService_AddGroupMember. look_up_user Hs s1 H.
  destruct H as (Hok & Hu & Ho & Hg).
  destruct (live_user (ds_users s) _); [|by exists s1].
  unfold on_groups, zoom, gs_AddMember. simpl. rewrite Hg.
  destruct (MemoryGroupStore_AddMember _ _ (groupStore s)) as [r gs].
  by exists (set_groupStore gs s1).
Qed.

(** ** Properties of the members *)

(** Adding a member to an organization: the user is looked up first, then the organization,
    then the existing members, and each failure leaves every store as it was; a success appends
    one line to the member list, with the user's current data and a role that is never empty. *)
Theorem add_org_member_exact (s : D) (o : string) (req : AddOrgMemberRequest) :
  ds_ok s →
  let '(r, s') := DirectoryService_AddOrgMember o req s in
  ds_users s' = ds_users s ∧ groupStore s' = groupStore s ∧
  (live_user (ds_users s) (AOMR_UserID req) = None → r = Err ErrUserNotFound) ∧
  (∀ u, live_user (ds_users s) (AOMR_UserID req) = Some u →
     (orgs (orgStore s) !! o = None → r = Err ErrOrgNotFound) ∧
     (is_Some (orgs (orgStore s) !! o) →
        if bool_decide (AOMR_UserID req ∈ UOR_UserID <$> at_key (org_members (orgStore s)) o)
        then r = Err ErrMemberExists
        else ∃ rel before, r = Ok rel ∧ UOR_Role rel ≠ "" ∧
          (DirectoryService_ListOrgMembers o s).1 = Ok before ∧
          (DirectoryService_ListOrgMembers o s').1
            = Ok (before ++ [mkOrgMemberDetail rel (User_Username u) (User_Email u)
                               (User_DisplayName u) (User_Status u)]))) ∧
  (∀ e, r = Err e → orgStore s' = orgStore s).
Proof.
  intros Hs. destruct (add_org_member_run o req s Hs) as (s1 & Hok1 & Hu1 & Hg1 & Hs1 & Ho1 & Hr1).
  destruct (DirectoryService_AddOrgMember o req s) as [r s']. simpl in *. subst s1.
  split; [done|]. split; [done|].
  destruct (live_user (ds_users s) (AOMR_UserID req)) as [u|] eqn:Eu; [|naive_solver].
  split; [done|]. unfold MemoryOrgStore_AddMember in *. simpl in *.
  destruct (orgs (orgStore s) !! o) as [og|] eqn:Eo; [|naive_solver].
  assert (existsb (λ r0, (UOR_UserID r0 =? AOMR_UserID req)%string) (at_key (org_members (orgStore s)) o)
    = bool_decide (AOMR_UserID req ∈ UOR_UserID <$> at_key (org_members (orgStore s)) o)) as Hex.
  { apply Bool.eq_true_iff_eq. by rewrite existsb_key, bool_decide_eq_true. }
  rewrite Hex in *. case_bool_decide as Hin; simpl in *; subst r.
  { split; [|naive_solver]. intros u' [= <-]. done. }
  split; [|done]. intros u' [= <-]. split; [done|]. intros _.
  destruct (list_org_members_run o s Hs) as (s2 & H2 & _).
  destruct (list_org_members_run o s' Hok1) as (s3 & H3 & _).
  eexists _, _. split; [done|]. split; [simpl; unfold default_role; by case_bool_decide|].
  rewrite H2, H3, Eo. split; [done|]. simpl. rewrite Ho1. simpl. rewrite Eo. unfold push.
  rewrite at_key_insert_eq, fmap_app, Hu1. simpl. do 3 f_equal.
  unfold org_detail. simpl. by rewrite Eu.
Qed.
(** ** Histories of the three stores

    The calls that change a store: any call on the user store, and the mutating methods of the
    service. *)
Inductive ds_call : Type :=
| DsUser (c : call)
| DsCreateOrg (now : Time) (id : string) (req : CreateOrgRequest)
| DsUpdateOrg (now : Time) (id : string) (req : UpdateOrgRequest)
| DsDeleteOrg (id : string)
| DsAddOrgMember (o : string) (req : AddOrgMemberRequest)
| DsRemoveOrgMember (o u : string)
| DsCreateGroup (now : Time) (id : string) (req : CreateGroupRequest)
| DsUpdateGroup (now : Time) (id : string) (req : UpdateGroupRequest)
| DsDeleteGroup (id : string)
| DsAddGroupMember (now : Time) (g : string) (req : AddGroupMemberRequest)
| DsRemoveGroupMember (g u : string).

Definition ds_exec (c : ds_call) (s : D) : D :=
  match c with
  | DsUser c => set_ds_userStore (do_call c (ds_userStore s)).2 s
  | DsCreateOrg now id req => (DirectoryService_CreateOrg now id req s).2
  | DsUpdateOrg now id req => (DirectoryService_UpdateOrg now id req s).2
  | DsDeleteOrg id => (DirectoryService_DeleteOrg id s).2
  | DsAddOrgMember o req => (DirectoryService_AddOrgMember o req s).2
  | DsRemoveOrgMember o u => (DirectoryService_RemoveOrgMember o u s).2
  | DsCreateGroup now id req => (DirectoryService_CreateGroup now id req s).2
  | DsUpdateGroup now id req => (DirectoryService_UpdateGroup now id req s).2
  | DsDeleteGroup id => (DirectoryService_DeleteGroup id s).2
  | DsAddGroupMember now g req => (DirectoryService_AddGroupMember now g req s).2
  | DsRemoveGroupMember g u => (DirectoryService_RemoveGroupMember g u s).2
  end.

(** Every membership belongs to a user the directory has (possibly marked deleted). *)
Record ds_inv (s : D) : Prop := {
  ds_inv_users : ds_ok s;
  ds_inv_orgs : org_inv (orgStore s);
  ds_inv_groups : group_inv (groupStore s);
  ds_inv_org_users u r : r ∈ at_key (userOrgs (orgStore s)) u → is_Some (ds_users s !! u);
  ds_inv_group_users u r : r ∈ at_key (userGroups (groupStore s)) u → is_Some (ds_users s !! u);
}.

(** The invariant sees a state only through its users, organizations and groups. *)
Lemma ds_inv_same s s' :
  ds_inv s → ds_ok s' → ds_users s' = ds_users s → orgStore s' = orgStore s →
  groupStore s' = groupStore s → ds_inv s'.
Proof. intros [Hok Ho Hg Hou Hgu] Hok' Hu Hos Hgs. by split; rewrite ?Hos, ?Hu, ?Hgs. Qed.

(** Changing the organizations by one call, for a user the directory has if it adds one. *)
Lemma ds_inv_set_orgs s c :
  ds_inv s → (∀ rel, c = OrgAddMember rel → is_Some (ds_users s !! UOR_UserID rel)) →
  ds_inv (set_orgStore (org_exec c (orgStore s)) s).
Proof.
  intros [Hok Ho Hg Hou Hgu] Hadd. split; simpl; try done.
  - by apply org_inv_exec.
  - intros u r [Hr|[-> <-]]%org_exec_source; [by eapply Hou|by apply Hadd].
Qed.

Lemma ds_inv_set_groups s c :
  ds_inv s → (∀ now m, c = GroupAddMember now m → is_Some (ds_users s !! GM_UserID m)) →
  ds_inv (set_groupStore (group_exec c (groupStore s)) s).
Proof.
  intros [Hok Ho Hg Hou Hgu] Hadd. split; simpl; try done.
  - by apply group_inv_exec.
  - intros u r [Hr|(now & m & -> & -> & <-)]%group_exec_source; [by eapply Hgu|by eapply Hadd].
Qed.

Lemma on_orgs_state {A} (m : GoM error MemoryOrgStore A) s :
  (on_orgs m s).2 = set_orgStore (m (orgStore s)).2 s.
Proof. unfold on_orgs, zoom. by destruct (m (orgStore s)). Qed.

Lemma on_groups_state {A} (m : GoM error MemoryGroupStore A) s :
  (on_groups m s).2 = set_groupStore (m (groupStore s)).2 s.
Proof. unfold on_groups, zoom. by destruct (m (groupStore s)). Qed.

(** An update followed by the read of the updated record. *)
Lemma update_org_state now id req s :
  (DirectoryService_UpdateOrg now id req s).2
    = set_orgStore (MemoryOrgStore_Update now (mkOrganization id (UOReq_Name req)
        (UOReq_ParentID req) "" "" "" zero_time zero_time) (orgStore s)).2 s.
Proof.
  unfold DirectoryService_UpdateOrg, mbind, gom_bind, on_orgs, zoom. simpl.
  destruct (MemoryOrgStore_Update _ _ (orgStore s)) as [[] os]; try done.
  unfold MemoryOrgStore_GetByID. simpl. by destruct (orgs os !! id).
Qed.

Lemma update_group_state now id req s :
  (DirectoryService_UpdateGroup now id req s).2
    = set_groupStore (MemoryGroupStore_Update now (mkGroup id (UGR_Name req)
        (UGR_Description req) (UGR_Type req) zero_time zero_time) (groupStore s)).2 s.
Proof.
  unfold DirectoryService_UpdateGroup, mbind, gom_bind, on_groups, zoom. simpl.
  destruct (MemoryGroupStore_Update _ _ (groupStore s)) as [[] gs]; try done.
  unfold MemoryGroupStore_GetByID. simpl. by destruct (groups gs !! id).
Qed.

Lemma live_user_known m id u : live_user m id = Some u → is_Some (m !! id).
Proof. unfold live_user. by destruct (m !! id). Qed.

(** Users are never physically removed. *)
Lemma do_call_keeps c (m : gmap string User) i :
  is_Some (m !! i) → is_Some ((do_call c m).2 !! i).
Proof.
  intros Hi.
  assert ((do_call c m).2 = m ∨ ∃ j x, (do_call c m).2 = <[j := x]> m) as [->|(j & x & ->)].
  { destruct c as [now u|id|n|e|now p|now id|iter off lim|iter q off lim]; simpl;
      unfold dir_create, dir_getByID, dir_lookup, dir_update, dir_delete, dir_list, dir_search;
      repeat case_match; simplify_eq/=; by eauto. }
  - done.
  - rewrite lookup_insert. case_decide; [by eexists|done].
Qed.

Definition ds_fresh (s : D) (c : ds_call) : Prop :=
  match c with DsUser c => fresh_call (ds_users s) c | _ => True end.

Lemma ds_inv_exec c s : ds_inv s → ds_fresh s c → ds_inv (ds_exec c s).
Proof.
  intros Hinv Hfresh. pose proof (ds_inv_users _ Hinv) as Hok.
  destruct c as [c|now id req|now id req|id|o req|o u|now id req|now id req|id|now g req|g u];
    simpl in *.
  - destruct (do_call_refines c (ds_userStore s) Hok Hfresh) as [Hok' Hstep].
    destruct Hinv as [_ Ho Hg Hou Hgu]. split; simpl; [done|done|done| |];
      intros u r Hr; unfold ds_users; simpl;
      change (us_users (do_call c (ds_userStore s)).2) with
        ((do_call c (ds_userStore s)).1, us_users (do_call c (ds_userStore s)).2).2;
      rewrite <- Hstep; apply do_call_keeps; by eauto.
  - unfold DirectoryService_CreateOrg. rewrite on_orgs_state. by apply (ds_inv_set_orgs s (OrgCreate _ _)).
  - rewrite update_org_state. by apply (ds_inv_set_orgs s (OrgUpdate _ _)).
  - unfold DirectoryService_DeleteOrg. rewrite on_orgs_state. by apply (ds_inv_set_orgs s (OrgDelete _)).
  - destruct (add_org_member_run o req s Hok) as (s1 & Hok1 & Hu1 & Hg1 & -> & Ho1 & _).
    destruct (live_user (ds_users s) (AOMR_UserID req)) as [u|] eqn:E;
      [|by apply (ds_inv_same s)].
    apply (ds_inv_same (set_orgStore (orgStore s1) s)); try done. rewrite Ho1.
    apply (ds_inv_set_orgs s (OrgAddMember _)); [done|].
    intros rel [= <-]. by eapply live_user_known.
  - unfold DirectoryService_RemoveOrgMember. rewrite on_orgs_state.
    by apply (ds_inv_set_orgs s (OrgRemoveMember _ _)).
  - unfold DirectoryService_CreateGroup. rewrite on_groups_state.
    by apply (ds_inv_set_groups s (GroupCreate _ _)).
  - rewrite update_group_state. by apply (ds_inv_set_groups s (GroupUpdate _ _)).
  - unfold DirectoryService_DeleteGroup. rewrite on_groups_state.
    by apply (ds_inv_set_groups s (GroupDelete _)).
  - destruct (add_group_member_run now g req s Hok) as (s1 & Hok1 & Hu1 & Ho1 & -> & Hg1).
    destruct (live_user (ds_users s) (AGMR_UserID req)) as [u|] eqn:E;
      [|by apply (ds_inv_same s)].
    apply (ds_inv_same (set_groupStore (groupStore s1) s)); try done. rewrite Hg1.
    apply (ds_inv_set_groups s (GroupAddMember _ _)); [done|].
    intros ? ? [= _ <-]. by eapply live_user_known.
  - unfold DirectoryService_RemoveGroupMember. rewrite on_groups_state.
    by apply (ds_inv_set_groups s (GroupRemoveMember _ _)).
Qed.

Inductive ds_reachable : D → Prop :=
| ds_start us : us_inv us →
    ds_reachable (mkDirectoryService NewMemoryOrgStore NewMemoryGroupStore us)
| ds_step s c : ds_reachable s → ds_fresh s c → ds_reachable (ds_exec c s).

Lemma ds_reachable_inv s : ds_reachable s → ds_inv s.
Proof.
  induction 1 as [us Hus|s c Hr IH Hf]; [|by apply ds_inv_exec].
  split; simpl; [done|apply org_inv_new|apply group_inv_new| |];
    intros u r Hr; unfold at_key in Hr; rewrite lookup_empty in Hr; inversion Hr.
Qed.

(** The columns a detail line shows for a user. *)
Definition shown_of (u : User) : string * string * string * UserStatus :=
  if bool_decide (User_Status u = UserStatusDeleted) then ("", "", "", "")
  else (User_Username u, User_Email u, User_DisplayName u, User_Status u).
Definition org_columns (d : OrgMemberDetail) : string * string * string * UserStatus :=
  (OMD_Username d, OMD_Email d, OMD_DisplayName d, OMD_Status d).
Definition group_columns (d : GroupMemberDetail) : string * string * string * UserStatus :=
  (GMD_Username d, GMD_Email d, GMD_DisplayName d, GMD_Status d).

Lemma live_user_shown m id u :
  m !! id = Some u →
  live_user m id = if bool_decide (User_Status u = UserStatusDeleted) then None else Some u.
Proof.
  intros Hi. unfold live_user, live. rewrite Hi. simpl.
  case_bool_decide as Hd; [rewrite decide_False by naive_solver|rewrite decide_True by done]; done.
Qed.

(** C22. In every reachable state, the member lists of organizations and groups name each user at
    most once, only users the directory has, and show the user's current data; only a user marked
    deleted shows blank columns. *)
Theorem member_lists_resolve (s : D) :
  ds_reachable s →
  (∀ o details, (DirectoryService_ListOrgMembers o s).1 = Ok details →
     NoDup ((λ d, UOR_UserID (OMD_Relation d)) <$> details) ∧
     ∀ d, d ∈ details → ∃ u, ds_users s !! UOR_UserID (OMD_Relation d) = Some u ∧
       org_columns d = shown_of u) ∧
  (∀ g details, (DirectoryService_ListGroupMembers g s).1 = Ok details →
     NoDup ((λ d, GM_UserID (GMD_Member d)) <$> details) ∧
     ∀ d, d ∈ details → ∃ u, ds_users s !! GM_UserID (GMD_Member d) = Some u ∧
       group_columns d = shown_of u).
Proof.
  intros [Hok [_ Ho _] [_ Hg _] Hou Hgu]%ds_reachable_inv. split.
  - intros o details. destruct (list_org_members_run o s Hok) as (s1 & -> & _). simpl.
    destruct (orgs (orgStore s) !! o); [|done]. intros [= <-].
    rewrite <- list_fmap_compose. split.
    + rewrite (list_fmap_ext _ UOR_UserID) by (intros; unfold org_detail; simpl; by destruct (live_user _ _)).
      by apply (mirror_nodup UOR_OrgID UOR_UserID _ _ Ho).
    + intros d (rel & -> & Hrel)%list_elem_of_fmap.
      destruct (Hou (UOR_UserID rel) rel) as [u Hu].
      { apply (mirror_same _ _ _ _ Ho). by rewrite (mirror_container _ _ _ _ Ho _ _ Hrel). }
      exists u. unfold org_detail, org_columns, shown_of. rewrite (live_user_shown _ _ _ Hu).
      by case_bool_decide.
  - intros g details. destruct (list_group_members_run g s Hok) as (s1 & -> & _). simpl.
    destruct (groups (groupStore s) !! g); [|done]. intros [= <-].
    rewrite <- list_fmap_compose. split.
    + rewrite (list_fmap_ext _ GM_UserID) by (intros; unfold group_detail; simpl; by destruct (live_user _ _)).
      by apply (mirror_nodup GM_GroupID GM_UserID _ _ Hg).
    + intros d (rel & -> & Hrel)%list_elem_of_fmap.
      destruct (Hgu (GM_UserID rel) rel) as [u Hu].
      { apply (mirror_same _ _ _ _ Hg). by rewrite (mirror_container _ _ _ _ Hg _ _ Hrel). }
      exists u. unfold group_detail, group_columns, shown_of. rewrite (live_user_shown _ _ _ Hu).
      by case_bool_decide.
Qed.
End laws.

(** ** Concrete instances *)
Section witnesses.
#[local] Existing Instance Sample.ascii_tables.

(** "bob" is a member of organization "a" and of group "g". *)
Definition ds_sample : DirectoryService MemoryStore MemoryOrgStore MemoryGroupStore :=
  foldl (λ s c, ds_exec c s)
    (mkDirectoryService NewMemoryOrgStore NewMemoryGroupStore Sample.store)
    [DsCreateOrg 1%Z "a" (mkCreateOrgRequest "Company" "" "" "");
     DsCreateGroup 2%Z "g" (mkCreateGroupRequest "Dev" "" "team");
     DsAddOrgMember "a" (mkAddOrgMemberRequest "2" "" true);
     DsAddGroupMember 3%Z "g" (mkAddGroupMemberRequest "2" "owner")].

Lemma ds_sample_reachable : ds_reachable ds_sample.
Proof.
  unfold ds_sample. cbn [foldl]. do 4 (apply ds_step; [|exact I]).
  apply ds_start. apply reachable_inv, Sample.store_reachable.
Qed.

Lemma add_org_member_exact_witness :
  (DirectoryService_AddOrgMember "a" (mkAddOrgMemberRequest "1" "" false) ds_sample).1
    = Ok (mkUserOrgRelation "1" "a" "member" false) ∧
  (DirectoryService_AddOrgMember "a" (mkAddOrgMemberRequest "2" "" false) ds_sample).1
    = Err ErrMemberExists ∧
  (DirectoryService_AddOrgMember "zz" (mkAddOrgMemberRequest "9" "" false) ds_sample).1
    = Err ErrUserNotFound.
Proof.
  pose proof (ds_inv_users _ (ds_reachable_inv _ ds_sample_reachable)) as Hok.
  pose proof (add_org_member_exact ds_sample "a" (mkAddOrgMemberRequest "2" "" false) Hok) as H.
  split; [vm_compute; reflexivity|]. split; [|vm_compute; reflexivity].
  destruct (DirectoryService_AddOrgMember "a" (mkAddOrgMemberRequest "2" "" false) ds_sample)
    as [r s']. destruct H as (_ & _ & _ & H & _). simpl fst.
  destruct (H (created 11%Z Sample.bob) ltac:(vm_compute; reflexivity)) as [_ H'].
  specialize (H' ltac:(vm_compute; eexists; reflexivity)).
  rewrite bool_decide_eq_true_2 in H' by decided. exact H'.
Defined.

Lemma member_lists_resolve_witness :
  ∃ d, (DirectoryService_ListOrgMembers "a" ds_sample).1 = Ok [d] ∧
    org_columns d = shown_of (created 11%Z Sample.bob).
Proof.
  eexists. split; [vm_compute; reflexivity|].
  destruct (proj2 (proj1 (member_lists_resolve ds_sample ds_sample_reachable) "a" _
    ltac:(vm_compute; reflexivity)) _ ltac:(left)) as (u & Hu & Hc).
  rewrite Hc. vm_compute in Hu. injection Hu as <-. reflexivity.
Defined.
End witnesses.
