(* ===== verification/App.v ===== *)
(** * The application: the stores behind the two services

    [cmd/main.go] builds one user store, one job store, one organization store and one group
    store and hands them to the user service and the directory service; the REST and UDS
    interfaces call both services on this shared state. The file also has what the interfaces
    rely on: which calls can panic, and that a call that fails changes nothing. *)

From Stdlib Require Import ZArith Lia.
From stdpp Require Import base tactics numbers list gmap strings.
From S2P Require Import Prelude Model GoStrings UserStore UserMem UserHistory SyncJobs OrgStore GroupStore Auth UserService DirectoryService.

(** ** Application state: the stores shared by the two services *)
Record App (US SS OS GS : Type) : Type := mkApp {
  app_users : US;
  app_jobs : SS;
  app_orgs : OS;
  app_groups : GS;
  app_auth : AuthService;
}.
Arguments mkApp {US SS OS GS} _ _ _ _ _.
Arguments app_users {US SS OS GS} _.
Arguments app_jobs {US SS OS GS} _.
Arguments app_orgs {US SS OS GS} _.
Arguments app_groups {US SS OS GS} _.
Arguments app_auth {US SS OS GS} _.

(** What a request draws from its surroundings: the clock, a fresh identifier, and the order in
    which each map happens to be enumerated. *)
Record Env : Type := mkEnv {
  env_now : Time;
  env_now1 : Time;
  env_now2 : Time;
  env_uuid : string;
  env_users : list string;
  env_orgs : list string;
  env_groups : list string;
}.

Section services.
Context {US SS OS GS : Type}.
Notation A := (App US SS OS GS).
Notation M := (GoM error A).

Definition user_svc (a : A) : UserService US SS := mkUserService (app_users a) (app_jobs a) (app_auth a).
Definition set_user_svc (s : UserService US SS) (a : A) : A :=
  mkApp (userStore s) (syncStore s) (app_orgs a) (app_groups a) (app_auth a).
Definition dir_svc (a : A) : DirectoryService US OS GS :=
  mkDirectoryService (app_orgs a) (app_groups a) (app_users a).
Definition set_dir_svc (s : DirectoryService US OS GS) (a : A) : A :=
  mkApp (ds_userStore s) (app_jobs a) (orgStore s) (groupStore s) (app_auth a).

Definition userSvc {X} (m : GoM error (UserService US SS) X) : M X := zoom user_svc set_user_svc m.
Definition dirSvc {X} (m : GoM error (DirectoryService US OS GS) X) : M X :=
  zoom dir_svc set_dir_svc m.

(** The users a service call leaves, seen in the application. *)
Lemma userSvc_run {X} (m : GoM error (UserService US SS) X) a :
  userSvc m a = ((m (user_svc a)).1, set_user_svc (m (user_svc a)).2 a).
Proof. unfold userSvc, zoom. by destruct (m (user_svc a)). Qed.

(** The users of the application, and its states. *)
Context `{UT : UnicodeTables} `{!UserStore US, !UserStoreLaws US}.
Definition app_directory (a : A) : gmap string User := us_users (app_users a).
Definition app_ok (a : A) : Prop := us_inv (app_users a).
End services.

(** ** Failing calls leave the stores alone

    Over the in-memory stores and any lawful user store. *)
Section errors.
Context `{UT : UnicodeTables} {US : Type} `{!UserStore US, !UserStoreLaws US}.
Notation A := (App US MemorySyncJobStore MemoryOrgStore MemoryGroupStore).
Implicit Types (a : A).

(** Two states with the same users, jobs, organizations and groups. *)
Record same (a a' : A) : Prop := {
  same_ok : app_ok a';
  same_users : app_directory a' = app_directory a;
  same_jobs : app_jobs a' = app_jobs a;
  same_orgs : app_orgs a' = app_orgs a;
  same_groups : app_groups a' = app_groups a;
  same_auth : app_auth a' = app_auth a;
}.

Lemma same_refl a : app_ok a → same a a.
Proof. by split. Qed.

(** A call whose error return or panic changes nothing, and one that moreover never panics. *)
Definition quiet_at {X} (a : A) (m : GoM error A X) : Prop :=
  match m a with (Ok _, _) => True | (_, a') => same a a' end.
Definition tidy_at {X} (a : A) (m : GoM error A X) : Prop :=
  match m a with (Ok _, _) => True | (Err _, a') => same a a' | (Panic, _) => False end.
Definition tidy {X} (m : GoM error A X) : Prop := ∀ a, app_ok a → tidy_at a m.

Lemma tidy_quiet {X} a (m : GoM error A X) : tidy_at a m → quiet_at a m.
Proof. unfold tidy_at, quiet_at. by destruct (m a) as [[] ?]. Qed.

(** The same for a call on one store: its errors change nothing and it never panics. *)
Definition neat {S X} (m : GoM error S X) : Prop :=
  ∀ s, match m s with (Ok _, _) => True | (Err _, s') => s' = s | (Panic, _) => False end.

(** *** Calls on the users *)
Lemma tidy_users {X} pre (impl : GoM error US X) spec a :
  refines us_inv us_users pre impl spec → neat spec → app_ok a → pre (app_directory a) →
  tidy_at a (userSvc (on_users impl)).
Proof.
  intros Hr Hspec Ha Hpre. specialize (Hr _ Ha Hpre). specialize (Hspec (app_directory a)).
  unfold tidy_at, userSvc, on_users, zoom. simpl. destruct (impl (app_users a)) as [r us].
  destruct Hr as [Hok Hr]. unfold app_directory in Hspec. rewrite Hr in Hspec.
  by destruct r; [|split|].
Qed.

Lemma neat_dir_create now u : neat (dir_create now u).
Proof. intros m. unfold dir_create. repeat case_match; by simplify_eq. Qed.
Lemma neat_dir_getByID id : neat (dir_getByID id).
Proof. intros m. unfold dir_getByID. repeat case_match; by simplify_eq. Qed.
Lemma neat_dir_lookup P `{∀ u, Decision (P u)} : neat (dir_lookup P).
Proof. intros m. unfold dir_lookup. repeat case_match; by simplify_eq. Qed.
Lemma neat_dir_update now p : neat (dir_update now p).
Proof. intros m. unfold dir_update. repeat case_match; by simplify_eq. Qed.
Lemma neat_dir_delete now id : neat (dir_delete now id).
Proof. intros m. unfold dir_delete. repeat case_match; by simplify_eq. Qed.

Lemma tidy_get_user id : tidy (userSvc (UserService_GetUser id)).
Proof. intros a Ha. by apply (tidy_users _ _ _ _ (us_getByID_refines id) (neat_dir_getByID id)). Qed.

Lemma tidy_get_user_by_username n : tidy (userSvc (UserService_GetUserByUsername n)).
Proof. intros a Ha. by apply (tidy_users _ _ _ _ (us_getByUsername_refines n) (neat_dir_lookup _)). Qed.

Lemma tidy_delete_user now id : tidy (userSvc (UserService_DeleteUser now id)).
Proof. intros a Ha. by apply (tidy_users _ _ _ _ (us_delete_refines now id) (neat_dir_delete now id)). Qed.

Lemma tidy_set_online now id b : tidy (userSvc (UserService_SetOnline now id b)).
Proof. intros a Ha. by apply (tidy_users _ _ _ _ (us_update_refines now _) (neat_dir_update now _)). Qed.

Lemma tidy_create_user now id req a :
  app_ok a → app_directory a !! id = None →
  tidy_at a (userSvc (UserService_CreateUser now id req)).
Proof.
  intros Ha Hid. unfold tidy_at, UserService_CreateUser, userSvc, zoom. rewrite bind_get.
  destruct (HashPassword _ _) as [err|hash]; [by split|].
  rewrite (bind_ok (of_sum (inr hash)) _ (user_svc a) hash (user_svc a) eq_refl).
  set (u := mkUser _ _ _ _ _ _ _ _ _ _ _).
  exact (tidy_users (λ m, m !! User_ID u = None) _ _ a (us_create_refines now u)
    (neat_dir_create now u) Ha Hid).
Qed.

(** An update that does not mark the user deleted reads the user back. *)
Lemma tidy_update_user now id req :
  UUR_Status req ≠ UserStatusDeleted → tidy (userSvc (UserService_UpdateUser now id req)).
Proof.
  intros Hst a Ha. unfold tidy_at, UserService_UpdateUser, userSvc, zoom.
  set (patch := mkUser _ _ _ _ _ _ _ _ _ _ _).
  destruct (on_users_update_run now patch (user_svc a) Ha) as (us & Hrun & Hok & Hd).
  pose proof (neat_dir_update now patch (directory (user_svc a))) as Hneat.
  destruct (dir_update now patch (directory (user_svc a))) as [r m] eqn:E. simpl in Hrun, Hd.
  destruct r as [[]|err|]; [|rewrite (bind_err _ _ _ _ _ Hrun), Hneat in *; by split|done].
  rewrite (bind_ok _ _ _ _ _ Hrun). destruct (get_by_id_run id _ Hok) as (us' & -> & _).
  rewrite Hd. revert E. unfold dir_update. change (User_ID patch) with id.
  destruct (directory (user_svc a) !! id) as [old|]; [|done].
  destruct (decide (live old)) as [Hl|]; [|done]. case_match; [done|]. intros [= <-].
  unfold dir_getByID. rewrite lookup_insert_eq. unfold patch. rewrite merge_user_request.
  by rewrite decide_True by (by apply live_updated).
Qed.

Lemma tidy_verify n p : tidy (userSvc (UserService_VerifyCredentials n p)).
Proof.
  intros a Ha. destruct (verify_run n p (user_svc a) Ha) as (us & Hrun & Hok & Hd).
  unfold tidy_at. rewrite userSvc_run, Hrun. simpl. unfold verify_spec.
  repeat case_match; try done; by split.
Qed.

(** A listing panics on a negative offset, and on nothing else up to the largest offset a page
    fits after. *)
Lemma quiet_users_page (P : User → Prop) `{∀ u, Decision (P u)} impl spec iter off lim a :
  refines us_inv us_users (λ _, True) impl spec → app_ok a →
  (∀ m, spec m = match paginate (filter P (enumerate iter m)) off lim with
                 | Some page => (Ok page, m) | None => (Panic, m) end) →
  quiet_at a (userSvc (on_users impl)).
Proof.
  intros Hr Ha Hspec. specialize (Hr _ Ha I). unfold quiet_at, userSvc, on_users, zoom. simpl.
  rewrite Hspec in Hr. destruct (impl (app_users a)) as [r us]. destruct Hr as [Hok Hr].
  destruct (paginate _ off lim); simplify_eq; [done|]. by split.
Qed.

Lemma quiet_list_users iter q off lim a :
  app_ok a → quiet_at a (userSvc (UserService_ListUsers iter q off lim)).
Proof.
  intros Ha. unfold UserService_ListUsers. cbv zeta. case_bool_decide.
  - by apply (quiet_users_page (λ u, live u ∧ matches q u) _ _ iter off (clamp_limit lim) a
      (us_search_refines iter q off (clamp_limit lim))).
  - by apply (quiet_users_page live _ _ iter off (clamp_limit lim) a
      (us_list_refines iter off (clamp_limit lim))).
Qed.

Lemma quiet_online_count iter a : app_ok a → quiet_at a (userSvc (UserService_GetOnlineCount iter)).
Proof.
  intros Ha. pose proof (quiet_users_page live _ _ iter 0 10000 a (us_list_refines iter 0 10000) Ha
    (λ _, eq_refl)) as Hq.
  unfold quiet_at, UserService_GetOnlineCount, userSvc, zoom, mbind, gom_bind in *.
  by destruct (on_users _ (user_svc a)) as [[] ?].
Qed.

(** *** Calls on one of the other stores *)
Lemma tidy_jobs {X} (m : GoM error MemorySyncJobStore X) : neat m → tidy (userSvc (on_jobs m)).
Proof.
  intros Hm a Ha. specialize (Hm (app_jobs a)). unfold tidy_at, userSvc, on_jobs, zoom. simpl.
  by destruct (m (app_jobs a)) as [[] s']; [|split|].
Qed.

Lemma tidy_orgs {X} (m : GoM error MemoryOrgStore X) : neat m → tidy (dirSvc (on_orgs m)).
Proof.
  intros Hm a Ha. specialize (Hm (app_orgs a)). unfold tidy_at, dirSvc, on_orgs, zoom. simpl.
  by destruct (m (app_orgs a)) as [[] s']; [|split|].
Qed.

Lemma tidy_groups {X} (m : GoM error MemoryGroupStore X) : neat m → tidy (dirSvc (on_groups m)).
Proof.
  intros Hm a Ha. specialize (Hm (app_groups a)). unfold tidy_at, dirSvc, on_groups, zoom. simpl.
  by destruct (m (app_groups a)) as [[] s']; [|split|].
Qed.

Ltac store_case := intros s; repeat case_match; by simplify_eq.

Lemma neat_org_create now o : neat (MemoryOrgStore_Create now o).
Proof. unfold MemoryOrgStore_Create. store_case. Qed.
Lemma neat_org_get id : neat (MemoryOrgStore_GetByID id).
Proof. unfold MemoryOrgStore_GetByID. store_case. Qed.
Lemma neat_org_delete id : neat (MemoryOrgStore_Delete id).
Proof. unfold MemoryOrgStore_Delete. store_case. Qed.
Lemma neat_org_remove o u : neat (MemoryOrgStore_RemoveMember o u).
Proof. unfold MemoryOrgStore_RemoveMember. store_case. Qed.
Lemma neat_group_create now g : neat (MemoryGroupStore_Create now g).
Proof. unfold MemoryGroupStore_Create. store_case. Qed.
Lemma neat_group_get id : neat (MemoryGroupStore_GetByID id).
Proof. unfold MemoryGroupStore_GetByID. store_case. Qed.
Lemma neat_group_delete id : neat (MemoryGroupStore_Delete id).
Proof. unfold MemoryGroupStore_Delete. store_case. Qed.
Lemma neat_group_remove g u : neat (MemoryGroupStore_RemoveMember g u).
Proof. unfold MemoryGroupStore_RemoveMember. store_case. Qed.
Lemma neat_job_get id : neat (MemorySyncJobStore_GetByID id).
Proof. unfold MemorySyncJobStore_GetByID. store_case. Qed.

(** A page of all organizations or groups. *)
Lemma page_outcome {X} (l : list X) off lim :
  (1 ≤ lim ≤ 100)%Z → is_int off → (len l ≤ max_int - 100)%Z →
  match paginate l off lim with Some _ => (0 ≤ off)%Z | None => (off < 0)%Z end.
Proof.
  unfold is_int, min_int, max_int. intros Hlim Hoff Hlen. pose proof (len_nonneg l).
  destruct (paginate l off lim) eqn:E.
  - destruct (decide (off < 0)%Z); [|lia].
    assert (paginate l off lim = None); [|congruence]. apply paginate_panics. lia.
  - apply paginate_panics in E as [Hlt [?|Hw]]; [done|].
    destruct (decide (off < 0)%Z); [done|]. rewrite int_add_id in Hw; [lia|].
    unfold is_int, min_int, max_int. lia.
Qed.

Lemma quiet_list_orgs iter off lim a :
  app_ok a → quiet_at a (dirSvc (DirectoryService_ListOrgs iter off lim)).
Proof.
  intros Ha. unfold quiet_at, DirectoryService_ListOrgs, dirSvc, on_orgs, zoom. simpl.
  unfold MemoryOrgStore_List. destruct (paginate _ off _); [done|by split].
Qed.

Lemma quiet_list_groups iter off lim a :
  app_ok a → quiet_at a (dirSvc (DirectoryService_ListGroups iter off lim)).
Proof.
  intros Ha. unfold quiet_at, DirectoryService_ListGroups, dirSvc, on_groups, zoom. simpl.
  unfold MemoryGroupStore_List. destruct (paginate _ off _); [done|by split].
Qed.

(** A service call that leaves the users and the stores as they are when it fails. *)
Lemma tidy_dir {X} (m : GoM error (DirectoryService US MemoryOrgStore MemoryGroupStore) X) :
  (∀ s, ds_ok s → match m s with
     | (Ok _, _) => True
     | (Err _, s') => ds_ok s' ∧ ds_users s' = ds_users s ∧ orgStore s' = orgStore s ∧
         groupStore s' = groupStore s
     | (Panic, _) => False
     end) → tidy (dirSvc m).
Proof.
  intros Hm a Ha. specialize (Hm (dir_svc a) Ha). unfold tidy_at, dirSvc, zoom.
  destruct (m (dir_svc a)) as [[] s']; [done| |done]. destruct Hm as (? & ? & ? & ?). by split.
Qed.

Lemma tidy_update_org now id req : tidy (dirSvc (DirectoryService_UpdateOrg now id req)).
Proof.
  apply tidy_dir. intros s Hs.
  unfold DirectoryService_UpdateOrg, mbind, gom_bind, on_orgs, zoom. simpl.
  unfold MemoryOrgStore_Update. simpl. destruct (orgs (orgStore s) !! id) as [o|]; [|done].
  unfold MemoryOrgStore_GetByID. simpl. by rewrite lookup_insert_eq.
Qed.

Lemma tidy_update_group now id req : tidy (dirSvc (DirectoryService_UpdateGroup now id req)).
Proof.
  apply tidy_dir. intros s Hs.
  unfold DirectoryService_UpdateGroup, mbind, gom_bind, on_groups, zoom. simpl.
  unfold MemoryGroupStore_Update. simpl. destruct (groups (groupStore s) !! id) as [o|]; [|done].
  unfold MemoryGroupStore_GetByID. simpl. by rewrite lookup_insert_eq.
Qed.

Lemma tidy_add_org_member o req : tidy (dirSvc (DirectoryService_AddOrgMember o req)).
Proof.
  apply tidy_dir. intros s Hs.
  destruct (add_org_member_run o req s Hs) as (s1 & Hok & Hu & Hg & Hs1 & Ho & Hr).
  destruct (DirectoryService_AddOrgMember o req s) as [r s']. simpl in Hs1, Hr. subst s1 r.
  unfold MemoryOrgStore_AddMember in *. repeat case_match; simplify_eq/=; done.
Qed.

Lemma tidy_add_group_member now g req : tidy (dirSvc (DirectoryService_AddGroupMember now g req)).
Proof.
  apply tidy_dir. intros s Hs. unfold DirectoryService_AddGroupMember.
  match goal with |- context [(try (on_ds_users (us_GetByID ?id)) ≫= ?f) ?s] =>
    destruct (find_live_run id f s Hs) as (s1 & -> & Hok & Hu & Ho & Hg) end.
  destruct (live_user _ _); [|by split_and!].
  unfold on_groups, zoom. simpl. unfold MemoryGroupStore_AddMember.
  repeat case_match; simplify_eq/=; done.
Qed.

Lemma tidy_list_org_members o : tidy (dirSvc (DirectoryService_ListOrgMembers o)).
Proof.
  apply tidy_dir. intros s Hs. destruct (list_org_members_run o s Hs) as (s1 & -> & Hs1).
  by destruct (orgs (orgStore s) !! o).
Qed.

Lemma tidy_list_group_members g : tidy (dirSvc (DirectoryService_ListGroupMembers g)).
Proof.
  apply tidy_dir. intros s Hs. destruct (list_group_members_run g s Hs) as (s1 & -> & Hs1).
  by destruct (groups (groupStore s) !! g).
Qed.
End errors.

(** The single-call methods, by the store they call. *)
Create HintDb tidy.
#[export] Hint Resolve tidy_get_user tidy_get_user_by_username tidy_delete_user tidy_set_online
  tidy_create_user tidy_update_user tidy_verify tidy_jobs tidy_orgs tidy_groups
  tidy_update_org tidy_update_group tidy_add_org_member tidy_add_group_member
  tidy_list_org_members tidy_list_group_members
  neat_org_create neat_org_get neat_org_delete neat_org_remove neat_group_create neat_group_get
  neat_group_delete neat_group_remove neat_job_get : tidy.

(** ** A concrete application: users 1 and 2 in memory, nothing else *)
Module SampleApp.
Definition app : App MemoryStore MemorySyncJobStore MemoryOrgStore MemoryGroupStore :=
  mkApp Sample.store NewMemorySyncJobStore NewMemoryOrgStore NewMemoryGroupStore sample_auth.
Definition env (t : Time) : Env := mkEnv t t t "3" ["1"; "2"] [] [].

Section ok.
#[local] Existing Instance Sample.ascii_tables.
Lemma app_is_ok : app_ok app.
Proof. apply reachable_inv, Sample.store_reachable. Qed.
End ok.
End SampleApp.
