(* ===== verification/AppHistory.v ===== *)
(** * What every service call preserves

    The invariant of the shared state and the way it may change, whichever interface a call comes
    from: the three stores stay consistent, users keep the identity they were created with, nobody
    is removed, and only the creation of a user adds an identifier. *)

From Stdlib Require Import ZArith Lia.
From stdpp Require Import base tactics numbers list gmap strings.
From S2P Require Import Prelude Model GoStrings UserStore UserMem UserHistory SyncJobs Membership OrgStore GroupStore Auth UserService DirectoryService App.

(** ** How the users may change *)

(** What no call changes of a user. *)
Definition identity (u : User) : string * string * string * string * string * Time :=
  (User_ID u, User_Username u, User_PasswordHash u, User_ExternalID u, User_SourceSystem u,
   User_CreatedAt u).

(** From [m] to [m']: nobody is lost or changes identity, and only identifiers of [X] are new. *)
Record evolves (X : gset string) (m m' : gmap string User) : Prop := {
  evolves_identity i u : m !! i = Some u → ∃ u', m' !! i = Some u' ∧ identity u' = identity u;
  evolves_new i : is_Some (m' !! i) → is_Some (m !! i) ∨ i ∈ X;
}.

#[export] Instance evolves_preorder X : PreOrder (evolves X).
Proof.
  split.
  - intros m. split; [by eauto|by left].
  - intros m1 m2 m3 [Hi Hn] [Hi' Hn']. split.
    + intros i u (u2 & H2 & He2)%Hi. destruct (Hi' i u2 H2) as (u3 & H3 & He3).
      exists u3. split; [done|congruence].
    + intros i [H|H]%Hn'; [by apply Hn|by right].
Qed.

Lemma evolves_mono X Y m m' : X ⊆ Y → evolves X m m' → evolves Y m m'.
Proof. intros HXY [Hi Hn]. split; [done|]. intros i [H|H]%Hn; [by left|right; set_solver]. Qed.

Lemma evolves_insert X m i u :
  (∀ v, m !! i = Some v → identity u = identity v) → is_Some (m !! i) ∨ i ∈ X →
  evolves X m (<[i := u]> m).
Proof.
  intros Hid Hin. split.
  - intros j v Hj. destruct (decide (i = j)) as [<-|Hne].
    + rewrite lookup_insert_eq. exists u. auto.
    + rewrite lookup_insert_ne by done. eauto.
  - intros j. destruct (decide (i = j)) as [<-|Hne]; [done|].
    rewrite lookup_insert_ne by done. by left.
Qed.

(** What a call on the users may do to them. *)
Notation users_rel := (relation (gmap string User)).

(** The relations the calls respect: nobody is lost on the way. *)
Class Keeping (R : users_rel) : Prop := {
  keeping_preorder :: PreOrder R;
  keeping m m' i : R m m' → is_Some (m !! i) → is_Some (m' !! i);
}.
#[export] Instance keeping_eq : Keeping (=).
Proof. split; [apply _|by intros m m' i ->]. Qed.
#[export] Instance keeping_evolves X : Keeping (evolves X).
Proof. split; [apply _|]. intros m m' i [Hi _] [u Hu]. destruct (Hi i u Hu) as (u' & Hu' & _). by exists u'. Qed.

Definition spec_keeps {B} (R : users_rel) (pre : gmap string User → Prop)
    (spec : GoM error (gmap string User) B) : Prop :=
  ∀ m, pre m → R m (spec m).2.

(** The reads leave the users as they are, *)
Section reads.
Context (R : users_rel) `{!Reflexive R}.

Lemma dir_getByID_keeps id : spec_keeps R (λ _, True) (dir_getByID id).
Proof. intros m _. unfold dir_getByID. by repeat case_match. Qed.
Lemma dir_lookup_keeps P `{∀ u, Decision (P u)} : spec_keeps R (λ _, True) (dir_lookup P).
Proof. intros m _. unfold dir_lookup. by repeat case_match. Qed.
Lemma dir_list_keeps iter off lim : spec_keeps R (λ _, True) (dir_list iter off lim).
Proof. intros m _. unfold dir_list. by case_match. Qed.
Lemma dir_search_keeps `{UnicodeTables} iter q off lim :
  spec_keeps R (λ _, True) (dir_search iter q off lim).
Proof. intros m _. unfold dir_search. by case_match. Qed.
End reads.

(** and the writes let them evolve. *)
Lemma dir_create_keeps now u :
  spec_keeps (evolves {[User_ID u]}) (λ m, m !! User_ID u = None) (dir_create now u).
Proof.
  intros m Hf. unfold dir_create. repeat case_match; try done; simplify_eq/=.
  all: apply evolves_insert; [|right; set_solver].
  all: intros v Hv; simpl in Hv; by rewrite Hf in Hv.
Qed.
Lemma dir_update_keeps X now p : spec_keeps (evolves X) (λ _, True) (dir_update now p).
Proof.
  intros m _. unfold dir_update. destruct (m !! User_ID p) as [old|] eqn:E; [|done].
  repeat case_match; try done. simpl. apply evolves_insert; [|by left].
  intros v Hv. rewrite E in Hv. injection Hv as <-. unfold merge_user. by repeat case_bool_decide.
Qed.
Lemma dir_delete_keeps X now id : spec_keeps (evolves X) (λ _, True) (dir_delete now id).
Proof.
  intros m _. unfold dir_delete. destruct (m !! id) as [old|] eqn:E; [|done].
  case_match; [|done]. simpl. apply evolves_insert; [|by left].
  intros v Hv. rewrite E in Hv. by injection Hv as <-.
Qed.

Create HintDb evolves.
#[export] Hint Resolve dir_create_keeps dir_getByID_keeps dir_lookup_keeps dir_update_keeps
  dir_delete_keeps dir_list_keeps dir_search_keeps us_create_refines us_getByID_refines
  us_getByUsername_refines us_getByEmail_refines us_update_refines us_delete_refines
  us_list_refines us_search_refines : evolves.

(** ** Calls of the user service *)
Section user_service.
Context `{UT : UnicodeTables} {US SS : Type} `{!UserStore US, !UserStoreLaws US, !SyncJobStore SS}.
Context (R : users_rel) `{!Keeping R}.
Notation SV := (UserService US SS).
Implicit Types (s : SV).

Record svc_keeps {B} (s : SV) (m : GoM error SV B) : Prop := {
  svc_keeps_ok : service_ok (m s).2;
  svc_keeps_users : R (directory s) (directory (m s).2);
}.

(** Only the run from this state matters. *)
Lemma svc_at {B} (m m' : GoM error SV B) s : m s = m' s → svc_keeps s m' → svc_keeps s m.
Proof. intros E [Hok Hu]. by split; rewrite E. Qed.

Lemma svc_bind {B C} (m : GoM error SV B) (f : B → GoM error SV C) s :
  svc_keeps s m → (∀ x s', service_ok s' → svc_keeps s' (f x)) → svc_keeps s (m ≫= f).
Proof.
  intros [Hok Hu] Hf. unfold mbind, gom_bind. destruct (m s) as [[x|e|] s'] eqn:E; simpl in *;
    [|by split; simpl; rewrite ?E..].
  destruct (Hf x s' Hok) as [Hok' Hu']. split; simpl; rewrite E; [done|]. by rewrite Hu.
Qed.

Lemma svc_try {B} (m : GoM error SV B) s : svc_keeps s m → svc_keeps s (try m).
Proof. intros [Hok Hu]. unfold try. by split; destruct (m s) as [[] ?]. Qed.

Lemma svc_users {B} pre (impl : GoM error US B) spec s :
  refines us_inv us_users pre impl spec → spec_keeps R pre spec → pre (directory s) →
  service_ok s → svc_keeps s (on_users impl).
Proof.
  intros Hr Hsp Hpre Hs. destruct (on_users_run _ _ _ s Hr Hs Hpre) as (us & Hrun & Hok & Hd).
  split; rewrite Hrun; simpl; [done|]. rewrite Hd. by apply Hsp.
Qed.

Lemma svc_jobs {B} (m : GoM error SS B) s : service_ok s → svc_keeps s (on_jobs m).
Proof. intros Hs. unfold on_jobs, zoom. by split; destruct (m (syncStore s)). Qed.

Lemma svc_get s : service_ok s → svc_keeps s get.
Proof. by split. Qed.
Lemma svc_of_sum {B} (r : error + B) s : service_ok s → svc_keeps s (of_sum r).
Proof. by destruct r; split. Qed.
Lemma svc_mret {B} (x : B) s : service_ok s → svc_keeps s (mret x).
Proof. by split. Qed.
Lemma svc_throw {B} e s : service_ok s → svc_keeps (B := B) s (throw e).
Proof. by split. Qed.
End user_service.

#[export] Hint Resolve svc_jobs svc_get svc_of_sum svc_mret svc_throw : evolves.
#[export] Hint Extern 1 (Reflexive _) => typeclasses eauto : evolves.
#[export] Hint Extern 1 (Keeping _) => typeclasses eauto : evolves.

(** Walks through a method: binds, branches, and calls on the stores. *)
Ltac svc_walk :=
  repeat first
    [ progress (eauto 3 with evolves)
    | apply svc_try
    | apply svc_bind; [|intros]
    | apply svc_bind; [typeclasses eauto| |intros]
    | eapply svc_users; [solve [eauto 3 with evolves]|solve [eauto 3 with evolves]|exact I|done]
    | case_match ].

Section methods.
Context `{UT : UnicodeTables} {US SS : Type} `{!UserStore US, !UserStoreLaws US, !SyncJobStore SS}.
Context (R : users_rel) `{!Keeping R}.
Implicit Types (s : UserService US SS).

Lemma svc_get_user id s : service_ok s → svc_keeps R s (UserService_GetUser id).
Proof. intros. unfold UserService_GetUser. svc_walk. Qed.
Lemma svc_get_user_by_username n s : service_ok s → svc_keeps R s (UserService_GetUserByUsername n).
Proof. intros. unfold UserService_GetUserByUsername. svc_walk. Qed.
Lemma svc_list_users iter q off lim s : service_ok s →
  svc_keeps R s (UserService_ListUsers iter q off lim).
Proof. intros. unfold UserService_ListUsers. cbv zeta. svc_walk. Qed.
Lemma svc_verify n p s : service_ok s → svc_keeps R s (UserService_VerifyCredentials n p).
Proof. intros. unfold UserService_VerifyCredentials. svc_walk. Qed.
Lemma svc_online_count iter s : service_ok s → svc_keeps R s (UserService_GetOnlineCount iter).
Proof. intros. unfold UserService_GetOnlineCount. svc_walk. Qed.
Lemma svc_create_job now now1 id req s : service_ok s →
  svc_keeps R s (UserService_CreateSyncJob now now1 id req).
Proof. intros. unfold UserService_CreateSyncJob. svc_walk. Qed.
Lemma svc_get_job id s : service_ok s → svc_keeps R s (UserService_GetSyncJob id).
Proof. intros. unfold UserService_GetSyncJob. svc_walk. Qed.
End methods.

#[export] Hint Resolve svc_get_user svc_get_user_by_username svc_list_users svc_verify
  svc_online_count svc_create_job svc_get_job : evolves.

Section writes.
Context `{UT : UnicodeTables} {US SS : Type} `{!UserStore US, !UserStoreLaws US, !SyncJobStore SS}.
Implicit Types (s : UserService US SS).

Lemma svc_create_user now id req s : directory s !! id = None → service_ok s →
  svc_keeps (evolves {[id]}) s (UserService_CreateUser now id req).
Proof.
  intros Hid Hs. set (u := λ hash, mkUser id (CUR_Username req) (CUR_Email req) hash
    (CUR_DisplayName req) UserStatusActive false "" "" zero_time zero_time).
  destruct (HashPassword (authSvc s) (CUR_Password req)) as [e|h] eqn:E.
  - apply (svc_at _ _ (throw e)); [|by apply svc_throw; [apply _|]].
    unfold UserService_CreateUser. rewrite bind_get. by rewrite E.
  - apply (svc_at _ _ (on_users (us_Create now (u h)))).
    { unfold UserService_CreateUser. rewrite bind_get. by rewrite E. }
    by apply (svc_users _ _ _ _ s (us_create_refines now (u h)) (dir_create_keeps now (u h)) Hid).
Qed.
Lemma svc_update_user X now id req s : service_ok s →
  svc_keeps (evolves X) s (UserService_UpdateUser now id req).
Proof. intros. unfold UserService_UpdateUser. svc_walk. Qed.
Lemma svc_delete_user X now id s : service_ok s →
  svc_keeps (evolves X) s (UserService_DeleteUser now id).
Proof. intros. unfold UserService_DeleteUser. svc_walk. Qed.
Lemma svc_set_online X now id b s : service_ok s →
  svc_keeps (evolves X) s (UserService_SetOnline now id b).
Proof. intros. unfold UserService_SetOnline. svc_walk. Qed.
Lemma svc_logout X now id s : service_ok s →
  svc_keeps (evolves X) s (UserService_Logout now id).
Proof. intros. unfold UserService_Logout. svc_walk. Qed.
Lemma svc_login `{JWT} X now now1 now2 n p s : service_ok s →
  svc_keeps (evolves X) s (UserService_Login now now1 now2 n p).
Proof. intros. unfold UserService_Login. cbv zeta. svc_walk. Qed.
End writes.

#[export] Hint Resolve svc_update_user svc_delete_user svc_set_online svc_logout svc_login : evolves.

(** ** Calls of the directory service *)
Section directory_service.
Context `{UT : UnicodeTables} {US : Type} `{!UserStore US, !UserStoreLaws US}.
Notation D := (DirectoryService US MemoryOrgStore MemoryGroupStore).
Implicit Types (s : D).

(** A call on a consistent state leaves a consistent state and the same users. *)
Record dir_keeps {B} (s : D) (m : GoM error D B) : Prop := {
  dir_keeps_inv : ds_inv (m s).2;
  dir_keeps_users : ds_users (m s).2 = ds_users s;
}.

(** A call that only reads. *)
Lemma dir_read_orgs {B} (m : GoM error MemoryOrgStore B) s :
  (∀ os, (m os).2 = os) → ds_inv s → dir_keeps s (on_orgs m).
Proof. intros Hm Hs. split; rewrite on_orgs_state, Hm; by destruct s. Qed.
Lemma dir_read_groups {B} (m : GoM error MemoryGroupStore B) s :
  (∀ gs, (m gs).2 = gs) → ds_inv s → dir_keeps s (on_groups m).
Proof. intros Hm Hs. split; rewrite on_groups_state, Hm; by destruct s. Qed.

(** A call that changes the state is one of [ds_exec]. *)
Lemma dir_exec {B} (m : GoM error D B) c s :
  (m s).2 = ds_exec c s → ds_fresh s c → ds_users (ds_exec c s) = ds_users s → ds_inv s →
  dir_keeps s m.
Proof. intros E Hf Hu Hs. split; rewrite E; [by apply ds_inv_exec|done]. Qed.

Lemma dir_create_org now id req s : ds_inv s → dir_keeps s (DirectoryService_CreateOrg now id req).
Proof.
  apply (dir_exec _ (DsCreateOrg now id req)); [done|done|].
  simpl. unfold DirectoryService_CreateOrg. by rewrite on_orgs_state.
Qed.
Lemma dir_update_org now id req s : ds_inv s → dir_keeps s (DirectoryService_UpdateOrg now id req).
Proof. apply (dir_exec _ (DsUpdateOrg now id req)); [done|done|]. simpl. by rewrite update_org_state. Qed.
Lemma dir_delete_org id s : ds_inv s → dir_keeps s (DirectoryService_DeleteOrg id).
Proof.
  apply (dir_exec _ (DsDeleteOrg id)); [done|done|].
  simpl. unfold DirectoryService_DeleteOrg. by rewrite on_orgs_state.
Qed.
Lemma dir_add_org_member o req s : ds_inv s → dir_keeps s (DirectoryService_AddOrgMember o req).
Proof.
  intros Hs. apply (dir_exec _ (DsAddOrgMember o req)); [done|done| |done].
  simpl. by destruct (add_org_member_run o req s (ds_inv_users _ Hs)) as (s1 & _ & Hu & _ & -> & _).
Qed.
Lemma dir_remove_org_member o u s : ds_inv s → dir_keeps s (DirectoryService_RemoveOrgMember o u).
Proof.
  apply (dir_exec _ (DsRemoveOrgMember o u)); [done|done|].
  simpl. unfold DirectoryService_RemoveOrgMember. by rewrite on_orgs_state.
Qed.
Lemma dir_create_group now id req s : ds_inv s → dir_keeps s (DirectoryService_CreateGroup now id req).
Proof.
  apply (dir_exec _ (DsCreateGroup now id req)); [done|done|].
  simpl. unfold DirectoryService_CreateGroup. by rewrite on_groups_state.
Qed.
Lemma dir_update_group now id req s : ds_inv s → dir_keeps s (DirectoryService_UpdateGroup now id req).
Proof. apply (dir_exec _ (DsUpdateGroup now id req)); [done|done|]. simpl. by rewrite update_group_state. Qed.
Lemma dir_delete_group id s : ds_inv s → dir_keeps s (DirectoryService_DeleteGroup id).
Proof.
  apply (dir_exec _ (DsDeleteGroup id)); [done|done|].
  simpl. unfold DirectoryService_DeleteGroup. by rewrite on_groups_state.
Qed.
Lemma dir_add_group_member now g req s : ds_inv s →
  dir_keeps s (DirectoryService_AddGroupMember now g req).
Proof.
  intros Hs. apply (dir_exec _ (DsAddGroupMember now g req)); [done|done| |done].
  simpl. by destruct (add_group_member_run now g req s (ds_inv_users _ Hs)) as (s1 & _ & Hu & _ & -> & _).
Qed.
Lemma dir_remove_group_member g u s : ds_inv s → dir_keeps s (DirectoryService_RemoveGroupMember g u).
Proof.
  apply (dir_exec _ (DsRemoveGroupMember g u)); [done|done|].
  simpl. unfold DirectoryService_RemoveGroupMember. by rewrite on_groups_state.
Qed.

Lemma dir_list_org_members o s : ds_inv s → dir_keeps s (DirectoryService_ListOrgMembers o).
Proof.
  intros Hs. destruct (list_org_members_run o s (ds_inv_users _ Hs)) as (s1 & E & Hok & Hu & Ho & Hg).
  split; rewrite E; [by apply (ds_inv_same s)|done].
Qed.
Lemma dir_list_group_members g s : ds_inv s → dir_keeps s (DirectoryService_ListGroupMembers g).
Proof.
  intros Hs. destruct (list_group_members_run g s (ds_inv_users _ Hs)) as (s1 & E & Hok & Hu & Ho & Hg).
  split; rewrite E; [by apply (ds_inv_same s)|done].
Qed.

Ltac read_only := intros os; simpl; unfold MemoryOrgStore_GetByID, MemoryOrgStore_List, MemoryOrgStore_ListChildren,
  MemoryOrgStore_GetUserOrgs, MemoryGroupStore_GetByID, MemoryGroupStore_List, MemoryGroupStore_GetUserGroups;
  simpl; by repeat case_match.

Lemma dir_get_org id s : ds_inv s → dir_keeps s (DirectoryService_GetOrg id).
Proof. apply dir_read_orgs. read_only. Qed.
Lemma dir_list_orgs iter off lim s : ds_inv s → dir_keeps s (DirectoryService_ListOrgs iter off lim).
Proof. apply dir_read_orgs. read_only. Qed.
Lemma dir_list_children iter p s : ds_inv s → dir_keeps s (DirectoryService_ListOrgChildren iter p).
Proof. apply dir_read_orgs. read_only. Qed.
Lemma dir_user_orgs u s : ds_inv s → dir_keeps s (DirectoryService_GetUserOrgs u).
Proof. apply dir_read_orgs. read_only. Qed.
Lemma dir_get_group id s : ds_inv s → dir_keeps s (DirectoryService_GetGroup id).
Proof. apply dir_read_groups. read_only. Qed.
Lemma dir_list_groups iter off lim s : ds_inv s → dir_keeps s (DirectoryService_ListGroups iter off lim).
Proof. apply dir_read_groups. read_only. Qed.
Lemma dir_user_groups u s : ds_inv s → dir_keeps s (DirectoryService_GetUserGroups u).
Proof. apply dir_read_groups. read_only. Qed.
End directory_service.

#[export] Hint Resolve dir_create_org dir_update_org dir_delete_org dir_add_org_member
  dir_remove_org_member dir_create_group dir_update_group dir_delete_group dir_add_group_member
  dir_remove_group_member dir_list_org_members dir_list_group_members dir_get_org dir_list_orgs
  dir_list_children dir_user_orgs dir_get_group dir_list_groups dir_user_groups : evolves.

(** ** Requests on the application *)
Section application.
Context `{UT : UnicodeTables} {US : Type} `{!UserStore US, !UserStoreLaws US}.
Notation A := (App US MemorySyncJobStore MemoryOrgStore MemoryGroupStore).
Implicit Types (a : A).

(** The three stores agree with each other. *)
Definition consistent (a : A) : Prop := ds_inv (dir_svc a).

(** A request keeps the stores consistent, the signing configuration, and every identity. *)
Record keeps {B} (R : users_rel) (a : A) (m : GoM error A B) : Prop := {
  keeps_consistent : consistent (m a).2;
  keeps_users : R (app_directory a) (app_directory (m a).2);
  keeps_auth : app_auth (m a).2 = app_auth a;
}.

Context (R : users_rel) `{!Keeping R}.
Lemma keeps_at {B} (m m' : GoM error A B) a : m a = m' a → keeps R a m' → keeps R a m.
Proof. intros E [Hc Hu Hs]. by split; rewrite E. Qed.

Lemma keeps_mret {B} (x : B) a : consistent a → keeps R a (mret x).
Proof. by split. Qed.
Lemma keeps_throw {B} e a : consistent a → keeps R (B := B) a (throw e).
Proof. by split. Qed.

Lemma keeps_bind {B C} (m : GoM error A B) (f : B → GoM error A C) a :
  keeps R a m → (∀ x a', consistent a' → keeps R a' (f x)) → keeps R a (m ≫= f).
Proof.
  intros [Hc Hu Hs] Hf. unfold mbind, gom_bind. destruct (m a) as [[x|e|] a'] eqn:E; simpl in *;
    [|by split; simpl; rewrite ?E..].
  destruct (Hf x a' Hc) as [Hc' Hu' Hs']. split; simpl; rewrite E; [done|by rewrite Hu|congruence].
Qed.

Lemma keeps_try {B} (m : GoM error A B) a : keeps R a m → keeps R a (try m).
Proof. intros [Hc Hu Hs]. unfold try. by split; destruct (m a) as [[] ?]. Qed.

Lemma keeps_collect {B C} (f : B → GoM error A C) l a :
  (∀ x a, consistent a → keeps R a (f x)) → consistent a → keeps R a (collect f l).
Proof.
  intros Hf. revert a. induction l as [|x l IH]; intros a Ha; [by apply keeps_mret|].
  apply keeps_bind; [by apply Hf|]. intros y a1 Ha1. apply keeps_bind; [by apply IH|].
  intros ys a2 Ha2. by apply keeps_mret.
Qed.

Lemma consistent_evolves a s' :
  consistent a → service_ok s' →
  (∀ i, is_Some (app_directory a !! i) → is_Some (directory s' !! i)) →
  consistent (set_user_svc s' a).
Proof.
  intros [Hok Ho Hg Hou Hgu] Hs' Hi.
  split; [exact Hs'|exact Ho|exact Hg| |]; intros u r Hr; apply Hi; [by apply (Hou u r)|by apply (Hgu u r)].
Qed.

Lemma keeps_userSvc {B} (m : GoM error (UserService US MemorySyncJobStore) B) a :
  consistent a → svc_keeps R (user_svc a) m → keeps R a (userSvc m).
Proof.
  intros Ha [Hok Hu]. split; rewrite userSvc_run; simpl; [|exact Hu|done].
  apply consistent_evolves; [done|exact Hok|]. intros i. by apply keeping.
Qed.

Lemma keeps_dirSvc {B} (m : GoM error (DirectoryService US MemoryOrgStore MemoryGroupStore) B) a :
  consistent a → dir_keeps (dir_svc a) m → keeps R a (dirSvc m).
Proof.
  intros Ha [Hi Hu]. unfold dirSvc, zoom.
  split; destruct (m (dir_svc a)) as [r s'] eqn:E; simpl in *; [by destruct s'| |done].
  change (app_directory (set_dir_svc s' a)) with (ds_users s'). by rewrite Hu.
Qed.

Lemma consistent_service a : consistent a → service_ok (user_svc a).
Proof. apply ds_inv_users. Qed.
End application.

#[export] Hint Resolve keeps_mret keeps_throw consistent_service : evolves.

(** Walks through a handler. *)
Ltac keeps_walk :=
  repeat first
    [ progress (eauto 3 with evolves)
    | apply keeps_try
    | apply keeps_bind; [|intros]
    | apply keeps_bind; [typeclasses eauto| |intros]
    | apply keeps_collect; [intros|]
    | apply keeps_collect; [typeclasses eauto|intros|]
    | apply keeps_userSvc; [assumption|solve [eauto 3 with evolves]]
    | apply keeps_userSvc; [typeclasses eauto|assumption|solve [eauto 3 with evolves]]
    | apply keeps_dirSvc; [assumption|solve [eauto 3 with evolves]]
    | apply keeps_dirSvc; [typeclasses eauto|assumption|solve [eauto 3 with evolves]]
    | case_match ].
