(* ===== verification/Udp.v ===== *)
(** * UDP authentication server

    [internal/udp/server.go]: the request syntax, the handling of one packet and the receive
    loop. [net/url]'s query syntax is part of the Go standard library and is modelled here. *)

From Stdlib Require Import ZArith Lia Ascii.
From stdpp Require Import base tactics numbers list gmap strings.
From S2P Require Import Prelude Model GoStrings UserStore UserMem UserHistory SyncJobs Auth UserService.

(** ** [net/url]: query strings *)

(** [url.QueryUnescape]; [None] is an [EscapeError]. *)
Fixpoint QueryUnescape (s : string) : option string :=
  match s with
  | EmptyString => Some ""
  | String "%" s' =>
      match s' with
      | String a (String b r) =>
          match unhex a, unhex b with
          | Some x, Some y => String (ascii_of_nat (16 * x + y)) <$> QueryUnescape r
          | _, _ => None
          end
      | _ => None
      end
  | String "+" r => String " " <$> QueryUnescape r
  | String c r => String c <$> QueryUnescape r
  end.

(** One piece of a query: [None] is an error, [Some None] an empty piece. *)
Definition parse_piece (piece : string) : option (option (string * string)) :=
  if Contains piece ";" then None
  else if bool_decide (piece = "") then Some None
  else
    let '(key, value, _) := Cut piece "=" in
    match QueryUnescape key, QueryUnescape value with
    | Some k, Some v => Some (Some (k, v))
    | _, _ => None
    end.

(** [url.ParseQuery]: the pairs in order, or an error if any piece has one. *)
Definition ParseQuery (query : string) : option (list (string * string)) :=
  let '(h, t) := split_byte "&" query in
  omap id <$> mapM parse_piece (h :: t).

(** [url.Values.Get]: the first value of a key, or the empty string. *)
Definition Values_Get (m : list (string * string)) (key : string) : string :=
  default "" (snd <$> head (filter (λ kv, kv.1 = key) m)).

(** ** Request syntax *)
Definition ErrInvalidFormat : error := ErrorString "invalid format".
Definition ErrMissingCredentials : error := ErrorString "missing credentials".
(** The text of a query error quotes the offending part and is only logged. *)
Definition ErrInvalidQuery : error := ErrorString "invalid query".

Definition parseAuthRequest (msg : string) : error + (string * string) :=
  match SplitN2 msg " -d " with
  | [_; body] =>
      match ParseQuery body with
      | None => inl ErrInvalidQuery
      | Some values =>
          let username := Values_Get values "username" in
          let password := Values_Get values "pass_word" in
          let password := if bool_decide (password = "") then Values_Get values "pass_wd"
                          else password in
          if bool_decide (username = "" ∨ password = "") then inl ErrMissingCredentials
          else inr (username, password)
      end
  | _ => inl ErrInvalidFormat
  end.

(** ** Packets *)
Section packets.
Context {US SS : Type} `{!UserStore US, !SyncJobStore SS}.

(** The answer sent back for one packet. *)
Definition processPacket (now : Time) (data : string) : GoM error (UserService US SS) string :=
  match parseAuthRequest data with
  | inl _ => mret "FAIL"
  | inr (username, password) =>
      r ← try (UserService_VerifyCredentials username password);
      match r with
      | inr _ => mret "FAIL"
      | inl user => _ ← try (UserService_SetOnline now (User_ID user) true); mret "OK"
      end
  end.

End packets.

(** ** The server

    [handlePackets] runs in one goroutine and starts a goroutine per packet; a packet is verified
    and answered in one step ([UserConc] interleaves the calls on the user store). *)
Record Datagram : Type := mkDatagram { dg_data : string; dg_from : string }.

(** The socket: whether it is open, and what was sent to whom. *)
Record UDPConn : Type := mkUDPConn { uc_open : bool; uc_sent : list (string * string) }.

(** The buffers of the pool hold 2048 bytes; the rest of a longer datagram is lost. *)
Definition receive_buffer : nat := 2048.

Section server.
Context {US SS : Type} `{!UserStore US, !SyncJobStore SS}.

(** [sv_pending] are the packets whose goroutine has not answered yet. *)
Record Server : Type := mkServer {
  sv_addr : string;
  sv_conn : option UDPConn;
  sv_userSvc : UserService US SS;
  sv_reading : bool;
  sv_pending : list Datagram;
}.

Definition NewServer (addr : string) (svc : UserService US SS) : Server :=
  mkServer addr None svc false [].

(** [Start], given the outcomes of [net.ResolveUDPAddr] and [net.ListenUDP]. *)
Definition Start (resolve listen : option error) : GoM error Server unit := λ s,
  match resolve with
  | Some err => (Err err, s)
  | None =>
      match listen with
      | Some err => (Err err, s)
      | None => (Ok (), mkServer (sv_addr s) (Some (mkUDPConn true [])) (sv_userSvc s) true (sv_pending s))
      end
  end.

Definition set_sv_conn (conn : option UDPConn) (s : Server) : Server :=
  mkServer (sv_addr s) conn (sv_userSvc s) (sv_reading s) (sv_pending s).

Definition Stop (s : Server) : Server :=
  match sv_conn s with
  | Some conn => set_sv_conn (Some (mkUDPConn false (uc_sent conn))) s
  | None => s
  end.

(** The error of the write is dropped. *)
Definition sendResponse (addr msg : string) (s : Server) : Server :=
  match sv_conn s with
  | Some conn =>
      if uc_open conn then set_sv_conn (Some (mkUDPConn true (uc_sent conn ++ [(addr, msg)]))) s else s
  | None => s
  end.

(** One turn of [handlePackets]: the loop ends at the first read error. *)
Definition handlePackets (read : error + Datagram) (s : Server) : Server :=
  match read with
  | inl _ => mkServer (sv_addr s) (sv_conn s) (sv_userSvc s) false (sv_pending s)
  | inr d =>
      let data := String.substring 0 receive_buffer (dg_data d) in
      mkServer (sv_addr s) (sv_conn s) (sv_userSvc s) (sv_reading s)
        (sv_pending s ++ [mkDatagram data (dg_from d)])
  end.

(** The goroutine of the [k]-th pending packet; [None] is a panic, which ends the process. *)
Definition answer_packet (now : Time) (d : Datagram) (k : nat) (s : Server) : option Server :=
  match processPacket now (dg_data d) (sv_userSvc s) with
  | (Ok msg, svc) => Some (sendResponse (dg_from d) msg
      (mkServer (sv_addr s) (sv_conn s) svc (sv_reading s) (delete k (sv_pending s))))
  | _ => None
  end.

Inductive Label : Type :=
| URead (read : error + Datagram)
| UAnswer (k : nat) (now : Time)
| UStop.

(** A closed socket only fails to read. *)
Definition can_read (s : Server) (read : error + Datagram) : bool :=
  sv_reading s && match sv_conn s, read with
                  | Some conn, inr _ => uc_open conn
                  | Some _, inl _ => true
                  | None, _ => false
                  end.

Definition udp_step (s : Server) (l : Label) : option Server :=
  match l with
  | URead read => if can_read s read then Some (handlePackets read s) else None
  | UAnswer k now => d ← sv_pending s !! k; answer_packet now d k s
  | UStop => Some (Stop s)
  end.

Fixpoint udp_run (s : Server) (ls : list Label) : option Server :=
  match ls with
  | [] => Some s
  | l :: ls => s ← udp_step s l; udp_run s ls
  end.

(** The peers answered, waiting, and heard from, in order. *)
Definition answered (s : Server) : list string :=
  match sv_conn s with Some conn => (uc_sent conn).*1 | None => [] end.
Definition waiting (s : Server) : list string := dg_from <$> sv_pending s.
Definition heard (l : Label) : list string :=
  match l with URead (inr d) => [dg_from d] | _ => [] end.
End server.

(** ** Facts *)
#[local] Arguments String.append : simpl nomatch.
#[local] Arguments String.prefix : simpl never.

(** A longer text does not change where a separator is found first. *)
Lemma prefix_length p s : String.prefix p s = true → String.length p ≤ String.length s.
Proof. intros [r ->]%prefix_spec. rewrite string_length_app. lia. Qed.

Lemma prefix_app_l p s t :
  String.length p ≤ String.length s → String.prefix p (s +:+ t) = String.prefix p s.
Proof.
  revert s. induction p as [|c p IH]; intros s Hlen; [by rewrite !prefix_nil|].
  destruct s as [|c' s]; simpl in *; [lia|]. rewrite !prefix_cons, IH by lia. done.
Qed.

Lemma string_drop_app_le n s t :
  n ≤ String.length s → string_drop n (s +:+ t) = string_drop n s +:+ t.
Proof.
  revert s. induction n as [|n IH]; intros s Hn; [by destruct s|].
  destruct s; simpl in *; [lia|]. apply IH. lia.
Qed.

Lemma Cut_app s t sep before after :
  Cut s sep = (before, after, true) → Cut (s +:+ t) sep = (before, after +:+ t, true).
Proof.
  revert before. induction s as [|c s IH]; intros before Hc.
  - simpl in Hc. destruct (String.prefix sep "") eqn:Hp; [|done].
    apply prefix_spec in Hp as [r Hr]. destruct sep; [|done]. simpl in Hc. simplify_eq.
    by destruct t.
  - pose proof (Cut_found _ _ _ _ Hc) as Heq. apply (f_equal String.length) in Heq.
    rewrite !string_length_app in Heq. simpl in Hc |- *.
    destruct (String.prefix sep (String c s)) eqn:Hp.
    + simplify_eq. change (String c (s +:+ t)) with (String c s +:+ t).
      rewrite prefix_app_l, Hp by (by apply prefix_length).
      by rewrite string_drop_app_le by (by apply prefix_length).
    + destruct (Cut s sep) as [[b a] f] eqn:Hs. simplify_eq/=.
      change (String c (s +:+ t)) with (String c s +:+ t).
      rewrite prefix_app_l, Hp by (simpl; lia). by rewrite (IH b eq_refl).
Qed.

(** ** The client's side: [url.QueryEscape] *)
Definition upper_hex (n : nat) : ascii :=
  if bool_decide (n < 10) then ascii_of_nat (48 + n) else ascii_of_nat (55 + n).

Definition unreserved (c : ascii) : bool :=
  let n := nat_of_ascii c in
  bool_decide (48 ≤ n ≤ 57) || bool_decide (65 ≤ n ≤ 90) || bool_decide (97 ≤ n ≤ 122)
  || bool_decide (n = 45) || bool_decide (n = 46) || bool_decide (n = 95) || bool_decide (n = 126).

Definition escape_byte (c : ascii) : string :=
  if unreserved c then String c ""
  else if Ascii.eqb c " " then "+"
  else let n := nat_of_ascii c in
       String "%" (String (upper_hex (n / 16)) (String (upper_hex (n mod 16)) "")).

Fixpoint QueryEscape (s : string) : string :=
  match s with
  | EmptyString => ""
  | String c r => escape_byte c +:+ QueryEscape r
  end.

Definition all_bytes : list ascii := ascii_of_nat <$> seq 0 256.

Lemma byte_case (P : ascii → Prop) : Forall P all_bytes → ∀ c, P c.
Proof.
  intros HP c. rewrite Forall_forall in HP. apply HP. apply list_elem_of_fmap.
  exists (nat_of_ascii c). rewrite ascii_nat_embedding. split; [done|].
  apply elem_of_seq. pose proof (nat_ascii_bounded c). lia.
Qed.

(** The bytes an escaped text is made of. *)
Definition query_byte (c : ascii) : bool := negb (Ascii.eqb c "&" || Ascii.eqb c "=" || Ascii.eqb c ";").

Lemma escape_byte_safe c : string_forallb query_byte (escape_byte c) = true.
Proof. revert c. apply byte_case. unfold all_bytes. simpl. repeat constructor. Qed.

Lemma QueryEscape_safe s : string_forallb query_byte (QueryEscape s) = true.
Proof. induction s as [|c s IH]; [done|]. simpl. by rewrite string_forallb_app, escape_byte_safe. Qed.

Definition unescapes_to (c : ascii) : bool :=
  match escape_byte c with
  | String "%" (String a (String b "")) =>
      match unhex a, unhex b with
      | Some x, Some y => Ascii.eqb (ascii_of_nat (16 * x + y)) c
      | _, _ => false
      end
  | String "+" "" => Ascii.eqb c " "
  | String x "" => Ascii.eqb x c && negb (Ascii.eqb x "%") && negb (Ascii.eqb x "+")
  | _ => false
  end.

Lemma escape_byte_unescapes c : unescapes_to c = true.
Proof. revert c. apply byte_case. unfold all_bytes. simpl. repeat constructor. Qed.

Lemma unescape_escape_byte c r : QueryUnescape (escape_byte c +:+ r) = String c <$> QueryUnescape r.
Proof.
  revert c. apply byte_case. unfold all_bytes. simpl. repeat constructor.
Qed.

Lemma QueryUnescape_escape s : QueryUnescape (QueryEscape s) = Some s.
Proof. induction s as [|c s IH]; [done|]. simpl. by rewrite unescape_escape_byte, IH. Qed.

(** ** Parsing a well-formed request *)
Definition free_of (c : ascii) (s : string) : bool := string_forallb (λ x, negb (Ascii.eqb x c)) s.

Lemma free_of_app c s t : free_of c (s +:+ t) = free_of c s && free_of c t.
Proof. apply string_forallb_app. Qed.

Lemma query_byte_free s c :
  c ∈ ["&"%char; "="%char; ";"%char] → string_forallb query_byte s = true → free_of c s = true.
Proof.
  intros Hc. unfold free_of. induction s as [|x s IH]; [done|]. simpl.
  intros [Hx Hs]%andb_true_iff. rewrite IH, andb_true_r by done.
  unfold query_byte in Hx. repeat rewrite negb_orb in Hx.
  apply andb_true_iff in Hx as [[? ?]%andb_true_iff ?].
  repeat (apply elem_of_cons in Hc as [->|Hc]; [done|]). by apply elem_of_nil in Hc.
Qed.

Lemma Contains_byte_free c s : free_of c s = true → Contains s (String c "") = false.
Proof. intros Hs. exact (proj2 (Cut_not_found _ _ _ _ (Cut_none s c Hs))). Qed.

Lemma split_byte_end c s : free_of c s = true → split_byte c s = (s, []).
Proof.
  unfold free_of. induction s as [|x s IH]; [done|]. simpl.
  intros [Hx Hs]%andb_true_iff. apply negb_true_iff in Hx. by rewrite IH, Hx.
Qed.

Lemma split_byte_at c s t :
  free_of c s = true →
  split_byte c (s +:+ String c t) = (s, (split_byte c t).1 :: (split_byte c t).2).
Proof.
  unfold free_of. induction s as [|x s IH]; simpl.
  - destruct (split_byte c t). by rewrite Ascii.eqb_refl.
  - intros [Hx Hs]%andb_true_iff. apply negb_true_iff in Hx. by rewrite IH, Hx.
Qed.

Lemma parse_field key v :
  string_forallb query_byte key = true → QueryUnescape key = Some key →
  parse_piece (key +:+ String "=" (QueryEscape v)) = Some (Some (key, v)).
Proof.
  intros Hk Hu. pose proof (QueryEscape_safe v) as Hv. unfold parse_piece.
  assert (∀ c s, c ∈ ["&"%char; "="%char; ";"%char] → string_forallb query_byte s = true →
    free_of c s = true) as Hfree by exact (λ c s, query_byte_free s c).
  rewrite Contains_byte_free.
  2:{ rewrite free_of_app, (Hfree _ key) by (done || set_solver). simpl.
      change (free_of ";" (String "=" (QueryEscape v))) with (free_of ";" (QueryEscape v)).
      apply Hfree; [set_solver|done]. }
  rewrite bool_decide_eq_false_2 by (by destruct key).
  rewrite Cut_first by (apply (Hfree "="%char); [set_solver|done]).
  by rewrite Hu, QueryUnescape_escape.
Qed.

(** The command line a client sends: a prefix, [-d], and the form fields. *)
Definition auth_request (prefix field name password : string) : string :=
  prefix +:+ " -d " +:+ "username" +:+ String "=" (QueryEscape name) +:+
  String "&" (field +:+ String "=" (QueryEscape password)).

Lemma ParseQuery_two k1 v1 k2 v2 :
  string_forallb query_byte k1 = true → QueryUnescape k1 = Some k1 →
  string_forallb query_byte k2 = true → QueryUnescape k2 = Some k2 →
  ParseQuery (k1 +:+ String "=" (QueryEscape v1) +:+ String "&" (k2 +:+ String "=" (QueryEscape v2)))
    = Some [(k1, v1); (k2, v2)].
Proof.
  intros Hk1 Hu1 Hk2 Hu2. unfold ParseQuery.
  assert (∀ k v, string_forallb query_byte k = true →
    free_of "&" (k +:+ String "=" (QueryEscape v)) = true) as Hfree.
  { intros k v Hk. rewrite free_of_app, (query_byte_free k) by (done || set_solver). simpl.
    change (free_of "&" (String "=" (QueryEscape v))) with (free_of "&" (QueryEscape v)).
    apply query_byte_free; [set_solver|apply QueryEscape_safe]. }
  rewrite string_app_assoc, split_byte_at by by apply Hfree. rewrite split_byte_end by by apply Hfree. simpl.
  by rewrite !parse_field.
Qed.

(** ** Properties *)

(** C33. Any non-empty name and password a client sends form-encoded, under either name of the
    password field and after any prefix without a separator of its own, are what the server
    reads. *)
Theorem auth_request_round_trip (prefix field name password : string) :
  Cut (prefix +:+ " -d ") " -d " = (prefix, "", true) →
  field = "pass_word" ∨ field = "pass_wd" → name ≠ "" → password ≠ "" →
  parseAuthRequest (auth_request prefix field name password) = inr (name, password).
Proof.
  intros Hcut Hfield Hn Hp. unfold parseAuthRequest, auth_request, SplitN2.
  match goal with |- context [prefix +:+ (" -d " +:+ ?b)] => set (body := b) end.
  rewrite string_app_assoc. rewrite (Cut_app _ body _ _ _ Hcut). simpl.
  unfold body.
  rewrite (ParseQuery_two "username" name field password); [|done|done|by destruct Hfield; subst|by destruct Hfield; subst].
  unfold Values_Get. destruct Hfield as [-> | ->]; simpl.
  - rewrite (bool_decide_eq_false_2 (password = "")) by done.
    by rewrite bool_decide_eq_false_2 by naive_solver.
  - by rewrite bool_decide_eq_false_2 by naive_solver.
Qed.

Section outcome.
Context `{UT : UnicodeTables} {US SS : Type} `{!UserStore US, !UserStoreLaws US, !SyncJobStore SS}.

(** C15. Every packet gets exactly one answer: OK exactly when it parses to credentials that
    [VerifyCredentials] accepts, and then that user and nobody else is marked online; any other
    packet is answered FAIL and changes no user. *)
Theorem udp_packet_outcome (s : UserService US SS) (now : Time) (data : string) :
  service_ok s →
  let '(r, s') := processPacket now data s in
  service_ok s' ∧
  ((∃ n p u, parseAuthRequest data = inr (n, p) ∧ (UserService_VerifyCredentials n p s).1 = Ok u ∧
      r = Ok "OK" ∧ directory s' = with_online now (User_ID u) true (directory s)) ∨
   (r = Ok "FAIL" ∧ directory s' = directory s ∧
      ∀ n p u, parseAuthRequest data = inr (n, p) → (UserService_VerifyCredentials n p s).1 ≠ Ok u)).
Proof.
  intros Hs. unfold processPacket. destruct (parseAuthRequest data) as [e|[n p]].
  { split; [done|]. by right. }
  destruct (verify_run n p s Hs) as (us & Hrun & Hok & Hd). rewrite bind_try, Hrun.
  pose proof (verify_credentials_live n p (directory s)) as Hlive.
  destruct (verify_spec (directory s) n p) as [u|e|] eqn:Ev.
  - destruct (set_online_run now (User_ID u) true _ Hok) as (us' & Hset & Hok' & Hd').
    destruct (Hlive u (us_ok _ Hs) eq_refl) as [Hi Hl].
    rewrite Hd, Hi in Hset, Hd'. rewrite bind_try, Hset.
    destruct (decide (live u)); [|done].
    split; [done|]. left. exists n, p, u. by rewrite Hrun.
  - split; [done|]. right. split_and!; [done|done|]. intros ??? [= <- <-]. by rewrite Hrun.
  - exfalso. unfold verify_spec in Ev. repeat case_match; done.
Qed.

Implicit Types (s : Server (US := US) (SS := SS)).

(** A running server: the store is consistent and the socket open. *)
Record serving s : Prop := {
  serving_ok : service_ok (sv_userSvc s);
  serving_open : uc_open <$> sv_conn s = Some true;
}.

(** A packet is answered, whatever it holds. *)
Lemma processPacket_answers now data (svc : UserService US SS) : service_ok svc →
  ∃ msg svc', processPacket now data svc = (Ok msg, svc') ∧ service_ok svc' ∧
    (msg = "OK" ∨ msg = "FAIL").
Proof.
  intros Hs. unfold processPacket. destruct (parseAuthRequest data) as [e|[n p]].
  { exists "FAIL", svc. auto. }
  destruct (verify_run n p svc Hs) as (us & Hrun & Hok & Hd). rewrite bind_try, Hrun.
  destruct (verify_spec (directory svc) n p) as [u|e|] eqn:Ev.
  - destruct (set_online_run now (User_ID u) true _ Hok) as (us' & Hset & Hok' & _).
    rewrite bind_try, Hset. exists "OK". repeat case_match; simplify_eq/=; eauto.
  - exists "FAIL". eexists. auto.
  - exfalso. unfold verify_spec in Ev. repeat case_match; done.
Qed.

Lemma answer_packet_serving now d k s :
  serving s → sv_pending s !! k = Some d →
  ∃ s', answer_packet now d k s = Some s' ∧ serving s' ∧ sv_pending s' = delete k (sv_pending s) ∧
    answered s' = answered s ++ [dg_from d].
Proof.
  intros [Hok Hopen] Hk. unfold answer_packet.
  destruct (processPacket_answers now (dg_data d) _ Hok) as (msg & svc & -> & Hok' & _).
  eexists. split; [reflexivity|]. unfold sendResponse, answered. cbn [sv_conn].
  destruct (sv_conn s) as [conn|]; [|done]. simpl in Hopen. injection Hopen as ->. simpl.
  split_and!; [split; done|done|by rewrite fmap_app].
Qed.

Lemma udp_step_serving s l s' :
  serving s → l ≠ UStop → udp_step s l = Some s' →
  serving s' ∧ answered s' ++ waiting s' ≡ₚ (answered s ++ waiting s) ++ heard l.
Proof.
  intros Hs Hl. destruct l as [read|k now|]; [| |done]; cbn [udp_step].
  - destruct (can_read s read); [|done]. intros [= <-]. destruct Hs as [Hok Hopen].
    destruct read as [err|d]; (split; [split; done|]); unfold waiting; cbn [handlePackets heard sv_pending].
    + by rewrite app_nil_r.
    + rewrite fmap_app. by rewrite (assoc_L app).
  - destruct (sv_pending s !! k) as [d|] eqn:Hk; [|done]. cbn [mbind option_bind].
    destruct (answer_packet_serving now d k s Hs Hk) as (s1 & -> & Hs1 & Hp & Ha). intros [= <-].
    split; [done|]. unfold waiting. rewrite Hp, Ha. cbn [heard]. rewrite app_nil_r, <- (assoc_L app).
    f_equiv. symmetry. exact (fmap_Permutation dg_from _ _ (delete_Permutation _ _ _ Hk)).
Qed.

(** C16. As long as the server is not stopped, the datagrams it has read and the answers it has sent
    correspond one for one: each peer is answered once per datagram or still waits for its answer,
    and every waiting packet can be answered, whatever bytes it holds. *)
Theorem udp_answers_each_packet (s s' : Server) (ls : list Label) :
  serving s → UStop ∉ ls → udp_run s ls = Some s' →
  answered s' ++ waiting s' ≡ₚ (answered s ++ waiting s) ++ (ls ≫= heard) ∧
  ∀ k now, k < length (sv_pending s') → is_Some (udp_step s' (UAnswer k now)).
Proof.
  intros Hs Hls Hrun. enough (serving s' ∧
    answered s' ++ waiting s' ≡ₚ (answered s ++ waiting s) ++ (ls ≫= heard)) as [Hs' Hp].
  { split; [done|]. intros k now [d Hk]%lookup_lt_is_Some. cbn [udp_step]. rewrite Hk.
    destruct (answer_packet_serving now d k s' Hs' Hk) as (s1 & Hrun' & _). by exists s1. }
  revert s Hs Hrun. induction ls as [|l ls IH]; intros s Hs Hrun; cbn [udp_run mbind list_bind] in *.
  { simplify_eq. split; [done|]. by rewrite app_nil_r. }
  apply not_elem_of_cons in Hls as [Hl Hls].
  destruct (udp_step s l) as [s1|] eqn:E; [|done].
  destruct (udp_step_serving s l s1 Hs ltac:(done) E) as [Hs1 Hp1].
  destruct (IH Hls s1 Hs1 Hrun) as [Hs2 Hp2]. split; [done|].
  rewrite Hp2, Hp1. by rewrite <- (assoc_L app).
Qed.
End outcome.

Section witnesses.
#[local] Existing Instance Sample.ascii_tables.

Lemma auth_request_round_trip_witness :
  parseAuthRequest "curl -X POST -d username=al%26ice&pass_wd=a%2Bb+c%3D%3B" = inr ("al&ice", "a+b c=;").
Proof.
  exact (auth_request_round_trip "curl -X POST" "pass_wd" "al&ice" "a+b c=;"
    ltac:(reflexivity) ltac:(right; reflexivity) ltac:(discriminate) ltac:(discriminate)).
Defined.

(** Two clients, answered in the other order. *)
Lemma udp_answers_each_packet_witness :
  let started := (Start None None (NewServer ":8888" service_sample)).2 in
  let ls := [URead (inr (mkDatagram "auth -d username=bob&pass_word=Bob%4088888" "peer1"));
             URead (inr (mkDatagram "nonsense" "peer2")); UAnswer 1 3%Z; UAnswer 0 4%Z] in
  ∃ s', udp_run started ls = Some s' ∧ sv_pending s' = [] ∧
    (uc_sent <$> sv_conn s') = Some [("peer2", "FAIL"); ("peer1", "OK")] ∧
    answered s' ≡ₚ ["peer1"; "peer2"].
Proof.
  cbv zeta. eexists. split; [vm_compute; reflexivity|]. split; [reflexivity|]. split; [reflexivity|].
  match goal with |- answered ?s ≡ₚ _ => set (s' := s) end.
  pose proof (udp_answers_each_packet (Start None None (NewServer ":8888" service_sample)).2 s'
    [URead (inr (mkDatagram "auth -d username=bob&pass_word=Bob%4088888" "peer1"));
     URead (inr (mkDatagram "nonsense" "peer2")); UAnswer 1 3%Z; UAnswer 0 4%Z]
    ltac:(split; [exact service_sample_ok|reflexivity])
    ltac:(rewrite !not_elem_of_cons; split_and!; first [discriminate|apply not_elem_of_nil])
    ltac:(vm_compute; reflexivity)) as [H _].
  assert (waiting s' = []) as Hw by reflexivity. rewrite Hw, app_nil_r in H. exact H.
Defined.

Lemma udp_packet_outcome_witness :
  (processPacket 30%Z "auth -d username=bob&pass_word=Bob%4088888" service_sample).1 = Ok "OK" ∧
  (processPacket 30%Z "auth -d username=bob&pass_word=wrong" service_sample).1 = Ok "FAIL".
Proof.
  pose proof (udp_packet_outcome service_sample 30%Z "auth -d username=bob&pass_word=wrong"
    service_sample_ok) as H.
  split; [vm_compute; reflexivity|].
  destruct (processPacket 30%Z "auth -d username=bob&pass_word=wrong" service_sample) as [r s'].
  destruct H as [_ [(n & p & u & Hparse & Hv & _)|(H & _)]]; [|exact H].
  assert (parseAuthRequest "auth -d username=bob&pass_word=wrong" = inr ("bob", "wrong")) as Hp
    by (vm_compute; reflexivity).
  rewrite Hp in Hparse. injection Hparse as <- <-. vm_compute in Hv. discriminate.
Defined.
End witnesses.
