(* ===== verification/GoJson.v ===== *)
(** * Go standard library: decoding JSON into structs

    The part of [encoding/json] the UDS handlers rely on: [json.Unmarshal] of a value into a
    struct of string and integer fields. A value that has passed the decoder's syntax check is
    a tree; a [json.RawMessage] is an optional tree, [None] being the nil message of a request
    without that member. *)

From Stdlib Require Import ZArith Lia Ascii.
From stdpp Require Import base tactics numbers list gmap strings.
From S2P Require Import Prelude GoStrings.

(** Members keep their order and may repeat; a number keeps its text. *)
Inductive json : Type :=
| JNull
| JBool (b : bool)
| JNumber (text : string)
| JString (s : string)
| JArray (l : list json)
| JObject (members : list (string * json)).

Definition RawMessage : Type := option json.

(** ** Field names

    A key selects the field of exactly that name, or else the field whose name it matches when
    case is folded. Besides the ASCII letters, U+017F folds to S and U+212A to K. *)
Definition upper_byte (c : ascii) : ascii :=
  if bool_decide (97 ≤ nat_of_ascii c ≤ 122) then ascii_of_nat (nat_of_ascii c - 32) else c.

Fixpoint foldName (s : string) : string :=
  match s with
  | EmptyString => EmptyString
  | String c s' =>
      match nat_of_ascii c, s' with
      | 197, String d r =>
          if bool_decide (nat_of_ascii d = 191) then String "S" (foldName r)
          else String (upper_byte c) (foldName s')
      | 226, String d (String x r) =>
          if bool_decide (nat_of_ascii d = 132 ∧ nat_of_ascii x = 170) then String "K" (foldName r)
          else String (upper_byte c) (foldName s')
      | _, _ => String (upper_byte c) (foldName s')
      end
  end.

(** ** Structs *)
Inductive field (P : Type) : Type :=
| StringField (set : string → P → P)
| IntField (set : Z → P → P)
| RawField (set : RawMessage → P → P)
| StringsField (set : list string → P → P).
Arguments StringField {P} set.
Arguments IntField {P} set.
Arguments RawField {P} set.
Arguments StringsField {P} set.

(** A struct type: its zero value and its fields by JSON name. *)
Class JSONStruct (P : Type) : Type := {
  json_zero : P;
  json_fields : list (string * field P);
}.

Section unmarshal.
Context {P : Type} `{!JSONStruct P}.

Definition field_by (test : string → bool) : option (field P) :=
  snd <$> head (filter (λ nf, test nf.1 = true) json_fields).

Definition find_field (key : string) : option (field P) :=
  match field_by (λ n, String.eqb n key) with
  | Some f => Some f
  | None => field_by (λ n, String.eqb (foldName n) (foldName key))
  end.

(** An element of a string slice: null and a mismatch leave the zero string. (A null element of a
    member that occurs a second time would keep the earlier element.) *)
Definition string_element (v : json) : string * bool :=
  match v with JString s => (s, true) | JNull => ("", true) | _ => ("", false) end.

(** Storing one member: the new struct, and whether its type fitted. A mismatch leaves the field;
    null leaves a string or an integer and empties a slice, without an error. *)
Definition store_member (p : P) (f : field P) (v : json) : P * bool :=
  match f, v with
  | RawField set, _ => (set (Some v) p, true)
  | StringsField set, JNull => (set [] p, true)
  | StringsField set, JArray l =>
      (set ((λ v, (string_element v).1) <$> l) p, forallb (λ v, (string_element v).2) l)
  | _, JNull => (p, true)
  | StringField set, JString s => (set s p, true)
  | IntField set, JNumber text =>
      let '(n, ok) := ParseInt text in if ok then (set n p, true) else (p, false)
  | _, _ => (p, false)
  end.

(** The members in order: decoding goes on after a mismatch and reports the first at the end. *)
Fixpoint store_members (p : P) (l : list (string * json)) : P * bool :=
  match l with
  | [] => (p, true)
  | (key, v) :: l =>
      let '(p1, ok1) := match find_field key with
                        | None => (p, true)
                        | Some f => store_member p f v
                        end in
      let '(p2, ok2) := store_members p1 l in
      (p2, ok1 && ok2)
  end.

(** [json.Unmarshal(payload, &p)] on a zero [p]: the struct it leaves and whether the error is
    nil. *)
Definition Unmarshal (payload : RawMessage) : P * bool :=
  match payload with
  | None => (json_zero, false)
  | Some JNull => (json_zero, true)
  | Some (JObject members) => store_members json_zero members
  | Some _ => (json_zero, false)
  end.
End unmarshal.
