(* ===== verification/GoJsonText.v ===== *)
(** * Go standard library: JSON text

    The syntax of [encoding/json] on bytes: [decode] is the syntax check and the value tree of
    [json.Unmarshal], [marshal] the text of [json.Marshal]. Strings are byte strings; bytes that
    are not UTF-8 are replaced by U+FFFD in both directions, as the package does. *)

From Stdlib Require Import ZArith Lia Ascii String.
From stdpp Require Import base tactics numbers list gmap strings.
From S2P Require Import Prelude GoStrings GoJson.

Notation code := nat_of_ascii.
Definition lit : string → bytes := list_ascii_of_string.

(** ** UTF-8 *)
Inductive rune : Type :=
| Valid (text : bytes)
| Invalid (b : ascii).

Definition is_cont (c : ascii) : bool := bool_decide (128 ≤ code c ≤ 191).
Definition seq2 (b c : ascii) : bool := bool_decide (194 ≤ code b ≤ 223) && is_cont c.
Definition seq3 (b c d : ascii) : bool :=
  bool_decide (224 ≤ code b ≤ 239) && is_cont c && is_cont d &&
  negb (bool_decide (code b = 224 ∧ code c < 160)) &&
  negb (bool_decide (code b = 237 ∧ 160 ≤ code c)).
Definition seq4 (b c d e : ascii) : bool :=
  bool_decide (240 ≤ code b ≤ 244) && is_cont c && is_cont d && is_cont e &&
  negb (bool_decide (code b = 240 ∧ code c < 144)) &&
  negb (bool_decide (code b = 244 ∧ 144 ≤ code c)).

(** The runes of a text, as [utf8.DecodeRune] takes them off one by one. *)
Fixpoint runes (s : bytes) : list rune :=
  match s with
  | [] => []
  | b :: r1 =>
      if is_ascii_byte b then Valid [b] :: runes r1 else
      match r1 with
      | c :: r2 =>
          if seq2 b c then Valid [b; c] :: runes r2 else
          match r2 with
          | d :: r3 =>
              if seq3 b c d then Valid [b; c; d] :: runes r3 else
              match r3 with
              | e :: r4 => if seq4 b c d e then Valid [b; c; d; e] :: runes r4
                           else Invalid b :: runes r1
              | [] => Invalid b :: runes r1
              end
          | [] => Invalid b :: runes r1
          end
      | [] => Invalid b :: runes r1
      end
  end.

Definition RuneError : bytes := ascii_of_nat <$> [239; 191; 189].

Definition rune_text (r : rune) : bytes := match r with Valid t => t | Invalid _ => RuneError end.

(** The text with every invalid byte replaced. *)
Definition to_valid (s : bytes) : bytes := concat (rune_text <$> runes s).

(** [utf8.AppendRune] for a code point that is no surrogate. *)
Definition encode_rune (n : N) : bytes :=
  ascii_of_N <$>
  (if bool_decide (n < 128) then [n]
   else if bool_decide (n < 2048) then [192 + n / 64; 128 + n mod 64]
   else if bool_decide (n < 65536) then [224 + n / 4096; 128 + n / 64 mod 64; 128 + n mod 64]
   else [240 + n / 262144; 128 + n / 4096 mod 64; 128 + n / 64 mod 64; 128 + n mod 64])%N.

(** ** Decoding *)
Definition is_space (c : ascii) : bool := bool_decide (code c ∈ [32; 9; 13; 10]).

Fixpoint skip_space (s : bytes) : bytes :=
  match s with
  | c :: r => if is_space c then skip_space r else s
  | [] => []
  end.

Definition simple_escape (e : ascii) : option ascii :=
  ascii_of_nat <$>
  match code e with
  | 34 | 92 | 47 => Some (code e)
  | 98 => Some 8
  | 102 => Some 12
  | 110 => Some 10
  | 114 => Some 13
  | 116 => Some 9
  | _ => None
  end.

(** Four hexadecimal digits. *)
Definition u4 (a b c d : ascii) : option N :=
  w ← unhex a; x ← unhex b; y ← unhex c; z ← unhex d;
  Some (N.of_nat w * 4096 + N.of_nat x * 256 + N.of_nat y * 16 + N.of_nat z)%N.

Definition is_high (n : N) : bool := bool_decide (55296 ≤ n ≤ 56319)%N.
Definition is_low (n : N) : bool := bool_decide (56320 ≤ n ≤ 57343)%N.
Definition pair_code (n m : N) : N := ((n - 55296) * 1024 + (m - 56320) + 65536)%N.

Definition prepend (t : bytes) (x : option (bytes * bytes)) : option (bytes * bytes) :=
  '(u, r) ← x; Some (t ++ u, r).

(** The rest of a string literal after its opening quote: the bytes it denotes before invalid
    ones are replaced, and the text after the closing quote. *)
Fixpoint scan_string (s : bytes) : option (bytes * bytes) :=
  match s with
  | [] => None
  | c :: r =>
      if bool_decide (code c = 34) then Some ([], r)
      else if bool_decide (code c < 32) then None
      else if negb (bool_decide (code c = 92)) then prepend [c] (scan_string r)
      else match r with
      | [] => None
      | e :: r1 =>
          match simple_escape e with
          | Some x => prepend [x] (scan_string r1)
          | None =>
              if negb (bool_decide (code e = 117)) then None
              else match r1 with
              | h1 :: h2 :: h3 :: h4 :: r2 =>
                  match u4 h1 h2 h3 h4 with
                  | None => None
                  | Some n =>
                      if is_high n then
                        match r2 with
                        | b :: u :: k1 :: k2 :: k3 :: k4 :: r3 =>
                            if bool_decide (code b = 92 ∧ code u = 117) then
                              match u4 k1 k2 k3 k4 with
                              | Some m =>
                                  if is_low m then prepend (encode_rune (pair_code n m)) (scan_string r3)
                                  else prepend RuneError (scan_string r2)
                              | None => prepend RuneError (scan_string r2)
                              end
                            else prepend RuneError (scan_string r2)
                        | _ => prepend RuneError (scan_string r2)
                        end
                      else if is_low n then prepend RuneError (scan_string r2)
                      else prepend (encode_rune n) (scan_string r2)
                  end
              | _ => None
              end
          end
      end
  end.

Definition text_of (t : bytes) : string := string_of_list_ascii (to_valid t).

(** *** Numbers *)
Definition is_digit (c : ascii) : bool := bool_decide (48 ≤ code c ≤ 57).

Fixpoint span (f : ascii → bool) (s : bytes) : bytes * bytes :=
  match s with
  | c :: r => if f c then let '(t, u) := span f r in (c :: t, u) else ([], s)
  | [] => ([], [])
  end.

(** At least one digit. *)
Definition scan_digits (s : bytes) : option (bytes * bytes) :=
  let '(t, r) := span is_digit s in if bool_decide (t = []) then None else Some (t, r).

Definition scan_sign (s : bytes) : bytes * bytes :=
  match s with
  | c :: r => if bool_decide (code c = 45) then ([c], r) else ([], s)
  | [] => ([], [])
  end.

Definition scan_int (s : bytes) : option (bytes * bytes) :=
  match s with
  | c :: r => if bool_decide (code c = 48) then Some ([c], r) else scan_digits s
  | [] => None
  end.

Definition scan_frac (s : bytes) : option (bytes * bytes) :=
  match s with
  | c :: r => if bool_decide (code c = 46) then prepend [c] (scan_digits r) else Some ([], s)
  | [] => Some ([], [])
  end.

Definition scan_exp (s : bytes) : option (bytes * bytes) :=
  match s with
  | c :: r =>
      if bool_decide (code c = 101 ∨ code c = 69) then
        match r with
        | d :: r' => if bool_decide (code d = 43 ∨ code d = 45) then prepend [c; d] (scan_digits r')
                     else prepend [c] (scan_digits r)
        | [] => None
        end
      else Some ([], s)
  | [] => Some ([], [])
  end.

Definition scan_number (s : bytes) : option (bytes * bytes) :=
  let '(sign, s) := scan_sign s in
  '(t, s) ← scan_int s; '(u, s) ← scan_frac s; '(v, s) ← scan_exp s;
  Some (sign ++ t ++ u ++ v, s).

(** *** Values *)
Fixpoint strip (p s : bytes) : option bytes :=
  match p, s with
  | [], _ => Some s
  | c :: p, d :: s => if Ascii.eqb c d then strip p s else None
  | _ :: _, [] => None
  end.

(** One byte after white space. *)
Definition expect (n : nat) (s : bytes) : option bytes :=
  match skip_space s with
  | c :: r => if bool_decide (code c = n) then Some r else None
  | [] => None
  end.

Definition scan_literal (p : string) (v : json) (s : bytes) : option (json * bytes) :=
  r ← strip (lit p) s; Some (v, r).

Definition maxNestingDepth : N := 10000.

(** A value at nesting depth [depth], and the text after it; [members] and [elements] start after
    the opening bracket of a composite that is not empty, or after a comma. *)
Fixpoint value (fuel : nat) (depth : N) (s : bytes) : option (json * bytes) :=
  match fuel with
  | O => None
  | S fuel =>
      match skip_space s with
      | [] => None
      | c :: r =>
          if bool_decide (code c = 123) then
            if bool_decide (maxNestingDepth ≤ depth)%N then None
            else match expect 125 r with
                 | Some r => Some (JObject [], r)
                 | None => '(l, r) ← members fuel (N.succ depth) r; Some (JObject l, r)
                 end
          else if bool_decide (code c = 91) then
            if bool_decide (maxNestingDepth ≤ depth)%N then None
            else match expect 93 r with
                 | Some r => Some (JArray [], r)
                 | None => '(l, r) ← elements fuel (N.succ depth) r; Some (JArray l, r)
                 end
          else if bool_decide (code c = 34) then
            '(t, r) ← scan_string r; Some (JString (text_of t), r)
          else if bool_decide (code c = 116) then scan_literal "true" (JBool true) (c :: r)
          else if bool_decide (code c = 102) then scan_literal "false" (JBool false) (c :: r)
          else if bool_decide (code c = 110) then scan_literal "null" JNull (c :: r)
          else '(t, r) ← scan_number (c :: r); Some (JNumber (string_of_list_ascii t), r)
      end
  end
with members (fuel : nat) (depth : N) (s : bytes) : option (list (string * json) * bytes) :=
  match fuel with
  | O => None
  | S fuel =>
      r ← expect 34 s; '(k, r) ← scan_string r; r ← expect 58 r;
      '(v, r) ← value fuel depth r;
      match expect 44 r with
      | Some r => '(l, r) ← members fuel depth r; Some ((text_of k, v) :: l, r)
      | None => r ← expect 125 r; Some ([(text_of k, v)], r)
      end
  end
with elements (fuel : nat) (depth : N) (s : bytes) : option (list json * bytes) :=
  match fuel with
  | O => None
  | S fuel =>
      '(v, r) ← value fuel depth s;
      match expect 44 r with
      | Some r => '(l, r) ← elements fuel depth r; Some (v :: l, r)
      | None => r ← expect 93 r; Some ([v], r)
      end
  end.

(** Twice the length is enough fuel: a value takes at most one step without consuming a byte. *)
Definition decode (s : bytes) : option json :=
  '(v, r) ← value (2 * length s + 2) 0 s;
  if bool_decide (skip_space r = []) then Some v else None.

(** ** Encoding *)
Definition hex_digit (n : nat) : ascii :=
  ascii_of_nat (if bool_decide (n < 10) then 48 + n else 87 + n).

(** An ASCII byte inside a string literal; [<], [>] and [&] are escaped. *)
Definition quote_byte (c : ascii) : bytes :=
  match code c with
  | 34 | 92 => [ascii_of_nat 92; c]
  | 8 => lit "\b"
  | 12 => lit "\f"
  | 10 => lit "\n"
  | 13 => lit "\r"
  | 9 => lit "\t"
  | _ => if bool_decide (code c < 32 ∨ code c ∈ [60; 62; 38])
         then lit "\u00" ++ [hex_digit (code c / 16); hex_digit (code c mod 16)]
         else [c]
  end.

Definition quote_rune (r : rune) : bytes :=
  match r with
  | Invalid _ => lit "\ufffd"
  | Valid [c] => quote_byte c
  | Valid t => if bool_decide (code <$> t = [226; 128; 168]) then lit "\u2028"
               else if bool_decide (code <$> t = [226; 128; 169]) then lit "\u2029"
               else t
  end.

Definition quote (s : string) : bytes :=
  ascii_of_nat 34 :: concat (quote_rune <$> runes (lit s)) ++ [ascii_of_nat 34].

Fixpoint join (sep : bytes) (l : list bytes) : bytes :=
  match l with
  | [] => []
  | [x] => x
  | x :: l => x ++ sep ++ join sep l
  end.

(** [json.Marshal] of a value whose tree is [v]. *)
Fixpoint marshal (v : json) : bytes :=
  match v with
  | JNull => lit "null"
  | JBool b => lit (if b then "true" else "false")
  | JNumber t => lit t
  | JString s => quote s
  | JArray l => lit "[" ++ join (lit ",") (marshal <$> l) ++ lit "]"
  | JObject l => lit "{" ++ join (lit ",") ((λ kv, quote kv.1 ++ lit ":" ++ marshal kv.2) <$> l) ++ lit "}"
  end.

Example decode_sample : decode (lit " { 'a' : [1, -2.5e3, null] } ") = None.
Proof. reflexivity. Qed.
Example decode_marshal_sample :
  decode (marshal (JObject [("a", JArray [JNumber "1"; JString "x<"; JNull; JObject []]); ("b", JBool true)]))
  = Some (JObject [("a", JArray [JNumber "1"; JString "x<"; JNull; JObject []]); ("b", JBool true)]).
Proof. vm_compute. reflexivity. Qed.

(** ** Facts *)

(** *** Runes *)
Definition one_rune (t : bytes) : Prop :=
  match t with
  | [b] => is_ascii_byte b = true
  | [b; c] => seq2 b c = true
  | [b; c; d] => seq3 b c d = true
  | [b; c; d; e] => seq4 b c d e = true
  | _ => False
  end.

Lemma ascii_code c : is_ascii_byte c = true ↔ code c < 128.
Proof. apply bool_decide_eq_true. Qed.

Definition cont (c : ascii) : Prop := 128 ≤ code c ≤ 191.

Lemma seq2_spec b c : seq2 b c = true ↔ 194 ≤ code b ≤ 223 ∧ cont c.
Proof. unfold seq2, is_cont. by rewrite andb_true_iff, !bool_decide_eq_true. Qed.
Lemma seq3_spec b c d : seq3 b c d = true →
  224 ≤ code b ≤ 239 ∧ cont c ∧ cont d.
Proof.
  unfold seq3, is_cont. intros [[[[Hb%bool_decide_eq_true Hc%bool_decide_eq_true]%andb_true_iff
    Hd%bool_decide_eq_true]%andb_true_iff _]%andb_true_iff _]%andb_true_iff. done.
Qed.
Lemma seq4_spec b c d e : seq4 b c d e = true →
  240 ≤ code b ≤ 244 ∧ cont c ∧ cont d ∧ cont e.
Proof.
  unfold seq4, is_cont. intros [[[[[Hb%bool_decide_eq_true Hc%bool_decide_eq_true]%andb_true_iff
    Hd%bool_decide_eq_true]%andb_true_iff He%bool_decide_eq_true]%andb_true_iff _]%andb_true_iff _]%andb_true_iff.
  done.
Qed.
#[local] Arguments seq2 : simpl never.
#[local] Arguments seq3 : simpl never.
#[local] Arguments seq4 : simpl never.
#[local] Arguments is_ascii_byte : simpl never.

Lemma seq2_lead b c : seq2 b c = true → is_ascii_byte b = false.
Proof. intros [H _]%seq2_spec. apply bool_decide_eq_false. lia. Qed.
Lemma seq2_not b c : 223 < code b → seq2 b c = false.
Proof. intros H. apply not_true_iff_false. rewrite seq2_spec. lia. Qed.
Lemma seq3_lead b c d : seq3 b c d = true → is_ascii_byte b = false ∧ seq2 b c = false.
Proof. intros [H _]%seq3_spec. split; [apply bool_decide_eq_false; lia|apply seq2_not; lia]. Qed.
Lemma seq4_lead b c d e :
  seq4 b c d e = true → is_ascii_byte b = false ∧ seq2 b c = false ∧ seq3 b c d = false.
Proof.
  intros [H _]%seq4_spec. split_and!; [apply bool_decide_eq_false; lia|apply seq2_not; lia|].
  apply not_true_iff_false. intros [H' _]%seq3_spec. lia.
Qed.

Lemma runes_valid t s : one_rune t → runes (t ++ s) = Valid t :: runes s.
Proof.
  destruct t as [|b [|c [|d [|e []]]]]; try done; cbn [one_rune app runes].
  - by intros ->.
  - intros H. by rewrite (seq2_lead _ _ H), H.
  - intros H. destruct (seq3_lead _ _ _ H) as [-> ->]. by rewrite H.
  - intros H. destruct (seq4_lead _ _ _ _ H) as (-> & -> & ->). by rewrite H.
Qed.

Definition rune_ok (r : rune) : Prop :=
  match r with Valid t => one_rune t | Invalid b => is_ascii_byte b = false end.

Lemma runes_ok s : Forall rune_ok (runes s).
Proof.
  remember (length s) as n eqn:Hn. assert (length s ≤ n) as Hs by lia. clear Hn.
  revert s Hs. induction n as [|n IH]; intros s Hs; [by destruct s; [|simpl in Hs; lia]|].
  destruct s as [|b r1]; [done|]. simpl in Hs. simpl.
  destruct (is_ascii_byte b) eqn:Eb; [constructor; [done|apply IH; lia]|].
  assert (Forall rune_ok (Invalid b :: runes r1)) as Hi by (constructor; [done|apply IH; lia]).
  destruct r1 as [|c r2]; [done|]. simpl in Hs.
  destruct (seq2 b c) eqn:E2; [constructor; [done|apply IH; lia]|].
  destruct r2 as [|d r3]; [done|]. simpl in Hs.
  destruct (seq3 b c d) eqn:E3; [constructor; [done|apply IH; lia]|].
  destruct r3 as [|e r4]; [done|]. simpl in Hs.
  destruct (seq4 b c d e) eqn:E4; [constructor; [done|apply IH; lia]|]. done.
Qed.

Lemma rune_text_ok r : rune_ok r → one_rune (rune_text r).
Proof. by destruct r. Qed.

Lemma runes_texts l : Forall one_rune l → runes (concat l) = Valid <$> l.
Proof. induction 1 as [|t l Ht _ IH]; [done|]. simpl. by rewrite (runes_valid _ _ Ht), IH. Qed.

Lemma texts_of_valid (l : list bytes) : rune_text <$> (Valid <$> l) = l.
Proof. induction l as [|t l IH]; [done|]. by rewrite !fmap_cons, IH. Qed.

(** Replacing invalid bytes leaves a valid text as it is. *)
Lemma to_valid_idem s : to_valid (to_valid s) = to_valid s.
Proof.
  unfold to_valid. rewrite runes_texts.
  - by rewrite texts_of_valid.
  - apply Forall_fmap. eapply Forall_impl; [apply runes_ok|]. apply rune_text_ok.
Qed.

(** *** String literals *)
#[local] Arguments quote_byte : simpl never.
#[local] Arguments encode_rune : simpl never.
#[local] Arguments bool_decide _ {_} : simpl never.
#[local] Arguments nat_of_ascii : simpl never.
Lemma prepend_some t x u r : x = Some (u, r) → prepend t x = Some (t ++ u, r).
Proof. by intros ->. Qed.

Lemma prepend_nil x : prepend [] x = x.
Proof. by destruct x as [[u r]|]. Qed.

Lemma prepend_prepend t u x : prepend t (prepend u x) = prepend (t ++ u) x.
Proof. destruct x as [[v r]|]; simpl; [|done]. by rewrite (assoc_L app). Qed.

Lemma scan_raw c s :
  code c ≠ 34 → code c ≠ 92 → 32 ≤ code c → scan_string (c :: s) = prepend [c] (scan_string s).
Proof.
  intros H1 H2 H3. cbn [scan_string]. rewrite (bool_decide_eq_false_2 (_ = 34)),
    (bool_decide_eq_false_2 (_ < 32)), (bool_decide_eq_false_2 (_ = 92)) by lia. done.
Qed.

Lemma scan_escape b e x s :
  code b = 92 → simple_escape e = Some x → scan_string (b :: e :: s) = prepend [x] (scan_string s).
Proof. intros Hb He. cbn [scan_string]. rewrite Hb, He. done. Qed.

Lemma scan_unicode b u h1 h2 h3 h4 n s :
  code b = 92 → code u = 117 → simple_escape u = None → u4 h1 h2 h3 h4 = Some n →
  is_high n = false → is_low n = false →
  scan_string (b :: u :: h1 :: h2 :: h3 :: h4 :: s) = prepend (encode_rune n) (scan_string s).
Proof.
  intros Hb Hu He Hn Hh Hl. cbn [scan_string]. rewrite Hb, He, Hu, Hn, Hh, Hl. done.
Qed.

#[local] Arguments scan_string : simpl never.

(** Each of the three forms of an escaped ASCII byte denotes that byte. *)
Definition quoted_as (c : ascii) (t : bytes) : bool :=
  match t with
  | [x] => bool_decide (x = c ∧ code c ≠ 34 ∧ code c ≠ 92 ∧ 32 ≤ code c)
  | [b; e] => bool_decide (code b = 92 ∧ simple_escape e = Some c)
  | [b; u; h1; h2; h3; h4] =>
      bool_decide (code b = 92 ∧ code u = 117 ∧ simple_escape u = None ∧
                   u4 h1 h2 h3 h4 = Some (N_of_ascii c) ∧ encode_rune (N_of_ascii c) = [c])
  | _ => false
  end.

Lemma quote_byte_form c : is_ascii_byte c = true → quoted_as c (quote_byte c) = true.
Proof.
  intros H%ascii_code. rewrite <- (ascii_nat_embedding c).
  assert (forallb (λ n, quoted_as (ascii_of_nat n) (quote_byte (ascii_of_nat n))) (seq 0 128) = true)
    as Hall by (vm_compute; reflexivity).
  rewrite forallb_forall in Hall. apply Hall, in_seq. lia.
Qed.

Lemma ascii_no_surrogate c :
  is_ascii_byte c = true → is_high (N_of_ascii c) = false ∧ is_low (N_of_ascii c) = false.
Proof.
  rewrite ascii_code. unfold nat_of_ascii. intros H. split; apply bool_decide_eq_false; lia.
Qed.

Lemma scan_quote_byte c s :
  is_ascii_byte c = true → scan_string (quote_byte c ++ s) = prepend [c] (scan_string s).
Proof.
  intros Hc. pose proof (quote_byte_form c Hc) as Hq. destruct (ascii_no_surrogate c Hc) as [Hh Hl].
  destruct (quote_byte c) as [|b [|e [|h1 [|h2 [|h3 [|h4 []]]]]]]; try done;
    apply bool_decide_eq_true in Hq; cbn [app].
  - destruct Hq as (-> & ? & ? & ?). by apply scan_raw.
  - destruct Hq as [Hb He]. by apply scan_escape.
  - destruct Hq as (Hb & Hu & He & Hn & <-). by apply scan_unicode.
Qed.

Lemma scan_high t s : Forall (λ c, 128 ≤ code c) t → scan_string (t ++ s) = prepend t (scan_string s).
Proof.
  induction 1 as [|c t Hc _ IH]; [by rewrite prepend_nil|].
  change ((c :: t) ++ s) with (c :: (t ++ s)). rewrite scan_raw by lia. by rewrite IH, prepend_prepend.
Qed.

Lemma one_rune_high t : one_rune t → length t ≠ 1 → Forall (λ c, 128 ≤ code c) t.
Proof.
  unfold cont, one_rune. destruct t as [|b [|c [|d [|e []]]]]; try done; intros H _.
  - apply seq2_spec in H as [Hb Hc]. unfold cont in *. rewrite !Forall_cons, Forall_nil. lia.
  - apply seq3_spec in H as (Hb & Hc & Hd). unfold cont in *. rewrite !Forall_cons, Forall_nil. lia.
  - apply seq4_spec in H as (Hb & Hc & Hd & He). unfold cont in *. rewrite !Forall_cons, Forall_nil. lia.
Qed.

Lemma code_inj c d : code c = code d → c = d.
Proof. intros H. by rewrite <- (ascii_nat_embedding c), H, ascii_nat_embedding. Qed.

Lemma codes_of (t : bytes) (l : list nat) : code <$> t = l → t = ascii_of_nat <$> l.
Proof.
  intros <-. induction t as [|c t IH]; [done|].
  rewrite !fmap_cons, ascii_nat_embedding. by f_equal.
Qed.

Lemma scan_quote_rune r s :
  rune_ok r → scan_string (quote_rune r ++ s) = prepend (rune_text r) (scan_string s).
Proof.
  destruct r as [t|b]; simpl; [|intros _; reflexivity]. intros Ht.
  destruct (decide (length t = 1)) as [Hl|Hl].
  { destruct t as [|c [|]]; simplify_eq/=. by apply scan_quote_byte. }
  assert (∀ X, match t with [c] => quote_byte c | _ => X end = X) as ->
    by (destruct t as [|? [|]]; done).
  case_bool_decide as H1; [apply codes_of in H1 as ->; reflexivity|].
  case_bool_decide as H2; [apply codes_of in H2 as ->; reflexivity|].
  by apply scan_high, one_rune_high.
Qed.

Lemma scan_quoted (l : list rune) s :
  Forall rune_ok l →
  scan_string (concat (quote_rune <$> l) ++ ascii_of_nat 34 :: s) = Some (concat (rune_text <$> l), s).
Proof.
  induction 1 as [|r l Hr _ IH]; [done|]. rewrite !fmap_cons. cbn [concat].
  rewrite <- (assoc_L app), (scan_quote_rune _ _ Hr). by rewrite IH.
Qed.

(** The string with its invalid bytes replaced. *)
Definition clean_string (s : string) : string := string_of_list_ascii (to_valid (lit s)).

Lemma scan_quote s rest :
  scan_string (tail (quote s) ++ rest) = Some (to_valid (lit s), rest).
Proof. simpl. rewrite <- (assoc_L app). simpl. apply scan_quoted, runes_ok. Qed.

Lemma text_of_to_valid s : text_of (to_valid (lit s)) = clean_string s.
Proof. unfold text_of, clean_string. by rewrite to_valid_idem. Qed.

(** *** Numbers *)
Definition number_byte (c : ascii) : bool := is_digit c || bool_decide (code c ∈ [46; 101; 69; 43; 45]).

(** A text after which a number ends. *)
Definition stops (s : bytes) : Prop := match s with c :: _ => number_byte c = false | [] => True end.

Lemma stops_cons c s : stops (c :: s) →
  is_digit c = false ∧ code c ≠ 46 ∧ code c ≠ 101 ∧ code c ≠ 69.
Proof.
  intros [Hd Hc]%orb_false_iff. split; [done|]. apply bool_decide_eq_false in Hc. set_solver.
Qed.

Lemma span_app f s t u rest :
  span f s = (t, u) → match rest with c :: _ => f c = false | [] => True end →
  span f (s ++ rest) = (t, u ++ rest).
Proof.
  intros Hs Hr. revert t u Hs. induction s as [|c s IH]; intros t u; simpl.
  - intros [= <- <-]. destruct rest as [|c r]; simpl; [done|]. by rewrite Hr.
  - destruct (f c); [|by intros [= <- <-]]. destruct (span f s) as [t' u'].
    intros [= <- <-]. by rewrite (IH _ _ eq_refl).
Qed.

Lemma scan_digits_app s t u rest :
  scan_digits s = Some (t, u) → stops rest → scan_digits (s ++ rest) = Some (t, u ++ rest).
Proof.
  unfold scan_digits. intros Hs Hr. destruct (span is_digit s) as [t' u'] eqn:E.
  rewrite (span_app _ _ _ _ rest E); [by case_bool_decide; simplify_eq|].
  destruct rest as [|c r]; [done|]. apply (stops_cons c r Hr).
Qed.

Lemma scan_int_app s t u rest :
  scan_int s = Some (t, u) → stops rest → scan_int (s ++ rest) = Some (t, u ++ rest).
Proof.
  intros Hs Hr. destruct s as [|c s]; [done|]. unfold scan_int in *. cbn [app].
  case_bool_decide; [by simplify_eq|]. by apply (scan_digits_app (c :: s)).
Qed.

Lemma prepend_app p x t u rest y :
  (∀ t u, x = Some (t, u) → y = Some (t, u ++ rest)) →
  prepend p x = Some (t, u) → prepend p y = Some (t, u ++ rest).
Proof.
  intros Hxy. destruct x as [[t' u']|]; [|done]. rewrite (Hxy _ _ eq_refl). simpl.
  by intros [= <- <-].
Qed.

Lemma scan_frac_app s t u rest :
  scan_frac s = Some (t, u) → stops rest → scan_frac (s ++ rest) = Some (t, u ++ rest).
Proof.
  intros Hs Hr. destruct s as [|c s]; unfold scan_frac in *; cbn [app].
  - simplify_eq. destruct rest as [|c r]; [done|]. apply stops_cons in Hr.
    by rewrite bool_decide_eq_false_2 by tauto.
  - case_bool_decide; [|by simplify_eq]. revert Hs. apply prepend_app.
    intros. by apply scan_digits_app.
Qed.

Lemma scan_exp_app s t u rest :
  scan_exp s = Some (t, u) → stops rest → scan_exp (s ++ rest) = Some (t, u ++ rest).
Proof.
  intros Hs Hr. destruct s as [|c s]; unfold scan_exp in *; cbn [app].
  - simplify_eq. destruct rest as [|c r]; [done|]. apply stops_cons in Hr.
    by rewrite bool_decide_eq_false_2 by tauto.
  - case_bool_decide; [|by simplify_eq]. destruct s as [|d s]; [done|]. cbn [app].
    case_bool_decide; (revert Hs; apply prepend_app); intros; [by apply scan_digits_app|].
    by apply (scan_digits_app (d :: s)).
Qed.

(** The texts [scan_number] takes whole. *)
Definition number_ok (t : string) : Prop := scan_number (lit t) = Some (lit t, []).

Lemma scan_number_ok t rest :
  number_ok t → stops rest → scan_number (lit t ++ rest) = Some (lit t, rest).
Proof.
  unfold number_ok. generalize (lit t). intros s Hs Hr. revert Hs. unfold scan_number.
  assert (∀ sg s', scan_sign s = (sg, s') → s' ≠ [] → scan_sign (s ++ rest) = (sg, s' ++ rest)) as Hsign.
  { intros sg s'. destruct s as [|c s]; simpl; [intros [= <- <-]; done|].
    case_bool_decide; by intros [= <- <-]. }
  destruct (scan_sign s) as [sg s1]. destruct (scan_int s1) as [[t1 s2]|] eqn:E1; [|done].
  rewrite (Hsign _ _ eq_refl) by (by intros ->). rewrite (scan_int_app _ _ _ _ E1 Hr). simpl.
  destruct (scan_frac s2) as [[t2 s3]|] eqn:E2; [|done]. rewrite (scan_frac_app _ _ _ _ E2 Hr). simpl.
  destruct (scan_exp s3) as [[t3 s4]|] eqn:E3; [|done]. rewrite (scan_exp_app _ _ _ _ E3 Hr). simpl.
  by intros [= -> ->].
Qed.

(** *** Values *)
Lemma expect_app n c s : code c = n → is_space c = false → expect n (c :: s) = Some s.
Proof. intros Hc Hs. unfold expect. simpl. rewrite Hs. by rewrite bool_decide_eq_true_2. Qed.

Lemma expect_other n c s : code c ≠ n → is_space c = false → expect n (c :: s) = None.
Proof. intros Hc Hs. unfold expect. simpl. rewrite Hs. by rewrite bool_decide_eq_false_2. Qed.

Lemma strip_app p s : strip p (p ++ s) = Some s.
Proof. induction p as [|c p IH]; simpl; [done|]. by rewrite Ascii.eqb_refl. Qed.

(** The tree that is read back. *)
Fixpoint clean (v : json) : json :=
  match v with
  | JString s => JString (clean_string s)
  | JArray l => JArray (clean <$> l)
  | JObject l => JObject ((λ kv, (clean_string kv.1, clean kv.2)) <$> l)
  | _ => v
  end.

Fixpoint json_ok (v : json) : Prop :=
  match v with
  | JNumber t => number_ok t
  | JArray l => foldr (λ v P, json_ok v ∧ P) True l
  | JObject l => foldr (λ kv P, json_ok kv.2 ∧ P) True l
  | _ => True
  end.

Fixpoint height (v : json) : N :=
  match v with
  | JArray l => N.succ (foldr (λ v n, N.max (height v) n) 0%N l)
  | JObject l => N.succ (foldr (λ kv n, N.max (height kv.2) n) 0%N l)
  | _ => 0%N
  end.

(** Fuel that is enough for the text of a tree. *)
Fixpoint cost (v : json) : nat :=
  match v with
  | JArray l => S (foldr (λ v n, S (cost v) + n) 0 l)
  | JObject l => S (foldr (λ kv n, S (cost kv.2) + n) 0 l)
  | _ => 1
  end.

(** The first byte of an encoded value. *)
Definition opens (s : bytes) : Prop :=
  match s with
  | c :: _ => is_space c = false ∧ code c ≠ 44 ∧ code c ≠ 93 ∧ code c ≠ 125 ∧ code c ≠ 58
  | [] => False
  end.

Section equations.
Context (fuel : nat) (depth : N).

Lemma value_string s :
  value (S fuel) depth (ascii_of_nat 34 :: s) = ('(t, r) ← scan_string s; Some (JString (text_of t), r)).
Proof. reflexivity. Qed.

Lemma value_array s :
  value (S fuel) depth (ascii_of_nat 91 :: s) =
  if bool_decide (maxNestingDepth ≤ depth)%N then None
  else match expect 93 s with
       | Some r => Some (JArray [], r)
       | None => '(l, r) ← elements fuel (N.succ depth) s; Some (JArray l, r)
       end.
Proof. reflexivity. Qed.

Lemma value_object s :
  value (S fuel) depth (ascii_of_nat 123 :: s) =
  if bool_decide (maxNestingDepth ≤ depth)%N then None
  else match expect 125 s with
       | Some r => Some (JObject [], r)
       | None => '(l, r) ← members fuel (N.succ depth) s; Some (JObject l, r)
       end.
Proof. reflexivity. Qed.

Lemma value_number c s :
  is_digit c = true ∨ code c = 45 →
  value (S fuel) depth (c :: s) =
  ('(t, r) ← scan_number (c :: s); Some (JNumber (string_of_list_ascii t), r)).
Proof.
  intros Hc. assert (code c ∈ 45 :: seq 48 10) as Hin.
  { rewrite elem_of_cons, elem_of_seq. destruct Hc as [Hc%bool_decide_eq_true|Hc]; lia. }
  rewrite <- (ascii_nat_embedding c). revert Hin. generalize (code c). simpl seq. intros n Hin.
  repeat (apply elem_of_cons in Hin as [->|Hin]; [reflexivity|]). by apply elem_of_nil in Hin.
Qed.
End equations.

Lemma number_first t : number_ok t → ∃ c r, lit t = c :: r ∧ (is_digit c = true ∨ code c = 45).
Proof.
  unfold number_ok. generalize (lit t). intros s. unfold scan_number.
  destruct s as [|c r]; simpl; [done|]. intros H. exists c, r. split; [done|].
  destruct (decide (code c = 45)) as [|Hc]; [by right|]. left.
  rewrite bool_decide_eq_false_2 in H by done. simpl in H. revert H.
  destruct (decide (code c = 48)) as [Hz|Hz]; [intros _; unfold is_digit; rewrite Hz; reflexivity|].
  rewrite (bool_decide_eq_false_2 (code c = 48)) by done. unfold scan_digits. simpl.
  by destruct (is_digit c).
Qed.

Lemma digit_opens c s : is_digit c = true ∨ code c = 45 → opens (c :: s).
Proof.
  intros Hc. assert (45 ≤ code c ≤ 57 ∧ code c ≠ 46 ∧ code c ≠ 47) as Hb.
  { destruct Hc as [Hc%bool_decide_eq_true|Hc]; lia. }
  unfold opens, is_space. split_and!; [apply bool_decide_eq_false; set_unfold; lia|lia..].
Qed.

Lemma marshal_opens v s : json_ok v → opens (marshal v ++ s).
Proof.
  intros Hv. destruct v as [|b|t|x|l|l]; cbn [marshal].
  - split_and!; by vm_compute.
  - destruct b; split_and!; by vm_compute.
  - destruct (number_first t Hv) as (c & r & Hr & Hc). rewrite Hr. by apply digit_opens.
  - split_and!; by vm_compute.
  - split_and!; by vm_compute.
  - split_and!; by vm_compute.
Qed.

Lemma expect_opens n s : opens s → n ∈ [44; 93; 125; 58] → expect n s = None.
Proof.
  destruct s as [|c s]; [done|]. intros (Hs & H1 & H2 & H3 & H4) Hn. apply expect_other; [|done].
  set_unfold. naive_solver.
Qed.

Definition member_text (kv : string * json) : bytes := quote kv.1 ++ lit ":" ++ marshal kv.2.
Definition clean_member (kv : string * json) : string * json := (clean_string kv.1, clean kv.2).

(** One more element or the end of a list, after a value. *)
Lemma join_cons sep x l rest : join sep (x :: l) ++ rest =
  x ++ (match l with [] => rest | _ => sep ++ join sep l ++ rest end).
Proof. destruct l as [|y l]; [done|]. simpl. by rewrite <- !(assoc_L app). Qed.

Definition reads_value (fuel : nat) : Prop := ∀ v depth rest,
  cost v ≤ fuel → json_ok v → (depth + height v ≤ maxNestingDepth)%N → stops rest →
  value fuel depth (marshal v ++ rest) = Some (clean v, rest).
Definition reads_elements (fuel : nat) : Prop := ∀ l depth rest, l ≠ [] →
  foldr (λ v n, S (cost v) + n) 0 l ≤ fuel → foldr (λ v P, json_ok v ∧ P) True l →
  (depth + foldr (λ v n, N.max (height v) n) 0 l ≤ maxNestingDepth)%N →
  elements fuel depth (join (lit ",") (marshal <$> l) ++ ascii_of_nat 93 :: rest) = Some (clean <$> l, rest).
Definition reads_members (fuel : nat) : Prop := ∀ l depth rest, l ≠ [] →
  foldr (λ (kv : string * json) n, S (cost kv.2) + n) 0 l ≤ fuel →
  foldr (λ (kv : string * json) P, json_ok kv.2 ∧ P) True l →
  (depth + foldr (λ (kv : string * json) n, N.max (height kv.2) n) 0 l ≤ maxNestingDepth)%N →
  members fuel depth (join (lit ",") (member_text <$> l) ++ ascii_of_nat 125 :: rest)
    = Some (clean_member <$> l, rest).

#[local] Arguments value : simpl never.
#[local] Arguments scan_number : simpl never.
#[local] Arguments expect : simpl never.

Lemma reads_elements_S fuel : reads_value fuel → reads_elements fuel → reads_elements (S fuel).
Proof.
  intros Hv He l depth rest Hl Hc Hok Hd. destruct l as [|v l]; [done|]. clear Hl.
  cbn [foldr] in Hc, Hok, Hd. destruct Hok as [Hokv Hokl]. rewrite !fmap_cons, join_cons.
  cbn [elements]. fold value. rewrite Hv; [|lia|done|lia|by destruct l].
  cbn [mbind option_bind]. destruct l as [|w l].
  - cbn [fmap list_fmap]. rewrite expect_other, expect_app by (vm_compute; done). done.
  - rewrite fmap_cons. change (lit "," ++ ?x) with (ascii_of_nat 44 :: x).
    rewrite expect_app by done. rewrite <- fmap_cons, He; [done|done|lia|done|lia].
Qed.

Lemma reads_members_S fuel : reads_value fuel → reads_members fuel → reads_members (S fuel).
Proof.
  intros Hv He l depth rest Hl Hc Hok Hd. destruct l as [|[k v] l]; [done|]. clear Hl.
  cbn [foldr snd] in Hc, Hok, Hd. destruct Hok as [Hokv Hokl]. rewrite !fmap_cons, join_cons.
  unfold member_text at 1. cbn [fst snd]. rewrite <- !(assoc_L app).
  change (quote k ++ ?x) with (ascii_of_nat 34 :: tail (quote k) ++ x).
  cbn [members]. fold value. rewrite (expect_app 34) by (vm_compute; done).
  cbn [mbind option_bind]. rewrite scan_quote. cbn [mbind option_bind]. change (lit ":" ++ ?x) with (ascii_of_nat 58 :: x).
  rewrite (expect_app 58) by (vm_compute; done). cbn [mbind option_bind].
  rewrite Hv; [|lia|done|lia|by destruct l].
  cbn [mbind option_bind]. rewrite text_of_to_valid. destruct l as [|w l].
  - cbn [fmap list_fmap]. rewrite expect_other, expect_app by (vm_compute; done). done.
  - rewrite fmap_cons. change (lit "," ++ ?x) with (ascii_of_nat 44 :: x).
    rewrite expect_app by done. rewrite <- fmap_cons, He; [done|done|lia|done|lia].
Qed.

Lemma reads_value_S fuel : reads_elements fuel → reads_members fuel → reads_value (S fuel).
Proof.
  intros He Hm v depth rest Hc Hok Hd Hr. destruct v as [|b|t|x|l|l]; cbn [marshal clean].
  - change (value (S fuel) depth (lit "null" ++ rest)) with (scan_literal "null" JNull (lit "null" ++ rest)).
    unfold scan_literal. by rewrite strip_app.
  - destruct b.
    + change (value (S fuel) depth (lit "true" ++ rest)) with (scan_literal "true" (JBool true) (lit "true" ++ rest)).
      unfold scan_literal. by rewrite strip_app.
    + change (value (S fuel) depth (lit "false" ++ rest)) with (scan_literal "false" (JBool false) (lit "false" ++ rest)).
      unfold scan_literal. by rewrite strip_app.
  - destruct (number_first t Hok) as (c & r & Hc' & Hb). pose proof (scan_number_ok t rest Hok Hr) as Hs.
    rewrite Hc' in Hs |- *. cbn [app] in Hs |- *. rewrite value_number, Hs by done.
    cbn [mbind option_bind]. rewrite <- Hc'. unfold lit. by rewrite string_of_list_ascii_of_string.
  - change (quote x ++ rest) with (ascii_of_nat 34 :: tail (quote x) ++ rest).
    rewrite value_string, scan_quote. cbn [mbind option_bind]. by rewrite text_of_to_valid.
  - rewrite <- !(assoc_L app). change (lit "[" ++ ?x) with (ascii_of_nat 91 :: x).
    change (lit "]" ++ ?x) with (ascii_of_nat 93 :: x). cbn [height cost json_ok] in Hc, Hok, Hd.
    rewrite value_array, bool_decide_eq_false_2 by lia. destruct l as [|v l]; [done|].
    rewrite expect_opens; [|rewrite fmap_cons, join_cons; apply marshal_opens, Hok|set_solver].
    rewrite He; [done|done|cbn [foldr] in *; lia|done|cbn [foldr] in *; lia].
  - rewrite <- !(assoc_L app). change (lit "{" ++ ?x) with (ascii_of_nat 123 :: x).
    change (lit "}" ++ ?x) with (ascii_of_nat 125 :: x). cbn [height cost json_ok] in Hc, Hok, Hd.
    rewrite value_object, bool_decide_eq_false_2 by lia. destruct l as [|[k v] l]; [done|].
    rewrite expect_opens; [| |set_solver].
    2: { rewrite fmap_cons, join_cons. cbn [fst snd]. rewrite <- !(assoc_L app).
         apply (marshal_opens (JString k)). done. }
    change (λ kv : string * json, quote kv.1 ++ lit ":" ++ marshal kv.2) with member_text.
    rewrite Hm; [done|done|cbn [foldr] in *; lia|done|cbn [foldr] in *; lia].
Qed.

Lemma reads_all fuel : reads_value fuel ∧ reads_elements fuel ∧ reads_members fuel.
Proof.
  induction fuel as [|fuel (IHv & IHe & IHm)].
  - split_and!.
    + intros [] ? ? Hc; simpl in Hc; lia.
    + intros [] ? ? Hl Hc; [done|simpl in Hc; lia].
    + intros [] ? ? Hl Hc; [done|simpl in Hc; lia].
  - split_and!; [by apply reads_value_S|by apply reads_elements_S|by apply reads_members_S].
Qed.

(** *** Fuel *)
Lemma skip_space_length s : length (skip_space s) ≤ length s.
Proof. induction s as [|c s IH]; simpl; [done|]. destruct (is_space c); simpl; lia. Qed.

Lemma expect_length n s r : expect n s = Some r → length r < length s.
Proof.
  unfold expect. pose proof (skip_space_length s). destruct (skip_space s) as [|c r']; [done|].
  simpl in *. case_bool_decide; intros; simplify_eq. lia.
Qed.

Lemma prepend_length p x t r n :
  prepend p x = Some (t, r) → (∀ t r, x = Some (t, r) → length r ≤ n) → length r ≤ n.
Proof. destruct x as [[u r']|]; simpl; [|done]. intros [= <- <-] H. by eapply H. Qed.

Lemma scan_string_length s t r : scan_string s = Some (t, r) → length r ≤ length s.
Proof.
  remember (length s) as n eqn:Hn. assert (length s ≤ n) as Hs by lia. clear Hn.
  revert s t r Hs. induction n as [|n IH]; intros s t r Hs; [by destruct s; [|simpl in Hs; lia]|].
  destruct s as [|c s]; [done|]. cbn [length] in Hs.
  assert (∀ p s' t r, length s' ≤ length s → prepend p (scan_string s') = Some (t, r) →
    length r ≤ S n) as Hp.
  { intros p s' t' r' Hs' H. eapply prepend_length; [exact H|]. intros ? ? H'.
    apply IH in H'; lia. }
  unfold scan_string; fold scan_string.
  repeat case_match; try done; intros Hr; simplify_eq; try lia;
    (eapply Hp; [|exact Hr]); cbn [length] in *; lia.
Qed.

Lemma span_split f s t u : span f s = (t, u) → s = t ++ u.
Proof.
  revert t u. induction s as [|c s IH]; intros t u; simpl; [by intros [= <- <-]|].
  destruct (f c); [|by intros [= <- <-]]. destruct (span f s) as [t' u'].
  intros [= <- <-]. simpl. by rewrite (IH _ _ eq_refl).
Qed.

Lemma scan_digits_split s t u : scan_digits s = Some (t, u) → s = t ++ u ∧ t ≠ [].
Proof.
  unfold scan_digits. destruct (span is_digit s) as [t' u'] eqn:E. apply span_split in E.
  case_bool_decide; intros; by simplify_eq.
Qed.

Lemma prepend_split p x t u s :
  (∀ t u, x = Some (t, u) → s = t ++ u) → prepend p x = Some (t, u) → p ++ s = t ++ u.
Proof.
  intros Hx. destruct x as [[t' u']|]; [|done]. simpl. intros [= <- <-].
  rewrite (Hx _ _ eq_refl). by rewrite (assoc_L app).
Qed.

Lemma digits_split s : ∀ t u, scan_digits s = Some (t, u) → s = t ++ u.
Proof. intros t u H. apply (scan_digits_split _ _ _ H). Qed.

Lemma scan_frac_split s t u : scan_frac s = Some (t, u) → s = t ++ u.
Proof.
  unfold scan_frac. destruct s as [|c s]; [by intros [= <- <-]|].
  case_bool_decide; [|by intros [= <- <-]]. intros Hp.
  exact (prepend_split [c] _ _ _ _ (digits_split s) Hp).
Qed.

Lemma scan_exp_split s t u : scan_exp s = Some (t, u) → s = t ++ u.
Proof.
  unfold scan_exp. destruct s as [|c s]; [by intros [= <- <-]|].
  case_bool_decide; [|by intros [= <- <-]]. destruct s as [|d s]; [done|].
  case_bool_decide; intros Hp; [exact (prepend_split [c; d] _ _ _ _ (digits_split s) Hp)|].
  exact (prepend_split [c] _ _ _ _ (digits_split (d :: s)) Hp).
Qed.

Lemma scan_int_split s t u : scan_int s = Some (t, u) → s = t ++ u ∧ t ≠ [].
Proof.
  unfold scan_int. destruct s as [|c s]; [done|].
  case_bool_decide; [by intros [= <- <-]|apply scan_digits_split].
Qed.

Lemma scan_number_length s t r : scan_number s = Some (t, r) → length r < length s.
Proof.
  unfold scan_number. destruct (scan_sign s) as [sg s1] eqn:E0.
  assert (s = sg ++ s1) as ->.
  { destruct s as [|c s]; simpl in E0; [by simplify_eq|]. case_bool_decide; by simplify_eq. }
  destruct (scan_int s1) as [[t1 s2]|] eqn:E1; [|done]. apply scan_int_split in E1 as [-> Hne]. simpl.
  destruct (scan_frac s2) as [[t2 s3]|] eqn:E2; [|done]. apply scan_frac_split in E2 as ->. simpl.
  destruct (scan_exp s3) as [[t3 s4]|] eqn:E3; [|done]. apply scan_exp_split in E3 as ->. simpl.
  intros [= _ <-]. rewrite !length_app. destruct t1; [done|]. simpl. lia.
Qed.

Lemma strip_length p s r : strip p s = Some r → length r = length s - length p.
Proof.
  revert s. induction p as [|c p IH]; intros s; simpl; [intros [= ->]; lia|].
  destruct s as [|d s]; [done|]. destruct (Ascii.eqb c d); [|done]. intros ->%IH. simpl. lia.
Qed.

Lemma scan_literal_length p v c s w r :
  scan_literal (String c p) v s = Some (w, r) → length r < length s.
Proof.
  unfold scan_literal. destruct (strip _ s) as [r'|] eqn:E; [|done]. intros [= <- <-].
  pose proof (strip_length _ _ _ E). destruct s; [done|]. simpl in *. lia.
Qed.

(** What a value, a member list or an element list leaves is shorter. *)
Lemma value_lengths fuel :
  (∀ d s v r, value fuel d s = Some (v, r) → length r < length s) ∧
  (∀ d s l r, members fuel d s = Some (l, r) → length r < length s) ∧
  (∀ d s l r, elements fuel d s = Some (l, r) → length r < length s).
Proof.
  induction fuel as [|fuel (IHv & IHm & IHe)]; [done|]. split_and!; intros d s.
  - intros v r. unfold value; fold value members elements. pose proof (skip_space_length s) as Hsp.
    destruct (skip_space s) as [|c s']; [done|]. cbn [length] in Hsp.
    intros H. cut (length r < length (c :: s')); [cbn [length]; lia|]. revert H.
    repeat (case_bool_decide; [first [done|apply scan_literal_length|idtac]|]);
    repeat first
      [ match goal with
        | |- context [expect ?n s'] => destruct (expect n s') eqn:?
        | |- context [members ?f ?d s'] => destruct (members f d s') as [[? ?]|] eqn:?; [|done]
        | |- context [elements ?f ?d s'] => destruct (elements f d s') as [[? ?]|] eqn:?; [|done]
        | |- context [scan_string s'] => destruct (scan_string s') as [[? ?]|] eqn:?; [|done]
        | |- context [scan_number ?s] => destruct (scan_number s) as [[? ?]|] eqn:?; [|done]
        end
      | progress cbn [mbind option_bind]
      | case_bool_decide; [done|] ];
    intros [= <- <-]; cbn [length];
    repeat match goal with
      | H : expect _ _ = Some _ |- _ => apply expect_length in H
      | H : members _ _ _ = Some _ |- _ => apply IHm in H
      | H : elements _ _ _ = Some _ |- _ => apply IHe in H
      | H : scan_string _ = Some _ |- _ => apply scan_string_length in H
      | H : scan_number _ = Some _ |- _ => apply scan_number_length in H; cbn [length] in H
      end; lia.
  - intros l r. cbn [members]; fold value members.
    destruct (expect 34 s) as [s1|] eqn:E1; [|done]. apply expect_length in E1. cbn [mbind option_bind].
    destruct (scan_string s1) as [[k s2]|] eqn:E2; [|done]. apply scan_string_length in E2. cbn [mbind option_bind].
    destruct (expect 58 s2) as [s3|] eqn:E3; [|done]. apply expect_length in E3. cbn [mbind option_bind].
    destruct (value fuel d s3) as [[v s4]|] eqn:E4; [|done]. apply IHv in E4. cbn [mbind option_bind].
    destruct (expect 44 s4) as [s5|] eqn:E5.
    + apply expect_length in E5. destruct (members fuel d s5) as [[? s6]|] eqn:E6; [|done].
      apply IHm in E6. intros [= <- <-]. lia.
    + destruct (expect 125 s4) as [s5|] eqn:E6; [|done]. apply expect_length in E6. intros [= <- <-]. lia.
  - intros l r. cbn [elements]; fold value elements.
    destruct (value fuel d s) as [[v s4]|] eqn:E4; [|done]. apply IHv in E4. cbn [mbind option_bind].
    destruct (expect 44 s4) as [s5|] eqn:E5.
    + apply expect_length in E5. destruct (elements fuel d s5) as [[? s6]|] eqn:E6; [|done].
      apply IHe in E6. intros [= <- <-]. lia.
    + destruct (expect 93 s4) as [s5|] eqn:E6; [|done]. apply expect_length in E6. intros [= <- <-]. lia.
Qed.

(** More fuel than twice the length changes nothing. *)
Lemma value_fuel f1 f2 :
  (∀ d s, 2 * length s + 1 ≤ f1 → 2 * length s + 1 ≤ f2 → value f1 d s = value f2 d s) ∧
  (∀ d s, 2 * length s + 1 ≤ f1 → 2 * length s + 1 ≤ f2 → members f1 d s = members f2 d s) ∧
  (∀ d s, 2 * length s + 2 ≤ f1 → 2 * length s + 2 ≤ f2 → elements f1 d s = elements f2 d s).
Proof.
  revert f2. induction f1 as [|f1 IH]; intros f2; [split_and!; intros; lia|].
  destruct f2 as [|f2]; [split_and!; intros; lia|].
  destruct (IH f2) as (IHv & IHm & IHe). split_and!; intros d s H1 H2.
  - unfold value; fold value members elements. pose proof (skip_space_length s) as Hs.
    destruct (skip_space s) as [|c r]; [done|]. cbn [length] in Hs.
    rewrite (IHm (N.succ d) r), (IHe (N.succ d) r) by lia. done.
  - cbn [members]; fold value members. destruct (expect 34 s) as [s1|] eqn:E1; [|done].
    apply expect_length in E1. cbn [mbind option_bind].
    destruct (scan_string s1) as [[k s2]|] eqn:E2; [|done]. apply scan_string_length in E2. cbn [mbind option_bind].
    destruct (expect 58 s2) as [s3|] eqn:E3; [|done]. apply expect_length in E3. cbn [mbind option_bind].
    rewrite (IHv d s3) by lia.
    destruct (value f2 d s3) as [[v s4]|] eqn:E4; [|done]. apply (value_lengths f2) in E4.
    cbn [mbind option_bind]. destruct (expect 44 s4) as [s5|] eqn:E5; [|done].
    apply expect_length in E5. by rewrite (IHm d s5) by lia.
  - cbn [elements]; fold value elements. rewrite (IHv d s) by lia.
    destruct (value f2 d s) as [[v s4]|] eqn:E4; [|done]. apply (value_lengths f2) in E4.
    cbn [mbind option_bind]. destruct (expect 44 s4) as [s5|] eqn:E5; [|done].
    apply expect_length in E5. by rewrite (IHe d s5) by lia.
Qed.

Lemma decode_fuel fuel s : 2 * length s + 2 ≤ fuel →
  decode s = ('(v, r) ← value fuel 0 s; if bool_decide (skip_space r = []) then Some v else None).
Proof.
  intros Hf. unfold decode. by rewrite (proj1 (value_fuel (2 * length s + 2) fuel)) by lia.
Qed.

(** What [marshal] writes is read back, up to invalid UTF-8. *)
Lemma decode_marshal v : json_ok v → (height v ≤ maxNestingDepth)%N → decode (marshal v) = Some (clean v).
Proof.
  intros Hok Hd. rewrite (decode_fuel (cost v + (2 * length (marshal v) + 2))) by lia.
  destruct (reads_all (cost v + (2 * length (marshal v) + 2))) as [Hv _].
  specialize (Hv v 0%N [] ltac:(lia) Hok ltac:(lia) I). rewrite app_nil_r in Hv. by rewrite Hv.
Qed.

(** *** Encoded text fits on one line *)
Definition printable (s : bytes) : Prop := Forall (λ c, 32 ≤ code c) s.

Lemma quote_byte_printable c : is_ascii_byte c = true → printable (quote_byte c).
Proof.
  intros H%ascii_code. rewrite <- (ascii_nat_embedding c).
  assert (forallb (λ n, forallb (λ c, bool_decide (32 ≤ code c)) (quote_byte (ascii_of_nat n))) (seq 0 128) = true)
    as Hall by (vm_compute; reflexivity).
  rewrite forallb_forall in Hall. specialize (Hall (code c) ltac:(apply in_seq; lia)).
  rewrite forallb_forall in Hall. apply Forall_forall. intros x Hx%list_elem_of_In.
  by apply Hall, bool_decide_eq_true in Hx.
Qed.


Lemma quote_rune_printable r : rune_ok r → printable (quote_rune r).
Proof.
  destruct r as [t|b]; [|intros _; decided]. intros Ht.
  destruct (decide (length t = 1)) as [Hl|Hl].
  { destruct t as [|c [|]]; simplify_eq/=. by apply quote_byte_printable. }
  simpl. assert (∀ X, match t with [c] => quote_byte c | _ => X end = X) as ->
    by (destruct t as [|? [|]]; done).
  case_bool_decide; [decided|]. case_bool_decide; [decided|].
  eapply Forall_impl; [by apply one_rune_high|]. simpl. intros. lia.
Qed.

Lemma quote_printable s : printable (quote s).
Proof.
  unfold quote, printable. apply Forall_cons. split; [decided|]. apply Forall_app. split.
  - apply Forall_concat, Forall_fmap. eapply Forall_impl; [apply runes_ok|]. apply quote_rune_printable.
  - decided.
Qed.

Lemma join_printable l : Forall printable l → printable (join (lit ",") l).
Proof.
  induction 1 as [|x l Hx Hl IH]; [constructor|]. destruct l as [|y l]; [done|].
  change (printable (x ++ lit "," ++ join (lit ",") (y :: l))).
  apply Forall_app. split; [done|]. apply Forall_app. split; [decided|done].
Qed.

Lemma span_bytes f s t u : span f s = (t, u) → Forall (λ c, f c = true) t.
Proof.
  revert t u. induction s as [|c s IH]; intros t u; simpl; [intros [= <- <-]; constructor|].
  destruct (f c) eqn:E; [|intros [= <- <-]; constructor]. destruct (span f s) as [t' u'].
  intros [= <- <-]. constructor; [done|]. by eapply IH.
Qed.

Lemma digits_printable s t u : scan_digits s = Some (t, u) → printable t.
Proof.
  unfold scan_digits. destruct (span is_digit s) as [t' u'] eqn:E. apply span_bytes in E.
  case_bool_decide; intros; simplify_eq. eapply Forall_impl; [exact E|]. simpl.
  intros c Hc%bool_decide_eq_true. lia.
Qed.

Lemma prepend_printable p x t u :
  printable p → (∀ t u, x = Some (t, u) → printable t) → prepend p x = Some (t, u) → printable t.
Proof.
  intros Hp Hx. destruct x as [[t' u']|]; [|done]. simpl. intros [= <- <-]. apply Forall_app.
  split; [done|]. by eapply Hx.
Qed.

Lemma number_printable t : number_ok t → printable (lit t).
Proof.
  unfold number_ok. generalize (lit t). clear t. intros s. unfold scan_number.
  assert (printable (scan_sign s).1) as Hs.
  { destruct s as [|c s]; simpl; [constructor|]. case_bool_decide as Hc; [|constructor].
    repeat constructor. rewrite Hc. lia. }
  destruct (scan_sign s) as [sg s1]. simpl in Hs.
  destruct (scan_int s1) as [[t1 s2]|] eqn:E1; [|done]. simpl.
  destruct (scan_frac s2) as [[t2 s3]|] eqn:E2; [|done]. simpl.
  destruct (scan_exp s3) as [[t3 s4]|] eqn:E3; [|done]. simpl.
  intros [= <- _]. repeat (apply Forall_app; split); [done|..].
  - unfold scan_int in E1. destruct s1 as [|c s1]; [done|]. case_bool_decide as Hc;
      [|by eapply digits_printable]. simplify_eq. repeat constructor. lia.
  - unfold scan_frac in E2. destruct s2 as [|c s2]; [simplify_eq; constructor|].
    case_bool_decide as Hc; [|simplify_eq; constructor].
    eapply prepend_printable; [|apply digits_printable|exact E2]. repeat constructor. lia.
  - unfold scan_exp in E3. destruct s3 as [|c s3]; [simplify_eq; constructor|].
    case_bool_decide as Hc; [|simplify_eq; constructor]. destruct s3 as [|d s3]; [done|].
    case_bool_decide as Hd; (eapply prepend_printable; [|apply digits_printable|exact E3]);
      repeat constructor; lia.
Qed.

(** Induction over a tree, with the hypothesis on its members. *)
Lemma json_tree_ind (P : json → Prop) :
  P JNull → (∀ b, P (JBool b)) → (∀ t, P (JNumber t)) → (∀ s, P (JString s)) →
  (∀ l, Forall P l → P (JArray l)) → (∀ l, Forall (λ kv, P kv.2) l → P (JObject l)) → ∀ v, P v.
Proof.
  intros H1 H2 H3 H4 HA HO. fix IH 1. intros [|b|t|s|l|l]; [done|apply H2|apply H3|apply H4|..].
  - apply HA. induction l; constructor; [apply IH|done].
  - apply HO. induction l; constructor; [apply IH|done].
Qed.

Lemma foldr_and {A} (Q : A → Prop) l : foldr (λ x P, Q x ∧ P) True l ↔ Forall Q l.
Proof. induction l as [|x l IH]; simpl; [done|]. by rewrite IH, Forall_cons. Qed.

Lemma marshal_printable v : json_ok v → printable (marshal v).
Proof.
  induction v as [|[]|t|s|l IH|l IH] using json_tree_ind; intros Hok; cbn [marshal].
  - decided.
  - decided.
  - decided.
  - by apply number_printable.
  - apply quote_printable.
  - apply (foldr_and json_ok) in Hok. apply Forall_app. split; [decided|]. apply Forall_app. split; [|decided].
    apply join_printable, Forall_fmap. rewrite Forall_forall in IH, Hok |- *. naive_solver.
  - apply (foldr_and (λ kv : string * json, json_ok kv.2)) in Hok.
    apply Forall_app. split; [decided|]. apply Forall_app. split; [|decided].
    apply join_printable, Forall_fmap. rewrite Forall_forall in IH, Hok |- *. intros kv Hkv.
    change (printable (quote kv.1 ++ lit ":" ++ marshal kv.2)).
    apply Forall_app. split; [apply quote_printable|]. apply Forall_app. split; [decided|].
    by apply IH; [|apply Hok].
Qed.

Lemma printable_no_newline s c : printable s → c ∈ s → code c ≠ 10.
Proof. unfold printable. rewrite Forall_forall. intros H Hc%H. lia. Qed.

(** *** Integers *)
Lemma span_all f s : Forall (λ c, f c = true) s → span f s = (s, []).
Proof. induction 1 as [|c s Hc _ IH]; simpl; [done|]. by rewrite Hc, IH. Qed.

Lemma scan_int_digits c s :
  Forall (λ c, is_digit c = true) (c :: s) → (code c = 48 → s = []) →
  scan_number (c :: s) = Some (c :: s, []).
Proof.
  intros Hs Hz. assert (code c ≠ 45) as Hc.
  { apply Forall_inv in Hs. apply bool_decide_eq_true in Hs. lia. }
  assert (scan_int (c :: s) = Some (c :: s, [])) as Hi.
  { unfold scan_int. destruct (decide (code c = 48)) as [Hc0|Hc0].
    - rewrite bool_decide_eq_true_2 by done. by rewrite (Hz Hc0).
    - rewrite bool_decide_eq_false_2 by done. unfold scan_digits. by rewrite (span_all _ _ Hs). }
  unfold scan_number. cbn [scan_sign]. rewrite bool_decide_eq_false_2 by done.
  rewrite Hi. cbn [mbind option_bind scan_frac scan_exp]. by rewrite !app_nil_r.
Qed.

Lemma lit_forall f s : string_forallb f s = true → Forall (λ c, f c = true) (lit s).
Proof.
  induction s as [|c s IH]; simpl; [constructor|]. intros [Hc Hs]%andb_true_iff.
  constructor; [done|]. by apply IH.
Qed.

Lemma format_uint_ok n : (0 ≤ n < 10 ^ 20)%Z →
  ∃ c s, lit (format_uint 20 n "") = c :: s ∧ Forall (λ c, is_digit c = true) (c :: s) ∧
    (code c = 48 → s = []).
Proof.
  intros Hn. destruct (format_uint_digits 20 n "" Hn ltac:(done)) as (d & s & -> & Hs & Hd).
  rewrite string_app_nil_r. exists d, (lit s). split_and!; [done|by apply (lit_forall _ (String d s))|].
  intros [_ ->]%Hd. done.
Qed.

(** A formatted integer is a JSON number. *)
Lemma FormatInt_number n : is_int n → number_ok (FormatInt n).
Proof.
  unfold is_int, min_int, max_int, FormatInt, number_ok. intros Hn. case_bool_decide.
  - destruct (format_uint_ok (- n)) as (c & s & Hs & Hd & Hz); [lia|].
    cbn [lit list_ascii_of_string]. fold lit. rewrite Hs.
    pose proof (scan_int_digits c s Hd Hz) as Hsc. revert Hsc. unfold scan_number. cbn [scan_sign].
    apply Forall_inv in Hd. apply bool_decide_eq_true in Hd.
    rewrite bool_decide_eq_false_2 by lia. rewrite bool_decide_eq_true_2 by done. cbn [app].
    destruct (scan_int (c :: s)) as [[t1 s2]|]; [|done]. cbn [mbind option_bind].
    destruct (scan_frac s2) as [[t2 s3]|]; [|done]. cbn [mbind option_bind].
    destruct (scan_exp s3) as [[t3 s4]|]; [|done]. cbn [mbind option_bind]. by intros [= -> ->].
  - destruct (format_uint_ok n) as (c & s & Hs & Hd & Hz); [lia|]. rewrite Hs.
    by apply scan_int_digits.
Qed.

#[export] Hint Resolve FormatInt_number number_printable quote_printable : go.
