(* ===== verification/GoIO.v ===== *)
(** * Go standard library: readers, scanners and frames

    The parts of [io], [bufio], [encoding/binary] and [net] the UDS server calls: readers that
    deliver a byte stream in pieces, [io.ReadFull], [io.MultiReader] of two readers, one
    [bufio.Scanner] line, little-endian lengths, and a connection. *)

From Stdlib Require Import ZArith Lia Ascii.
From stdpp Require Import base tactics numbers list gmap strings.
From S2P Require Import Prelude GoStrings.

(** Errors of I/O and of decoding; [ErrWrap] is [fmt.Errorf("...: %w", err)]. *)
Inductive io_error : Type :=
| EOF
| ErrUnexpectedEOF
| ErrTooLong
| ErrNoProgress
| ErrNet (text : string)
| ErrJSON
| ErrText (text : string)
| ErrWrap (text : string) (e : io_error).

#[export] Instance io_error_eq_dec : EqDecision io_error.
Proof. solve_decision. Defined.

(** ** Readers

    [Read n r]: the call [r.Read(p)] with [len(p) = n]. [contents] are the bytes the reader still
    delivers, in whatever pieces, before its error [ending]. *)
Class Reader (R : Type) : Type := {
  Read : Z → R → bytes * option io_error * R;
  contents : R → bytes;
  ending : R → io_error;
  reader_ok : R → Prop;
}.

(** A read delivers at least a byte or the final error. *)
Class ReaderLaws (R : Type) `{Reader R} : Prop := {
  read_law n r : (0 < n)%Z → reader_ok r →
    let '(bs, err, r') := Read n r in
    (len bs ≤ n)%Z ∧
    match err with
    | None => bs ≠ [] ∧ contents r = bs ++ contents r' ∧ ending r' = ending r ∧ reader_ok r'
    | Some e => contents r = bs ∧ e = ending r
    end;
}.

(** Readers whose final error comes alone. *)
Class PoliteReader (R : Type) `{Reader R} : Prop := {
  polite n r bs e r' : (0 < n)%Z → reader_ok r → Read n r = (bs, Some e, r') → bs = [];
}.

Section reading.
Context {R : Type} `{Reader R}.

(** [io.ReadFull]: [n] bytes are missing. The loop makes at most one read per remaining byte and
    one for the error. *)
Fixpoint ReadFull_loop (fuel : nat) (n : Z) (acc : bytes) (r : R) : res io_error bytes * R :=
  if bool_decide (n ≤ 0)%Z then (Ok acc, r)
  else match fuel with
       | O => (Err ErrNoProgress, r)
       | S fuel =>
           let '(bs, err, r') := Read n r in
           let acc := acc ++ bs in
           let n := (n - len bs)%Z in
           match err with
           | None => ReadFull_loop fuel n acc r'
           | Some e =>
               if bool_decide (n ≤ 0)%Z then (Ok acc, r')
               else if bool_decide (acc ≠ [] ∧ e = EOF) then (Err ErrUnexpectedEOF, r')
               else (Err e, r')
           end
       end.

Definition ReadFull (n : Z) : GoM io_error R bytes := λ r,
  ReadFull_loop (S (length (contents r))) n [] r.

(** *** [bufio.Scanner] over lines: one [Scan] of a fresh scanner *)
Inductive scan_result : Type :=
| Token (line : bytes)
| NoToken (err : option io_error).

Definition is_newline (c : ascii) : bool := bool_decide (nat_of_ascii c = 10).

(** The line before the first newline and the bytes after it. *)
Fixpoint cut_line (s : bytes) : option (bytes * bytes) :=
  match s with
  | [] => None
  | c :: s =>
      if is_newline c then Some ([], s)
      else match cut_line s with Some (l, r) => Some (c :: l, r) | None => None end
  end.

(** Without the carriage return at the end. *)
Definition dropCR (s : bytes) : bytes :=
  match last s with
  | Some c => if bool_decide (nat_of_ascii c = 13) then take (length s - 1) s else s
  | None => s
  end.

(** What the split function makes of all remaining data once reading has failed with [e]. *)
Definition final_token (held : bytes) (e : io_error) : scan_result :=
  match cut_line held with
  | Some (l, _) => Token (dropCR l)
  | None =>
      if bool_decide (held = []) then NoToken (if bool_decide (e = EOF) then None else Some e)
      else Token (dropCR held)
  end.

(** The size of the buffer before the next read. *)
Definition grown (max size : Z) (held : bytes) : Z :=
  if bool_decide (len held = size)
  then Z.min (if bool_decide (size = 0) then 4096 else size * 2)%Z max
  else size.

(** [max] is [maxTokenSize], [size] the length of the buffer, [held] the bytes in it. *)
Fixpoint scan_loop (fuel : nat) (max size : Z) (held : bytes) (r : R) : scan_result * R :=
  match cut_line held with
  | Some (l, _) => (Token (dropCR l), r)
  | None =>
      if bool_decide (len held = size ∧ max ≤ size)%Z then (NoToken (Some ErrTooLong), r)
      else match fuel with
           | O => (NoToken (Some ErrNoProgress), r)
           | S fuel =>
               let size := grown max size held in
               let '(bs, err, r') := Read (size - len held) r in
               match err with
               | None => scan_loop fuel max size (held ++ bs) r'
               | Some e => (final_token (held ++ bs) e, r')
               end
           end
  end.

(** [s := bufio.NewScanner(r)] (with a buffer of [size] bytes) and [s.Scan()]. The scanner is
    dropped afterwards with what it holds beyond the line. *)
Definition Scan (max size : Z) (r : R) : scan_result * R :=
  scan_loop (S (length (contents r))) max size [] r.
End reading.

(** ** [io.MultiReader] of two readers *)
Record MultiReader (R1 R2 : Type) : Type := mkMultiReader {
  mr_first : R1;
  mr_second : R2;
  mr_done : nat;
}.
Arguments mkMultiReader {R1 R2}.
Arguments mr_first {R1 R2}.
Arguments mr_second {R1 R2}.
Arguments mr_done {R1 R2}.

Section multi.
Context {R1 R2 : Type} `{!Reader R1, !Reader R2}.

Definition read_second (n : Z) (m : MultiReader R1 R2) : bytes * option io_error * MultiReader R1 R2 :=
  let '(bs, err, r) := Read n (mr_second m) in
  match err with
  | Some EOF => (bs, Some EOF, mkMultiReader (mr_first m) r 2)
  | _ => (bs, err, mkMultiReader (mr_first m) r 1)
  end.

Definition MultiReader_Read (n : Z) (m : MultiReader R1 R2) :
    bytes * option io_error * MultiReader R1 R2 :=
  match mr_done m with
  | O =>
      let '(bs, err, r) := Read n (mr_first m) in
      match err with
      | Some EOF =>
          let m := mkMultiReader r (mr_second m) 1 in
          if bool_decide (bs = []) then read_second n m else (bs, None, m)
      | _ => (bs, err, mkMultiReader r (mr_second m) 0)
      end
  | S O => read_second n m
  | _ => ([], Some EOF, m)
  end.

#[export] Instance MultiReader_reader : Reader (MultiReader R1 R2) := {
  Read := MultiReader_Read;
  contents m := match mr_done m with
                | O => contents (mr_first m) ++ contents (mr_second m)
                | S O => contents (mr_second m)
                | _ => []
                end;
  ending m := match mr_done m with O | S O => ending (mr_second m) | _ => EOF end;
  reader_ok m := reader_ok (mr_second m) ∧
    (mr_done m = 0 → reader_ok (mr_first m) ∧ ending (mr_first m) = EOF);
}.
End multi.

(** ** [encoding/binary], little endian *)
Definition byte_of (z : Z) : ascii := ascii_of_N (Z.to_N (Z.land z 255)).
Definition byte_val (c : ascii) : Z := Z.of_N (N_of_ascii c).

Definition Uint32 (b : bytes) : Z :=
  match b with
  | [b0; b1; b2; b3] =>
      Z.lor (byte_val b0) (Z.lor (Z.shiftl (byte_val b1) 8)
        (Z.lor (Z.shiftl (byte_val b2) 16) (Z.shiftl (byte_val b3) 24)))
  | _ => 0%Z
  end.

Definition PutUint32 (v : Z) : bytes :=
  [byte_of v; byte_of (Z.shiftr v 8); byte_of (Z.shiftr v 16); byte_of (Z.shiftr v 24)].

(** The conversion [uint32(n)]. *)
Definition to_uint32 (n : Z) : Z := (n `mod` 2 ^ 32)%Z.

(** ** Connections

    The pieces in which the peer's bytes arrive, the error that ends the stream (the peer's close,
    or a deadline), what was written to the peer, and how many more writes succeed. *)
Record Conn : Type := mkConn {
  conn_chunks : list bytes;
  conn_ending : io_error;
  conn_written : list bytes;
  conn_writes : option nat;
}.

Definition Conn_Read (n : Z) (c : Conn) : bytes * option io_error * Conn :=
  match conn_chunks c with
  | [] => ([], Some (conn_ending c), c)
  | b :: l =>
      if bool_decide (len b ≤ n)%Z
      then (b, None, mkConn l (conn_ending c) (conn_written c) (conn_writes c))
      else (take (Z.to_nat n) b, None,
            mkConn (drop (Z.to_nat n) b :: l) (conn_ending c) (conn_written c) (conn_writes c))
  end.

#[export] Instance Conn_reader : Reader Conn := {
  Read := Conn_Read;
  contents c := concat (conn_chunks c);
  ending := conn_ending;
  reader_ok c := Forall (λ b, b ≠ []) (conn_chunks c);
}.

Definition ErrBrokenPipe : io_error := ErrNet "write: broken pipe".

(** [conn.Write(b)]. *)
Definition Write (b : bytes) : GoM io_error Conn unit := λ c,
  match conn_writes c with
  | Some O => (Err ErrBrokenPipe, c)
  | w => (Ok (), mkConn (conn_chunks c) (conn_ending c) (conn_written c ++ [b]) (pred <$> w))
  end.

(** Everything written to the peer. *)
Definition sent (c : Conn) : bytes := concat (conn_written c).

(** ** Facts *)
Lemma len_app {A} (l k : list A) : len (l ++ k) = (len l + len k)%Z.
Proof. unfold len. rewrite length_app. lia. Qed.

Lemma len_zero {A} (l : list A) : (len l ≤ 0)%Z → l = [].
Proof. unfold len. destruct l; simpl; [done|lia]. Qed.

Lemma len_pos {A} (l : list A) : l ≠ [] → (0 < len l)%Z.
Proof. unfold len. destruct l; simpl; [done|lia]. Qed.

(** *** The instances *)
#[export] Instance Conn_laws : ReaderLaws Conn.
Proof.
  split. intros n c Hn Hc. simpl in *. unfold Conn_Read. destruct (conn_chunks c) as [|b l] eqn:E.
  { by split; [unfold len; simpl; lia|]. }
  rewrite Forall_cons in Hc. destruct Hc as [Hb Hl]. case_bool_decide as Hlen; simpl.
  - done.
  - unfold len in *. rewrite length_take. split; [lia|]. split_and!; [|by rewrite (assoc_L app), take_drop|done|].
    + intros Ht. apply (f_equal length) in Ht. rewrite length_take in Ht. simpl in Ht. lia.
    + constructor; [|done]. intros Ht. apply (f_equal length) in Ht. rewrite length_drop in Ht. simpl in Ht. lia.
Qed.

#[export] Instance Conn_polite : PoliteReader Conn.
Proof.
  split. intros n c bs e c' _ _. simpl. unfold Conn_Read. destruct (conn_chunks c); [by intros [= <- _ _]|].
  by case_bool_decide.
Qed.

Section multi_laws.
Context {R1 R2 : Type} `{!Reader R1, !Reader R2, !ReaderLaws R1, !ReaderLaws R2, !PoliteReader R2}.
Implicit Types (m : MultiReader R1 R2).

Lemma read_second_law n m : (0 < n)%Z → reader_ok (mr_second m) →
  let '(bs, err, m') := read_second n m in
  (len bs ≤ n)%Z ∧
  match err with
  | None => bs ≠ [] ∧ contents (mr_second m) = bs ++ contents m' ∧ ending m' = ending (mr_second m) ∧
      reader_ok m'
  | Some e => contents (mr_second m) = [] ∧ bs = [] ∧ e = ending (mr_second m)
  end.
Proof.
  intros Hn Hok. unfold read_second. pose proof (read_law n (mr_second m) Hn Hok) as Hr.
  pose proof (polite n (mr_second m)) as Hp. destruct (Read n (mr_second m)) as [[bs err] r'].
  destruct Hr as [Hl Hr]. destruct err as [e|].
  - destruct Hr as [Hc He]. assert (bs = []) as -> by (by eapply Hp). by destruct e.
  - destruct Hr as (Hb & Hc & He & Hk). done.
Qed.

#[export] Instance MultiReader_laws : ReaderLaws (MultiReader R1 R2).
Proof.
  split. intros n m Hn [H2 H1]. simpl. unfold MultiReader_Read.
  destruct (mr_done m) as [|[|k]] eqn:Ed; simpl.
  - destruct (H1 eq_refl) as [Hok1 He1]. pose proof (read_law n (mr_first m) Hn Hok1) as Hr.
    destruct (Read n (mr_first m)) as [[bs err] r']. destruct Hr as [Hl Hr]. destruct err as [e|].
    + destruct Hr as [Hc He]. rewrite He1 in He. subst e. rewrite Hc.
      case_bool_decide as Hb; [|by split].
      subst bs. rewrite Hb. pose proof (read_second_law n (mkMultiReader r' (mr_second m) 1) Hn H2) as Hs.
      destruct (read_second n _) as [[bs err] m']. destruct Hs as [Hl' Hs]. split; [done|].
      simpl in Hs. destruct err; [destruct Hs as (? & -> & ?)|]; done.
    + destruct Hr as (Hb & Hc & He & Hk). split; [done|]. rewrite Hc, <- (assoc_L app).
      split_and!; [done|done|done|done|]. intros _. split; [done|]. simpl in *. congruence.
  - pose proof (read_second_law n m Hn H2) as Hs. destruct (read_second n m) as [[bs err] m'].
    destruct Hs as [Hl' Hs]. split; [done|]. simpl in Hs. destruct err; [destruct Hs as (? & -> & ?)|]; done.
  - by split; [unfold len; simpl; lia|].
Qed.

#[export] Instance MultiReader_polite : PoliteReader (MultiReader R1 R2).
Proof.
  split. intros n m bs e m' Hn [H2 H1]. simpl. unfold MultiReader_Read.
  destruct (mr_done m) as [|[|k]]; simpl.
  - destruct (H1 eq_refl) as [Hok1 He1]. pose proof (read_law n (mr_first m) Hn Hok1) as Hr.
    destruct (Read n (mr_first m)) as [[bs1 err] r']. destruct Hr as [_ Hr]. destruct err as [e1|]; [|done].
    destruct Hr as [_ ->]. rewrite He1. case_bool_decide; [|done].
    pose proof (read_second_law n (mkMultiReader r' (mr_second m) 1) Hn H2) as Hs.
    intros Heq. rewrite Heq in Hs. apply Hs.
  - pose proof (read_second_law n m Hn H2) as Hs. intros Heq. rewrite Heq in Hs. apply Hs.
  - by intros [= <- _ _].
Qed.
End multi_laws.

(** *** [io.ReadFull] *)
Section reading_laws.
Context {R : Type} `{!Reader R, !ReaderLaws R, !PoliteReader R}.
Implicit Types (r : R).

(** A reader that goes on where [r] is after [n] bytes. *)
Definition resumes r (rest : bytes) r' : Prop :=
  reader_ok r' ∧ contents r' = rest ∧ ending r' = ending r.

Lemma read_cases n r : (0 < n)%Z → reader_ok r →
  (∃ bs r', Read n r = (bs, None, r') ∧ bs ≠ [] ∧ (len bs ≤ n)%Z ∧ contents r = bs ++ contents r' ∧
     resumes r (contents r') r') ∨
  (∃ r', Read n r = ([], Some (ending r), r') ∧ contents r = []).
Proof.
  intros Hn Hok. pose proof (read_law n r Hn Hok) as Hr. pose proof (polite n r) as Hp.
  destruct (Read n r) as [[bs [e|]] r'].
  - right. assert (bs = []) as -> by (by eapply Hp). destruct Hr as (_ & Hc & ->). by exists r'.
  - left. destruct Hr as (Hl & Hb & Hc & He & Hk). exists bs, r'. by split_and!.
Qed.

Lemma ReadFull_loop_spec fuel n acc r : reader_ok r → length (contents r) < fuel →
  match ReadFull_loop fuel n acc r with
  | (Ok bs, r') => (n ≤ len (contents r))%Z ∧ bs = acc ++ take (Z.to_nat n) (contents r) ∧
      resumes r (drop (Z.to_nat n) (contents r)) r'
  | (Err e, r') => (len (contents r) < n)%Z ∧
      e = (if bool_decide (acc ++ contents r ≠ [] ∧ ending r = EOF) then ErrUnexpectedEOF else ending r)
  | (Panic, _) => False
  end.
Proof.
  revert n acc r. induction fuel as [|fuel IH]; intros n acc r Hok Hf; [lia|]. cbn [ReadFull_loop].
  case_bool_decide as Hn.
  { replace (Z.to_nat n) with 0 by lia. rewrite app_nil_r, drop_0. pose proof (len_nonneg (contents r)).
    by split_and!; [lia|..]. }
  destruct (read_cases n r) as [(bs & r' & -> & Hb & Hl & Hc & Hk & _ & He)|(r' & -> & Hc)]; [lia|done|..].
  - assert (length (contents r') < fuel) as Hf'.
    { rewrite Hc, length_app in Hf. destruct bs; [done|]. simpl in Hf. lia. }
    specialize (IH (n - len bs)%Z (acc ++ bs) r' Hk Hf').
    destruct (ReadFull_loop fuel _ _ r') as [[bs'|e|] r'']; [| |done].
    + destruct IH as (H1 & -> & Hk' & Hc' & He'). rewrite Hc, len_app. pose proof (len_pos bs Hb).
      assert (Z.to_nat n = length bs + Z.to_nat (n - len bs)) as -> by (unfold len in *; lia).
      rewrite take_app_add', drop_app_add' by done. rewrite (assoc_L app).
      split_and!; [lia|done|]. unfold resumes. by rewrite He'.
    + destruct IH as [H1 ->]. rewrite Hc, len_app, He, (assoc_L app). split; [lia|done].
  - rewrite app_nil_r, Hc. change (len (@nil ascii)) with 0%Z.
    rewrite bool_decide_eq_false_2 by lia. rewrite app_nil_r.
    case_bool_decide; (split; [lia|done]).
Qed.

(** [io.ReadFull] takes exactly [n] bytes off the stream, however they arrive. *)
Lemma ReadFull_ok n r : reader_ok r → (n ≤ len (contents r))%Z →
  ∃ r', ReadFull n r = (Ok (take (Z.to_nat n) (contents r)), r') ∧
    resumes r (drop (Z.to_nat n) (contents r)) r'.
Proof.
  intros Hok Hn. pose proof (ReadFull_loop_spec (S (length (contents r))) n [] r Hok ltac:(lia)) as H.
  unfold ReadFull. destruct (ReadFull_loop _ n [] r) as [[bs|e|] r']; [|lia|done].
  destruct H as (_ & -> & Hr). by exists r'.
Qed.

Lemma ReadFull_short n r : reader_ok r → (len (contents r) < n)%Z →
  ∃ r', ReadFull n r =
    (Err (if bool_decide (contents r ≠ [] ∧ ending r = EOF) then ErrUnexpectedEOF else ending r), r').
Proof.
  intros Hok Hn. pose proof (ReadFull_loop_spec (S (length (contents r))) n [] r Hok ltac:(lia)) as H.
  unfold ReadFull. destruct (ReadFull_loop _ n [] r) as [[bs|e|] r']; [lia| |done].
  destruct H as (_ & ->). by exists r'.
Qed.

(** *** One line *)
Lemma cut_line_some s l rest : cut_line s = Some (l, rest) →
  ∃ c, is_newline c = true ∧ s = l ++ c :: rest ∧ Forall (λ c, is_newline c = false) l.
Proof.
  revert l. induction s as [|c s IH]; intros l; simpl; [done|]. destruct (is_newline c) eqn:E.
  - intros [= <- <-]. by exists c.
  - destruct (cut_line s) as [[l' r']|]; [|done]. intros [= <- ->].
    destruct (IH l' eq_refl) as (d & Hd & -> & Hl). exists d. split_and!; [done|done|by constructor].
Qed.

Lemma cut_line_none s : cut_line s = None → Forall (λ c, is_newline c = false) s.
Proof.
  induction s as [|c s IH]; simpl; [constructor|]. destruct (is_newline c) eqn:E; [done|].
  destruct (cut_line s) as [[]|]; [done|]. intros _. constructor; [done|by apply IH].
Qed.

Lemma cut_line_app l s : Forall (λ c, is_newline c = false) l →
  cut_line (l ++ s) = (fun lr => (l ++ lr.1, lr.2)) <$> cut_line s.
Proof.
  induction 1 as [|c l Hc _ IH]; simpl; [by destruct (cut_line s) as [[]|]|].
  rewrite Hc, IH. by destruct (cut_line s) as [[]|].
Qed.

Lemma cut_line_extend s l rest t : cut_line s = Some (l, rest) → cut_line (s ++ t) = Some (l, rest ++ t).
Proof.
  intros (c & Hc & -> & Hl)%cut_line_some. rewrite <- (assoc_L app), cut_line_app by done.
  simpl. rewrite Hc. simpl. by rewrite app_nil_r.
Qed.

(** What one scan finds, as a function of the whole stream: its first line if that fits the
    buffer, the unterminated rest at the end of the stream, or an error. *)
Definition first_line (max : Z) (s : bytes) (e : io_error) : scan_result :=
  match cut_line s with
  | Some (l, _) => if bool_decide (len l < max)%Z then Token (dropCR l) else NoToken (Some ErrTooLong)
  | None => if bool_decide (max ≤ len s)%Z then NoToken (Some ErrTooLong) else final_token s e
  end.

Lemma grown_bounds max size held :
  (len held ≤ size)%Z → (size ≤ max)%Z → (0 < max)%Z → ¬ (len held = size ∧ max ≤ size)%Z →
  (len held < grown max size held ≤ max)%Z.
Proof.
  intros H1 H2 H3 H4. unfold grown. pose proof (len_nonneg held).
  case_bool_decide as Hl; [|lia]. case_bool_decide; lia.
Qed.

Lemma scan_loop_spec fuel max size held r :
  reader_ok r → length (contents r) < fuel → (len held ≤ size)%Z → (size ≤ max)%Z → (0 < max)%Z →
  let '(res, r') := scan_loop fuel max size held r in
  res = first_line max (held ++ contents r) (ending r) ∧
  (∀ l rest, cut_line (held ++ contents r) = Some (l, rest) → (len l < max)%Z →
     ∃ lost, rest = lost ++ contents r' ∧ resumes r (contents r') r').
Proof.
  intros Hok Hf Hh Hs Hm. revert size held r Hok Hf Hh Hs.
  induction fuel as [|fuel IH]; intros size held r Hok Hf Hh Hs; [lia|]. cbn [scan_loop].
  destruct (cut_line held) as [[l rest]|] eqn:Ec.
  { pose proof (cut_line_extend _ _ _ (contents r) Ec) as Ec'. unfold first_line. rewrite Ec'.
    destruct (cut_line_some _ _ _ Ec) as (c & _ & -> & _). rewrite len_app in Hh.
    pose proof (len_pos (c :: rest) ltac:(done)). rewrite bool_decide_eq_true_2 by lia.
    split; [done|]. intros l' rest' [= <- <-] _. by exists rest. }
  pose proof (cut_line_app held (contents r) (cut_line_none _ Ec)) as Hcut.
  case_bool_decide as Hfull.
  { destruct Hfull as [Hl Hmax]. pose proof (len_nonneg (contents r)). split.
    - unfold first_line. rewrite Hcut. destruct (cut_line (contents r)) as [[l rest]|]; simpl.
      + rewrite bool_decide_eq_false_2; [done|]. rewrite len_app. pose proof (len_nonneg l). lia.
      + rewrite bool_decide_eq_true_2; [done|]. rewrite len_app. lia.
    - rewrite Hcut. destruct (cut_line (contents r)) as [[l rest]|]; simpl; [|done].
      intros l' rest' [= <- <-]. rewrite len_app. pose proof (len_nonneg l). lia. }
  pose proof (grown_bounds max size held Hh Hs Hm Hfull) as Hg.
  destruct (read_cases (grown max size held - len held) r) as
    [(bs & r' & -> & Hb & Hl & Hc & Hk & _ & He)|(r' & -> & Hc)]; [lia|done|..].
  - assert (length (contents r') < fuel) as Hf'.
    { rewrite Hc, length_app in Hf. destruct bs; [done|]. simpl in Hf. lia. }
    specialize (IH (grown max size held) (held ++ bs) r' Hk Hf'). rewrite len_app in IH.
    specialize (IH ltac:(lia) ltac:(lia)). rewrite <- (assoc_L app), <- Hc, He in IH.
    destruct (scan_loop fuel _ _ _ r') as [res r'']. destruct IH as [-> IH]. split; [done|].
    intros l rest Hlr Hlt. destruct (IH l rest Hlr Hlt) as (lost & -> & Hres). exists lost.
    split; [done|]. destruct Hres as (? & ? & Hend). by rewrite He in Hend.
  - rewrite Hc, app_nil_r. unfold first_line. rewrite Ec, bool_decide_eq_false_2 by lia.
    split; [done|]. intros l rest Hlr. congruence.
Qed.

(** Whatever the pieces, one scan returns the first line of the stream; what was read with it
    beyond the line is lost. *)
Lemma Scan_spec max size r :
  reader_ok r → (0 ≤ size ≤ max)%Z → (0 < max)%Z →
  let '(res, r') := Scan max size r in
  res = first_line max (contents r) (ending r) ∧
  (∀ l rest, cut_line (contents r) = Some (l, rest) → (len l < max)%Z →
     ∃ lost, rest = lost ++ contents r' ∧ resumes r (contents r') r').
Proof.
  intros Hok Hs Hm. unfold Scan.
  apply (scan_loop_spec (S (length (contents r))) max size [] r Hok); [lia|unfold len; simpl; lia|lia|done].
Qed.
End reading_laws.

(** *** Lengths *)
Lemma byte_val_of z : byte_val (byte_of z) = Z.land z 255.
Proof.
  unfold byte_val, byte_of. change 255%Z with (Z.ones 8). rewrite Z.land_ones by lia.
  pose proof (Z.mod_pos_bound z (2 ^ 8) ltac:(lia)). rewrite N_ascii_embedding by lia. lia.
Qed.

Lemma byte_val_bound c : (0 ≤ byte_val c < 256)%Z.
Proof. unfold byte_val. pose proof (N_ascii_bounded c). lia. Qed.

Lemma low_bit z i : (0 ≤ i)%Z → Z.testbit (Z.land z 255) i = bool_decide (i < 8)%Z && Z.testbit z i.
Proof.
  intros Hi. change 255%Z with (Z.ones 8). rewrite Z.land_spec, Z.testbit_ones by lia.
  rewrite andb_comm. f_equal. case_bool_decide; lia.
Qed.

(** The [k]-th byte of a number, shifted back into place. *)
Lemma place_bit v k i : (0 ≤ k)%Z → (0 ≤ i)%Z →
  Z.testbit (Z.shiftl (Z.land (Z.shiftr v k) 255) k) i = bool_decide (k ≤ i < k + 8)%Z && Z.testbit v i.
Proof.
  intros Hk Hi. rewrite Z.shiftl_spec by done. destruct (decide (k ≤ i)%Z) as [Hki|Hki].
  - rewrite low_bit, Z.shiftr_spec by lia. replace (i - k + k)%Z with i by lia. f_equal.
    repeat case_bool_decide; lia.
  - rewrite Z.testbit_neg_r by lia. by rewrite bool_decide_eq_false_2 by lia.
Qed.

Lemma Uint32_PutUint32 v : (0 ≤ v < 2 ^ 32)%Z → Uint32 (PutUint32 v) = v.
Proof.
  intros Hv. unfold Uint32, PutUint32. rewrite !byte_val_of. apply Z.bits_inj'. intros i Hi.
  rewrite !Z.lor_spec, low_bit, !place_bit by lia.
  destruct (decide (32 ≤ i)%Z) as [Hh|Hh].
  - assert (Z.testbit v i = false) as ->.
    { destruct (decide (v = 0)%Z) as [->|]; [by rewrite Z.bits_0|].
      apply Z.bits_above_log2; [lia|]. assert (Z.log2 v < 32)%Z; [|lia].
      apply Z.log2_lt_pow2; lia. }
    by rewrite !andb_false_r.
  - destruct (Z.testbit v i); rewrite ?andb_false_r, ?andb_true_r; [|done].
    repeat case_bool_decide; simpl; done || lia.
Qed.

Lemma Uint32_nonneg b : (0 ≤ Uint32 b)%Z.
Proof.
  destruct b as [|b0 [|b1 [|b2 [|b3 []]]]]; try done. unfold Uint32.
  pose proof (byte_val_bound b0). pose proof (byte_val_bound b1).
  pose proof (byte_val_bound b2). pose proof (byte_val_bound b3).
  repeat (apply Z.lor_nonneg; split); rewrite ?Z.shiftl_nonneg; lia.
Qed.

(** The bytes of a length. *)
Lemma PutUint32_Uint32 b : length b = 4 → PutUint32 (Uint32 b) = b.
Proof.
  destruct b as [|b0 [|b1 [|b2 [|b3 []]]]]; try done. intros _.
  assert (∀ c i, (8 ≤ i)%Z → Z.testbit (byte_val c) i = false) as Hhigh.
  { intros c i Hi. pose proof (byte_val_bound c) as Hb. destruct (decide (byte_val c = 0)%Z) as [->|]; [by rewrite Z.bits_0|].
    apply Z.bits_above_log2; [lia|]. assert (Z.log2 (byte_val c) < 8)%Z; [|lia]. apply Z.log2_lt_pow2; lia. }
  assert (∀ z c, (∀ i, (0 ≤ i < 8)%Z → Z.testbit z i = Z.testbit (byte_val c) i) → byte_of z = c) as Hbyte.
  { intros z c Hz. assert (byte_val (byte_of z) = byte_val c) as Hv.
    { rewrite byte_val_of. apply Z.bits_inj'. intros i Hi. rewrite low_bit by done.
      case_bool_decide; [rewrite Hz by lia; done|]. by rewrite Hhigh by lia. }
    unfold byte_val in Hv. apply N2Z.inj in Hv.
    by rewrite <- (ascii_N_embedding (byte_of z)), Hv, ascii_N_embedding. }
  unfold PutUint32, Uint32. f_equal; [|f_equal; [|f_equal; [|f_equal]]]; apply Hbyte; intros i Hi;
    rewrite ?Z.shiftr_spec, !Z.lor_spec, !Z.shiftl_spec by lia;
    repeat first
      [ rewrite (Z.testbit_neg_r _ (_ - _)) by lia
      | match goal with |- context [Z.testbit (byte_val ?c) (i + ?k)] =>
          rewrite (Hhigh c (i + k)%Z) by lia end
      | match goal with |- context [Z.testbit (byte_val ?c) (i + ?k - ?m)] =>
          first [ rewrite (Hhigh c (i + k - m)%Z) by lia
                | rewrite (Z.testbit_neg_r (byte_val c) (i + k - m)) by lia
                | replace (i + k - m)%Z with i by lia ] end ];
    by rewrite ?orb_false_r.
Qed.

Lemma PutUint32_length v : len (PutUint32 v) = 4%Z.
Proof. done. Qed.

Lemma first_length_byte v : byte_val (byte_of v) = (v `mod` 256)%Z.
Proof. rewrite byte_val_of. change 255%Z with (Z.ones 8). by rewrite Z.land_ones by lia. Qed.

(** *** Writing *)
Lemma Write_ok b c : conn_writes c = None →
  Write b c = (Ok (), mkConn (conn_chunks c) (conn_ending c) (conn_written c ++ [b]) None).
Proof. unfold Write. by intros ->. Qed.

(** *** What reading keeps *)
Section reading_keeps.
Context {R : Type} `{!Reader R}.
Context (P : R → Prop) (HP : ∀ n r, P r → P (Read n r).2).

Lemma ReadFull_keeps n r : P r → P (ReadFull n r).2.
Proof.
  unfold ReadFull. generalize (S (length (contents r))) (@nil ascii). intros fuel.
  revert n r. induction fuel as [|fuel IH]; intros n r acc Hr; simpl; case_bool_decide; try done.
  pose proof (HP n r Hr) as Hk. destruct (Read n r) as [[bs [e|]] r']; [|by apply IH].
  by repeat case_bool_decide.
Qed.

Lemma ReadFull_no_panic n r : (ReadFull n r).1 ≠ Panic.
Proof.
  unfold ReadFull. generalize (S (length (contents r))) (@nil ascii). intros fuel.
  revert n r. induction fuel as [|fuel IH]; intros n r acc; simpl; case_bool_decide; try done.
  destruct (Read n r) as [[bs [e|]] r']; [|by apply IH]. by repeat case_bool_decide.
Qed.

Lemma Scan_keeps max size r : P r → P (Scan max size r).2.
Proof.
  unfold Scan. generalize (S (length (contents r))) (@nil ascii). intros fuel.
  revert size r. induction fuel as [|fuel IH]; intros size r held Hr; simpl;
    (destruct (cut_line held) as [[]|]; [done|]); (case_bool_decide; [done|]); [done|].
  pose proof (HP (grown max size held - len held)%Z r Hr) as Hk.
  by destruct (Read _ r) as [[bs [e|]] r']; [|apply IH].
Qed.
End reading_keeps.

(** The writing side of a connection. *)
Definition same_out (c c' : Conn) : Prop :=
  conn_written c' = conn_written c ∧ conn_writes c' = conn_writes c.

Lemma Conn_Read_out c0 n c : same_out c0 c → same_out c0 (Read n c).2.
Proof.
  unfold same_out. simpl. unfold Conn_Read. destruct (conn_chunks c); [done|]. by case_bool_decide.
Qed.

Lemma MultiReader_Read_out {R1} `{!Reader R1} c0 n (m : MultiReader R1 Conn) :
  same_out c0 (mr_second m) → same_out c0 (mr_second (Read n m).2).
Proof.
  intros Hm. simpl. unfold MultiReader_Read.
  assert (∀ m : MultiReader R1 Conn, same_out c0 (mr_second m) → same_out c0 (mr_second (read_second n m).2)) as Hs.
  { intros m' Hm'. unfold read_second. pose proof (Conn_Read_out c0 n _ Hm') as Hr.
    destruct (Read n (mr_second m')) as [[bs [[]|]] r']; done. }
  destruct (mr_done m) as [|[|]]; [|by apply Hs|done].
  destruct (Read n (mr_first m)) as [[bs [[]|]] r']; try done.
  case_bool_decide; [by apply Hs|done].
Qed.
