(* ===== verification/UdsMessages.v ===== *)
(** * UDS messages

    The request and response types of [internal/uds/codec.go]: one record per struct, with the
    JSON names of the request payloads as [JSONStruct] instances. *)

From Stdlib Require Import ZArith Lia.
From stdpp Require Import base tactics numbers list gmap strings.
From S2P Require Import Prelude Model GoStrings GoJson.

(** ** Envelopes *)
Record JSONRequest : Type := mkJSONRequest {
  JReq_Action : string;
  JReq_Payload : RawMessage;
  JReq_RequestID : string;
}.

(** ** Request payloads *)
Record AuthPayload : Type := mkAuthPayload {
  AP_Username : string;
  AP_Password : string;
}.
#[export] Instance AuthPayload_json : JSONStruct AuthPayload := {
  json_zero := mkAuthPayload "" "";
  json_fields := [
    ("username", StringField (λ v p, mkAuthPayload v (AP_Password p)));
    ("password", StringField (λ v p, mkAuthPayload (AP_Username p) v))
  ];
}.

Record GetUserPayload : Type := mkGetUserPayload {
  GUP_UserID : string;
  GUP_Username : string;
}.
#[export] Instance GetUserPayload_json : JSONStruct GetUserPayload := {
  json_zero := mkGetUserPayload "" "";
  json_fields := [
    ("user_id", StringField (λ v p, mkGetUserPayload v (GUP_Username p)));
    ("username", StringField (λ v p, mkGetUserPayload (GUP_UserID p) v))
  ];
}.

Record TriggerSyncPayload : Type := mkTriggerSyncPayload {
  TSP_SourceSystem : string;
  TSP_SyncType : string;
}.
#[export] Instance TriggerSyncPayload_json : JSONStruct TriggerSyncPayload := {
  json_zero := mkTriggerSyncPayload "" "";
  json_fields := [
    ("source_system", StringField (λ v p, mkTriggerSyncPayload v (TSP_SyncType p)));
    ("sync_type", StringField (λ v p, mkTriggerSyncPayload (TSP_SourceSystem p) v))
  ];
}.

Record CreateOrgPayload : Type := mkCreateOrgPayload {
  COP_Name : string;
  COP_ParentID : string;
}.
#[export] Instance CreateOrgPayload_json : JSONStruct CreateOrgPayload := {
  json_zero := mkCreateOrgPayload "" "";
  json_fields := [
    ("name", StringField (λ v p, mkCreateOrgPayload v (COP_ParentID p)));
    ("parent_id", StringField (λ v p, mkCreateOrgPayload (COP_Name p) v))
  ];
}.

Record GetOrgPayload : Type := mkGetOrgPayload {
  GOP_OrgID : string;
}.
#[export] Instance GetOrgPayload_json : JSONStruct GetOrgPayload := {
  json_zero := mkGetOrgPayload "";
  json_fields := [
    ("org_id", StringField (λ v _, mkGetOrgPayload v))
  ];
}.

Record ListOrgsPayload : Type := mkListOrgsPayload {
  LOP_Offset : Z;
  LOP_Limit : Z;
}.
#[export] Instance ListOrgsPayload_json : JSONStruct ListOrgsPayload := {
  json_zero := mkListOrgsPayload 0%Z 0%Z;
  json_fields := [
    ("offset", IntField (λ v p, mkListOrgsPayload v (LOP_Limit p)));
    ("limit", IntField (λ v p, mkListOrgsPayload (LOP_Offset p) v))
  ];
}.

Record AddOrgMemberPayload : Type := mkAddOrgMemberPayload {
  AOMP_OrgID : string;
  AOMP_UserID : string;
  AOMP_Role : string;
}.
#[export] Instance AddOrgMemberPayload_json : JSONStruct AddOrgMemberPayload := {
  json_zero := mkAddOrgMemberPayload "" "" "";
  json_fields := [
    ("org_id", StringField (λ v p, mkAddOrgMemberPayload v (AOMP_UserID p) (AOMP_Role p)));
    ("user_id", StringField (λ v p, mkAddOrgMemberPayload (AOMP_OrgID p) v (AOMP_Role p)));
    ("role", StringField (λ v p, mkAddOrgMemberPayload (AOMP_OrgID p) (AOMP_UserID p) v))
  ];
}.

Record RemoveOrgMemberPayload : Type := mkRemoveOrgMemberPayload {
  ROMP_OrgID : string;
  ROMP_UserID : string;
}.
#[export] Instance RemoveOrgMemberPayload_json : JSONStruct RemoveOrgMemberPayload := {
  json_zero := mkRemoveOrgMemberPayload "" "";
  json_fields := [
    ("org_id", StringField (λ v p, mkRemoveOrgMemberPayload v (ROMP_UserID p)));
    ("user_id", StringField (λ v p, mkRemoveOrgMemberPayload (ROMP_OrgID p) v))
  ];
}.

Record ListOrgMembersPayload : Type := mkListOrgMembersPayload {
  LOMP_OrgID : string;
}.
#[export] Instance ListOrgMembersPayload_json : JSONStruct ListOrgMembersPayload := {
  json_zero := mkListOrgMembersPayload "";
  json_fields := [
    ("org_id", StringField (λ v _, mkListOrgMembersPayload v))
  ];
}.

Record GetUserOrgsPayload : Type := mkGetUserOrgsPayload {
  GUOP_UserID : string;
}.
#[export] Instance GetUserOrgsPayload_json : JSONStruct GetUserOrgsPayload := {
  json_zero := mkGetUserOrgsPayload "";
  json_fields := [
    ("user_id", StringField (λ v _, mkGetUserOrgsPayload v))
  ];
}.

Record CreateGroupPayload : Type := mkCreateGroupPayload {
  CGP_Name : string;
  CGP_Description : string;
  CGP_Type : string;
}.
#[export] Instance CreateGroupPayload_json : JSONStruct CreateGroupPayload := {
  json_zero := mkCreateGroupPayload "" "" "";
  json_fields := [
    ("name", StringField (λ v p, mkCreateGroupPayload v (CGP_Description p) (CGP_Type p)));
    ("description", StringField (λ v p, mkCreateGroupPayload (CGP_Name p) v (CGP_Type p)));
    ("type", StringField (λ v p, mkCreateGroupPayload (CGP_Name p) (CGP_Description p) v))
  ];
}.

Record GetGroupPayload : Type := mkGetGroupPayload {
  GGP_GroupID : string;
}.
#[export] Instance GetGroupPayload_json : JSONStruct GetGroupPayload := {
  json_zero := mkGetGroupPayload "";
  json_fields := [
    ("group_id", StringField (λ v _, mkGetGroupPayload v))
  ];
}.

Record ListGroupsPayload : Type := mkListGroupsPayload {
  LGP_Offset : Z;
  LGP_Limit : Z;
}.
#[export] Instance ListGroupsPayload_json : JSONStruct ListGroupsPayload := {
  json_zero := mkListGroupsPayload 0%Z 0%Z;
  json_fields := [
    ("offset", IntField (λ v p, mkListGroupsPayload v (LGP_Limit p)));
    ("limit", IntField (λ v p, mkListGroupsPayload (LGP_Offset p) v))
  ];
}.

Record AddGroupMemberPayload : Type := mkAddGroupMemberPayload {
  AGMP_GroupID : string;
  AGMP_UserID : string;
  AGMP_Role : string;
}.
#[export] Instance AddGroupMemberPayload_json : JSONStruct AddGroupMemberPayload := {
  json_zero := mkAddGroupMemberPayload "" "" "";
  json_fields := [
    ("group_id", StringField (λ v p, mkAddGroupMemberPayload v (AGMP_UserID p) (AGMP_Role p)));
    ("user_id", StringField (λ v p, mkAddGroupMemberPayload (AGMP_GroupID p) v (AGMP_Role p)));
    ("role", StringField (λ v p, mkAddGroupMemberPayload (AGMP_GroupID p) (AGMP_UserID p) v))
  ];
}.

Record RemoveGroupMemberPayload : Type := mkRemoveGroupMemberPayload {
  RGMP_GroupID : string;
  RGMP_UserID : string;
}.
#[export] Instance RemoveGroupMemberPayload_json : JSONStruct RemoveGroupMemberPayload := {
  json_zero := mkRemoveGroupMemberPayload "" "";
  json_fields := [
    ("group_id", StringField (λ v p, mkRemoveGroupMemberPayload v (RGMP_UserID p)));
    ("user_id", StringField (λ v p, mkRemoveGroupMemberPayload (RGMP_GroupID p) v))
  ];
}.

Record ListGroupMembersPayload : Type := mkListGroupMembersPayload {
  LGMP_GroupID : string;
}.
#[export] Instance ListGroupMembersPayload_json : JSONStruct ListGroupMembersPayload := {
  json_zero := mkListGroupMembersPayload "";
  json_fields := [
    ("group_id", StringField (λ v _, mkListGroupMembersPayload v))
  ];
}.

Record GetUserGroupsPayload : Type := mkGetUserGroupsPayload {
  GUGP_UserID : string;
}.
#[export] Instance GetUserGroupsPayload_json : JSONStruct GetUserGroupsPayload := {
  json_zero := mkGetUserGroupsPayload "";
  json_fields := [
    ("user_id", StringField (λ v _, mkGetUserGroupsPayload v))
  ];
}.

(** ** Response payloads *)
Record AuthResponsePayload : Type := mkAuthResponsePayload {
  ARP_UserID : string;
  ARP_Username : string;
  ARP_Email : string;
  ARP_DisplayName : string;
}.

Record OrgInfo : Type := mkOrgInfo {
  OI_OrgID : string;
  OI_OrgName : string;
  OI_Role : string;
}.

Record GetUserResponsePayload : Type := mkGetUserResponsePayload {
  GURP_UserID : string;
  GURP_Username : string;
  GURP_Email : string;
  GURP_DisplayName : string;
  GURP_Organizations : list OrgInfo;
}.

Record TriggerSyncResponsePayload : Type := mkTriggerSyncResponsePayload {
  TSRP_JobID : string;
  TSRP_EstimatedDuration : string;
  TSRP_Message : string;
}.

Record OrgDetailInfo : Type := mkOrgDetailInfo {
  ODI_OrgID : string;
  ODI_Name : string;
  ODI_ParentID : string;
  ODI_Path : string;
  ODI_Role : string;
}.

Record OrgMemberInfo : Type := mkOrgMemberInfo {
  OMI_UserID : string;
  OMI_Username : string;
  OMI_DisplayName : string;
  OMI_Role : string;
}.

Record GroupDetailInfo : Type := mkGroupDetailInfo {
  GDI_GroupID : string;
  GDI_Name : string;
  GDI_Description : string;
  GDI_Type : string;
  GDI_Role : string;
}.

Record GroupMemberInfo : Type := mkGroupMemberInfo {
  GMI_UserID : string;
  GMI_Username : string;
  GMI_DisplayName : string;
  GMI_Role : string;
}.

Record ListOrgsResponsePayload : Type := mkListOrgsResponsePayload {
  LORP_Items : list OrgDetailInfo;
  LORP_Total : Z;
}.
Record ListOrgMembersResponsePayload : Type := mkListOrgMembersResponsePayload {
  LOMRP_Items : list OrgMemberInfo;
  LOMRP_Total : Z;
}.
Record ListGroupsResponsePayload : Type := mkListGroupsResponsePayload {
  LGRP_Items : list GroupDetailInfo;
  LGRP_Total : Z;
}.
Record ListGroupMembersResponsePayload : Type := mkListGroupMembersResponsePayload {
  LGMRP_Items : list GroupMemberInfo;
  LGMRP_Total : Z;
}.

(** The values the handlers put into [JSONResponse.Payload]; [PNone] is the nil interface and
    [PMessage] the one-entry map. *)
Inductive ResponsePayload : Type :=
| PNone
| PAuth (p : AuthResponsePayload)
| PGetUser (p : GetUserResponsePayload)
| PTriggerSync (p : TriggerSyncResponsePayload)
| POrg (p : OrgDetailInfo)
| PListOrgs (p : ListOrgsResponsePayload)
| PListOrgMembers (p : ListOrgMembersResponsePayload)
| PGroup (p : GroupDetailInfo)
| PListGroups (p : ListGroupsResponsePayload)
| PListGroupMembers (p : ListGroupMembersResponsePayload)
| PMessage (message : string).

Record JSONResponse : Type := mkJSONResponse {
  JResp_Status : string;
  JResp_Payload : ResponsePayload;
  JResp_RequestID : string;
  JResp_Error : string;
}.
