(* ===== verification/UdsCodec.v ===== *)
(** * UDS codecs

    [internal/uds/codec.go]: the handshake messages, the JSON text of every message, and the two
    codecs: one JSON text per line, or one JSON text behind a four-byte little-endian length. *)

From Stdlib Require Import ZArith Lia Ascii String.
From stdpp Require Import base tactics numbers list gmap strings.
From S2P Require Import Prelude GoStrings GoJson GoJsonText GoIO UdsMessages.

(** [internal/uds/server.go] *)
Definition MaxMessageSize : Z := Z.shiftl 1 20.
Definition MaxJSONMessageSize : Z := Z.shiftl 512 10.

Definition Format : Type := string.
Definition FormatJSON : Format := "json".
Definition FormatProtobuf : Format := "protobuf".

(** ** Messages *)
Record HandshakeRequest : Type := mkHandshakeRequest {
  HReq_Version : string;
  HReq_Format : string;
  HReq_SupportedVersions : list string;
}.
#[export] Instance HandshakeRequest_json : JSONStruct HandshakeRequest := {
  json_zero := mkHandshakeRequest "" "" [];
  json_fields := [
    ("version", StringField (λ v p, mkHandshakeRequest v (HReq_Format p) (HReq_SupportedVersions p)));
    ("format", StringField (λ v p, mkHandshakeRequest (HReq_Version p) v (HReq_SupportedVersions p)));
    ("supported_versions", StringsField (λ v p, mkHandshakeRequest (HReq_Version p) (HReq_Format p) v))
  ];
}.

Record HandshakeResponse : Type := mkHandshakeResponse {
  HResp_Status : string;
  HResp_Version : string;
  HResp_Format : string;
  HResp_ErrorMessage : string;
}.

#[export] Instance JSONRequest_json : JSONStruct JSONRequest := {
  json_zero := mkJSONRequest "" None "";
  json_fields := [
    ("action", StringField (λ v p, mkJSONRequest v (JReq_Payload p) (JReq_RequestID p)));
    ("payload", RawField (λ v p, mkJSONRequest (JReq_Action p) v (JReq_RequestID p)));
    ("request_id", StringField (λ v p, mkJSONRequest (JReq_Action p) (JReq_Payload p) v))
  ];
}.

(** ** JSON trees of the messages

    The members of a struct in field order; a field tagged [omitempty] is left out when it is the
    empty string. *)
Definition str (name v : string) : list (string * json) := [(name, JString v)].
Definition opt (name v : string) : list (string * json) :=
  if bool_decide (v = "") then [] else str name v.
Definition int_member (name : string) (v : Z) : list (string * json) := [(name, JNumber (FormatInt v))].

Definition handshake_tree (r : HandshakeResponse) : json := JObject
  (str "status" (HResp_Status r) ++ str "version" (HResp_Version r) ++ str "format" (HResp_Format r) ++
   opt "error_message" (HResp_ErrorMessage r)).

Definition org_tree (o : OrgDetailInfo) : json := JObject
  (str "org_id" (ODI_OrgID o) ++ str "name" (ODI_Name o) ++ opt "parent_id" (ODI_ParentID o) ++
   str "path" (ODI_Path o) ++ opt "role" (ODI_Role o)).
Definition group_tree (g : GroupDetailInfo) : json := JObject
  (str "group_id" (GDI_GroupID g) ++ str "name" (GDI_Name g) ++ opt "description" (GDI_Description g) ++
   opt "type" (GDI_Type g) ++ opt "role" (GDI_Role g)).
Definition org_info_tree (o : OrgInfo) : json := JObject
  (str "org_id" (OI_OrgID o) ++ str "org_name" (OI_OrgName o) ++ str "role" (OI_Role o)).
Definition org_member_tree (m : OrgMemberInfo) : json := JObject
  (str "user_id" (OMI_UserID m) ++ str "username" (OMI_Username m) ++
   str "display_name" (OMI_DisplayName m) ++ str "role" (OMI_Role m)).
Definition group_member_tree (m : GroupMemberInfo) : json := JObject
  (str "user_id" (GMI_UserID m) ++ str "username" (GMI_Username m) ++
   str "display_name" (GMI_DisplayName m) ++ str "role" (GMI_Role m)).
Definition list_tree (items : list json) (total : Z) : json := JObject
  ([("items", JArray items)] ++ int_member "total" total).

Definition payload_tree (p : ResponsePayload) : option json :=
  match p with
  | PNone => None
  | PAuth a => Some (JObject (str "user_id" (ARP_UserID a) ++ str "username" (ARP_Username a) ++
      str "email" (ARP_Email a) ++ str "display_name" (ARP_DisplayName a)))
  | PGetUser u => Some (JObject (str "user_id" (GURP_UserID u) ++ str "username" (GURP_Username u) ++
      str "email" (GURP_Email u) ++ str "display_name" (GURP_DisplayName u) ++
      [("organizations", JArray (org_info_tree <$> GURP_Organizations u))]))
  | PTriggerSync t => Some (JObject (str "job_id" (TSRP_JobID t) ++
      str "estimated_duration" (TSRP_EstimatedDuration t) ++ str "message" (TSRP_Message t)))
  | POrg o => Some (org_tree o)
  | PListOrgs l => Some (list_tree (org_tree <$> LORP_Items l) (LORP_Total l))
  | PListOrgMembers l => Some (list_tree (org_member_tree <$> LOMRP_Items l) (LOMRP_Total l))
  | PGroup g => Some (group_tree g)
  | PListGroups l => Some (list_tree (group_tree <$> LGRP_Items l) (LGRP_Total l))
  | PListGroupMembers l => Some (list_tree (group_member_tree <$> LGMRP_Items l) (LGMRP_Total l))
  | PMessage m => Some (JObject (str "message" m))
  end.

Definition response_tree (r : JSONResponse) : json := JObject
  (str "status" (JResp_Status r) ++
   match payload_tree (JResp_Payload r) with Some t => [("payload", t)] | None => [] end ++
   str "request_id" (JResp_RequestID r) ++ opt "error" (JResp_Error r)).

(** [json.Unmarshal] of a text. *)
Definition unmarshal_text {P} `{!JSONStruct P} (data : bytes) : P * bool :=
  match decode data with None => (json_zero, false) | Some v => Unmarshal (Some v) end.

Definition decoded {R P} `{!JSONStruct P} (data : bytes) : GoM io_error R P :=
  let '(p, ok) := unmarshal_text data in if ok then mret p else throw ErrJSON.

Definition newline : ascii := ascii_of_nat 10.

(** ** Frames *)
Definition readLengthPrefixed {R} `{Reader R} : GoM io_error R bytes :=
  lenBuf ← ReadFull 4;
  let msgLen := Uint32 lenBuf in
  if bool_decide (MaxMessageSize < msgLen)%Z then throw (ErrText "message too large")
  else ReadFull msgLen.

Definition writeLengthPrefixed (data : bytes) : GoM io_error Conn unit :=
  _ ← Write (PutUint32 (to_uint32 (len data)));
  Write data.

(** ** The codecs *)
Inductive Codec : Type := JSONCodec | ProtobufCodec.

Section read.
Context {R : Type} `{Reader R}.

(** One scanned line: its bytes, the scanner's error, or [io.EOF]. *)
Definition scan_line (max size : Z) : GoM io_error R bytes := λ r,
  let '(res, r) := Scan max size r in
  match res with
  | Token line => (Ok line, r)
  | NoToken (Some e) => (Err e, r)
  | NoToken None => (Err EOF, r)
  end.

(** The default scanner starts without a buffer and holds up to [bufio.MaxScanTokenSize]. *)
Definition MaxScanTokenSize : Z := 65536.

Definition JSONCodec_ReadHandshake : GoM io_error R HandshakeRequest :=
  line ← scan_line MaxScanTokenSize 0; decoded line.

Definition JSONCodec_ReadRequest : GoM io_error R JSONRequest :=
  line ← scan_line MaxJSONMessageSize MaxJSONMessageSize;
  if bool_decide (MaxJSONMessageSize < len line)%Z then throw (ErrText "message size exceeded limit")
  else decoded line.

Definition ProtobufCodec_ReadHandshake : GoM io_error R HandshakeRequest :=
  data ← readLengthPrefixed; decoded data.

Definition ProtobufCodec_ReadRequest : GoM io_error R JSONRequest :=
  data ← readLengthPrefixed;
  if bool_decide (MaxMessageSize < len data)%Z then throw (ErrText "message size exceeded limit")
  else decoded data.

Definition ReadHandshake (c : Codec) : GoM io_error R HandshakeRequest :=
  match c with JSONCodec => JSONCodec_ReadHandshake | ProtobufCodec => ProtobufCodec_ReadHandshake end.
Definition ReadRequest (c : Codec) : GoM io_error R JSONRequest :=
  match c with JSONCodec => JSONCodec_ReadRequest | ProtobufCodec => ProtobufCodec_ReadRequest end.
End read.

Definition JSONCodec_WriteHandshake (resp : HandshakeResponse) : GoM io_error Conn unit :=
  Write (marshal (handshake_tree resp) ++ [newline]).
Definition JSONCodec_WriteResponse (resp : JSONResponse) : GoM io_error Conn unit :=
  Write (marshal (response_tree resp) ++ [newline]).
Definition ProtobufCodec_WriteHandshake (resp : HandshakeResponse) : GoM io_error Conn unit :=
  writeLengthPrefixed (marshal (handshake_tree resp)).
Definition ProtobufCodec_WriteResponse (resp : JSONResponse) : GoM io_error Conn unit :=
  writeLengthPrefixed (marshal (response_tree resp)).

Definition WriteHandshake (c : Codec) : HandshakeResponse → GoM io_error Conn unit :=
  match c with JSONCodec => JSONCodec_WriteHandshake | ProtobufCodec => ProtobufCodec_WriteHandshake end.
Definition WriteResponse (c : Codec) : JSONResponse → GoM io_error Conn unit :=
  match c with JSONCodec => JSONCodec_WriteResponse | ProtobufCodec => ProtobufCodec_WriteResponse end.

Definition NewCodec (format : Format) : Codec :=
  if bool_decide (format = FormatProtobuf) then ProtobufCodec else JSONCodec.

(** ** Facts *)
Definition frame (data : bytes) : bytes := PutUint32 (len data) ++ data.

Lemma to_uint32_len (data : bytes) : (len data < 2 ^ 32)%Z → to_uint32 (len data) = len data.
Proof. intros H. unfold to_uint32. apply Z.mod_small. pose proof (len_nonneg data). lia. Qed.

Lemma writeLengthPrefixed_ok data c : conn_writes c = None → (len data < 2 ^ 32)%Z →
  writeLengthPrefixed data c =
  (Ok (), mkConn (conn_chunks c) (conn_ending c) (conn_written c ++ [PutUint32 (len data); data]) None).
Proof.
  intros Hw Hl. unfold writeLengthPrefixed. rewrite to_uint32_len by done.
  rewrite (bind_ok _ _ _ _ _ (Write_ok _ _ Hw)), Write_ok by done. simpl.
  by rewrite <- (assoc_L app).
Qed.

Section read_facts.
Context {R : Type} `{!Reader R, !ReaderLaws R, !PoliteReader R}.
Implicit Types (r : R).

Lemma readLengthPrefixed_ok data rest r :
  reader_ok r → contents r = frame data ++ rest → (len data ≤ MaxMessageSize)%Z →
  ∃ r', readLengthPrefixed r = (Ok data, r') ∧ resumes r rest r'.
Proof.
  intros Hok Hc Hl. unfold frame in Hc. rewrite <- (assoc_L app) in Hc.
  destruct (ReadFull_ok 4 r Hok) as (r1 & H1 & Hk1 & Hc1 & He1).
  { rewrite Hc, len_app. change (len (PutUint32 _)) with 4%Z. pose proof (len_nonneg (data ++ rest)). lia. }
  rewrite Hc in H1, Hc1. change (Z.to_nat 4) with (length (PutUint32 (len data))) in H1, Hc1.
  rewrite take_app_length in H1. rewrite drop_app_length in Hc1.
  destruct (ReadFull_ok (len data) r1 Hk1) as (r2 & H2 & Hk2 & Hc2 & He2).
  { rewrite Hc1, len_app. pose proof (len_nonneg rest). lia. }
  rewrite Hc1 in H2, Hc2. unfold len in H2, Hc2 at 1. rewrite Nat2Z.id in H2, Hc2.
  rewrite take_app_length in H2. rewrite drop_app_length in Hc2.
  exists r2. split; [|split_and!; [done|done|by rewrite He2]].
  unfold readLengthPrefixed. rewrite (bind_ok _ _ _ _ _ H1). cbv zeta.
  rewrite Uint32_PutUint32 by (change MaxMessageSize with 1048576%Z in Hl; pose proof (len_nonneg data); lia).
  rewrite bool_decide_eq_false_2 by lia. exact H2.
Qed.

Lemma frame_read_inv data r r' :
  reader_ok r → readLengthPrefixed r = (Ok data, r') →
  (len data ≤ MaxMessageSize)%Z ∧ ∃ rest, contents r = frame data ++ rest.
Proof.
  intros Hok H. apply bind_inv_ok in H as (lenBuf & r1 & H1 & H2). cbv zeta in H2.
  assert (4 ≤ len (contents r))%Z as H4.
  { destruct (decide (4 ≤ len (contents r))%Z); [done|].
    destruct (ReadFull_short 4 r Hok) as (r2 & Hr); [lia|]. congruence. }
  destruct (ReadFull_ok 4 r Hok H4) as (r2 & Hr & Hk1 & Hc1 & _). rewrite H1 in Hr. simplify_eq.
  set (lenBuf := take (Z.to_nat 4) (contents r)) in *.
  case_bool_decide as Hbig; [done|]. pose proof (Uint32_nonneg lenBuf) as Hnn.
  assert (Uint32 lenBuf ≤ len (contents r2))%Z as Hn.
  { destruct (decide (Uint32 lenBuf ≤ len (contents r2))%Z); [done|].
    destruct (ReadFull_short (Uint32 lenBuf) r2 Hk1) as (r3 & Hr); [lia|]. congruence. }
  destruct (ReadFull_ok _ r2 Hk1 Hn) as (r3 & Hr & _). rewrite H2 in Hr. simplify_eq.
  assert (len (take (Z.to_nat (Uint32 lenBuf)) (contents r2)) = Uint32 lenBuf) as Hlen.
  { unfold len in *. rewrite length_take. lia. }
  rewrite Hlen. split; [lia|]. exists (drop (Z.to_nat (Uint32 lenBuf)) (contents r2)).
  unfold frame. rewrite Hlen, PutUint32_Uint32.
  - rewrite <- (assoc_L app), take_drop, Hc1. unfold lenBuf. by rewrite take_drop.
  - unfold lenBuf. rewrite length_take. unfold len in H4. lia.
Qed.
End read_facts.

(** *** Lines *)
Lemma dropCR_printable s : printable s → dropCR s = s.
Proof.
  intros Hs. unfold dropCR. destruct (last s) as [c|] eqn:E; [|done].
  apply last_Some_elem_of in E. unfold printable in Hs. rewrite Forall_forall in Hs.
  specialize (Hs c E). rewrite bool_decide_eq_false_2; [done|lia].
Qed.

Lemma printable_one_line s : printable s → Forall (λ c, is_newline c = false) s.
Proof. intros Hs. eapply Forall_impl; [exact Hs|]. intros c Hc. apply bool_decide_eq_false. simpl in Hc. lia. Qed.

Lemma cut_printable s rest : printable s → cut_line (s ++ newline :: rest) = Some (s, rest).
Proof.
  intros Hs. rewrite cut_line_app by (by apply printable_one_line).
  change (cut_line (newline :: rest)) with (Some (@nil ascii, rest)). simpl. by rewrite app_nil_r.
Qed.

Section line_facts.
Context {R : Type} `{!Reader R, !ReaderLaws R, !PoliteReader R}.
Implicit Types (r : R).

Lemma scan_line_ok max size text rest r :
  reader_ok r → (0 ≤ size ≤ max)%Z → (0 < max)%Z → printable text → (len text < max)%Z →
  contents r = text ++ newline :: rest → ∃ r', scan_line max size r = (Ok text, r').
Proof.
  intros Hok Hs Hm Ht Hl Hc. pose proof (Scan_spec max size r Hok Hs Hm) as H. unfold scan_line.
  destruct (Scan max size r) as [res r']. destruct H as [-> _]. unfold first_line.
  rewrite Hc, cut_printable, bool_decide_eq_true_2, dropCR_printable by done. by exists r'.
Qed.
End line_facts.

(** *** Requests *)
Definition request_tree (action : string) (payload : json) (id : string) : json :=
  JObject [("action", JString action); ("payload", payload); ("request_id", JString id)].

Lemma unmarshal_request action payload id :
  json_ok payload → (N.succ (height payload) ≤ maxNestingDepth)%N →
  unmarshal_text (marshal (request_tree action payload id)) =
  (mkJSONRequest (clean_string action) (Some (clean payload)) (clean_string id), true).
Proof.
  intros Hok Hd. unfold unmarshal_text. rewrite decode_marshal; [reflexivity|done|].
  unfold request_tree. cbn [height foldr snd]. lia.
Qed.

(** A message on the wire, and the size a codec accepts. *)
Definition on_wire (c : Codec) (text : bytes) : bytes :=
  match c with JSONCodec => text ++ [newline] | ProtobufCodec => frame text end.
Definition fits (c : Codec) (text : bytes) : Prop :=
  match c with
  | JSONCodec => (len text < MaxJSONMessageSize)%Z
  | ProtobufCodec => (len text ≤ MaxMessageSize)%Z
  end.

(** *** Answers *)
Definition payload_ok (p : ResponsePayload) : Prop :=
  match p with
  | PListOrgs l => is_int (LORP_Total l)
  | PListOrgMembers l => is_int (LOMRP_Total l)
  | PListGroups l => is_int (LGRP_Total l)
  | PListGroupMembers l => is_int (LGMRP_Total l)
  | _ => True
  end.

(** A tree of valid numbers and bounded height; members and elements one level down. *)
Definition tree_ok (h : N) (v : json) : Prop := json_ok v ∧ (height v ≤ h)%N.

Lemma tree_object h l : Forall (λ kv : string * json, tree_ok h kv.2) l → tree_ok (N.succ h) (JObject l).
Proof.
  unfold tree_ok. induction 1 as [|kv l [Hok Hh] _ [IHok IHh]]; cbn in *; [lia|]. split; [done|]. lia.
Qed.

Lemma tree_array h l : Forall (tree_ok h) l → tree_ok (N.succ h) (JArray l).
Proof.
  unfold tree_ok. induction 1 as [|v l [Hok Hh] _ [IHok IHh]]; cbn in *; [lia|]. split; [done|]. lia.
Qed.

Lemma tree_str h n v : Forall (λ kv : string * json, tree_ok h kv.2) (str n v).
Proof. repeat constructor. simpl. lia. Qed.
Lemma tree_opt h n v : Forall (λ kv : string * json, tree_ok h kv.2) (opt n v).
Proof. unfold opt. case_bool_decide; [constructor|apply tree_str]. Qed.
Lemma tree_int h n v : is_int v → Forall (λ kv : string * json, tree_ok h kv.2) (int_member n v).
Proof. intros Hv. repeat constructor; simpl; [by apply FormatInt_number|lia]. Qed.

Lemma tree_string h v : tree_ok h (JString v).
Proof. split; simpl; [done|lia]. Qed.

Ltac tree := repeat first
  [ apply tree_string | apply tree_str | apply tree_opt | by apply tree_int
  | apply Forall_app; split | apply Forall_cons; split | by apply Forall_nil ].

Lemma tree_list {X} (f : X → json) l total :
  is_int total → (∀ x, tree_ok 1 (f x)) → tree_ok 3 (list_tree (f <$> l) total).
Proof.
  intros Ht Hf. apply (tree_object 2). apply Forall_app. split; [|by apply tree_int].
  repeat constructor; apply (tree_array 1), Forall_fmap, Forall_true; intros; apply Hf.
Qed.

Lemma org_tree_ok o : tree_ok 1 (org_tree o).
Proof. apply (tree_object 0). tree. Qed.
Lemma group_tree_ok g : tree_ok 1 (group_tree g).
Proof. apply (tree_object 0). tree. Qed.

Lemma tree_weaken h h' v : (h ≤ h')%N → tree_ok h v → tree_ok h' v.
Proof. intros Hh [Hok Hv]. split; [done|lia]. Qed.

Lemma payload_tree_ok p t : payload_ok p → payload_tree p = Some t → tree_ok 3 t.
Proof.
  intros Hp. destruct p; intros [= <-].
  - apply (tree_object 2). tree.
  - apply (tree_object 2). tree. apply (tree_array 1), Forall_fmap, Forall_true.
    intros; apply (tree_object 0); tree.
  - apply (tree_object 2). tree.
  - apply (tree_weaken 1); [done|apply org_tree_ok].
  - apply tree_list; [done|apply org_tree_ok].
  - apply tree_list; [done|intros; apply (tree_object 0); tree].
  - apply (tree_weaken 1); [done|apply group_tree_ok].
  - apply tree_list; [done|apply group_tree_ok].
  - apply tree_list; [done|intros; apply (tree_object 0); tree].
  - apply (tree_object 2). tree.
Qed.

Lemma response_tree_ok resp : payload_ok (JResp_Payload resp) → tree_ok 4 (response_tree resp).
Proof.
  intros Hp. apply (tree_object 3). tree. destruct (payload_tree _) as [t|] eqn:E; [|constructor].
  constructor; [|constructor]. by apply (payload_tree_ok _ _ Hp).
Qed.

(** ** Properties *)
Section codec_properties.
Context {R : Type} `{!Reader R, !ReaderLaws R, !PoliteReader R}.
Implicit Types (r : R).

(** A frame is read exactly when the stream starts with the little-endian length of at most a
    megabyte of data and that data, however the bytes arrive; a longer length is refused after its
    four bytes, before anything else is read. *)
Theorem read_frame_exact r : reader_ok r →
  (∀ data, (∃ r', readLengthPrefixed r = (Ok data, r')) ↔
     (len data ≤ MaxMessageSize)%Z ∧ ∃ rest, contents r = frame data ++ rest) ∧
  (∀ n rest, contents r = PutUint32 n ++ rest → (MaxMessageSize < n < 2 ^ 32)%Z →
     ∃ r', readLengthPrefixed r = (Err (ErrText "message too large"), r') ∧ resumes r rest r').
Proof.
  intros Hok. split.
  - intros data. split; [intros [r' H]; by eapply frame_read_inv|].
    intros (Hl & rest & Hc). destruct (readLengthPrefixed_ok data rest r Hok Hc Hl) as (r' & H & _).
    by exists r'.
  - intros n rest Hc Hn. destruct (ReadFull_ok 4 r Hok) as (r1 & H1 & Hk).
    { rewrite Hc, len_app. change (len (PutUint32 _)) with 4%Z. pose proof (len_nonneg rest). lia. }
    rewrite Hc in H1, Hk. change (Z.to_nat 4) with (length (PutUint32 n)) in H1, Hk.
    rewrite take_app_length in H1. rewrite drop_app_length in Hk. exists r1. split; [|done].
    unfold readLengthPrefixed. rewrite (bind_ok _ _ _ _ _ H1). cbv zeta.
    change MaxMessageSize with 1048576%Z in *. rewrite Uint32_PutUint32 by lia.
    by rewrite bool_decide_eq_true_2 by lia.
Qed.

(** Whatever sequence of messages of up to a megabyte is written with length prefixes, a peer
    that receives those bytes, in any pieces and with anything behind them, reads back the same
    messages in order. *)
Theorem frames_round_trip (datas : list bytes) (w : Conn) r rest :
  conn_writes w = None → Forall (λ d, len d ≤ MaxMessageSize)%Z datas → reader_ok r →
  ∃ w' out, collect writeLengthPrefixed datas w = (Ok (replicate (length datas) ()), w') ∧
    sent w' = sent w ++ out ∧
    (contents r = out ++ rest →
     ∃ r', collect (λ _, readLengthPrefixed) datas r = (Ok datas, r') ∧ resumes r rest r').
Proof.
  intros Hw Hd. revert w r Hw. induction Hd as [|d l Hd _ IH]; intros w r Hw Hok.
  - exists w, []. split_and!; [done|by rewrite app_nil_r|]. intros Hc. by exists r.
  - change MaxMessageSize with 1048576%Z in Hd.
    cbn [collect length replicate]. rewrite (bind_ok _ _ _ _ _ (writeLengthPrefixed_ok d w Hw ltac:(lia))).
    set (w1 := mkConn _ _ _ _). destruct (IH w1 r eq_refl Hok) as (w' & out & Hrun & Hsent & _).
    exists w', (frame d ++ out). split_and!.
    + by rewrite (bind_ok _ _ _ _ _ Hrun).
    + rewrite Hsent. unfold sent, w1, frame. simpl. rewrite concat_app. simpl.
      by rewrite app_nil_r, <- !(assoc_L app).
    + intros Hc. rewrite <- (assoc_L app) in Hc.
      destruct (readLengthPrefixed_ok d (out ++ rest) r Hok Hc Hd) as (r1 & H1 & Hk1 & Hc1 & He1).
      rewrite (bind_ok _ _ _ _ _ H1). destruct (IH w1 r1 eq_refl Hk1) as (w2 & out2 & Hrun2 & Hsent2 & Hread).
      rewrite Hrun in Hrun2. injection Hrun2 as <-. rewrite Hsent in Hsent2. apply app_inv_head in Hsent2 as <-.
      destruct (Hread Hc1) as (r2 & H2 & Hk2 & Hc2 & He2). rewrite (bind_ok _ _ _ _ _ H2).
      exists r2. split; [done|]. split_and!; [done|done|by rewrite He2].
Qed.

(** C19. Under either codec, the text of a request that fits the codec's limit is read back as that
    request, in whatever pieces it arrives and whatever follows; invalid UTF-8 in its strings is
    replaced. *)
Theorem request_round_trip (c : Codec) (action id : string) (payload : json) r rest :
  json_ok payload → (N.succ (height payload) ≤ maxNestingDepth)%N →
  fits c (marshal (request_tree action payload id)) →
  reader_ok r → contents r = on_wire c (marshal (request_tree action payload id)) ++ rest →
  ∃ r', ReadRequest c r =
    (Ok (mkJSONRequest (clean_string action) (Some (clean payload)) (clean_string id)), r').
Proof.
  intros Hp Hd Hf Hok Hc. pose proof (unmarshal_request action payload id Hp Hd) as Hu.
  assert (printable (marshal (request_tree action payload id))) as Hpr
    by (apply marshal_printable; cbn; tauto).
  revert Hf Hc Hu Hpr. generalize (marshal (request_tree action payload id)). intros text Hf Hc Hu Hpr.
  destruct c; cbn [fits on_wire ReadRequest] in *.
  - rewrite <- (assoc_L app) in Hc.
    destruct (scan_line_ok MaxJSONMessageSize MaxJSONMessageSize text rest r Hok) as (r' & H); try done.
    exists r'. unfold JSONCodec_ReadRequest. rewrite (bind_ok _ _ _ _ _ H).
    rewrite bool_decide_eq_false_2 by lia. unfold decoded. by rewrite Hu.
  - destruct (readLengthPrefixed_ok text rest r Hok Hc Hf) as (r' & H & _). exists r'.
    unfold ProtobufCodec_ReadRequest. rewrite (bind_ok _ _ _ _ _ H).
    rewrite bool_decide_eq_false_2 by lia. unfold decoded. by rewrite Hu.
Qed.
End codec_properties.

(** Every answer the JSON codec writes is exactly one line: its text holds no line break, and
    decodes to the answer's members in order, the empty optional ones left out. *)
Theorem answers_are_lines (resp : JSONResponse) (c : Conn) :
  conn_writes c = None → payload_ok (JResp_Payload resp) →
  ∃ text c', JSONCodec_WriteResponse resp c = (Ok (), c') ∧ sent c' = sent c ++ text ++ [newline] ∧
    newline ∉ text ∧ decode text = Some (clean (response_tree resp)).
Proof.
  intros Hw Hp. destruct (response_tree_ok resp Hp) as [Hok Hh].
  exists (marshal (response_tree resp)). eexists. unfold JSONCodec_WriteResponse.
  rewrite Write_ok by done. split_and!; [done| | |].
  - unfold sent. cbn [conn_written]. rewrite concat_app. cbn [concat]. by rewrite app_nil_r.
  - intros Hn. by apply (printable_no_newline _ _ (marshal_printable _ Hok) Hn).
  - apply decode_marshal; [done|]. unfold maxNestingDepth. lia.
Qed.

(** A scan reads the piece the line ends in, and all of it. *)
Lemma scan_line_segment (line more : bytes) (segments : list bytes) (c : Conn) :
  conn_chunks c = (line ++ newline :: more) :: segments → newline ∉ line →
  (len (line ++ newline :: more) ≤ MaxJSONMessageSize)%Z →
  scan_line MaxJSONMessageSize MaxJSONMessageSize c =
  (Ok (dropCR line), mkConn segments (conn_ending c) (conn_written c) (conn_writes c)).
Proof.
  intros Hc Hnl Hlen.
  assert (cut_line (line ++ newline :: more) = Some (line, more)) as Hcut.
  { rewrite cut_line_app; [|apply Forall_forall; intros x Hx; apply bool_decide_eq_false; intros Hx10].
    - change (cut_line (newline :: more)) with (Some (@nil ascii, more)). simpl. by rewrite app_nil_r.
    - apply Hnl. replace newline with x; [done|]. by apply code_inj. }
  unfold scan_line, Scan. change (contents c) with (concat (conn_chunks c)). rewrite Hc.
  cbn [concat]. rewrite length_app. destruct (length (line ++ newline :: more)) as [|k] eqn:Ek.
  { apply nil_length_inv in Ek. by destruct line. }
  cbn [Nat.add scan_loop cut_line]. rewrite bool_decide_eq_false_2 by (by intros [Hx _]).
  unfold grown. rewrite bool_decide_eq_false_2 by done. rewrite Z.sub_0_r.
  cbn [Read Conn_reader]. unfold Conn_Read. rewrite Hc, bool_decide_eq_true_2 by done.
  cbn [app]. by rewrite Hcut.
Qed.

(** A JSON request read drops whatever arrived in the same piece behind its line: a client that
    sends its next request before the answer to the last may never get one for it. *)
Theorem json_read_drops_segment (line more : bytes) (segments : list bytes) (c : Conn) :
  conn_chunks c = (line ++ newline :: more) :: segments → newline ∉ line →
  (len (line ++ newline :: more) ≤ MaxJSONMessageSize)%Z →
  (JSONCodec_ReadRequest c).2 = mkConn segments (conn_ending c) (conn_written c) (conn_writes c) ∧
  (JSONCodec_ReadRequest c).1 =
    (let '(req, ok) := unmarshal_text (dropCR line) in if ok then Ok req else Err ErrJSON).
Proof.
  intros Hc Hnl Hlen.
  pose proof (scan_line_segment line more segments c Hc Hnl Hlen) as Hs.
  unfold JSONCodec_ReadRequest. rewrite (bind_ok _ _ _ _ _ Hs). case_bool_decide as Hbig.
  - exfalso. assert (len (dropCR line) ≤ len line)%Z.
    { unfold dropCR. destruct (last line); [|done]. case_bool_decide; [|done].
      unfold len. rewrite length_take. lia. }
    rewrite len_app in Hlen. pose proof (len_pos (newline :: more) ltac:(done)). lia.
  - unfold decoded. by destruct (unmarshal_text (dropCR line)) as [req []].
Qed.

(** ** Witnesses *)
Module SampleWire.
(** A peer that sends [pieces] and closes. *)
Definition conn (pieces : list bytes) : Conn := mkConn pieces EOF [] None.
Definition ping (id : string) : bytes := marshal (request_tree "ping" JNull id).
Definition bytes_of (l : list nat) : bytes := ascii_of_nat <$> l.
End SampleWire.

Lemma read_frame_exact_witness :
  let c := SampleWire.conn [SampleWire.bytes_of [2; 0]; SampleWire.bytes_of [0; 0; 104]; lit "iX"] in
  reader_ok c ∧ ∃ r', readLengthPrefixed c = (Ok (lit "hi"), r').
Proof.
  intros c. assert (reader_ok c) as Hok by decided. split; [exact Hok|].
  apply (proj2 (proj1 (read_frame_exact c Hok) (lit "hi"))). split; [decided|].
  exists (lit "X"). vm_compute. reflexivity.
Defined.

Lemma frames_round_trip_witness :
  let c := SampleWire.conn [SampleWire.bytes_of [1; 0; 0; 0; 97; 0]; SampleWire.bytes_of [0; 0; 0; 7]] in
  reader_ok c ∧ ∃ r', collect (λ _ : bytes, readLengthPrefixed) [lit "a"; []] c = (Ok [lit "a"; []], r').
Proof.
  intros c. assert (reader_ok c) as Hok by decided. split; [exact Hok|].
  destruct (frames_round_trip [lit "a"; []] (SampleWire.conn []) c (SampleWire.bytes_of [7]) eq_refl
    ltac:(decided) Hok) as (w' & out & Hw & Hs & H).
  assert (out = SampleWire.bytes_of [1; 0; 0; 0; 97; 0; 0; 0; 0]) as ->.
  { vm_compute in Hw. injection Hw as <-. vm_compute in Hs. symmetry. exact Hs. }
  destruct (H eq_refl) as (r' & Hr & _). exists r'. exact Hr.
Defined.

Lemma request_round_trip_witness :
  let c := SampleWire.conn [take 9 (SampleWire.ping "7"); drop 9 (SampleWire.ping "7") ++ [newline]] in
  reader_ok c ∧ ∃ r', ReadRequest JSONCodec c = (Ok (mkJSONRequest "ping" (Some JNull) "7"), r').
Proof.
  intros c. assert (reader_ok c) as Hok by decided. split; [exact Hok|].
  apply (request_round_trip JSONCodec "ping" "7" JNull c []).
  - exact I.
  - decided.
  - unfold fits. decided.
  - exact Hok.
  - vm_compute. reflexivity.
Defined.

Lemma answers_are_lines_witness :
  ∃ text c', JSONCodec_WriteResponse (mkJSONResponse "pong" PNone "7" "") (SampleWire.conn []) = (Ok (), c') ∧
    sent c' = text ++ [newline] ∧ newline ∉ text.
Proof.
  destruct (answers_are_lines (mkJSONResponse "pong" PNone "7" "") (SampleWire.conn []) eq_refl I)
    as (text & c' & H1 & H2 & H3 & _).
  exists text, c'. split; [exact H1|]. split; [exact H2|exact H3].
Defined.

(** Two requests in one piece: the second read finds the end of the stream. *)
Lemma json_read_drops_segment_witness :
  let c := SampleWire.conn [SampleWire.ping "1" ++ newline :: SampleWire.ping "2" ++ [newline]] in
  (JSONCodec_ReadRequest c).1 = Ok (mkJSONRequest "ping" (Some JNull) "1") ∧
  (JSONCodec_ReadRequest (JSONCodec_ReadRequest c).2).1 = Err EOF.
Proof.
  intros c. assert (newline ∉ SampleWire.ping "1") as Hn by decided.
  destruct (json_read_drops_segment (SampleWire.ping "1") (SampleWire.ping "2" ++ [newline]) [] c eq_refl Hn
    ltac:(decided)) as [H1 H2].
  split; [rewrite H2; vm_compute; reflexivity|]. rewrite H1. vm_compute. reflexivity.
Defined.
