(* ===== verification/UdsHandshake.v ===== *)
(** * UDS handshake

    [performHandshake] of [internal/uds/server.go] and the two readers it puts in front of the
    connection: the first byte, read to tell the formats apart, and a whole frame. *)

From Stdlib Require Import ZArith Lia Ascii String.
From stdpp Require Import base tactics numbers list gmap strings.
From S2P Require Import Prelude GoStrings GoJson GoJsonText GoIO UdsMessages UdsCodec.

Definition ProtocolVersion : string := "1.0".

(** ** The reader of one byte: every read returns it, with the end of the stream *)
Record byteReader : Type := mkByteReader { br_byte : ascii }.

Definition byteReader_Read (n : Z) (b : byteReader) : bytes * option io_error * byteReader :=
  if bool_decide (n = 0)%Z then ([], None, b) else ([br_byte b], Some EOF, b).

#[export] Instance byteReader_reader : Reader byteReader := {
  Read := byteReader_Read;
  contents b := [br_byte b];
  ending _ := EOF;
  reader_ok _ := True;
}.

(** ** The reader of a frame that was already read *)
Record lengthPrefixedReader : Type := mkLengthPrefixedReader {
  lpr_lenBuf : bytes;
  lpr_data : bytes;
  lpr_pos : nat;
  lpr_phase : nat;
}.

(** The part after the phase test, in the data. *)
Definition lpr_read_data (n : Z) (r : lengthPrefixedReader) : bytes * option io_error * lengthPrefixedReader :=
  if bool_decide (length (lpr_data r) ≤ lpr_pos r) then ([], Some EOF, r)
  else let bs := take (Z.to_nat n) (drop (lpr_pos r) (lpr_data r)) in
       (bs, None, mkLengthPrefixedReader (lpr_lenBuf r) (lpr_data r) (lpr_pos r + length bs) (lpr_phase r)).

Definition lengthPrefixedReader_Read (n : Z) (r : lengthPrefixedReader) :
    bytes * option io_error * lengthPrefixedReader :=
  if bool_decide (lpr_phase r = 0) then
    if bool_decide (length (lpr_lenBuf r) ≤ lpr_pos r)
    then lpr_read_data n (mkLengthPrefixedReader (lpr_lenBuf r) (lpr_data r) 0 1)
    else let bs := take (Z.to_nat n) (drop (lpr_pos r) (lpr_lenBuf r)) in
         (bs, None, mkLengthPrefixedReader (lpr_lenBuf r) (lpr_data r) (lpr_pos r + length bs) 0)
  else lpr_read_data n r.

#[export] Instance lengthPrefixedReader_reader : Reader lengthPrefixedReader := {
  Read := lengthPrefixedReader_Read;
  contents r := if bool_decide (lpr_phase r = 0) then drop (lpr_pos r) (lpr_lenBuf r) ++ lpr_data r
                else drop (lpr_pos r) (lpr_data r);
  ending _ := EOF;
  reader_ok _ := True;
}.

(** ** The handshake *)

(** A read through [io.MultiReader(first, conn)]. *)
Definition behind {R X} (first : R) (m : GoM io_error (MultiReader R Conn) X) : GoM io_error Conn X :=
  λ c, let '(x, mr) := m (mkMultiReader first c 0) in (x, mr_second mr).

(** [fmt.Errorf("text: %w", err)] on the error of a call. *)
Definition wrap {S X} (text : string) (m : GoM io_error S X) : GoM io_error S X := λ s,
  match m s with (Err e, s') => (Err (ErrWrap text e), s') | r => r end.

Definition validateHandshake (req : HandshakeRequest) : option io_error :=
  if bool_decide (HReq_Version req = "") then Some (ErrText "version is required")
  else if bool_decide (HReq_Format req ≠ FormatJSON ∧ HReq_Format req ≠ FormatProtobuf)
  then Some (ErrText ("unsupported format: " +:+ HReq_Format req))
  else None.

Definition error_text (e : io_error) : string := match e with ErrText t => t | _ => "" end.

(** What both branches do with the request they read. *)
Definition answer_handshake (format : Format) (codec : Codec) (req : HandshakeRequest) :
    GoM io_error Conn (Format * Codec) :=
  match validateHandshake req with
  | Some err =>
      _ ← try (WriteHandshake codec (mkHandshakeResponse "error" "" "" (error_text err)));
      throw err
  | None =>
      _ ← WriteHandshake codec (mkHandshakeResponse "ok" ProtocolVersion format "");
      mret (format, codec)
  end.

Definition performHandshake : GoM io_error Conn (Format * Codec) :=
  firstByte ← wrap "failed to read first byte" (ReadFull 1);
  let b := hd (ascii_of_nat 0) firstByte in
  if bool_decide (nat_of_ascii b = 123) then
    req ← wrap "invalid JSON handshake" (behind (mkByteReader b) JSONCodec_ReadHandshake);
    answer_handshake FormatJSON JSONCodec req
  else
    remaining ← wrap "failed to read protobuf length" (ReadFull 3);
    let lenBuf := b :: remaining in
    let msgLen := Uint32 lenBuf in
    if bool_decide (MaxMessageSize < msgLen)%Z
    then throw (ErrText ("handshake message too large: " +:+ FormatInt msgLen))
    else
      msgBuf ← wrap "failed to read handshake body" (ReadFull msgLen);
      req ← wrap "invalid protobuf handshake"
              (behind (mkLengthPrefixedReader lenBuf msgBuf 0 0) ProtobufCodec_ReadHandshake);
      answer_handshake FormatProtobuf ProtobufCodec req.

(** ** Facts *)
#[export] Instance byteReader_laws : ReaderLaws byteReader.
Proof.
  split. intros n [b] Hn _. simpl. unfold byteReader_Read. rewrite bool_decide_eq_false_2 by lia.
  by split; [unfold len; simpl; lia|].
Qed.

Lemma take_nonempty {A} n (l : list A) : (0 < n)%Z → l ≠ [] → take (Z.to_nat n) l ≠ [].
Proof. intros Hn Hl. destruct l; [done|]. destruct (Z.to_nat n) eqn:E; [lia|done]. Qed.

Lemma len_take {A} n (l : list A) : (0 ≤ n)%Z → (len (take (Z.to_nat n) l) ≤ n)%Z.
Proof. intros Hn. unfold len. rewrite length_take. lia. Qed.

Lemma drop_nonempty {A} k (l : list A) : ¬ length l ≤ k → drop k l ≠ [].
Proof. intros Hk Hd. apply (f_equal length) in Hd. rewrite length_drop in Hd. simpl in Hd. lia. Qed.

Lemma drop_take_length {A} n k (l : list A) :
  drop k l = take n (drop k l) ++ drop (k + length (take n (drop k l))) l.
Proof.
  rewrite <- drop_drop. rewrite <- (take_drop n (drop k l)) at 1. f_equal.
  rewrite length_take. destruct (decide (n ≤ length (drop k l))).
  - by rewrite Nat.min_l.
  - rewrite Nat.min_r by lia. rewrite !drop_ge; [done|lia|lia].
Qed.

Lemma lpr_read_data_law n r : (0 < n)%Z →
  let '(bs, err, r') := lpr_read_data n r in
  (len bs ≤ n)%Z ∧ lpr_phase r' = lpr_phase r ∧
  match err with
  | None => bs ≠ [] ∧ drop (lpr_pos r) (lpr_data r) = bs ++ drop (lpr_pos r') (lpr_data r')
  | Some e => drop (lpr_pos r) (lpr_data r) = bs ∧ e = EOF
  end.
Proof.
  intros Hn. unfold lpr_read_data. case_bool_decide as Hp.
  - rewrite drop_ge by done. by split; [unfold len; simpl; lia|].
  - split_and!; simpl; [by apply len_take; lia|done| |].
    + by apply take_nonempty, drop_nonempty.
    + apply drop_take_length.
Qed.

#[export] Instance lengthPrefixedReader_laws : ReaderLaws lengthPrefixedReader.
Proof.
  split. intros n r Hn _. simpl. unfold lengthPrefixedReader_Read. case_bool_decide as Hp.
  - case_bool_decide as Hl.
    + pose proof (lpr_read_data_law n (mkLengthPrefixedReader (lpr_lenBuf r) (lpr_data r) 0 1) Hn) as H.
      destruct (lpr_read_data n _) as [[bs err] r']. destruct H as (H1 & H2 & H3). simpl in H2, H3.
      rewrite (drop_ge (lpr_lenBuf r)) by done. rewrite (bool_decide_eq_false_2 (lpr_phase r' = 0)) by lia.
      split; [done|]. destruct err as [e|]; [by destruct H3 as [? ->]|]. destruct H3. done.
    + simpl. split; [apply len_take; lia|]. split_and!; [by apply take_nonempty, drop_nonempty| |done|done].
      rewrite (assoc_L app). f_equal. apply drop_take_length.
  - pose proof (lpr_read_data_law n r Hn) as H. destruct (lpr_read_data n r) as [[bs err] r'].
    destruct H as (H1 & H2 & H3). rewrite H2, bool_decide_eq_false_2 by done.
    split; [done|]. destruct err as [e|]; [by destruct H3 as [? ->]|]. destruct H3. done.
Qed.

(** *** Reading a handshake depends on the stream only *)
Definition result_of {S X} (m : res io_error X * S) : res io_error X := m.1.

Definition line_result (max : Z) (s : bytes) (e : io_error) : res io_error bytes :=
  match first_line max s e with
  | Token line => Ok line
  | NoToken (Some e) => Err e
  | NoToken None => Err EOF
  end.

Section sniff.
Context {R : Type} `{!Reader R, !ReaderLaws R, !PoliteReader R}.

Lemma scan_line_result max size (r : R) :
  reader_ok r → (0 ≤ size ≤ max)%Z → (0 < max)%Z →
  (scan_line max size r).1 = line_result max (contents r) (ending r).
Proof.
  intros Hok Hs Hm. pose proof (Scan_spec max size r Hok Hs Hm) as H. unfold scan_line, line_result.
  destruct (Scan max size r) as [x r']. destruct H as [-> _]. by repeat case_match.
Qed.

Definition decode_result {P} `{!JSONStruct P} (x : res io_error bytes) : res io_error P :=
  match x with
  | Ok data => let '(p, ok) := unmarshal_text data in if ok then Ok p else Err ErrJSON
  | Err e => Err e
  | Panic => Panic
  end.

Lemma decoded_result {P} `{!JSONStruct P} (m : GoM io_error R bytes) r :
  ((m ≫= decoded (P := P)) r).1 = decode_result (m r).1.
Proof.
  unfold mbind, gom_bind. destruct (m r) as [[data|e|] r']; [|done|done]. unfold decoded, decode_result.
  cbn [fst]. by destruct (unmarshal_text data) as [p []].
Qed.

Lemma JSON_handshake_result (r : R) : reader_ok r →
  (JSONCodec_ReadHandshake r).1 = decode_result (line_result MaxScanTokenSize (contents r) (ending r)).
Proof.
  intros Hok. unfold JSONCodec_ReadHandshake. rewrite decoded_result.
  by rewrite scan_line_result by (done || (unfold MaxScanTokenSize; lia)).
Qed.

Lemma Protobuf_handshake_result data rest (r : R) :
  reader_ok r → contents r = frame data ++ rest → (len data ≤ MaxMessageSize)%Z →
  (ProtobufCodec_ReadHandshake r).1 = decode_result (Ok data).
Proof.
  intros Hok Hc Hl. unfold ProtobufCodec_ReadHandshake. rewrite decoded_result.
  by destruct (readLengthPrefixed_ok data rest r Hok Hc Hl) as (r' & -> & _).
Qed.
End sniff.

(** *** The connection after a read *)
Lemma ReadFull_out n c : same_out c (ReadFull n c).2.
Proof. apply (ReadFull_keeps (same_out c)); [apply Conn_Read_out|done]. Qed.

Lemma bind_out {S X Y} (P : S → Prop) (m : GoM io_error S X) (f : X → GoM io_error S Y) s :
  P (m s).2 → (∀ x s, P s → P (f x s).2) → P ((m ≫= f) s).2.
Proof. unfold mbind, gom_bind. intros Hm Hf. destruct (m s) as [[x|e|] s']; [by apply Hf|done|done]. Qed.

Lemma decoded_out {S P} `{!JSONStruct P} (data : bytes) (s : S) : (decoded (P := P) data s).2 = s.
Proof. unfold decoded. by destruct (unmarshal_text data) as [p []]. Qed.

Lemma scan_line_keeps {R} `{!Reader R} (P : R → Prop) max size r :
  (∀ n r, P r → P (Read n r).2) → P r → P (scan_line max size r).2.
Proof.
  intros HP Hr. unfold scan_line. pose proof (Scan_keeps P HP max size r Hr) as Hk.
  by destruct (Scan max size r) as [[l|[e|]] r'].
Qed.

Lemma behind_out {R X} (first : R) (m : GoM io_error (MultiReader R Conn) X) c :
  same_out c (mr_second (m (mkMultiReader first c 0)).2) → same_out c (behind first m c).2.
Proof. unfold behind. by destruct (m _). Qed.

Lemma behind_line_out {R} `{!Reader R} (first : R) c :
  same_out c (behind first JSONCodec_ReadHandshake c).2.
Proof.
  apply behind_out, (bind_out (λ m : MultiReader R Conn, same_out c (mr_second m))).
  - by apply (scan_line_keeps (λ m : MultiReader R Conn, same_out c (mr_second m)));
      [apply MultiReader_Read_out|].
  - intros y s Hs. by rewrite decoded_out.
Qed.

Lemma readLengthPrefixed_keeps {R} `{!Reader R} (P : R → Prop) r :
  (∀ n r, P r → P (Read n r).2) → P r → P (readLengthPrefixed r).2.
Proof.
  intros HP Hr. unfold readLengthPrefixed. apply (bind_out P (ReadFull 4)); [by apply ReadFull_keeps|]. intros x s Hs. cbv zeta.
  case_bool_decide; [done|by apply ReadFull_keeps].
Qed.

Lemma readLengthPrefixed_no_panic {R} `{!Reader R} (r : R) : (readLengthPrefixed r).1 ≠ Panic.
Proof.
  unfold readLengthPrefixed, mbind, gom_bind. pose proof (ReadFull_no_panic 4 r) as Hp.
  destruct (ReadFull 4 r) as [[b|e|] r']; [|done|done]. cbv zeta.
  case_bool_decide; [done|apply ReadFull_no_panic].
Qed.

Lemma behind_frame_out {R} `{!Reader R} (first : R) c :
  same_out c (behind first ProtobufCodec_ReadHandshake c).2.
Proof.
  apply behind_out, (bind_out (λ m : MultiReader R Conn, same_out c (mr_second m))).
  - by apply (readLengthPrefixed_keeps (λ m : MultiReader R Conn, same_out c (mr_second m)));
      [apply MultiReader_Read_out|].
  - intros y s Hs. by rewrite decoded_out.
Qed.

(** *** The answer *)
Lemma sent_after c l : sent (mkConn (conn_chunks c) (conn_ending c) (conn_written c ++ l) None)
  = sent c ++ concat l.
Proof. unfold sent. simpl. by rewrite concat_app. Qed.

(** The bytes a codec writes for a message. *)
Definition wire_bytes (c : Codec) (text : bytes) : bytes :=
  match c with
  | JSONCodec => text ++ [newline]
  | ProtobufCodec => PutUint32 (to_uint32 (len text)) ++ text
  end.

(** The write goes through as long as the peer reads. *)
Lemma WriteHandshake_ok codec resp c : conn_writes c = None →
  ∃ c', WriteHandshake codec resp c = (Ok (), c') ∧
    sent c' = sent c ++ wire_bytes codec (marshal (handshake_tree resp)) ∧ conn_writes c' = None ∧
    conn_chunks c' = conn_chunks c ∧ conn_ending c' = conn_ending c.
Proof.
  intros Hw. destruct codec; cbn [WriteHandshake wire_bytes].
  - unfold JSONCodec_WriteHandshake. rewrite Write_ok by done. eexists. split; [done|].
    split; [|done]. rewrite sent_after. cbn [concat]. by rewrite app_nil_r.
  - unfold ProtobufCodec_WriteHandshake, writeLengthPrefixed.
    rewrite (bind_ok _ _ _ _ _ (Write_ok _ _ Hw)), Write_ok by done. eexists. split; [done|].
    split; [|done]. cbn [conn_chunks conn_ending conn_written]. rewrite <- (assoc_L app), sent_after.
    cbn [concat app]. by rewrite app_nil_r.
Qed.

(** What [answer_handshake] makes of a request. *)
Definition verdict (format : Format) (codec : Codec) (req : HandshakeRequest) :
    res io_error (Format * Codec) * HandshakeResponse :=
  match validateHandshake req with
  | Some err => (Err err, mkHandshakeResponse "error" "" "" (error_text err))
  | None => (Ok (format, codec), mkHandshakeResponse "ok" ProtocolVersion format "")
  end.

Lemma answer_handshake_spec format codec req c : conn_writes c = None →
  ∃ c', answer_handshake format codec req c = ((verdict format codec req).1, c') ∧
    sent c' = sent c ++ wire_bytes codec (marshal (handshake_tree (verdict format codec req).2)) ∧
    conn_chunks c' = conn_chunks c ∧ conn_ending c' = conn_ending c ∧ conn_writes c' = None.
Proof.
  intros Hw. unfold answer_handshake, verdict. destruct (validateHandshake req) as [err|].
  - destruct (WriteHandshake_ok codec (mkHandshakeResponse "error" "" "" (error_text err)) c Hw)
      as (c' & Hrun & Hs & Hw' & Hc & He).
    exists c'. rewrite bind_try, Hrun. by split_and!.
  - destruct (WriteHandshake_ok codec (mkHandshakeResponse "ok" ProtocolVersion format "") c Hw)
      as (c' & Hrun & Hs & Hw' & Hc & He).
    exists c'. rewrite (bind_ok _ _ _ _ _ Hrun). by split_and!.
Qed.

(** *** The two branches *)
Lemma wrap_ok {S X} t (m : GoM io_error S X) s x s' : m s = (Ok x, s') → wrap t m s = (Ok x, s').
Proof. unfold wrap. by intros ->. Qed.
Lemma wrap_err {S X} t (m : GoM io_error S X) s e s' :
  m s = (Err e, s') → wrap t m s = (Err (ErrWrap t e), s').
Proof. unfold wrap. by intros ->. Qed.

Lemma behind_result {R X} (first : R) (m : GoM io_error (MultiReader R Conn) X) c :
  (behind first m c).1 = (m (mkMultiReader first c 0)).1.
Proof. unfold behind. by destruct (m _). Qed.

Lemma json_branch b c : reader_ok c →
  (behind (mkByteReader b) JSONCodec_ReadHandshake c).1 =
  decode_result (line_result MaxScanTokenSize (b :: contents c) (ending c)).
Proof. intros Hok. rewrite behind_result, JSON_handshake_result; [done|]. by split. Qed.

Lemma frame_branch data c : reader_ok c → (len data ≤ MaxMessageSize)%Z →
  (behind (mkLengthPrefixedReader (PutUint32 (len data)) data 0 0) ProtobufCodec_ReadHandshake c).1 =
  decode_result (Ok data).
Proof.
  intros Hok Hl. rewrite behind_result. apply (Protobuf_handshake_result data (contents c)); [by split| |done].
  reflexivity.
Qed.

(** A request that was read, and the answer to it. *)
Lemma answered t format codec (m : GoM io_error Conn HandshakeRequest) c0 c :
  conn_writes c0 = None → same_out c0 c → same_out c (m c).2 →
  let '(x, c') := (req ← wrap t m; answer_handshake format codec req) c in
  match (m c).1 with
  | Ok req => x = (verdict format codec req).1 ∧
      sent c' = sent c0 ++ wire_bytes codec (marshal (handshake_tree (verdict format codec req).2))
  | Err e => x = Err (ErrWrap t e) ∧ sent c' = sent c0
  | Panic => x = Panic
  end.
Proof.
  intros Hw [Ho1 Ho2] [Hm1 Hm2]. unfold mbind, gom_bind, wrap. destruct (m c) as [[req|e|] c1]; cbn [fst snd] in *.
  - destruct (answer_handshake_spec format codec req c1) as (c' & -> & Hs & _); [congruence|].
    split; [done|]. rewrite Hs. unfold sent. by rewrite Hm1, Ho1.
  - split; [done|]. unfold sent. by rewrite Hm1, Ho1.
  - done.
Qed.

Lemma same_out_trans c1 c2 c3 : same_out c1 c2 → same_out c2 c3 → same_out c1 c3.
Proof. unfold same_out. intros [? ?] [? ?]. split; congruence. Qed.

(** Four bytes and a body that spell a frame. *)
Lemma frame_split lenBuf body data rest :
  length lenBuf = 4 → lenBuf ++ body = frame data ++ rest → (len data ≤ MaxMessageSize)%Z →
  Uint32 lenBuf = len data ∧ body = data ++ rest.
Proof.
  intros Hlb Hd Hl. unfold frame in Hd. rewrite <- (assoc_L app) in Hd.
  apply app_inj_1 in Hd as [-> Hd]; [|by rewrite Hlb]. split; [|done].
  change MaxMessageSize with 1048576%Z in Hl. pose proof (len_nonneg data).
  rewrite Uint32_PutUint32; [done|lia].
Qed.

Lemma frame_length data rest : (4 ≤ len (frame data ++ rest))%Z.
Proof.
  unfold frame. rewrite !len_app. change (len (PutUint32 _)) with 4%Z.
  pose proof (len_nonneg data). pose proof (len_nonneg rest). lia.
Qed.

(** The frame branch reads the length and the body, or fails like a frame read would. *)
Lemma frame_stage c b s : reader_ok c → contents c = b :: s → nat_of_ascii b ≠ 123 →
  (∃ data rest c2, contents c = frame data ++ rest ∧ (len data ≤ MaxMessageSize)%Z ∧ reader_ok c2 ∧
     same_out c c2 ∧ performHandshake c =
       (req ← wrap "invalid protobuf handshake"
          (behind (mkLengthPrefixedReader (PutUint32 (len data)) data 0 0) ProtobufCodec_ReadHandshake);
        answer_handshake FormatProtobuf ProtobufCodec req) c2) ∨
  (∃ e c2, performHandshake c = (Err e, c2) ∧ same_out c c2 ∧
     ∀ data rest, contents c = frame data ++ rest → ¬ (len data ≤ MaxMessageSize)%Z).
Proof.
  intros Hok Hc Hb.
  destruct (ReadFull_ok 1 c Hok) as (c1 & H1 & Hk1 & Hc1 & _).
  { rewrite Hc. unfold len. simpl. lia. }
  rewrite Hc in H1, Hc1. change (take (Z.to_nat 1) (b :: s)) with [b] in H1.
  change (drop (Z.to_nat 1) (b :: s)) with s in Hc1.
  pose proof (ReadFull_out 1 c) as Ho1. rewrite H1 in Ho1. cbn [snd] in Ho1.
  unfold performHandshake. rewrite (bind_ok _ _ _ _ _ (wrap_ok _ _ _ _ _ H1)). cbn [hd].
  rewrite bool_decide_eq_false_2 by done.
  pose proof (ReadFull_out 3 c1) as Ho2.
  destruct (decide (3 ≤ len s)%Z) as [H3|H3].
  2:{ destruct (ReadFull_short 3 c1 Hk1) as (c2 & H2); [rewrite Hc1; lia|].
      rewrite H2 in Ho2. cbn [snd] in Ho2.
      right. eexists _, c2. rewrite (bind_err _ _ _ _ _ (wrap_err _ _ _ _ _ H2)).
      split; [done|]. split; [by eapply same_out_trans|]. intros data rest Hd.
      pose proof (frame_length data rest) as H4. rewrite <- Hd, Hc in H4. unfold len in *. simpl in H4. lia. }
  destruct (ReadFull_ok 3 c1 Hk1) as (c2 & H2 & Hk2 & Hc2 & _); [rewrite Hc1; lia|].
  rewrite Hc1 in H2, Hc2. rewrite H2 in Ho2. cbn [snd] in Ho2.
  rewrite (bind_ok _ _ _ _ _ (wrap_ok _ _ _ _ _ H2)). cbv zeta.
  set (lenBuf := b :: take (Z.to_nat 3) s). set (body := drop (Z.to_nat 3) s) in *.
  assert (length lenBuf = 4) as Hlb.
  { unfold lenBuf. simpl. rewrite length_take. unfold len in H3. lia. }
  assert (contents c = lenBuf ++ body) as Hcc.
  { rewrite Hc. unfold lenBuf, body. simpl. by rewrite take_drop. }
  pose proof (PutUint32_Uint32 lenBuf Hlb) as Hput. pose proof (Uint32_nonneg lenBuf) as Hnn.
  pose proof (same_out_trans _ _ _ Ho1 Ho2) as Ho. rewrite Hcc.
  case_bool_decide as Hbig.
  { right. eexists _, c2. split_and!; [done|done|].
    intros data rest Hd Hl. destruct (frame_split lenBuf body data rest Hlb Hd Hl). lia. }
  pose proof (ReadFull_out (Uint32 lenBuf) c2) as Ho3.
  destruct (decide (Uint32 lenBuf ≤ len body)%Z) as [H4|H4].
  2:{ destruct (ReadFull_short (Uint32 lenBuf) c2 Hk2) as (c3 & Hr); [rewrite Hc2; lia|].
      rewrite Hr in Ho3. cbn [snd] in Ho3. right. eexists _, c3.
      rewrite (bind_err _ _ _ _ _ (wrap_err _ _ _ _ _ Hr)). split; [done|].
      split; [by eapply same_out_trans|].
      intros data rest Hd Hl. destruct (frame_split lenBuf body data rest Hlb Hd Hl) as [Hn Hb'].
      rewrite Hb', len_app in H4. pose proof (len_nonneg rest). lia. }
  destruct (ReadFull_ok (Uint32 lenBuf) c2 Hk2) as (c3 & Hr & Hk3 & _); [rewrite Hc2; lia|].
  rewrite Hc2 in Hr. rewrite Hr in Ho3. cbn [snd] in Ho3. left.
  set (data := take (Z.to_nat (Uint32 lenBuf)) body) in *.
  assert (len data = Uint32 lenBuf) as Hl.
  { unfold data, len in *. rewrite length_take. lia. }
  exists data, (drop (Z.to_nat (Uint32 lenBuf)) body), c3. split_and!.
  - unfold frame. rewrite Hl, Hput, <- (assoc_L app). unfold data. by rewrite take_drop.
  - lia.
  - done.
  - by eapply same_out_trans.
  - rewrite (bind_ok _ _ _ _ _ (wrap_ok _ _ _ _ _ Hr)). by rewrite Hl, Hput.
Qed.

(** The JSON branch puts the byte back. *)
Lemma json_stage c b s : reader_ok c → contents c = b :: s → nat_of_ascii b = 123 →
  ∃ c1, reader_ok c1 ∧ contents c1 = s ∧ ending c1 = ending c ∧ same_out c c1 ∧
    performHandshake c =
      (req ← wrap "invalid JSON handshake" (behind (mkByteReader b) JSONCodec_ReadHandshake);
       answer_handshake FormatJSON JSONCodec req) c1.
Proof.
  intros Hok Hc Hb. destruct (ReadFull_ok 1 c Hok) as (c1 & H1 & Hk1 & Hc1 & He1).
  { rewrite Hc. unfold len. simpl. lia. }
  pose proof (ReadFull_out 1 c) as Ho. rewrite H1 in Ho. rewrite Hc in H1, Hc1.
  exists c1. split_and!; [done|done|done|exact Ho|].
  unfold performHandshake. rewrite (bind_ok _ _ _ _ _ (wrap_ok _ _ _ _ _ H1)).
  change (hd (ascii_of_nat 0) (take (Z.to_nat 1) (b :: s))) with b. by rewrite bool_decide_eq_true_2.
Qed.

Lemma code_byte_val c : nat_of_ascii c = Z.to_nat (byte_val c).
Proof. unfold byte_val, nat_of_ascii. lia. Qed.

(** *** A frame taken for JSON *)
Lemma dropCR_two b d t : nat_of_ascii d ≠ 13 → ∃ t', dropCR (b :: d :: t) = b :: d :: t'.
Proof.
  intros Hd. unfold dropCR. destruct (last (b :: d :: t)) as [x|] eqn:E; [|by exists t].
  case_bool_decide as Hx; [|by exists t]. destruct t as [|y t]; [simplify_eq/=; done|].
  simpl. by eexists.
Qed.

(** An object whose first byte is a control byte is not JSON. *)
Lemma decode_control b d t : nat_of_ascii b = 123 → nat_of_ascii d < 9 → decode (b :: d :: t) = None.
Proof.
  intros Hb Hd. unfold decode. cbn [length]. replace (2 * S (S (length t)) + 2) with (S (S (2 * length t + 4))) by lia.
  assert (is_space b = false) as Hsb.
  { apply bool_decide_eq_false. rewrite Hb. by set_unfold; lia. }
  assert (is_space d = false) as Hsd.
  { apply bool_decide_eq_false. set_unfold. lia. }
  replace b with (ascii_of_nat 123) by (rewrite <- Hb; apply ascii_nat_embedding).
  rewrite value_object. rewrite bool_decide_eq_false_2 by (unfold maxNestingDepth; lia).
  rewrite expect_other by (done || lia). cbn [members]. by rewrite expect_other by (done || lia).
Qed.

Lemma line_control max b d s e :
  nat_of_ascii b = 123 → nat_of_ascii d < 9 →
  ∃ err, decode_result (P := HandshakeRequest) (line_result max (b :: d :: s) e) = Err err.
Proof.
  intros Hb Hd.
  assert (∀ t, ∃ err, decode_result (P := HandshakeRequest) (Ok (dropCR (b :: d :: t))) = Err err) as Hline.
  { intros t. destruct (dropCR_two b d t) as [t' ->]; [lia|]. simpl. unfold unmarshal_text.
    rewrite decode_control by done. by eexists. }
  assert (is_newline b = false ∧ is_newline d = false) as [Hnb Hnd]
    by (split; apply bool_decide_eq_false; lia).
  unfold line_result, first_line, final_token. cbn [cut_line]. rewrite Hnb, Hnd.
  destruct (cut_line s) as [[l r]|]; case_bool_decide; try (by eexists); apply Hline.
Qed.

Lemma decode_no_panic {P} `{!JSONStruct P} x : x ≠ Panic → decode_result (P := P) x ≠ Panic.
Proof. destruct x as [data|e|]; simpl; [|done|done]. by destruct (unmarshal_text data) as [? []]. Qed.

Lemma line_no_panic max s e : line_result max s e ≠ Panic.
Proof. unfold line_result. by destruct (first_line max s e) as [l|[|]]. Qed.

(** ** Properties *)

(** C20. Telling the formats apart by the first byte is transparent: whether the handshake succeeds,
    and what is answered, is as if the codec of the detected format had read the request straight
    from the connection; an unreadable request is not answered. *)
Theorem handshake_transparent (c : Conn) (b : ascii) (s : bytes) :
  reader_ok c → contents c = b :: s → conn_writes c = None →
  let '(codec, format) := if bool_decide (nat_of_ascii b = 123) then (JSONCodec, FormatJSON)
                          else (ProtobufCodec, FormatProtobuf) in
  let '(r, c') := performHandshake c in
  match (ReadHandshake codec c).1 with
  | Ok req => r = (verdict format codec req).1 ∧
      sent c' = sent c ++ wire_bytes codec (marshal (handshake_tree (verdict format codec req).2))
  | Err _ => (∃ e, r = Err e) ∧ sent c' = sent c
  | Panic => False
  end.
Proof.
  intros Hok Hc Hw. case_bool_decide as Hb; cbn [ReadHandshake].
  - destruct (json_stage c b s Hok Hc Hb) as (c1 & Hk1 & Hc1 & He1 & Ho & ->).
    pose proof (answered "invalid JSON handshake" FormatJSON JSONCodec _ c c1 Hw Ho (behind_line_out (mkByteReader b) c1)) as Ha.
    match type of Ha with match ?X with _ => _ end => destruct X as [r c'] end. rewrite json_branch in Ha by done.
    rewrite JSON_handshake_result by done. rewrite Hc1, He1 in Ha. rewrite Hc.
    pose proof (decode_no_panic (P := HandshakeRequest) _ (line_no_panic MaxScanTokenSize (b :: s) (ending c))) as Hnp.
    destruct (decode_result _) as [req|e|]; [done| |done]. destruct Ha as [-> Ha]. by split; [eexists|].
  - destruct (frame_stage c b s Hok Hc Hb) as
      [(data & rest & c2 & Hd & Hl & Hk & Ho & ->)|(e & c2 & -> & [Ho _] & Hn)].
    + rewrite (Protobuf_handshake_result data rest) by done.
      pose proof (answered "invalid protobuf handshake" FormatProtobuf ProtobufCodec _ c c2 Hw Ho 
        (behind_frame_out (mkLengthPrefixedReader (PutUint32 (len data)) data 0 0) c2)) as Ha.
      match type of Ha with match ?X with _ => _ end => destruct X as [r c'] end. rewrite frame_branch in Ha by done.
      pose proof (decode_no_panic (P := HandshakeRequest) (Ok data) ltac:(done)) as Hnp.
      destruct (decode_result _) as [req|e|]; [done| |done]. destruct Ha as [-> Ha]. by split; [eexists|].
    + assert (∃ err, (ProtobufCodec_ReadHandshake c).1 = Err err) as [err ->].
      { unfold ProtobufCodec_ReadHandshake. rewrite decoded_result.
        pose proof (readLengthPrefixed_no_panic c) as Hp.
        destruct (readLengthPrefixed c) as [[data|e'|] c3] eqn:E; [|by eexists|done].
        exfalso. destruct (frame_read_inv _ _ _ Hok E) as (Hl & rest & Hd). by apply (Hn data rest). }
      split; [by eexists|]. unfold sent. by rewrite Ho.
Qed.

(** A length-prefixed handshake whose length is 123 modulo 256 starts with the byte of an opening
    brace, is taken for a JSON handshake, and is refused without an answer, whatever it says. *)
Theorem handshake_length_collision (c : Conn) (data rest : bytes) :
  reader_ok c → contents c = frame data ++ rest → (len data < 2304)%Z → (len data `mod` 256 = 123)%Z →
  (∃ e, (performHandshake c).1 = Err e) ∧ sent (performHandshake c).2 = sent c.
Proof.
  intros Hok Hc Hl Hm. pose proof (len_nonneg data).
  set (b := byte_of (len data)). set (d := byte_of (Z.shiftr (len data) 8)).
  assert (∃ s, contents c = b :: d :: s) as [s Hs] by (rewrite Hc; by eexists).
  assert (nat_of_ascii b = 123) as Hb.
  { unfold b. rewrite code_byte_val, first_length_byte, Hm. done. }
  assert (nat_of_ascii d < 9) as Hd.
  { unfold d. rewrite code_byte_val, first_length_byte, Z.shiftr_div_pow2 by lia.
    change (2 ^ 8)%Z with 256%Z. assert (0 ≤ len data `div` 256 < 9)%Z.
    { split; [apply Z.div_pos; lia|apply Z.div_lt_upper_bound; lia]. }
    rewrite Z.mod_small by lia. lia. }
  destruct (json_stage c b (d :: s) Hok Hs Hb) as (c1 & Hk1 & Hc1 & He1 & [Ho _] & ->).
  destruct (line_control MaxScanTokenSize b d s (ending c1) Hb Hd) as [err Herr].
  pose proof (json_branch b c1 Hk1) as Hj. rewrite Hc1, Herr in Hj.
  destruct (behind_line_out (mkByteReader b) c1) as [Ho' _].
  destruct (behind (mkByteReader b) JSONCodec_ReadHandshake c1) as [x c2] eqn:E. cbn [fst snd] in Hj, Ho'.
  subst x. rewrite (bind_err _ _ _ _ _ (wrap_err _ _ _ _ _ E)). split; [by eexists|].
  unfold sent. cbn [snd]. by rewrite Ho', Ho.
Qed.

(** ** Witnesses *)
Module SampleHandshake.
Definition text (version format : string) : bytes :=
  marshal (JObject [("version", JString version); ("format", JString format)]).
Definition zeros (n : nat) : string := string_of_list_ascii (replicate n (ascii_of_nat 48)).
End SampleHandshake.

Lemma handshake_transparent_witness :
  let c := mkConn [take 5 (frame (SampleHandshake.text "1.0" "protobuf"));
                   drop 5 (frame (SampleHandshake.text "1.0" "protobuf"))] EOF [] None in
  (performHandshake c).1 = Ok (FormatProtobuf, ProtobufCodec) ∧
  sent (performHandshake c).2 = wire_bytes ProtobufCodec (marshal (handshake_tree
    (mkHandshakeResponse "ok" "1.0" "protobuf" ""))).
Proof.
  intros c. assert (reader_ok c) as Hok by decided.
  assert (∃ s, contents c = ascii_of_nat 37 :: s) as [s Hs] by (eexists; vm_compute; reflexivity).
  pose proof (handshake_transparent c (ascii_of_nat 37) s Hok Hs eq_refl) as H.
  rewrite bool_decide_eq_false_2 in H by (vm_compute; discriminate).
  assert ((ReadHandshake ProtobufCodec c).1 = Ok (mkHandshakeRequest "1.0" "protobuf" [])) as Hr
    by (vm_compute; reflexivity).
  rewrite Hr in H. destruct (performHandshake c) as [r c']. exact H.
Defined.

Lemma handshake_length_collision_witness :
  let data := SampleHandshake.text (SampleHandshake.zeros 89) "protobuf" in
  let c := mkConn [frame data] EOF [] None in
  len data = 123%Z ∧ validateHandshake (mkHandshakeRequest (SampleHandshake.zeros 89) "protobuf" []) = None ∧
  (ReadHandshake ProtobufCodec c).1 = Ok (mkHandshakeRequest (SampleHandshake.zeros 89) "protobuf" []) ∧
  ∃ e, (performHandshake c).1 = Err e.
Proof.
  intros data c. split; [vm_compute; reflexivity|]. split; [vm_compute; reflexivity|].
  split; [vm_compute; reflexivity|]. assert (reader_ok c) as Hok by decided.
  apply (handshake_length_collision c data [] Hok); [vm_compute; reflexivity|decided|decided].
Defined.
