(* ===== verification/UdsHandler.v ===== *)
(** * UDS request handlers

    [internal/uds/handler.go]: the registry of actions and the handler of each. A handler runs in
    the goroutine of its connection without a recover, so a panic ends the process. *)

From Stdlib Require Import ZArith Lia.
From stdpp Require Import base tactics numbers list gmap strings.
From S2P Require Import Prelude Model GoStrings GoJson UserStore UserMem UserHistory SyncJobs Membership OrgStore GroupStore Auth UserService DirectoryService App UdsMessages.

Definition errorResp (requestID msg : string) : JSONResponse :=
  mkJSONResponse "error" PNone requestID msg.

Definition success (requestID : string) (p : ResponsePayload) : JSONResponse :=
  mkJSONResponse "success" p requestID "".

Section handlers.
Context {US SS OS GS : Type} `{!UserStore US, !SyncJobStore SS, !OrgStore OS, !GroupStore GS}.
Notation A := (App US SS OS GS).
Notation M := (GoM error A).

Definition ActionHandler : Type := Env → RawMessage → string → M JSONResponse.

(** ** Users and authentication *)
Definition handleAuth : ActionHandler := λ e payload requestID,
  let '(p, ok) := Unmarshal (P := AuthPayload) payload in
  if negb ok then mret (errorResp requestID "invalid auth payload")
  else if bool_decide (AP_Username p = "" ∨ AP_Password p = "")
  then mret (errorResp requestID "username and password are required")
  else
    r ← try (userSvc (UserService_VerifyCredentials (AP_Username p) (AP_Password p)));
    match r with
    | inr err => mret (errorResp requestID (Error err))
    | inl u => mret (success requestID (PAuth (mkAuthResponsePayload
        (User_ID u) (User_Username u) (User_Email u) (User_DisplayName u))))
    end.

Definition handleGetUser : ActionHandler := λ e payload requestID,
  let '(p, ok) := Unmarshal (P := GetUserPayload) payload in
  if negb ok then mret (errorResp requestID "invalid get_user payload")
  else if bool_decide (GUP_UserID p = "" ∧ GUP_Username p = "")
  then mret (errorResp requestID "user_id or username is required")
  else
    r ← try (if bool_decide (GUP_UserID p ≠ "")
             then userSvc (UserService_GetUser (GUP_UserID p))
             else userSvc (UserService_GetUserByUsername (GUP_Username p)));
    match r with
    | inr _ => mret (errorResp requestID "user not found")
    | inl u => mret (success requestID (PGetUser (mkGetUserResponsePayload
        (User_ID u) (User_Username u) (User_Email u) (User_DisplayName u) [])))
    end.

Definition handleTriggerSync : ActionHandler := λ e payload requestID,
  let '(p, ok) := Unmarshal (P := TriggerSyncPayload) payload in
  if negb ok then mret (errorResp requestID "invalid trigger_sync payload")
  else if bool_decide (TSP_SourceSystem p = "")
  then mret (errorResp requestID "source_system is required")
  else
    let syncType := if bool_decide (TSP_SyncType p = "") then SyncTypeIncremental
                    else TSP_SyncType p in
    r ← try (userSvc (UserService_CreateSyncJob (env_now e) (env_now1 e) (env_uuid e)
          (mkCreateSyncJobRequest (TSP_SourceSystem p) syncType)));
    match r with
    | inr err => mret (errorResp requestID ("failed to create sync job: " +:+ Error err))
    | inl job => mret (success requestID (PTriggerSync (mkTriggerSyncResponsePayload
        (SyncJob_ID job) "30s" "Sync job started")))
    end.

Definition handlePing : ActionHandler := λ e _ requestID,
  mret (mkJSONResponse "pong" PNone requestID "").

(** ** Organizations *)
Definition org_detail_info (o : Organization) : OrgDetailInfo :=
  mkOrgDetailInfo (Org_ID o) (Org_Name o) (Org_ParentID o) (Org_Path o) "".

Definition handleCreateOrg : ActionHandler := λ e payload requestID,
  let '(p, ok) := Unmarshal (P := CreateOrgPayload) payload in
  if negb ok then mret (errorResp requestID "invalid create_org payload")
  else if bool_decide (COP_Name p = "")
  then mret (errorResp requestID "name is required")
  else
    r ← try (dirSvc (DirectoryService_CreateOrg (env_now e) (env_uuid e)
          (mkCreateOrgRequest (COP_Name p) (COP_ParentID p) "" "")));
    match r with
    | inr err => mret (errorResp requestID ("failed to create org: " +:+ Error err))
    | inl org => mret (success requestID (POrg (org_detail_info org)))
    end.

Definition handleGetOrg : ActionHandler := λ e payload requestID,
  let '(p, ok) := Unmarshal (P := GetOrgPayload) payload in
  if negb ok then mret (errorResp requestID "invalid get_org payload")
  else if bool_decide (GOP_OrgID p = "")
  then mret (errorResp requestID "org_id is required")
  else
    r ← try (dirSvc (DirectoryService_GetOrg (GOP_OrgID p)));
    match r with
    | inr _ => mret (errorResp requestID "org not found")
    | inl org => mret (success requestID (POrg (org_detail_info org)))
    end.

(** The error of the decoding is dropped. *)
Definition handleListOrgs : ActionHandler := λ e payload requestID,
  let '(p, _) := Unmarshal (P := ListOrgsPayload) payload in
  r ← try (dirSvc (DirectoryService_ListOrgs (env_orgs e) (LOP_Offset p) (LOP_Limit p)));
  match r with
  | inr err => mret (errorResp requestID ("failed to list orgs: " +:+ Error err))
  | inl page => mret (success requestID
      (PListOrgs (mkListOrgsResponsePayload (org_detail_info <$> page.1) page.2)))
  end.

Definition handleAddOrgMember : ActionHandler := λ e payload requestID,
  let '(p, ok) := Unmarshal (P := AddOrgMemberPayload) payload in
  if negb ok then mret (errorResp requestID "invalid add_org_member payload")
  else if bool_decide (AOMP_OrgID p = "" ∨ AOMP_UserID p = "")
  then mret (errorResp requestID "org_id and user_id are required")
  else
    r ← try (dirSvc (DirectoryService_AddOrgMember (AOMP_OrgID p)
          (mkAddOrgMemberRequest (AOMP_UserID p) (AOMP_Role p) false)));
    match r with
    | inr err => mret (errorResp requestID ("failed to add member: " +:+ Error err))
    | inl _ => mret (success requestID (PMessage "member added"))
    end.

Definition handleRemoveOrgMember : ActionHandler := λ e payload requestID,
  let '(p, ok) := Unmarshal (P := RemoveOrgMemberPayload) payload in
  if negb ok then mret (errorResp requestID "invalid remove_org_member payload")
  else if bool_decide (ROMP_OrgID p = "" ∨ ROMP_UserID p = "")
  then mret (errorResp requestID "org_id and user_id are required")
  else
    r ← try (dirSvc (DirectoryService_RemoveOrgMember (ROMP_OrgID p) (ROMP_UserID p)));
    match r with
    | inr err => mret (errorResp requestID ("failed to remove member: " +:+ Error err))
    | inl _ => mret (success requestID (PMessage "member removed"))
    end.

Definition org_member_info (d : OrgMemberDetail) : OrgMemberInfo :=
  mkOrgMemberInfo (UOR_UserID (OMD_Relation d)) (OMD_Username d) (OMD_DisplayName d)
    (UOR_Role (OMD_Relation d)).

Definition handleListOrgMembers : ActionHandler := λ e payload requestID,
  let '(p, ok) := Unmarshal (P := ListOrgMembersPayload) payload in
  if negb ok then mret (errorResp requestID "invalid list_org_members payload")
  else if bool_decide (LOMP_OrgID p = "")
  then mret (errorResp requestID "org_id is required")
  else
    r ← try (dirSvc (DirectoryService_ListOrgMembers (LOMP_OrgID p)));
    match r with
    | inr err => mret (errorResp requestID ("failed to list members: " +:+ Error err))
    | inl details => let items := org_member_info <$> details in
        mret (success requestID (PListOrgMembers (mkListOrgMembersResponsePayload items (len items))))
    end.

(** The loop body: the membership, with the organization's data where it is found. *)
Definition user_org_info (rel : UserOrgRelation) : M OrgDetailInfo :=
  r ← try (dirSvc (DirectoryService_GetOrg (UOR_OrgID rel)));
  match r with
  | inl org => mret (mkOrgDetailInfo (UOR_OrgID rel) (Org_Name org) (Org_ParentID org)
                       (Org_Path org) (UOR_Role rel))
  | inr _ => mret (mkOrgDetailInfo (UOR_OrgID rel) "" "" "" (UOR_Role rel))
  end.

Definition handleGetUserOrgs : ActionHandler := λ e payload requestID,
  let '(p, ok) := Unmarshal (P := GetUserOrgsPayload) payload in
  if negb ok then mret (errorResp requestID "invalid get_user_orgs payload")
  else if bool_decide (GUOP_UserID p = "")
  then mret (errorResp requestID "user_id is required")
  else
    r ← try (dirSvc (DirectoryService_GetUserOrgs (GUOP_UserID p)));
    match r with
    | inr err => mret (errorResp requestID ("failed to get user orgs: " +:+ Error err))
    | inl rels => items ← collect user_org_info rels;
        mret (success requestID (PListOrgs (mkListOrgsResponsePayload items (len items))))
    end.

(** ** Groups *)
Definition group_detail_info (g : Group) : GroupDetailInfo :=
  mkGroupDetailInfo (Group_ID g) (Group_Name g) (Group_Description g) (Group_Type g) "".

Definition handleCreateGroup : ActionHandler := λ e payload requestID,
  let '(p, ok) := Unmarshal (P := CreateGroupPayload) payload in
  if negb ok then mret (errorResp requestID "invalid create_group payload")
  else if bool_decide (CGP_Name p = "")
  then mret (errorResp requestID "name is required")
  else
    r ← try (dirSvc (DirectoryService_CreateGroup (env_now e) (env_uuid e)
          (mkCreateGroupRequest (CGP_Name p) (CGP_Description p) (CGP_Type p))));
    match r with
    | inr err => mret (errorResp requestID ("failed to create group: " +:+ Error err))
    | inl group => mret (success requestID (PGroup (group_detail_info group)))
    end.

Definition handleGetGroup : ActionHandler := λ e payload requestID,
  let '(p, ok) := Unmarshal (P := GetGroupPayload) payload in
  if negb ok then mret (errorResp requestID "invalid get_group payload")
  else if bool_decide (GGP_GroupID p = "")
  then mret (errorResp requestID "group_id is required")
  else
    r ← try (dirSvc (DirectoryService_GetGroup (GGP_GroupID p)));
    match r with
    | inr _ => mret (errorResp requestID "group not found")
    | inl group => mret (success requestID (PGroup (group_detail_info group)))
    end.

Definition handleListGroups : ActionHandler := λ e payload requestID,
  let '(p, _) := Unmarshal (P := ListGroupsPayload) payload in
  r ← try (dirSvc (DirectoryService_ListGroups (env_groups e) (LGP_Offset p) (LGP_Limit p)));
  match r with
  | inr err => mret (errorResp requestID ("failed to list groups: " +:+ Error err))
  | inl page => mret (success requestID
      (PListGroups (mkListGroupsResponsePayload (group_detail_info <$> page.1) page.2)))
  end.

Definition handleAddGroupMember : ActionHandler := λ e payload requestID,
  let '(p, ok) := Unmarshal (P := AddGroupMemberPayload) payload in
  if negb ok then mret (errorResp requestID "invalid add_group_member payload")
  else if bool_decide (AGMP_GroupID p = "" ∨ AGMP_UserID p = "")
  then mret (errorResp requestID "group_id and user_id are required")
  else
    r ← try (dirSvc (DirectoryService_AddGroupMember (env_now e) (AGMP_GroupID p)
          (mkAddGroupMemberRequest (AGMP_UserID p) (AGMP_Role p))));
    match r with
    | inr err => mret (errorResp requestID ("failed to add member: " +:+ Error err))
    | inl _ => mret (success requestID (PMessage "member added"))
    end.

Definition handleRemoveGroupMember : ActionHandler := λ e payload requestID,
  let '(p, ok) := Unmarshal (P := RemoveGroupMemberPayload) payload in
  if negb ok then mret (errorResp requestID "invalid remove_group_member payload")
  else if bool_decide (RGMP_GroupID p = "" ∨ RGMP_UserID p = "")
  then mret (errorResp requestID "group_id and user_id are required")
  else
    r ← try (dirSvc (DirectoryService_RemoveGroupMember (RGMP_GroupID p) (RGMP_UserID p)));
    match r with
    | inr err => mret (errorResp requestID ("failed to remove member: " +:+ Error err))
    | inl _ => mret (success requestID (PMessage "member removed"))
    end.

Definition group_member_info (d : GroupMemberDetail) : GroupMemberInfo :=
  mkGroupMemberInfo (GM_UserID (GMD_Member d)) (GMD_Username d) (GMD_DisplayName d)
    (GM_Role (GMD_Member d)).

Definition handleListGroupMembers : ActionHandler := λ e payload requestID,
  let '(p, ok) := Unmarshal (P := ListGroupMembersPayload) payload in
  if negb ok then mret (errorResp requestID "invalid list_group_members payload")
  else if bool_decide (LGMP_GroupID p = "")
  then mret (errorResp requestID "group_id is required")
  else
    r ← try (dirSvc (DirectoryService_ListGroupMembers (LGMP_GroupID p)));
    match r with
    | inr err => mret (errorResp requestID ("failed to list members: " +:+ Error err))
    | inl details => let items := group_member_info <$> details in
        mret (success requestID (PListGroupMembers (mkListGroupMembersResponsePayload items (len items))))
    end.

Definition user_group_info (m : GroupMember) : M GroupDetailInfo :=
  r ← try (dirSvc (DirectoryService_GetGroup (GM_GroupID m)));
  match r with
  | inl g => mret (mkGroupDetailInfo (GM_GroupID m) (Group_Name g) (Group_Description g)
                     (Group_Type g) (GM_Role m))
  | inr _ => mret (mkGroupDetailInfo (GM_GroupID m) "" "" "" (GM_Role m))
  end.

Definition handleGetUserGroups : ActionHandler := λ e payload requestID,
  let '(p, ok) := Unmarshal (P := GetUserGroupsPayload) payload in
  if negb ok then mret (errorResp requestID "invalid get_user_groups payload")
  else if bool_decide (GUGP_UserID p = "")
  then mret (errorResp requestID "user_id is required")
  else
    r ← try (dirSvc (DirectoryService_GetUserGroups (GUGP_UserID p)));
    match r with
    | inr err => mret (errorResp requestID ("failed to get user groups: " +:+ Error err))
    | inl members => items ← collect user_group_info members;
        mret (success requestID (PListGroups (mkListGroupsResponsePayload items (len items))))
    end.

(** ** The registry *)
Definition register (action : string) (handler : ActionHandler)
    (r : gmap string ActionHandler) : gmap string ActionHandler :=
  <[action := handler]> r.

Definition NewHandlerRegistry : gmap string ActionHandler :=
  register "get_user_groups" handleGetUserGroups $
  register "list_group_members" handleListGroupMembers $
  register "remove_group_member" handleRemoveGroupMember $
  register "add_group_member" handleAddGroupMember $
  register "list_groups" handleListGroups $
  register "get_group" handleGetGroup $
  register "create_group" handleCreateGroup $
  register "get_user_orgs" handleGetUserOrgs $
  register "list_org_members" handleListOrgMembers $
  register "remove_org_member" handleRemoveOrgMember $
  register "add_org_member" handleAddOrgMember $
  register "list_orgs" handleListOrgs $
  register "get_org" handleGetOrg $
  register "create_org" handleCreateOrg $
  register "ping" handlePing $
  register "trigger_sync" handleTriggerSync $
  register "get_user" handleGetUser $
  register "auth" handleAuth $
  ∅.

Definition Handle (r : gmap string ActionHandler) (e : Env) (req : JSONRequest) : M JSONResponse :=
  match r !! JReq_Action req with
  | None => mret (errorResp (JReq_RequestID req) ("unknown action: " +:+ JReq_Action req))
  | Some handler => handler e (JReq_Payload req) (JReq_RequestID req)
  end.
End handlers.

(** ** What a handler may answer

    Over the in-memory stores and any lawful user store. *)
Section outcomes.
Context `{UT : UnicodeTables} {US : Type} `{!UserStore US, !UserStoreLaws US}.
Notation A := (App US MemorySyncJobStore MemoryOrgStore MemoryGroupStore).
Implicit Types (a : A).

(** The answer carries the request's id; an error answer has no payload and changed nothing; a
    panic happens only under [crash] and changed nothing either. *)
Definition proper (crash : Prop) (requestID : string) a (h : GoM error A JSONResponse) : Prop :=
  match h a with
  | (Ok resp, a') =>
      JResp_RequestID resp = requestID ∧
      (JResp_Status resp = "error" ∧ JResp_Payload resp = PNone ∧ same a a' ∨
       (JResp_Status resp = "success" ∨ JResp_Status resp = "pong") ∧ JResp_Error resp = "")
  | (Err _, _) => False
  | (Panic, a') => crash ∧ same a a'
  end.

Lemma proper_error crash rid a msg : app_ok a → proper crash rid a (mret (errorResp rid msg)).
Proof. intros Ha. split; [done|]. left. split_and!; [done|done|by apply same_refl]. Qed.

Lemma proper_try {X} crash rid a (m : GoM error A X) (k : X + error → GoM error A JSONResponse) :
  quiet_at a m → (∀ a', m a = (Panic, a') → crash) →
  (∀ v a, ∃ p a', k (inl v) a = (Ok (success rid p), a')) →
  (∀ err a, ∃ msg, k (inr err) a = (Ok (errorResp rid msg), a)) →
  proper crash rid a (try m ≫= k).
Proof.
  unfold quiet_at, proper. intros Hm Hp Hok Herr. rewrite bind_try.
  destruct (m a) as [[v|err|] a'].
  - destruct (Hok v a') as (p & a'' & ->). split; [done|]. right. auto.
  - destruct (Herr err a') as (msg & ->). split; [done|]. by left.
  - split; [by eapply Hp|done].
Qed.

Lemma proper_tidy {X} crash rid a (m : GoM error A X) (k : X + error → GoM error A JSONResponse) :
  tidy_at a m →
  (∀ v a, ∃ p a', k (inl v) a = (Ok (success rid p), a')) →
  (∀ err a, ∃ msg, k (inr err) a = (Ok (errorResp rid msg), a)) →
  proper crash rid a (try m ≫= k).
Proof.
  intros Hm. apply proper_try; [by apply tidy_quiet|]. intros a' Hp. unfold tidy_at in Hm.
  by rewrite Hp in Hm.
Qed.

(** A loop over a look-up that never fails. *)
Lemma collect_total {X Y} (f : X → GoM error A Y) l a :
  (∀ x a, ∃ y a', f x a = (Ok y, a')) → ∃ ys a', collect f l a = (Ok ys, a').
Proof.
  intros Hf. revert a. induction l as [|x l IH]; intros a; simpl; [by eexists _, _|].
  destruct (Hf x a) as (y & a1 & H1). rewrite (bind_ok _ _ _ _ _ H1).
  destruct (IH a1) as (ys & a2 & H2). rewrite (bind_ok _ _ _ _ _ H2). by eexists _, _.
Qed.

Lemma user_org_info_total rel a : ∃ y a', user_org_info rel a = (Ok y, a').
Proof.
  unfold user_org_info, dirSvc, DirectoryService_GetOrg, on_orgs, zoom. rewrite bind_try. simpl.
  unfold MemoryOrgStore_GetByID. destruct (orgs (app_orgs a) !! _); by eexists _, _.
Qed.

Lemma user_group_info_total m a : ∃ y a', user_group_info m a = (Ok y, a').
Proof.
  unfold user_group_info, dirSvc, DirectoryService_GetGroup, on_groups, zoom. rewrite bind_try. simpl.
  unfold MemoryGroupStore_GetByID. destruct (groups (app_groups a) !! _); by eexists _, _.
Qed.

(** The offset of a decoded listing request is a machine integer. *)
Lemma ParseInt_is_int s : is_int (ParseInt s).1.
Proof.
  assert (∀ n s, (0 ≤ n ≤ max_uint)%Z → match parse_uint n s with UintOk m => (0 ≤ m)%Z | _ => True end) as Hp.
  { clear s. intros n s. revert n. induction s as [|c s IH]; intros n Hn; simpl; [lia|].
    repeat (case_bool_decide; try done). apply IH. lia. }
  unfold ParseInt. destruct (match s with EmptyString => _ | _ => _ end) as [neg digits].
  case_bool_decide; [done|]. specialize (Hp 0%Z digits ltac:(done)).
  destruct (parse_uint 0 digits); [|by destruct neg|done].
  unfold is_int, min_int, max_int. destruct neg; case_bool_decide; simpl; lia.
Qed.

Lemma field_by_in {P} `{!JSONStruct P} test (f : field P) :
  field_by test = Some f → ∃ n, (n, f) ∈ json_fields.
Proof.
  unfold field_by. destruct (head _) as [[n g]|] eqn:E; [|done]. intros [= ->].
  apply head_Some_elem_of in E. apply list_elem_of_filter in E as [_ E]. by exists n.
Qed.

(** A property that every field assignment keeps holds of the decoded struct. *)
Lemma Unmarshal_ind {P} `{!JSONStruct P} (Q : P → Prop) payload :
  Q json_zero →
  (∀ n set s p, (n, StringField set) ∈ json_fields → Q p → Q (set s p)) →
  (∀ n set z p, (n, IntField set) ∈ json_fields → is_int z → Q p → Q (set z p)) →
  (∀ n set v p, (n, RawField set) ∈ json_fields → Q p → Q (set v p)) →
  (∀ n set l p, (n, StringsField set) ∈ json_fields → Q p → Q (set l p)) →
  Q (Unmarshal payload).1.
Proof.
  intros H0 HS HI HR HL. unfold Unmarshal. destruct payload as [[]|]; try done.
  revert H0. generalize json_zero. induction members as [|[key v] l IH]; intros p Hp; simpl; [done|].
  assert (Q (match find_field key with None => (p, true) | Some f => store_member p f v end).1) as Hp1.
  { destruct (find_field key) as [f|] eqn:E; [|done].
    assert (∃ n, (n, f) ∈ json_fields) as [n Hn].
    { unfold find_field in E. destruct (field_by _) eqn:E1; simplify_eq; by eapply field_by_in. }
    destruct f as [set|set|set|set]; [..|by eapply HR|];
      destruct v; simpl; try done; try by (eapply HS || eapply HL).
    pose proof (ParseInt_is_int text) as Hint. destruct (ParseInt text) as [z []]; [|done].
    by eapply HI. }
  destruct (match find_field key with None => _ | Some f => _ end) as [p1 ok1]. simpl in Hp1.
  specialize (IH p1 Hp1). by destruct (store_members p1 l).
Qed.

Lemma list_orgs_offset payload : is_int (LOP_Offset (Unmarshal payload).1).
Proof.
  apply (Unmarshal_ind (λ p, is_int (LOP_Offset p))); [done|..].
  - intros n set s p Hn. simpl in Hn. set_solver.
  - intros n set z p Hn Hz Hp. simpl in Hn.
    repeat (apply elem_of_cons in Hn as [[= _ ->]|Hn]; [done|]). by apply elem_of_nil in Hn.
  - intros n set v p Hn. simpl in Hn. set_solver.
  - intros n set l p Hn. simpl in Hn. set_solver.
Qed.

Lemma list_groups_offset payload : is_int (LGP_Offset (Unmarshal payload).1).
Proof.
  apply (Unmarshal_ind (λ p, is_int (LGP_Offset p))); [done|..].
  - intros n set s p Hn. simpl in Hn. set_solver.
  - intros n set z p Hn Hz Hp. simpl in Hn.
    repeat (apply elem_of_cons in Hn as [[= _ ->]|Hn]; [done|]). by apply elem_of_nil in Hn.
  - intros n set v p Hn. simpl in Hn. set_solver.
  - intros n set l p Hn. simpl in Hn. set_solver.
Qed.
(** The requests that panic: a listing whose decoded offset is negative. *)
Definition crashes (req : JSONRequest) : Prop :=
  (JReq_Action req = "list_orgs" ∧
     (LOP_Offset (Unmarshal (P := ListOrgsPayload) (JReq_Payload req)).1 < 0)%Z) ∨
  (JReq_Action req = "list_groups" ∧
     (LGP_Offset (Unmarshal (P := ListGroupsPayload) (JReq_Payload req)).1 < 0)%Z).

Lemma enumerate_length {V} iter (m : gmap string V) : (len (enumerate iter m) ≤ len iter)%Z.
Proof.
  unfold len, enumerate. induction iter as [|i iter IH]; [done|]. csimpl.
  destruct (m !! i); simpl in *; lia.
Qed.

Lemma list_orgs_outcome iter off lim a :
  is_int off → (len iter ≤ max_int - 100)%Z →
  match dirSvc (DirectoryService_ListOrgs iter off lim) a with
  | (Ok _, _) => (0 ≤ off)%Z | (Err _, _) => False | (Panic, _) => (off < 0)%Z end.
Proof.
  intros Hoff Hlen. unfold DirectoryService_ListOrgs, dirSvc, on_orgs, zoom. simpl.
  unfold MemoryOrgStore_List. pose proof (enumerate_length iter (orgs (app_orgs a))).
  pose proof (page_outcome (enumerate iter (orgs (app_orgs a))) off _ (clamp_limit_bounds lim) Hoff
    ltac:(lia)). by destruct (paginate _ off _).
Qed.

Lemma list_groups_outcome iter off lim a :
  is_int off → (len iter ≤ max_int - 100)%Z →
  match dirSvc (DirectoryService_ListGroups iter off lim) a with
  | (Ok _, _) => (0 ≤ off)%Z | (Err _, _) => False | (Panic, _) => (off < 0)%Z end.
Proof.
  intros Hoff Hlen. unfold DirectoryService_ListGroups, dirSvc, on_groups, zoom. simpl.
  unfold MemoryGroupStore_List. pose proof (enumerate_length iter (groups (app_groups a))).
  pose proof (page_outcome (enumerate iter (groups (app_groups a))) off _ (clamp_limit_bounds lim) Hoff
    ltac:(lia)). by destruct (paginate _ off _).
Qed.

(** *** Each handler *)
Section each.
Context (e : Env) (a : A) (Ha : app_ok a).
Context (Ho : (len (env_orgs e) ≤ max_int - 100)%Z) (Hg : (len (env_groups e) ≤ max_int - 100)%Z).

Definition proper_handler (action : string) (h : ActionHandler) : Prop :=
  ∀ payload rid, proper (crashes (mkJSONRequest action payload rid)) rid a (h e payload rid).

(** A handler that decodes, validates, and makes one call. *)
Ltac by_call Ht :=
  intros payload rid;
  repeat match goal with
  | |- proper _ _ _ (_ e payload rid) => progress cbv beta delta [handleAuth handleGetUser
      handleTriggerSync handleCreateOrg handleGetOrg handleAddOrgMember handleRemoveOrgMember
      handleListOrgMembers handleGetUserOrgs handleCreateGroup handleGetGroup
      handleAddGroupMember handleRemoveGroupMember handleListGroupMembers handleGetUserGroups]
  end;
  destruct (Unmarshal payload) as [p ok]; destruct ok; simpl negb; cbv iota;
  [|by apply proper_error];
  (case_bool_decide; [by apply proper_error|]);
  apply proper_tidy;
  [ Ht | intros v a'; try by eexists _, _ | intros; by eexists ].

Lemma proper_auth : proper_handler "auth" handleAuth.
Proof. by_call ltac:(by apply tidy_verify). Qed.
Lemma proper_get_user : proper_handler "get_user" handleGetUser.
Proof. by_call ltac:(case_bool_decide; [by apply tidy_get_user|by apply tidy_get_user_by_username]). Qed.
Lemma proper_trigger_sync : proper_handler "trigger_sync" handleTriggerSync.
Proof. by_call ltac:(by apply tidy_jobs). Qed.
Lemma proper_create_org : proper_handler "create_org" handleCreateOrg.
Proof. by_call ltac:(apply tidy_orgs; [apply neat_org_create|done]). Qed.
Lemma proper_get_org : proper_handler "get_org" handleGetOrg.
Proof. by_call ltac:(apply tidy_orgs; [apply neat_org_get|done]). Qed.
Lemma proper_add_org_member : proper_handler "add_org_member" handleAddOrgMember.
Proof. by_call ltac:(by apply tidy_add_org_member). Qed.
Lemma proper_remove_org_member : proper_handler "remove_org_member" handleRemoveOrgMember.
Proof. by_call ltac:(apply tidy_orgs; [apply neat_org_remove|done]). Qed.
Lemma proper_list_org_members : proper_handler "list_org_members" handleListOrgMembers.
Proof. by_call ltac:(by apply tidy_list_org_members). Qed.
Lemma proper_get_user_orgs : proper_handler "get_user_orgs" handleGetUserOrgs.
Proof.
  by_call ltac:(by apply tidy_orgs).
  destruct (collect_total user_org_info v a' user_org_info_total) as (ys & a2 & Hc).
  rewrite (bind_ok _ _ _ _ _ Hc). by eexists _, _.
Qed.
Lemma proper_create_group : proper_handler "create_group" handleCreateGroup.
Proof. by_call ltac:(apply tidy_groups; [apply neat_group_create|done]). Qed.
Lemma proper_get_group : proper_handler "get_group" handleGetGroup.
Proof. by_call ltac:(apply tidy_groups; [apply neat_group_get|done]). Qed.
Lemma proper_add_group_member : proper_handler "add_group_member" handleAddGroupMember.
Proof. by_call ltac:(by apply tidy_add_group_member). Qed.
Lemma proper_remove_group_member : proper_handler "remove_group_member" handleRemoveGroupMember.
Proof. by_call ltac:(apply tidy_groups; [apply neat_group_remove|done]). Qed.
Lemma proper_list_group_members : proper_handler "list_group_members" handleListGroupMembers.
Proof. by_call ltac:(by apply tidy_list_group_members). Qed.
Lemma proper_get_user_groups : proper_handler "get_user_groups" handleGetUserGroups.
Proof.
  by_call ltac:(by apply tidy_groups).
  destruct (collect_total user_group_info v a' user_group_info_total) as (ys & a2 & Hc).
  rewrite (bind_ok _ _ _ _ _ Hc). by eexists _, _.
Qed.

Lemma proper_ping : proper_handler "ping" handlePing.
Proof. intros payload rid. split; [done|]. right. auto. Qed.

Lemma proper_list_orgs : proper_handler "list_orgs" handleListOrgs.
Proof.
  intros payload rid. unfold handleListOrgs. pose proof (list_orgs_offset payload) as Hoff.
  destruct (Unmarshal payload) as [p ok] eqn:E. simpl in Hoff.
  apply proper_try; [by apply quiet_list_orgs| |intros; by eexists _, _|intros; by eexists].
  intros a' Hp. pose proof (list_orgs_outcome (env_orgs e) (LOP_Offset p) (LOP_Limit p) a Hoff Ho) as H.
  rewrite Hp in H. left. split; [done|]. simpl. by rewrite E.
Qed.

Lemma proper_list_groups : proper_handler "list_groups" handleListGroups.
Proof.
  intros payload rid. unfold handleListGroups. pose proof (list_groups_offset payload) as Hoff.
  destruct (Unmarshal payload) as [p ok] eqn:E. simpl in Hoff.
  apply proper_try; [by apply quiet_list_groups| |intros; by eexists _, _|intros; by eexists].
  intros a' Hp. pose proof (list_groups_outcome (env_groups e) (LGP_Offset p) (LGP_Limit p) a Hoff Hg) as H.
  rewrite Hp in H. right. split; [done|]. simpl. by rewrite E.
Qed.

Lemma registry_proper : map_Forall (K := string) (A := ActionHandler) proper_handler (NewHandlerRegistry : gmap string ActionHandler).
Proof.
  unfold NewHandlerRegistry, register.
  apply map_Forall_insert_2; [apply proper_get_user_groups|].
  apply map_Forall_insert_2; [apply proper_list_group_members|].
  apply map_Forall_insert_2; [apply proper_remove_group_member|].
  apply map_Forall_insert_2; [apply proper_add_group_member|].
  apply map_Forall_insert_2; [apply proper_list_groups|].
  apply map_Forall_insert_2; [apply proper_get_group|].
  apply map_Forall_insert_2; [apply proper_create_group|].
  apply map_Forall_insert_2; [apply proper_get_user_orgs|].
  apply map_Forall_insert_2; [apply proper_list_org_members|].
  apply map_Forall_insert_2; [apply proper_remove_org_member|].
  apply map_Forall_insert_2; [apply proper_add_org_member|].
  apply map_Forall_insert_2; [apply proper_list_orgs|].
  apply map_Forall_insert_2; [apply proper_get_org|].
  apply map_Forall_insert_2; [apply proper_create_org|].
  apply map_Forall_insert_2; [apply proper_ping|].
  apply map_Forall_insert_2; [apply proper_trigger_sync|].
  apply map_Forall_insert_2; [apply proper_get_user|].
  apply map_Forall_insert_2; [apply proper_auth|].
  apply map_Forall_empty.
Qed.
End each.

Lemma registry_list_orgs :
  (NewHandlerRegistry : gmap string (ActionHandler (US := US) (SS := MemorySyncJobStore)
    (OS := MemoryOrgStore) (GS := MemoryGroupStore))) !! "list_orgs" = Some handleListOrgs.
Proof.
  unfold NewHandlerRegistry, register.
  repeat rewrite lookup_insert_ne by done. by rewrite lookup_insert_eq.
Qed.

Lemma registry_list_groups :
  (NewHandlerRegistry : gmap string (ActionHandler (US := US) (SS := MemorySyncJobStore)
    (OS := MemoryOrgStore) (GS := MemoryGroupStore))) !! "list_groups" = Some handleListGroups.
Proof.
  unfold NewHandlerRegistry, register.
  repeat rewrite lookup_insert_ne by done. by rewrite lookup_insert_eq.
Qed.

Lemma Handle_registered e req (h : ActionHandler (US := US) (SS := MemorySyncJobStore)
    (OS := MemoryOrgStore) (GS := MemoryGroupStore)) :
  (NewHandlerRegistry : gmap string ActionHandler) !! JReq_Action req = Some h →
  Handle NewHandlerRegistry e req = h e (JReq_Payload req) (JReq_RequestID req).
Proof. intros Hh. unfold Handle, ActionHandler in *. by rewrite Hh. Qed.

(** ** Properties *)

(** C17. Every request to the registry is answered under its own id, with success, pong or an error;
    an error answer, an unknown action included, means that nothing changed. The only requests
    that panic instead are listings with a negative decoded offset. *)
Theorem uds_handle_outcome (e : Env) (req : JSONRequest) (a : A) :
  app_ok a → (len (env_orgs e) ≤ max_int - 100)%Z → (len (env_groups e) ≤ max_int - 100)%Z →
  let '(r, a') := Handle NewHandlerRegistry e req a in
  match r with
  | Ok resp =>
      JResp_RequestID resp = JReq_RequestID req ∧
      (JResp_Status resp = "error" ∧ JResp_Payload resp = PNone ∧ same a a' ∨
       (JResp_Status resp = "success" ∨ JResp_Status resp = "pong") ∧ JResp_Error resp = "")
  | Err _ => False
  | Panic => crashes req ∧ same a a'
  end.
Proof.
  intros Ha Ho Hg. pose proof (registry_proper e a Ha Ho Hg) as Hreg.
  assert (proper (crashes req) (JReq_RequestID req) a (Handle NewHandlerRegistry e req)) as Hp.
  { unfold Handle. destruct (NewHandlerRegistry !! JReq_Action req) as [h|] eqn:E;
      [|by apply proper_error]. destruct req. by apply (Hreg _ _ E). }
  exact Hp.
Qed.

(** A listing of organizations or groups whose decoded offset is negative panics, also when
    the rest of the payload is invalid; the handler recovers nothing, so the process ends. *)
Theorem uds_negative_offset_crashes (e : Env) (req : JSONRequest) (a : A) :
  crashes req → (Handle NewHandlerRegistry e req a).1 = Panic.
Proof.
  destruct req as [action payload rid]. unfold crashes.
  cbn [JReq_Action JReq_Payload JReq_RequestID]. intros [[-> Hoff]|[-> Hoff]].
  - rewrite (Handle_registered e (mkJSONRequest "list_orgs" payload rid) _ registry_list_orgs).
    unfold handleListOrgs. cbn [JReq_Payload]. destruct (Unmarshal payload) as [p ok]. cbn [fst] in Hoff.
    rewrite bind_try. unfold dirSvc, DirectoryService_ListOrgs, on_orgs, zoom. simpl.
    unfold MemoryOrgStore_List. by rewrite negative_offset_panics.
  - rewrite (Handle_registered e (mkJSONRequest "list_groups" payload rid) _ registry_list_groups).
    unfold handleListGroups. cbn [JReq_Payload]. destruct (Unmarshal payload) as [p ok]. cbn [fst] in Hoff.
    rewrite bind_try. unfold dirSvc, DirectoryService_ListGroups, on_groups, zoom. simpl.
    unfold MemoryGroupStore_List. by rewrite negative_offset_panics.
Qed.
End outcomes.

Section witnesses.
#[local] Existing Instance Sample.ascii_tables.

Lemma uds_handle_outcome_witness :
  let '(r, a') := Handle NewHandlerRegistry (SampleApp.env 0%Z)
    (mkJSONRequest "auth" (Some (JObject [("Username", JString "bob"); ("password", JString "no")])) "r1")
    SampleApp.app in
  r = Ok (errorResp "r1" "invalid credentials") ∧ same SampleApp.app a'.
Proof.
  pose proof (uds_handle_outcome (SampleApp.env 0%Z)
    (mkJSONRequest "auth" (Some (JObject [("Username", JString "bob"); ("password", JString "no")])) "r1")
    SampleApp.app SampleApp.app_is_ok ltac:(decided) ltac:(decided)) as H.
  assert ((Handle NewHandlerRegistry (SampleApp.env 0%Z)
    (mkJSONRequest "auth" (Some (JObject [("Username", JString "bob"); ("password", JString "no")])) "r1")
    SampleApp.app).1 = Ok (errorResp "r1" "invalid credentials")) as Hr
    by (vm_compute; reflexivity).
  destruct (Handle _ _ _ _) as [r a']. simpl in Hr. subst r. split; [reflexivity|].
  destruct H as [_ [(_ & _ & H)|[[H|H] _]]]; [exact H|discriminate H..].
Defined.

Lemma uds_negative_offset_crashes_witness :
  (Handle NewHandlerRegistry (SampleApp.env 0%Z)
    (mkJSONRequest "list_groups" (Some (JObject [("limit", JString "x"); ("offset", JNumber "-1")])) "r1")
    SampleApp.app).1 = Panic.
Proof.
  apply (uds_negative_offset_crashes (SampleApp.env 0%Z)
    (mkJSONRequest "list_groups" (Some (JObject [("limit", JString "x"); ("offset", JNumber "-1")])) "r1")
    SampleApp.app).
  right. split; [reflexivity|]. vm_compute. reflexivity.
Defined.
End witnesses.
