(* ===== verification/UdsServer.v ===== *)
(** * UDS server

    [internal/uds/server.go] after the handshake: the connection objects, the request loop of a
    connection, the accept loop with its connection limit, the idle check and the shutdown, as a
    transition system over the atomic steps of the server's goroutines. A request is read, handled
    and answered in one step; a read that would block is one whose bytes come later. *)

From Stdlib Require Import ZArith Lia Ascii String.
From stdpp Require Import base tactics numbers list gmap strings.
From S2P Require Import Prelude Model GoStrings GoJson GoJsonText GoIO UserStore UserMem UserHistory SyncJobs Membership OrgStore GroupStore Auth UserService DirectoryService App UdsMessages UdsCodec UdsHandshake UdsHandler.

(** Nanoseconds. *)
Definition IdleTimeout : Z := 60 * 1000000000.

(** ** Connections *)
Record Connection : Type := mkConnection {
  cn_id : string;
  cn_conn : Conn;
  cn_format : Format;
  cn_codec : Codec;
  cn_lastActive : Z;
  cn_closed : bool;
}.

Definition newConnection (id : string) (conn : Conn) (format : Format) (now : Z) : Connection :=
  mkConnection id conn format (NewCodec format) now false.

Definition touch (now : Z) (c : Connection) : Connection :=
  mkConnection (cn_id c) (cn_conn c) (cn_format c) (cn_codec c) now (cn_closed c).

(** The peer of a closed connection sees its end; reads and writes fail. *)
Definition ErrNetClosed : io_error := ErrNet "use of closed network connection".
Definition Conn_Close (c : Conn) : Conn := mkConn [] ErrNetClosed (conn_written c) (Some 0).

Definition Connection_Close (c : Connection) : Connection :=
  if cn_closed c then c
  else mkConnection (cn_id c) (Conn_Close (cn_conn c)) (cn_format c) (cn_codec c) (cn_lastActive c) true.

(** ** Server state *)
Record Config : Type := mkConfig { cfg_SocketPath : string; cfg_MaxConns : Z }.

(** Where a goroutine of [handleConn] stands. *)
Inductive Goroutine : Type :=
| GHandshake (c : Conn)
| GStored (c : Connection)
| GServing (c : Connection)
| GDeleted (c : Connection)
| GUncounted (c : Connection).

Section server.
Context {US SS OS GS : Type} `{!UserStore US, !SyncJobStore SS, !OrgStore OS, !GroupStore GS}.
Notation A := (App US SS OS GS).

(** [srv_goroutines] are the running [handleConn] calls; an entry of [srv_connections] points to the
    connection object of one of them. *)
Record Server : Type := mkServer {
  srv_socketPath : string;
  srv_connections : gmap string nat;
  srv_connCount : Z;
  srv_maxConns : Z;
  srv_goroutines : gmap nat Goroutine;
  srv_next : nat;
  srv_cancelled : bool;
  srv_listening : bool;
  srv_accepting : bool;
  srv_checking : bool;
  srv_app : A;
  srv_crashed : bool;
}.

Definition NewServer (cfg : Config) (a : A) : Server :=
  mkServer (cfg_SocketPath cfg) ∅ 0
    (if bool_decide (cfg_MaxConns cfg = 0)%Z then 100%Z else cfg_MaxConns cfg)
    ∅ 0 false false false false a false.

(** *** Updates of one field *)
Definition set_goroutine (g : nat) (p : Goroutine) (s : Server) : Server :=
  mkServer (srv_socketPath s) (srv_connections s) (srv_connCount s) (srv_maxConns s)
    (<[g := p]> (srv_goroutines s)) (srv_next s) (srv_cancelled s) (srv_listening s)
    (srv_accepting s) (srv_checking s) (srv_app s) (srv_crashed s).
Definition end_goroutine (g : nat) (s : Server) : Server :=
  mkServer (srv_socketPath s) (srv_connections s) (srv_connCount s) (srv_maxConns s)
    (delete g (srv_goroutines s)) (srv_next s) (srv_cancelled s) (srv_listening s)
    (srv_accepting s) (srv_checking s) (srv_app s) (srv_crashed s).
Definition set_connections (m : gmap string nat) (s : Server) : Server :=
  mkServer (srv_socketPath s) m (srv_connCount s) (srv_maxConns s)
    (srv_goroutines s) (srv_next s) (srv_cancelled s) (srv_listening s)
    (srv_accepting s) (srv_checking s) (srv_app s) (srv_crashed s).
Definition add_count (d : Z) (s : Server) : Server :=
  mkServer (srv_socketPath s) (srv_connections s) (srv_connCount s + d) (srv_maxConns s)
    (srv_goroutines s) (srv_next s) (srv_cancelled s) (srv_listening s)
    (srv_accepting s) (srv_checking s) (srv_app s) (srv_crashed s).
Definition set_app (a : A) (crashed : bool) (s : Server) : Server :=
  mkServer (srv_socketPath s) (srv_connections s) (srv_connCount s) (srv_maxConns s)
    (srv_goroutines s) (srv_next s) (srv_cancelled s) (srv_listening s)
    (srv_accepting s) (srv_checking s) a crashed.
Definition set_flags (cancelled listening accepting checking : bool) (s : Server) : Server :=
  mkServer (srv_socketPath s) (srv_connections s) (srv_connCount s) (srv_maxConns s)
    (srv_goroutines s) (srv_next s) cancelled listening accepting checking (srv_app s) (srv_crashed s).

(** ** Start *)

(** The outcomes of the calls on the socket file; a missing old file is no failure. *)
Record SocketCalls : Type := mkSocketCalls {
  call_Remove : option io_error;
  call_Listen : option io_error;
  call_Chmod : option io_error;
}.

(** [Start]: the listener and the two loops, or an error and no listener. *)
Definition Start (o : SocketCalls) : GoM io_error Server unit := λ s,
  match call_Remove o with
  | Some err => (Err (ErrWrap "failed to remove old socket" err), s)
  | None =>
      match call_Listen o with
      | Some err => (Err (ErrWrap ("failed to listen on " +:+ srv_socketPath s) err), s)
      | None =>
          match call_Chmod o with
          | Some err => (Err (ErrWrap "failed to chmod socket" err), s)
          | None => (Ok (), set_flags (srv_cancelled s) true true true s)
          end
      end
  end.

(** ** The request loop *)
Inductive Served : Type := Answered | Ended | Crashed.

(** One turn: read a request, handle it, answer it. *)
Definition serve_request (e : Env) (codec : Codec) (c : Conn) (a : A) : Served * Conn * A :=
  match ReadRequest codec c with
  | (Ok req, c) =>
      match Handle NewHandlerRegistry e req a with
      | (Ok resp, a) =>
          match WriteResponse codec resp c with
          | (Ok _, c) => (Answered, c, a)
          | (_, c) => (Ended, c, a)
          end
      | (_, a) => (Crashed, c, a)
      end
  | (_, c) => (Ended, c, a)
  end.

(** The connection object with another state of its socket. *)
Definition set_conn (c : Conn) (cn : Connection) : Connection :=
  mkConnection (cn_id cn) c (cn_format cn) (cn_codec cn) (cn_lastActive cn) (cn_closed cn).

(** Leaving the loop runs the deferred [connections.Delete]. *)
Definition leave (g : nat) (cn : Connection) (s : Server) : Server :=
  set_goroutine g (GDeleted cn) (set_connections (delete (cn_id cn) (srv_connections s)) s).

(** The next step of [handleConn] in goroutine [g] at time [now]. *)
Definition handleConn (g : nat) (now : Z) (e : Env) (s : Server) : option Server :=
  p ← srv_goroutines s !! g;
  Some match p with
  | GHandshake c =>
      match performHandshake c with
      | (Ok (format, codec), c) =>
          let connID := "conn-" +:+ FormatInt now in
          let cn := newConnection connID c format now in
          let cn := mkConnection (cn_id cn) (cn_conn cn) (cn_format cn) codec (cn_lastActive cn) (cn_closed cn) in
          set_goroutine g (GStored cn) (set_connections (<[connID := g]> (srv_connections s)) s)
      | _ => end_goroutine g s
      end
  | GStored cn => set_goroutine g (GServing cn) (add_count 1 s)
  | GServing cn =>
      if srv_cancelled s || cn_closed cn then leave g cn s
      else match serve_request e (cn_codec cn) (cn_conn cn) (srv_app s) with
           | (Answered, c, a) => set_goroutine g (GServing (touch now (set_conn c cn))) (set_app a false s)
           | (Ended, c, a) => leave g (set_conn c cn) (set_app a false s)
           | (Crashed, c, a) => set_app a true s
           end
  | GDeleted cn => set_goroutine g (GUncounted cn) (add_count (-1) s)
  | GUncounted cn => end_goroutine g s
  end.

(** ** The other goroutines *)

(** [acceptLoop] with a new connection. *)
Definition accept (c : Conn) (s : Server) : Server :=
  if bool_decide (srv_maxConns s ≤ srv_connCount s)%Z then s
  else mkServer (srv_socketPath s) (srv_connections s) (srv_connCount s) (srv_maxConns s)
    (<[srv_next s := GHandshake c]> (srv_goroutines s)) (S (srv_next s)) (srv_cancelled s)
    (srv_listening s) (srv_accepting s) (srv_checking s) (srv_app s) (srv_crashed s).

(** [value.( *Connection).Close()] on an entry of [connections]. *)
Definition close_goroutine (p : Goroutine) : Goroutine :=
  match p with
  | GHandshake c => GHandshake c
  | GStored cn => GStored (Connection_Close cn)
  | GServing cn => GServing (Connection_Close cn)
  | GDeleted cn => GDeleted (Connection_Close cn)
  | GUncounted cn => GUncounted (Connection_Close cn)
  end.

Definition close_entry (id : string) (s : Server) : Server :=
  match g ← srv_connections s !! id; p ← srv_goroutines s !! g; Some (g, p) with
  | Some (g, p) => set_goroutine g (close_goroutine p) s
  | None => s
  end.

Definition goroutine_connection (p : Goroutine) : option Connection :=
  match p with
  | GHandshake _ => None
  | GStored cn | GServing cn | GDeleted cn | GUncounted cn => Some cn
  end.

(** One visit of [idleChecker]'s [Range]. *)
Definition idle_visit (now : Z) (id : string) (s : Server) : Server :=
  match g ← srv_connections s !! id; p ← srv_goroutines s !! g; goroutine_connection p with
  | Some cn => if bool_decide (IdleTimeout < now - cn_lastActive cn)%Z then close_entry id s else s
  | None => s
  end.

(** The steps: those of the goroutines, those of [Stop], and the arrival of a connection. *)
Inductive Label : Type :=
| LAccept (c : Conn)
| LAcceptExit
| LHandle (g : nat) (now : Z) (e : Env)
| LIdle (now : Z) (id : string)
| LIdleExit
| LCancel
| LCloseListener
| LStopClose (id : string).

Definition server_step (s : Server) (l : Label) : option Server :=
  if srv_crashed s then None
  else match l with
  | LAccept c => if srv_accepting s && srv_listening s then Some (accept c s) else None
  | LAcceptExit =>
      if srv_accepting s && negb (srv_listening s) && srv_cancelled s
      then Some (set_flags (srv_cancelled s) (srv_listening s) false (srv_checking s) s) else None
  | LHandle g now e => handleConn g now e s
  | LIdle now id => if srv_checking s then Some (idle_visit now id s) else None
  | LIdleExit =>
      if srv_checking s && srv_cancelled s
      then Some (set_flags (srv_cancelled s) (srv_listening s) (srv_accepting s) false s) else None
  | LCancel => Some (set_flags true (srv_listening s) (srv_accepting s) (srv_checking s) s)
  | LCloseListener =>
      if srv_cancelled s
      then Some (set_flags (srv_cancelled s) false (srv_accepting s) (srv_checking s) s) else None
  | LStopClose id =>
      if srv_cancelled s && negb (srv_listening s) then Some (close_entry id s) else None
  end.

Fixpoint server_run (s : Server) (ls : list Label) : option Server :=
  match ls with
  | [] => Some s
  | l :: ls => s ← server_step s l; server_run s ls
  end.

(** A server whose start succeeded, and the states it can come to. *)
Definition started (cfg : Config) (a : A) : Server :=
  (Start (mkSocketCalls None None None) (NewServer cfg a)).2.

Definition reachable (cfg : Config) (a : A) (s : Server) : Prop :=
  ∃ ls, server_run (started cfg a) ls = Some s.

(** [ConnCount]. *)
Definition ConnCount (s : Server) : Z := srv_connCount s.
End server.

(** ** Weights of the running goroutines *)
Definition weight (f : Goroutine → nat) (m : gmap nat Goroutine) : nat :=
  map_fold (λ _ p n, f p + n) 0 m.

Section weight.
Context (f : Goroutine → nat).

Lemma weight_delete m g p : m !! g = Some p → weight f m = f p + weight f (delete g m).
Proof. intros Hg. unfold weight. apply (map_fold_delete_L (λ _ p n, f p + n)); [lia|done]. Qed.

Lemma weight_fresh m g p : m !! g = None → weight f (<[g := p]> m) = f p + weight f m.
Proof. intros Hg. unfold weight. apply (map_fold_insert_L (λ _ p n, f p + n)); [lia|done]. Qed.

Lemma weight_set m g p q : m !! g = Some p → weight f (<[g := q]> m) + f p = weight f m + f q.
Proof.
  intros Hg. rewrite (weight_delete m g p Hg).
  rewrite (weight_delete (<[g := q]> m) g q), delete_insert_eq by apply lookup_insert_eq. lia.
Qed.

Lemma weight_empty : weight f ∅ = 0.
Proof. done. Qed.
End weight.

(** The goroutines the connection counter counts. *)
Definition counted (p : Goroutine) : nat :=
  match p with GServing _ | GDeleted _ => 1 | _ => 0 end.





Lemma counted_close p : counted (close_goroutine p) = counted p.
Proof. by destruct p. Qed.

Section facts.
Context {US SS OS GS : Type} `{!UserStore US, !SyncJobStore SS, !OrgStore OS, !GroupStore GS}.
Notation A := (App US SS OS GS).
Implicit Types (s : Server (US := US) (SS := SS) (OS := OS) (GS := GS)).

(** Closing an entry changes at most the socket of one goroutine. *)
Lemma close_entry_cases id s :
  close_entry id s = s ∨
  ∃ g p, srv_goroutines s !! g = Some p ∧ close_entry id s = set_goroutine g (close_goroutine p) s.
Proof.
  unfold close_entry. destruct (srv_connections s !! id) as [g|]; simpl; [|by left].
  destruct (srv_goroutines s !! g) as [p|] eqn:E; simpl; [|by left]. right. by exists g, p.
Qed.

Lemma idle_visit_cases now id s : idle_visit now id s = s ∨ idle_visit now id s = close_entry id s.
Proof. unfold idle_visit. destruct (_ ≫= _); [|by left]. case_bool_decide; auto. Qed.

(** *** The connection counter *)
Record counts s : Prop := {
  counts_exact : srv_connCount s = Z.of_nat (weight counted (srv_goroutines s));
  counts_fresh : ∀ g, srv_next s ≤ g → srv_goroutines s !! g = None;
}.

Lemma counts_set g p q s (d : Z) s' :
  counts s → srv_goroutines s !! g = Some p → srv_goroutines s' = <[g := q]> (srv_goroutines s) →
  srv_next s' = srv_next s → srv_connCount s' = (srv_connCount s + d)%Z →
  (Z.of_nat (counted q) = Z.of_nat (counted p) + d)%Z → counts s'.
Proof.
  intros [He Hf] Hg Hs Hn Hc Hd. pose proof (weight_set counted _ g p q Hg) as Hw. split.
  - rewrite Hc, Hs, He. lia.
  - intros g' Hg'. rewrite Hn in Hg'. rewrite Hs, lookup_insert_ne; [by apply Hf|].
    intros <-. rewrite Hf in Hg; [done|lia].
Qed.

Lemma counts_end g p s :
  counts s → srv_goroutines s !! g = Some p → counted p = 0 → counts (end_goroutine g s).
Proof.
  intros [He Hf] Hg Hp. pose proof (weight_delete counted _ g p Hg) as Hw. split; simpl.
  - rewrite He. lia.
  - intros g' Hg'. destruct (decide (g = g')) as [->|]; [by rewrite lookup_delete_eq|].
    rewrite lookup_delete_ne by done. by apply Hf.
Qed.

Lemma counts_ext s s' :
  srv_goroutines s' = srv_goroutines s → srv_next s' = srv_next s → srv_connCount s' = srv_connCount s →
  counts s → counts s'.
Proof. intros H1 H2 H3 [He Hf]. split; [congruence|]. rewrite H1, H2. done. Qed.

Lemma counts_close id s : counts s → counts (close_entry id s).
Proof.
  intros Hs. destruct (close_entry_cases id s) as [->|(g & p & Hg & ->)]; [done|].
  apply (counts_set g p (close_goroutine p) s 0); try done; simpl; [lia|]. rewrite counted_close. lia.
Qed.

Lemma counts_handle g now e s s' : counts s → handleConn g now e s = Some s' → counts s'.
Proof.
  intros Hs. unfold handleConn. destruct (srv_goroutines s !! g) as [p|] eqn:Hg; [|done].
  cbn [mbind option_bind]. intros [= <-]. destruct p as [c|cn|cn|cn|cn].
  - destruct (performHandshake c) as [[[format codec]|err|] c']; [|by eapply counts_end..].
    eapply (counts_set g _ _ s 0); [done|done|reflexivity|done|simpl; lia|simpl; lia].
  - eapply (counts_set g _ _ s 1); [done|done|reflexivity|done|simpl; lia|simpl; lia].
  - destruct (srv_cancelled s || cn_closed cn).
    { eapply (counts_set g _ _ s 0); [done|done|reflexivity|done|simpl; lia|simpl; lia]. }
    destruct (serve_request e (cn_codec cn) (cn_conn cn) (srv_app s)) as [[[| |] c] a].
    + eapply (counts_set g _ _ s 0); [done|done|reflexivity|done|simpl; lia|simpl; lia].
    + eapply (counts_set g _ _ s 0); [done|done|reflexivity|done|simpl; lia|simpl; lia].
    + by apply (counts_ext s).
  - eapply (counts_set g _ _ s (-1)); [done|done|reflexivity|done|simpl; lia|simpl; lia].
  - by eapply counts_end.
Qed.

Lemma counts_accept c s : counts s → counts (accept c s).
Proof.
  intros [He Hf]. unfold accept. case_bool_decide; [by split|]. split; simpl.
  - rewrite weight_fresh by (by apply Hf). done.
  - intros g Hg. rewrite lookup_insert_ne by lia. apply Hf. lia.
Qed.

Lemma counts_step s l s' : counts s → server_step s l = Some s' → counts s'.
Proof.
  intros Hs. unfold server_step. destruct (srv_crashed s); [done|].
  destruct l; try (destruct (_ && _); [|done]); try (intros [= <-]).
  - by apply counts_accept.
  - by apply (counts_ext s).
  - by apply counts_handle.
  - destruct (srv_checking s); [|done]. intros [= <-].
    destruct (idle_visit_cases now id s) as [->| ->]; [done|by apply counts_close].
  - by apply (counts_ext s).
  - by apply (counts_ext s).
  - destruct (srv_cancelled s); [|done]. intros [= <-]. by apply (counts_ext s).
  - by apply counts_close.
Qed.

(** An invariant of the steps along a run. *)
Lemma run_invariant (P : Server → Prop) s ls s' :
  (∀ s l s', P s → server_step s l = Some s' → P s') → P s → server_run s ls = Some s' → P s'.
Proof.
  intros Hstep. revert s. induction ls as [|l ls IH]; intros s Hs; simpl; [by intros [= <-]|].
  destruct (server_step s l) as [s1|] eqn:E; [|done]. apply IH. by eapply Hstep.
Qed.

Lemma counts_new cfg (a : A) : counts (started cfg a).
Proof. split; [by rewrite weight_empty|]. intros g _. apply lookup_empty. Qed.

Lemma counts_reachable cfg (a : A) s : reachable cfg a s → counts s.
Proof. intros [ls Hr]. eapply (run_invariant counts); [apply counts_step|by apply counts_new|exact Hr]. Qed.










End facts.

(** ** Properties *)
Section properties.
Context {US SS OS GS : Type} `{!UserStore US, !SyncJobStore SS, !OrgStore OS, !GroupStore GS}.
Notation A := (App US SS OS GS).
Implicit Types (s : Server (US := US) (SS := SS) (OS := OS) (GS := GS)).

(** C34. In every reachable state, under any interleaving of the goroutines, [ConnCount] is exactly
    the number of connections between the increment after their handshake and the decrement when
    they end; so it is never negative. *)
Theorem conn_count_exact (cfg : Config) (a : A) s : reachable cfg a s →
  ConnCount s = Z.of_nat (weight counted (srv_goroutines s)) ∧ (0 ≤ ConnCount s)%Z.
Proof.
  intros Hr. destruct (counts_reachable _ _ _ Hr) as [He _]. unfold ConnCount. rewrite He. split; [done|lia].
Qed.


(** The connection limit can be exceeded: two clients that connect before either has finished
    its handshake are both served by a server configured for one connection. *)
Theorem limit_can_be_exceeded (a : A) : ∃ s, reachable (mkConfig "/tmp/idp-uds.sock" 1) a s ∧
  srv_maxConns s = 1%Z ∧ ConnCount s = 2%Z.
Proof.
  pose (c := mkConn [frame (SampleHandshake.text "1.0" "protobuf")] EOF [] None).
  pose (e := mkEnv 0%Z 0%Z 0%Z "" [] [] []). eexists. split.
  - exists [LAccept c; LAccept c; LHandle 0 1%Z e; LHandle 1 2%Z e; LHandle 0 3%Z e; LHandle 1 4%Z e].
    vm_compute. reflexivity.
  - split; reflexivity.
Qed.
End properties.

(** *** Sessions *)
Section sessions.
Context {US SS OS GS : Type} `{!UserStore US, !SyncJobStore SS, !OrgStore OS, !GroupStore GS}.
Notation A := (App US SS OS GS).








End sessions.

(** ** Witnesses *)
Module SampleServer.
Definition client : Conn :=
  mkConn [frame (SampleHandshake.text "1.0" "protobuf")] EOF [] None.
Definition cfg : Config := mkConfig "/tmp/idp-uds.sock" 10.
Definition env : Env := SampleApp.env 0%Z.
Definition start : list Label := [LAccept client; LHandle 0 1%Z env; LHandle 0 2%Z env].

End SampleServer.

Section witnesses.
#[local] Existing Instance Sample.ascii_tables.

Lemma conn_count_exact_witness : ∃ s,
  server_run (started SampleServer.cfg SampleApp.app) SampleServer.start = Some s ∧
  ConnCount s = Z.of_nat (weight counted (srv_goroutines s)) ∧ ConnCount s = 1%Z.
Proof.
  eexists. split; [vm_compute; reflexivity|]. split; [|reflexivity].
  apply (conn_count_exact SampleServer.cfg SampleApp.app). exists SampleServer.start. vm_compute. reflexivity.
Defined.


End witnesses.
