(* ===== verification/Rest.v ===== *)
(** * REST interface

    [internal/api]: the handlers of [handler.go] and [directory_handler.go], the token
    middleware and the route table of [router.go]. Gin's JSON binding and its route matching
    are parameters; a panic in a handler is turned into a 500 answer by [gin.Recovery]. *)

From Stdlib Require Import ZArith Lia Ascii.
From stdpp Require Import base tactics numbers list gmap strings.
From S2P Require Import Prelude Model GoStrings UserStore UserMem UserHistory SyncJobs OrgStore GroupStore Auth UserService DirectoryService App.

(** ** Requests and responses *)
Inductive Method : Type := GET | POST | PUT | DELETE.
#[export] Instance Method_eq_dec : EqDecision Method.
Proof. solve_decision. Defined.

Record Request : Type := mkRequest {
  rq_method : Method;
  rq_path : string;
  rq_auth : string;                    (* the Authorization header, empty if absent *)
  rq_query : list (string * string);   (* the parsed query, in order *)
  rq_body : string;
}.

(** The parts of a [gin.Context] the handlers read. *)
Record Context : Type := mkContext {
  ctx_request : Request;
  ctx_params : list (string * string); (* path parameters *)
  ctx_user_id : string;                (* set by the middleware *)
}.

Definition assoc (k : string) (l : list (string * string)) : option string :=
  snd <$> head (filter (λ kv, kv.1 = k) l).
Definition Param (c : Context) (k : string) : string := default "" (assoc k (ctx_params c)).
Definition Query (c : Context) (k : string) : string :=
  default "" (assoc k (rq_query (ctx_request c))).
Definition DefaultQuery (c : Context) (k d : string) : string :=
  default d (assoc k (rq_query (ctx_request c))).

(** The JSON value of an answer, by the Go value it is made from. *)
Inductive Body : Type :=
| BodyNone
| BodyError (msg : string)
| BodyMessage (msg : string)
| BodyOnline (user_id : string)
| BodyHealth
| BodyUser (u : User)
| BodyUsers (total offset limit : Z) (items : list User)
| BodyLogin (r : LoginResponse)
| BodyJob (j : SyncJob)
| BodyCount (n : Z)
| BodyOrg (o : Organization)
| BodyOrgs (total offset limit : Z) (items : list Organization)
| BodyOrgItems (items : list Organization) (total : Z)
| BodyOrgRelation (r : UserOrgRelation)
| BodyOrgRelations (items : list UserOrgRelation) (total : Z)
| BodyOrgMembers (items : list OrgMemberDetail) (total : Z)
| BodyGroup (g : Group)
| BodyGroups (total offset limit : Z) (items : list Group)
| BodyGroupMember (m : GroupMember)
| BodyGroupMembers (items : list GroupMember) (total : Z)
| BodyGroupDetails (items : list GroupMemberDetail) (total : Z).

Record Response : Type := mkResponse { rs_status : Z; rs_body : Body }.

Definition StatusOK : Z := 200.
Definition StatusCreated : Z := 201.
Definition StatusNoContent : Z := 204.
Definition StatusMovedPermanently : Z := 301.
Definition StatusTemporaryRedirect : Z := 307.
Definition StatusBadRequest : Z := 400.
Definition StatusUnauthorized : Z := 401.
Definition StatusNotFound : Z := 404.
Definition StatusConflict : Z := 409.
Definition StatusInternalServerError : Z := 500.

(** Gin's [ShouldBindJSON] into a request struct: decoding and the [binding] tags. *)
Class BindJSON (A : Type) : Type := ShouldBindJSON : string → error + A.

(** ** Route table *)
Inductive HandlerName : Type :=
| HHealth
| HLogin
| HLogout
| HOnline
| HCreateUser
| HListUsers
| HGetOnlineCount
| HGetUser
| HUpdateUser
| HDeleteUser
| HGetUserOrgs
| HGetUserGroups
| HCreateOrg
| HListOrgs
| HGetOrg
| HUpdateOrg
| HDeleteOrg
| HListOrgChildren
| HAddOrgMember
| HListOrgMembers
| HRemoveOrgMember
| HCreateGroup
| HListGroups
| HGetGroup
| HUpdateGroup
| HDeleteGroup
| HAddGroupMember
| HListGroupMembers
| HRemoveGroupMember
| HCreateSyncJob
| HGetSyncJob.

#[export] Instance HandlerName_eq_dec : EqDecision HandlerName.
Proof. solve_decision. Defined.

Record Route : Type := mkRoute {
  rt_method : Method;
  rt_pattern : string;
  rt_protected : bool;       (* behind [JWTMiddleware] *)
  rt_handler : HandlerName;
}.

#[export] Instance Route_eq_dec : EqDecision Route.
Proof. solve_decision. Defined.

(** The routes of [SetupRouter], without the profiling routes that ENABLE_PPROF adds. *)
Definition routes : list Route := [
  mkRoute GET "/health" false HHealth;
  mkRoute POST "/api/v1/auth/login" false HLogin;
  mkRoute POST "/api/v1/auth/logout" true HLogout;
  mkRoute POST "/api/v1/auth/online" true HOnline;
  mkRoute POST "/api/v1/users" true HCreateUser;
  mkRoute GET "/api/v1/users" true HListUsers;
  mkRoute GET "/api/v1/users/online/count" true HGetOnlineCount;
  mkRoute GET "/api/v1/users/:id" true HGetUser;
  mkRoute PUT "/api/v1/users/:id" true HUpdateUser;
  mkRoute DELETE "/api/v1/users/:id" true HDeleteUser;
  mkRoute GET "/api/v1/users/:id/orgs" true HGetUserOrgs;
  mkRoute GET "/api/v1/users/:id/groups" true HGetUserGroups;
  mkRoute POST "/api/v1/orgs" true HCreateOrg;
  mkRoute GET "/api/v1/orgs" true HListOrgs;
  mkRoute GET "/api/v1/orgs/:id" true HGetOrg;
  mkRoute PUT "/api/v1/orgs/:id" true HUpdateOrg;
  mkRoute DELETE "/api/v1/orgs/:id" true HDeleteOrg;
  mkRoute GET "/api/v1/orgs/:id/children" true HListOrgChildren;
  mkRoute POST "/api/v1/orgs/:id/members" true HAddOrgMember;
  mkRoute GET "/api/v1/orgs/:id/members" true HListOrgMembers;
  mkRoute DELETE "/api/v1/orgs/:id/members/:userId" true HRemoveOrgMember;
  mkRoute POST "/api/v1/groups" true HCreateGroup;
  mkRoute GET "/api/v1/groups" true HListGroups;
  mkRoute GET "/api/v1/groups/:id" true HGetGroup;
  mkRoute PUT "/api/v1/groups/:id" true HUpdateGroup;
  mkRoute DELETE "/api/v1/groups/:id" true HDeleteGroup;
  mkRoute POST "/api/v1/groups/:id/members" true HAddGroupMember;
  mkRoute GET "/api/v1/groups/:id/members" true HListGroupMembers;
  mkRoute DELETE "/api/v1/groups/:id/members/:userId" true HRemoveGroupMember;
  mkRoute POST "/api/v1/sync/jobs" true HCreateSyncJob;
  mkRoute GET "/api/v1/sync/jobs/:id" true HGetSyncJob;
  mkRoute GET "/scim/v2/Users" true HListUsers;
  mkRoute POST "/scim/v2/Users" true HCreateUser;
  mkRoute GET "/scim/v2/Users/:id" true HGetUser;
  mkRoute PUT "/scim/v2/Users/:id" true HUpdateUser;
  mkRoute DELETE "/scim/v2/Users/:id" true HDeleteUser
].

(** Matching segment by segment; a ":name" segment takes any non-empty text. *)
Fixpoint match_segments (pattern path : list string) : option (list (string * string)) :=
  match pattern, path with
  | [], [] => Some []
  | p :: pattern, x :: path =>
      match p with
      | String ":" name =>
          if bool_decide (x = "") then None
          else ps ← match_segments pattern path; Some ((name, x) :: ps)
      | _ => if bool_decide (p = x) then match_segments pattern path else None
      end
  | _, _ => None
  end.

Definition segments (s : string) : list string := let '(h, t) := split_byte "/" s in h :: t.

(** Gin's matching of a method and path against the table, with the path parameters: the route it
    finds is one of the table whose pattern fits the path. A path without a route may be redirected
    to the one with or without a slash at its end, when that has a route. *)
Class Router : Type := {
  match_route : Method → string → option (Route * list (string * string));
  match_route_sound m p r ps : match_route m p = Some (r, ps) → r ∈ routes ∧ rt_method r = m;
  match_route_fits m p r ps : match_route m p = Some (r, ps) →
    match_segments (segments (rt_pattern r)) (segments p) = Some ps;
  redirect_slash : Method → string → option string;
  redirect_slash_law m p p' : redirect_slash m p = Some p' →
    is_Some (match_route m p') ∧ (p' = p +:+ "/" ∨ p = p' +:+ "/");
}.

(** The profiling pages of [net/http/pprof], behind no middleware: what they show is the process, not
    the stores. A path that differs from one of theirs by a slash at its end is redirected. *)
Class Pprof : Type := { pprof : Request → Response }.

Definition debug_paths : list string :=
  ["/debug/pprof/"; "/debug/pprof/cmdline"; "/debug/pprof/profile"; "/debug/pprof/symbol";
   "/debug/pprof/trace"; "/debug/pprof/allocs"; "/debug/pprof/heap"; "/debug/pprof/goroutine";
   "/debug/pprof/block"; "/debug/pprof/mutex"].
Definition debug_redirect (p : string) : bool :=
  bool_decide (Exists (λ d, p = d +:+ "/" ∨ d = p +:+ "/") debug_paths).

Section handlers.
Context {US SS OS GS : Type} `{!UserStore US, !SyncJobStore SS, !OrgStore OS, !GroupStore GS}.
Context `{JWT}.
Context `{!BindJSON CreateUserRequest, !BindJSON UpdateUserRequest, !BindJSON LoginRequest,
  !BindJSON CreateSyncJobRequest, !BindJSON CreateOrgRequest, !BindJSON UpdateOrgRequest,
  !BindJSON AddOrgMemberRequest, !BindJSON CreateGroupRequest, !BindJSON UpdateGroupRequest,
  !BindJSON AddGroupMemberRequest}.
Notation A := (App US SS OS GS).
Notation M := (GoM error A).

Definition JSON (code : Z) (body : Body) : M Response := mret (mkResponse code body).

(** The binding block most handlers start with. *)
Definition with_body {X} `{BindJSON X} (c : Context) (k : X → M Response) : M Response :=
  match ShouldBindJSON (rq_body (ctx_request c)) with
  | inl err => JSON StatusBadRequest (BodyError (Error err))
  | inr req => k req
  end.

(** ** User handlers *)
Definition Handler_CreateUser (e : Env) (c : Context) : M Response :=
  with_body c (λ req : CreateUserRequest,
    r ← try (userSvc (UserService_CreateUser (env_now e) (env_uuid e) req));
    match r with
    | inr err =>
        if bool_decide (err = ErrUserAlreadyExists)
        then JSON StatusConflict (BodyError "user already exists")
        else JSON StatusBadRequest (BodyError (Error err))
    | inl u => JSON StatusCreated (BodyUser u)
    end).

Definition Handler_GetUser (e : Env) (c : Context) : M Response :=
  r ← try (userSvc (UserService_GetUser (Param c "id")));
  match r with
  | inr err =>
      if bool_decide (err = ErrUserNotFound)
      then JSON StatusNotFound (BodyError "user not found")
      else JSON StatusInternalServerError (BodyError "failed to get user")
  | inl v => JSON StatusOK (BodyUser v)
  end.

Definition Handler_UpdateUser (e : Env) (c : Context) : M Response :=
  with_body c (λ req : UpdateUserRequest,
    r ← try (userSvc (UserService_UpdateUser (env_now e) (Param c "id") req));
    match r with
    | inr err =>
        if bool_decide (err = ErrUserNotFound)
        then JSON StatusNotFound (BodyError "user not found")
        else JSON StatusInternalServerError (BodyError "failed to update user")
    | inl v => JSON StatusOK (BodyUser v)
    end).

Definition Handler_DeleteUser (e : Env) (c : Context) : M Response :=
  r ← try (userSvc (UserService_DeleteUser (env_now e) (Param c "id")));
  match r with
  | inr err =>
      if bool_decide (err = ErrUserNotFound)
      then JSON StatusNotFound (BodyError "user not found")
      else JSON StatusInternalServerError (BodyError "failed to delete user")
  | inl _ => JSON StatusNoContent BodyNone
  end.

Definition Handler_ListUsers (e : Env) (c : Context) : M Response :=
  let offset := Atoi (DefaultQuery c "offset" "0") in
  let limit := Atoi (DefaultQuery c "limit" "20") in
  r ← try (userSvc (UserService_ListUsers (env_users e) (Query c "q") offset limit));
  match r with
  | inr _ => JSON StatusInternalServerError (BodyError "failed to list users")
  | inl v => JSON StatusOK (BodyUsers v.2 offset limit v.1)
  end.

Definition Handler_Login (e : Env) (c : Context) : M Response :=
  with_body c (λ req : LoginRequest,
    r ← try (userSvc (UserService_Login (env_now e) (env_now1 e) (env_now2 e) (LR_Username req) (LR_Password req)));
    match r with
    | inr err =>
        JSON StatusUnauthorized (BodyError (Error err))
    | inl v => JSON StatusOK (BodyLogin v)
    end).

Definition Handler_CreateSyncJob (e : Env) (c : Context) : M Response :=
  with_body c (λ req : CreateSyncJobRequest,
    r ← try (userSvc (UserService_CreateSyncJob (env_now e) (env_now1 e) (env_uuid e) req));
    match r with
    | inr _ => JSON StatusInternalServerError (BodyError "failed to create sync job")
    | inl v => JSON StatusCreated (BodyJob v)
    end).

Definition Handler_GetSyncJob (e : Env) (c : Context) : M Response :=
  r ← try (userSvc (UserService_GetSyncJob (Param c "id")));
  match r with
  | inr _ => JSON StatusNotFound (BodyError "sync job not found")
  | inl job => JSON StatusOK (BodyJob job)
  end.

Definition Handler_GetOnlineCount (e : Env) (c : Context) : M Response :=
  r ← try (userSvc (UserService_GetOnlineCount (env_users e)));
  match r with
  | inr _ =>
      JSON StatusInternalServerError (BodyError "failed to get online count")
  | inl v => JSON StatusOK (BodyCount v)
  end.

(** The handlers behind the middleware that act for the token's user. *)
Definition Handler_Logout (e : Env) (c : Context) : M Response :=
  let userID := ctx_user_id c in
  if bool_decide (userID = "") then JSON StatusUnauthorized (BodyError "unauthorized")
  else
    r ← try (userSvc (UserService_Logout (env_now e) userID));
    match r with
    | inr _ => JSON StatusInternalServerError (BodyError "logout failed")
    | inl _ => JSON StatusOK (BodyMessage "logged out successfully")
    end.

Definition Handler_Online (e : Env) (c : Context) : M Response :=
  let userID := ctx_user_id c in
  if bool_decide (userID = "") then JSON StatusUnauthorized (BodyError "unauthorized")
  else
    r ← try (userSvc (UserService_SetOnline (env_now e) userID true));
    match r with
    | inr _ => JSON StatusInternalServerError (BodyError "failed to set online")
    | inl _ => JSON StatusOK (BodyOnline userID)
    end.

(** ** Organization handlers *)
Definition DirectoryHandler_CreateOrg (e : Env) (c : Context) : M Response :=
  with_body c (λ req : CreateOrgRequest,
    r ← try (dirSvc (DirectoryService_CreateOrg (env_now e) (env_uuid e) req));
    match r with
    | inr err =>
        JSON StatusBadRequest (BodyError (Error err))
    | inl v => JSON StatusCreated (BodyOrg v)
    end).

Definition DirectoryHandler_GetOrg (e : Env) (c : Context) : M Response :=
  r ← try (dirSvc (DirectoryService_GetOrg (Param c "id")));
  match r with
  | inr err =>
      if bool_decide (err = ErrOrgNotFound)
      then JSON StatusNotFound (BodyError "organization not found")
      else JSON StatusInternalServerError (BodyError (Error err))
  | inl v => JSON StatusOK (BodyOrg v)
  end.

Definition DirectoryHandler_UpdateOrg (e : Env) (c : Context) : M Response :=
  with_body c (λ req : UpdateOrgRequest,
    r ← try (dirSvc (DirectoryService_UpdateOrg (env_now e) (Param c "id") req));
    match r with
    | inr err =>
        if bool_decide (err = ErrOrgNotFound)
        then JSON StatusNotFound (BodyError "organization not found")
        else JSON StatusInternalServerError (BodyError (Error err))
    | inl v => JSON StatusOK (BodyOrg v)
    end).

Definition DirectoryHandler_DeleteOrg (e : Env) (c : Context) : M Response :=
  r ← try (dirSvc (DirectoryService_DeleteOrg (Param c "id")));
  match r with
  | inr err =>
      if bool_decide (err = ErrOrgNotFound)
      then JSON StatusNotFound (BodyError "organization not found")
      else JSON StatusInternalServerError (BodyError (Error err))
  | inl _ => JSON StatusNoContent BodyNone
  end.

Definition DirectoryHandler_ListOrgs (e : Env) (c : Context) : M Response :=
  let offset := Atoi (DefaultQuery c "offset" "0") in
  let limit := Atoi (DefaultQuery c "limit" "20") in
  r ← try (dirSvc (DirectoryService_ListOrgs (env_orgs e) offset limit));
  match r with
  | inr err => JSON StatusInternalServerError (BodyError (Error err))
  | inl v => JSON StatusOK (BodyOrgs v.2 offset limit v.1)
  end.

Definition DirectoryHandler_ListOrgChildren (e : Env) (c : Context) : M Response :=
  r ← try (dirSvc (DirectoryService_ListOrgChildren (env_orgs e) (Param c "id")));
  match r with
  | inr err =>
      JSON StatusInternalServerError (BodyError (Error err))
  | inl v => JSON StatusOK (BodyOrgItems v (len v))
  end.

Definition DirectoryHandler_AddOrgMember (e : Env) (c : Context) : M Response :=
  with_body c (λ req : AddOrgMemberRequest,
    r ← try (dirSvc (DirectoryService_AddOrgMember (Param c "id") req));
    match r with
    | inr err =>
        match err with
        | ErrUserNotFound => JSON StatusNotFound (BodyError "user not found")
        | ErrOrgNotFound => JSON StatusNotFound (BodyError "organization not found")
        | ErrMemberExists => JSON StatusConflict (BodyError "user is already a member")
        | _ => JSON StatusInternalServerError (BodyError (Error err))
        end
    | inl v => JSON StatusCreated (BodyOrgRelation v)
    end).

Definition DirectoryHandler_RemoveOrgMember (e : Env) (c : Context) : M Response :=
  r ← try (dirSvc (DirectoryService_RemoveOrgMember (Param c "id") (Param c "userId")));
  match r with
  | inr err =>
      if bool_decide (err = ErrMemberNotFound)
      then JSON StatusNotFound (BodyError "member not found")
      else JSON StatusInternalServerError (BodyError (Error err))
  | inl _ => JSON StatusNoContent BodyNone
  end.

Definition DirectoryHandler_ListOrgMembers (e : Env) (c : Context) : M Response :=
  r ← try (dirSvc (DirectoryService_ListOrgMembers (Param c "id")));
  match r with
  | inr err =>
      if bool_decide (err = ErrOrgNotFound)
      then JSON StatusNotFound (BodyError "organization not found")
      else JSON StatusInternalServerError (BodyError (Error err))
  | inl v => JSON StatusOK (BodyOrgMembers v (len v))
  end.

Definition DirectoryHandler_GetUserOrgs (e : Env) (c : Context) : M Response :=
  r ← try (dirSvc (DirectoryService_GetUserOrgs (Param c "id")));
  match r with
  | inr err =>
      JSON StatusInternalServerError (BodyError (Error err))
  | inl v => JSON StatusOK (BodyOrgRelations v (len v))
  end.

(** ** Group handlers *)
Definition DirectoryHandler_CreateGroup (e : Env) (c : Context) : M Response :=
  with_body c (λ req : CreateGroupRequest,
    r ← try (dirSvc (DirectoryService_CreateGroup (env_now e) (env_uuid e) req));
    match r with
    | inr err =>
        JSON StatusInternalServerError (BodyError (Error err))
    | inl v => JSON StatusCreated (BodyGroup v)
    end).

Definition DirectoryHandler_GetGroup (e : Env) (c : Context) : M Response :=
  r ← try (dirSvc (DirectoryService_GetGroup (Param c "id")));
  match r with
  | inr err =>
      if bool_decide (err = ErrGroupNotFound)
      then JSON StatusNotFound (BodyError "group not found")
      else JSON StatusInternalServerError (BodyError (Error err))
  | inl v => JSON StatusOK (BodyGroup v)
  end.

Definition DirectoryHandler_UpdateGroup (e : Env) (c : Context) : M Response :=
  with_body c (λ req : UpdateGroupRequest,
    r ← try (dirSvc (DirectoryService_UpdateGroup (env_now e) (Param c "id") req));
    match r with
    | inr err =>
        if bool_decide (err = ErrGroupNotFound)
        then JSON StatusNotFound (BodyError "group not found")
        else JSON StatusInternalServerError (BodyError (Error err))
    | inl v => JSON StatusOK (BodyGroup v)
    end).

Definition DirectoryHandler_DeleteGroup (e : Env) (c : Context) : M Response :=
  r ← try (dirSvc (DirectoryService_DeleteGroup (Param c "id")));
  match r with
  | inr err =>
      if bool_decide (err = ErrGroupNotFound)
      then JSON StatusNotFound (BodyError "group not found")
      else JSON StatusInternalServerError (BodyError (Error err))
  | inl _ => JSON StatusNoContent BodyNone
  end.

Definition DirectoryHandler_ListGroups (e : Env) (c : Context) : M Response :=
  let offset := Atoi (DefaultQuery c "offset" "0") in
  let limit := Atoi (DefaultQuery c "limit" "20") in
  r ← try (dirSvc (DirectoryService_ListGroups (env_groups e) offset limit));
  match r with
  | inr err => JSON StatusInternalServerError (BodyError (Error err))
  | inl v => JSON StatusOK (BodyGroups v.2 offset limit v.1)
  end.

Definition DirectoryHandler_AddGroupMember (e : Env) (c : Context) : M Response :=
  with_body c (λ req : AddGroupMemberRequest,
    r ← try (dirSvc (DirectoryService_AddGroupMember (env_now e) (Param c "id") req));
    match r with
    | inr err =>
        match err with
        | ErrUserNotFound => JSON StatusNotFound (BodyError "user not found")
        | ErrGroupNotFound => JSON StatusNotFound (BodyError "group not found")
        | ErrMemberExists => JSON StatusConflict (BodyError "user is already a member")
        | _ => JSON StatusInternalServerError (BodyError (Error err))
        end
    | inl v => JSON StatusCreated (BodyGroupMember v)
    end).

Definition DirectoryHandler_RemoveGroupMember (e : Env) (c : Context) : M Response :=
  r ← try (dirSvc (DirectoryService_RemoveGroupMember (Param c "id") (Param c "userId")));
  match r with
  | inr err =>
      if bool_decide (err = ErrMemberNotFound)
      then JSON StatusNotFound (BodyError "member not found")
      else JSON StatusInternalServerError (BodyError (Error err))
  | inl _ => JSON StatusNoContent BodyNone
  end.

Definition DirectoryHandler_ListGroupMembers (e : Env) (c : Context) : M Response :=
  r ← try (dirSvc (DirectoryService_ListGroupMembers (Param c "id")));
  match r with
  | inr err =>
      if bool_decide (err = ErrGroupNotFound)
      then JSON StatusNotFound (BodyError "group not found")
      else JSON StatusInternalServerError (BodyError (Error err))
  | inl v => JSON StatusOK (BodyGroupDetails v (len v))
  end.

Definition DirectoryHandler_GetUserGroups (e : Env) (c : Context) : M Response :=
  r ← try (dirSvc (DirectoryService_GetUserGroups (Param c "id")));
  match r with
  | inr err =>
      JSON StatusInternalServerError (BodyError (Error err))
  | inl v => JSON StatusOK (BodyGroupMembers v (len v))
  end.

(** ** Middleware *)

(** The token of the Authorization header: a "Bearer " prefix is dropped when something
    follows it. *)
Definition bearer_token (header : string) : string :=
  if bool_decide (7 < String.length header) && String.prefix "Bearer " header
  then string_drop 7 header else header.

Definition JWTMiddleware (now : Time) (next : Context → M Response) (c : Context) : M Response :=
  let tokenStr := bearer_token (rq_auth (ctx_request c)) in
  if bool_decide (tokenStr = "")
  then JSON StatusUnauthorized (BodyError "missing authorization token")
  else
    a ← get;
    match ValidateToken (app_auth a) now tokenStr with
    | inl _ => JSON StatusUnauthorized (BodyError "invalid token")
    | inr claims => next (mkContext (ctx_request c) (ctx_params c) (Claims_UserID claims))
    end.

(** [gin.Recovery]: a panic in the chain becomes an empty 500 answer. *)
Definition Recovery (m : M Response) : M Response := λ a,
  match m a with
  | (Panic, a') => (Ok (mkResponse StatusInternalServerError BodyNone), a')
  | r => r
  end.

(** ** Routes *)
Definition run_handler (h : HandlerName) (e : Env) (c : Context) : M Response :=
  match h with
  | HHealth => JSON 200 BodyHealth
  | HLogin => Handler_Login e c
  | HLogout => Handler_Logout e c
  | HOnline => Handler_Online e c
  | HCreateUser => Handler_CreateUser e c
  | HListUsers => Handler_ListUsers e c
  | HGetOnlineCount => Handler_GetOnlineCount e c
  | HGetUser => Handler_GetUser e c
  | HUpdateUser => Handler_UpdateUser e c
  | HDeleteUser => Handler_DeleteUser e c
  | HGetUserOrgs => DirectoryHandler_GetUserOrgs e c
  | HGetUserGroups => DirectoryHandler_GetUserGroups e c
  | HCreateOrg => DirectoryHandler_CreateOrg e c
  | HListOrgs => DirectoryHandler_ListOrgs e c
  | HGetOrg => DirectoryHandler_GetOrg e c
  | HUpdateOrg => DirectoryHandler_UpdateOrg e c
  | HDeleteOrg => DirectoryHandler_DeleteOrg e c
  | HListOrgChildren => DirectoryHandler_ListOrgChildren e c
  | HAddOrgMember => DirectoryHandler_AddOrgMember e c
  | HListOrgMembers => DirectoryHandler_ListOrgMembers e c
  | HRemoveOrgMember => DirectoryHandler_RemoveOrgMember e c
  | HCreateGroup => DirectoryHandler_CreateGroup e c
  | HListGroups => DirectoryHandler_ListGroups e c
  | HGetGroup => DirectoryHandler_GetGroup e c
  | HUpdateGroup => DirectoryHandler_UpdateGroup e c
  | HDeleteGroup => DirectoryHandler_DeleteGroup e c
  | HAddGroupMember => DirectoryHandler_AddGroupMember e c
  | HListGroupMembers => DirectoryHandler_ListGroupMembers e c
  | HRemoveGroupMember => DirectoryHandler_RemoveGroupMember e c
  | HCreateSyncJob => Handler_CreateSyncJob e c
  | HGetSyncJob => Handler_GetSyncJob e c
  end.

(** The engine: match the route, run its chain under [Recovery]; a redirection or 404 when nothing
    matches. *)
Definition no_route `{Router} (rq : Request) : Response :=
  match redirect_slash (rq_method rq) (rq_path rq) with
  | Some _ => mkResponse (if bool_decide (rq_method rq = GET) then StatusMovedPermanently
                          else StatusTemporaryRedirect) BodyNone
  | None => mkResponse StatusNotFound BodyNone
  end.

Definition ServeHTTP `{Router} (e : Env) (rq : Request) : M Response :=
  match match_route (rq_method rq) (rq_path rq) with
  | None => mret (no_route rq)
  | Some (r, params) =>
      let c := mkContext rq params "" in
      Recovery (if rt_protected r
                then JWTMiddleware (env_now e) (run_handler (rt_handler r) e) c
                else run_handler (rt_handler r) e c)
  end.

(** With [ENABLE_PPROF] set to [true] the profiling pages come before all this. *)
Definition SetupRouter `{!Router, !Pprof} (ENABLE_PPROF : string) (e : Env) (rq : Request) : M Response :=
  if bool_decide (ENABLE_PPROF = "true" ∧ rq_method rq = GET) then
    if bool_decide (rq_path rq ∈ debug_paths) then mret (pprof rq)
    else if debug_redirect (rq_path rq) then mret (mkResponse StatusMovedPermanently BodyNone)
    else ServeHTTP e rq
  else ServeHTTP e rq.

Lemma SetupRouter_cases `{!Router, !Pprof} x e rq a :
  SetupRouter x e rq a = ServeHTTP e rq a ∨ ∃ rs, SetupRouter x e rq a = (Ok rs, a).
Proof.
  unfold SetupRouter. case_bool_decide; [|by left]. case_bool_decide; [right; by eexists|].
  destruct (debug_redirect _); [right; by eexists|by left].
Qed.
End handlers.

(** ** Facts *)
Section facts.
Context `{UT : UnicodeTables} {US SS OS GS : Type}.
Context `{!UserStore US, !UserStoreLaws US, !SyncJobStore SS, !OrgStore OS, !GroupStore GS}.
Context `{JL : JWTLaws} `{!Router}.
Context `{!BindJSON CreateUserRequest, !BindJSON UpdateUserRequest, !BindJSON LoginRequest,
  !BindJSON CreateSyncJobRequest, !BindJSON CreateOrgRequest, !BindJSON UpdateOrgRequest,
  !BindJSON AddOrgMemberRequest, !BindJSON CreateGroupRequest, !BindJSON UpdateGroupRequest,
  !BindJSON AddGroupMemberRequest}.
Notation A := (App US SS OS GS).
Implicit Types (a : A).

(** The only handlers without the middleware. *)
Lemma open_routes r : r ∈ routes → rt_protected r = false → rt_handler r = HHealth ∨ rt_handler r = HLogin.
Proof.
  intros Hr. assert (Forall (λ r, rt_protected r = false → rt_handler r = HHealth ∨ rt_handler r = HLogin)
    routes) as Hall by decided.
  rewrite Forall_forall in Hall. by apply Hall.
Qed.

Lemma middleware_refuses now next c a :
  (∀ cl, ValidateToken (app_auth a) now (bearer_token (rq_auth (ctx_request c))) ≠ inr cl) →
  ∃ msg, JWTMiddleware now next c a = (Ok (mkResponse StatusUnauthorized (BodyError msg)), a).
Proof.
  intros Hbad. unfold JWTMiddleware. case_bool_decide; [by eexists|]. rewrite bind_get.
  destruct (ValidateToken _ _ _); [by eexists|]. by edestruct Hbad.
Qed.

Lemma middleware_accepts now next c a cl :
  bearer_token (rq_auth (ctx_request c)) ≠ "" →
  ValidateToken (app_auth a) now (bearer_token (rq_auth (ctx_request c))) = inr cl →
  JWTMiddleware now next c a
    = next (mkContext (ctx_request c) (ctx_params c) (Claims_UserID cl)) a.
Proof.
  intros Hne Hok. unfold JWTMiddleware. rewrite bool_decide_eq_false_2 by done.
  rewrite bind_get. by rewrite Hok.
Qed.

Lemma bearer_token_of tok : tok ≠ "" → bearer_token ("Bearer " +:+ tok) = tok.
Proof.
  intros Hne. unfold bearer_token. rewrite prefix_app, andb_true_r, bool_decide_eq_true_2.
  - apply (string_drop_app "Bearer ").
  - rewrite string_length_app. destruct tok; [done|]. simpl. lia.
Qed.

(** ** Properties *)

(** C3. Without a token that validates, a request reads and changes nothing: it is answered 401,
    or with the engine's redirection or 404 when no route matches; only the health check and the login are open. *)
Theorem rest_requires_token (e : Env) (rq : Request) (a : A) :
  (∀ cl, ValidateToken (app_auth a) (env_now e) (bearer_token (rq_auth rq)) ≠ inr cl) →
  let '(r, a') := ServeHTTP e rq a in
  match match_route (rq_method rq) (rq_path rq) with
  | None => r = Ok (no_route rq) ∧ a' = a
  | Some (rt, _) =>
      rt_handler rt = HLogin ∨
      (a' = a ∧ (rt_handler rt = HHealth ∧ r = Ok (mkResponse StatusOK BodyHealth) ∨
         ∃ msg, r = Ok (mkResponse StatusUnauthorized (BodyError msg))))
  end.
Proof.
  intros Hbad. unfold ServeHTTP.
  destruct (match_route (rq_method rq) (rq_path rq)) as [[rt ps]|] eqn:Em; [|done].
  apply match_route_sound in Em as [Hin _]. destruct (rt_protected rt) eqn:Ep.
  - destruct (middleware_refuses (env_now e) (run_handler (rt_handler rt) e) (mkContext rq ps "") a Hbad)
      as (msg & Hrun). unfold Recovery. rewrite Hrun. right. split; [done|]. right. by exists msg.
  - destruct (open_routes rt Hin Ep) as [Hh|Hh]; rewrite Hh; [|destruct (Recovery _ a); by left].
    unfold Recovery, run_handler. simpl. right. split; [done|]. left. done.
Qed.

Definition login_route : Route := mkRoute POST "/api/v1/auth/login" false HLogin.
Definition logout_route : Route := mkRoute POST "/api/v1/auth/logout" true HLogout.

(** C12. A session: a login answered 200 puts exactly its user online; until the announced expiry
    the token it returned opens the logout, which takes exactly that user offline again; from the
    expiry on it is answered 401 and changes nothing. *)
Theorem rest_session (e e' : Env) (a a1 : A) (body : string) (resp : LoginResponse) :
  app_ok a → User_ID (LResp_User resp) ≠ "" →
  match_route POST "/api/v1/auth/login" = Some (login_route, []) →
  match_route POST "/api/v1/auth/logout" = Some (logout_route, []) →
  ServeHTTP e (mkRequest POST "/api/v1/auth/login" "" [] body) a
    = (Ok (mkResponse StatusOK (BodyLogin resp)), a1) →
  let id := User_ID (LResp_User resp) in
  let logout := mkRequest POST "/api/v1/auth/logout" ("Bearer " +:+ LResp_Token resp) [] "" in
  app_directory a1 = with_online (env_now e) id true (app_directory a) ∧
  let '(r, a2) := ServeHTTP e' logout a1 in
  if bool_decide (Unix (env_now e') < LResp_Expires resp)%Z
  then r = Ok (mkResponse StatusOK (BodyMessage "logged out successfully")) ∧
       app_directory a2 = with_online (env_now e') id false (app_directory a1)
  else (∃ msg, r = Ok (mkResponse StatusUnauthorized (BodyError msg))) ∧ a2 = a1.
Proof.
  intros Hok Hid Hlogin Hlogout. unfold ServeHTTP. simpl. rewrite Hlogin, Hlogout. simpl.
  unfold Recovery at 1, Handler_Login, with_body. simpl.
  destruct (ShouldBindJSON body) as [err|req]; [done|].
  rewrite bind_try, userSvc_run.
  destruct (UserService_Login _ _ _ _ _ (user_svc a)) as [r s'] eqn:El; simpl.
  destruct r as [resp'|err|]; [|done|done]. simpl. intros [= -> <-].
  destruct (login_ok _ _ _ _ _ (user_svc a) _ _ Hok El) as (u & _ & Hu & Hi & Hl & _ & Hok' & Ha & Hd & Hg).
  rewrite Hu in *. simpl in *. split; [done|].
  destruct (token_exact _ _ _ _ _ _ _ Hg) as (cl & Hc & Huc & _ & _ & Huniq & Hne & _).
  set (c := mkContext (mkRequest POST "/api/v1/auth/logout" ("Bearer " +:+ LResp_Token resp) [] "") [] "").
  set (a1 := set_user_svc s' a).
  assert (app_auth a1 = app_auth a) as Hauth by done.
  assert (bearer_token (rq_auth (ctx_request c)) = LResp_Token resp) as Htok by by apply bearer_token_of.
  case_bool_decide as Hexp.
  - unfold Recovery. rewrite (middleware_accepts _ _ _ _ cl); rewrite ?Htok, ?Hauth;
      [|done|by apply Hc]. simpl.
    unfold Handler_Logout. simpl. rewrite Huc, bool_decide_eq_false_2 by done.
    rewrite bind_try, userSvc_run.
    destruct (set_online_run (env_now e') (User_ID u) false (user_svc a1) Hok') as (us & Hset & _ & Hds).
    change (UserService_Logout ?n ?i) with (UserService_SetOnline (US := US) (SS := SS) n i false).
    assert (∃ u', directory (user_svc a1) !! User_ID u = Some u' ∧ live u') as (u' & Hi' & Hl').
    { exists (set_User_UpdatedAt (env_now e) (set_User_IsOnline true u)). split; [|done].
      change (directory (user_svc a1)) with (directory s'). rewrite Hd. unfold with_online.
      by rewrite lookup_alter_eq, Hi. }
    rewrite Hi' in Hset, Hds. destruct (decide (live u')); [|done].
    rewrite Hset. simpl. by split.
  - destruct (middleware_refuses (env_now e') (run_handler HLogout e') c a1) as (msg & Hrun).
    { intros cl' Hv. rewrite Htok, Hauth in Hv. pose proof (Huniq _ _ Hv) as ->.
      by apply Hc in Hv. }
    unfold Recovery. rewrite Hrun. split; [by exists msg|done].
Qed.
End facts.

(** ** Error answers

    Over the in-memory stores and any lawful user store. *)
Section errors.
Context `{UT : UnicodeTables} {US : Type} `{!UserStore US, !UserStoreLaws US}.
Context `{JWT} `{!Router}.
Context `{!BindJSON CreateUserRequest, !BindJSON UpdateUserRequest, !BindJSON LoginRequest,
  !BindJSON CreateSyncJobRequest, !BindJSON CreateOrgRequest, !BindJSON UpdateOrgRequest,
  !BindJSON AddOrgMemberRequest, !BindJSON CreateGroupRequest, !BindJSON UpdateGroupRequest,
  !BindJSON AddGroupMemberRequest}.
Notation A := (App US MemorySyncJobStore MemoryOrgStore MemoryGroupStore).
Implicit Types (a : A).

(** A handler whose answers of 400 and more, and whose panics, change nothing. *)
Definition honest_at (a : A) (h : GoM error A Response) : Prop :=
  match h a with
  | (Ok rs, a') => (400 ≤ rs_status rs)%Z → same a a'
  | (_, a') => same a a'
  end.

Lemma honest_JSON a code body : app_ok a → honest_at a (JSON code body).
Proof. intros Ha _. by apply same_refl. Qed.

Lemma honest_try {X} a (m : GoM error A X) (k : X + error → GoM error A Response) :
  quiet_at a m → (∀ v a, ∃ rs, k (inl v) a = (Ok rs, a) ∧ (rs_status rs < 400)%Z) →
  (∀ err a, ∃ rs, k (inr err) a = (Ok rs, a)) → honest_at a (try m ≫= k).
Proof.
  unfold quiet_at, honest_at. intros Hm Hok Herr. rewrite bind_try.
  destruct (m a) as [[v|err|] a'].
  - destruct (Hok v a') as (rs & -> & Hlt). lia.
  - destruct (Herr err a') as (rs & ->). done.
  - done.
Qed.

Lemma honest_with_body {X} `{BindJSON X} a c (k : X → GoM error A Response) :
  app_ok a →
  (∀ req, ShouldBindJSON (rq_body (ctx_request c)) = inr req → honest_at a (k req)) →
  honest_at a (with_body c k).
Proof.
  intros Ha Hk. unfold with_body. destruct (ShouldBindJSON _) as [err|req]; [by apply honest_JSON|].
  by apply Hk.
Qed.

(** *** Handlers *)
Ltac honest_handler q :=
  apply honest_try;
  [ q
  | intros; eexists; split;
    [reflexivity|simpl; unfold StatusOK, StatusCreated, StatusNoContent; lia]
  | intros; repeat case_match; eexists; reflexivity ].

(** The handlers that pass a body on to a service. *)
Lemma body_handlers_honest a h e c :
  app_ok a → app_directory a !! env_uuid e = None →
  (h = HUpdateUser → ∀ req : UpdateUserRequest,
     ShouldBindJSON (rq_body (ctx_request c)) = inr req → UUR_Status req ≠ UserStatusDeleted) →
  h ∈ [HCreateUser; HUpdateUser; HCreateSyncJob; HCreateOrg; HUpdateOrg; HAddOrgMember;
       HCreateGroup; HUpdateGroup; HAddGroupMember] →
  honest_at a (run_handler h e c).
Proof.
  intros Ha Hid Hupd Hh. repeat (apply elem_of_cons in Hh as [->|Hh]); [..|by apply elem_of_nil in Hh];
    simpl; (apply honest_with_body; [done|]); intros req Hreq.
  - honest_handler ltac:(by apply tidy_quiet, tidy_create_user).
  - honest_handler ltac:(apply tidy_quiet, tidy_update_user; [by apply Hupd|done]).
  - honest_handler ltac:(by apply tidy_quiet, tidy_jobs).
  - honest_handler ltac:(apply tidy_quiet, tidy_orgs; [apply neat_org_create|done]).
  - honest_handler ltac:(by apply tidy_quiet, tidy_update_org).
  - honest_handler ltac:(by apply tidy_quiet, tidy_add_org_member).
  - honest_handler ltac:(apply tidy_quiet, tidy_groups; [apply neat_group_create|done]).
  - honest_handler ltac:(by apply tidy_quiet, tidy_update_group).
  - honest_handler ltac:(by apply tidy_quiet, tidy_add_group_member).
Qed.

(** The remaining ones, but the login. *)
Lemma plain_handlers_honest a h e c :
  app_ok a →
  h ∉ [HLogin; HCreateUser; HUpdateUser; HCreateSyncJob; HCreateOrg; HUpdateOrg; HAddOrgMember;
       HCreateGroup; HUpdateGroup; HAddGroupMember] →
  honest_at a (run_handler h e c).
Proof.
  intros Ha Hh. apply (bool_decide_eq_false_2 _) in Hh.
  destruct h; try (vm_compute in Hh; discriminate Hh); clear Hh; simpl.
  all: try by apply honest_JSON.
  all: try (unfold Handler_Logout, Handler_Online; cbv zeta; case_bool_decide; [by apply honest_JSON|]).
  all: honest_handler ltac:(first
    [ by apply quiet_list_users | by apply quiet_online_count | by apply quiet_list_orgs
    | by apply quiet_list_groups
    | apply tidy_quiet; first
      [ by apply tidy_set_online | by apply tidy_get_user | by apply tidy_delete_user
      | by apply tidy_list_org_members | by apply tidy_list_group_members
      | apply tidy_jobs; [by auto with tidy|done]
      | apply tidy_orgs; [by auto with tidy|done]
      | apply tidy_groups; [by auto with tidy|done] ] ]).
Qed.

Definition deletes_by_update (h : HandlerName) (body : string) : Prop :=
  h = HUpdateUser ∧ ∃ req : UpdateUserRequest,
    ShouldBindJSON body = inr req ∧ UUR_Status req = UserStatusDeleted.

(** Whether a request is the exception of the update can be read off its body. *)
Lemma deletes_by_update_dec h body : deletes_by_update h body ∨ ¬ deletes_by_update h body.
Proof.
  unfold deletes_by_update. destruct (decide (h = HUpdateUser)) as [->|]; [|naive_solver].
  destruct (ShouldBindJSON body) as [err|req] eqn:E; [naive_solver|].
  destruct (decide (UUR_Status req = UserStatusDeleted)); naive_solver.
Qed.

Lemma handlers_honest a h e c :
  app_ok a → app_directory a !! env_uuid e = None → h ≠ HLogin →
  ¬ deletes_by_update h (rq_body (ctx_request c)) → honest_at a (run_handler h e c).
Proof.
  intros Ha Hid Hl Hd. destruct (decide (h ∈ [HCreateUser; HUpdateUser; HCreateSyncJob; HCreateOrg;
    HUpdateOrg; HAddOrgMember; HCreateGroup; HUpdateGroup; HAddGroupMember])) as [Hh|Hh].
  - apply body_handlers_honest; try done. intros -> req Hreq Hst. apply Hd. split; [done|]. by exists req.
  - apply plain_handlers_honest; [done|]. rewrite elem_of_cons. by intros [?|?].
Qed.

(** Either the middleware refuses, which changes nothing, or the handler runs. *)
Lemma chain_honest a h e c (protected : bool) :
  app_ok a → (∀ c', ctx_request c' = ctx_request c → honest_at a (run_handler h e c')) →
  honest_at a (if protected then JWTMiddleware (env_now e) (run_handler h e) c
               else run_handler h e c).
Proof.
  intros Ha Hh. destruct protected; [|by apply Hh]. unfold JWTMiddleware.
  case_bool_decide; [by apply honest_JSON|]. unfold honest_at. rewrite bind_get.
  destruct (ValidateToken _ _ _); [by apply honest_JSON|]. by apply Hh.
Qed.

Lemma recovery_honest a m :
  honest_at a m →
  let '(r, a') := Recovery m a in ∀ rs, r = Ok rs → (400 ≤ rs_status rs)%Z → same a a'.
Proof.
  unfold honest_at, Recovery. destruct (m a) as [[r|err|] a']; intros Hm rs; [|done|done].
  intros [= <-]. done.
Qed.

(** C18. Over the in-memory stores, an answer of 400 or more means that nothing happened: users,
    jobs, organizations, groups and memberships are as before. The exceptions are the login, and
    the update of a user with status deleted, which takes effect and answers 404. *)
Theorem rest_errors_change_nothing (e : Env) (rq : Request) (a : A) :
  app_ok a → app_directory a !! env_uuid e = None →
  let '(r, a') := ServeHTTP e rq a in
  ∀ rs, r = Ok rs → (400 ≤ rs_status rs)%Z →
    same a a' ∨ ∃ rt ps, match_route (rq_method rq) (rq_path rq) = Some (rt, ps) ∧
      (rt_handler rt = HLogin ∨ deletes_by_update (rt_handler rt) (rq_body rq)).
Proof.
  intros Ha Hid. unfold ServeHTTP.
  destruct (match_route (rq_method rq) (rq_path rq)) as [[rt ps]|] eqn:Em;
    [|intros rs _ _; left; by apply same_refl].
  destruct (decide (rt_handler rt = HLogin)) as [Hl|Hl];
    [destruct (Recovery _ a); right; by eauto|].
  destruct (deletes_by_update_dec (rt_handler rt) (rq_body rq)) as [Hd|Hd];
    [destruct (Recovery _ a); right; by eauto|].
  match goal with |- context [Recovery ?m a] => pose proof (recovery_honest a m) as Hm end.
  destruct (Recovery _ a) as [r a']. intros rs Hr Hst. left. revert rs Hr Hst. apply Hm.
  apply chain_honest; [done|]. intros c' Hc'. apply handlers_honest; by rewrite ?Hc'.
Qed.
End errors.

(** ** Concrete instances *)
Module SampleRest.
Fixpoint first_match (m : Method) (p : string) (l : list Route) : option (Route * list (string * string)) :=
  match l with
  | [] => None
  | r :: l =>
      if bool_decide (rt_method r = m) then
        match match_segments (segments (rt_pattern r)) (segments p) with
        | Some ps => Some (r, ps)
        | None => first_match m p l
        end
      else first_match m p l
  end.

Lemma first_match_sound m p l r ps : first_match m p l = Some (r, ps) → r ∈ l ∧ rt_method r = m.
Proof.
  induction l as [|x l IH]; [done|]. simpl. case_bool_decide.
  - destruct (match_segments _ _); [intros [= <- <-]; split; [left|done]|].
    intros [??]%IH. split; [by right|done].
  - intros [??]%IH. split; [by right|done].
Qed.

Lemma first_match_fits m p l r ps : first_match m p l = Some (r, ps) →
  match_segments (segments (rt_pattern r)) (segments p) = Some ps.
Proof.
  induction l as [|x l IH]; [done|]. simpl. case_bool_decide; [|done].
  destruct (match_segments (segments (rt_pattern x)) (segments p)) eqn:E; [by intros [= <- <-]|done].
Qed.

#[export] Instance router : Router := {
  match_route m p := first_match m p routes;
  match_route_sound m p := first_match_sound m p routes;
  match_route_fits m p := first_match_fits m p routes;
  redirect_slash _ _ := None;
  redirect_slash_law m p p' H := ltac:(discriminate H);
}.

(** Bodies: a password for the login, a status for the update, nothing else. *)
#[export] Instance bind_login : BindJSON LoginRequest := λ body, inr (mkLoginRequest "bob" body).
#[export] Instance bind_update : BindJSON UpdateUserRequest := λ body,
  inr (mkUpdateUserRequest "" "" body).
#[export] Instance bind_none {A} : BindJSON A | 100 := λ _, inl (ErrorString "EOF").

Definition bob_token : string :=
  Clear.issue None "s" (mkClaims "2" "bob" (Some 86400000000000%Z) (Some 0%Z) "2").
End SampleRest.

Section witnesses.
#[local] Existing Instance Sample.ascii_tables.
#[local] Existing Instance Clear.jwt.
#[local] Existing Instance Clear.jwt_laws.
#[local] Existing Instance SampleRest.router.
#[local] Existing Instance SampleRest.bind_login.
#[local] Existing Instance SampleRest.bind_update.
#[local] Existing Instance SampleRest.bind_none | 100.

Lemma rest_requires_token_witness :
  let '(r, a') := ServeHTTP (SampleApp.env 0%Z)
    (mkRequest DELETE "/api/v1/users/2" "Bearer forged" [] "") SampleApp.app in
  a' = SampleApp.app ∧ ∃ msg, r = Ok (mkResponse StatusUnauthorized (BodyError msg)).
Proof.
  assert (∀ cl, ValidateToken (app_auth SampleApp.app) (env_now (SampleApp.env 0%Z))
    (bearer_token "Bearer forged") ≠ inr cl) as Hbad by (intros cl Hv; vm_compute in Hv; discriminate Hv).
  pose proof (rest_requires_token (SampleApp.env 0%Z)
    (mkRequest DELETE "/api/v1/users/2" "Bearer forged" [] "") SampleApp.app Hbad) as H.
  assert (match_route DELETE "/api/v1/users/2"
    = Some (mkRoute DELETE "/api/v1/users/:id" true HDeleteUser, [("id", "2")])) as Hm
    by (vm_compute; reflexivity).
  simpl rq_method in H. simpl rq_path in H. rewrite Hm in H.
  destruct (ServeHTTP _ _ _) as [r a']. simpl rt_handler in H.
  destruct H as [Hh|[Ha [[Hh _]|Hm']]]; [discriminate Hh|discriminate Hh|].
  split; [exact Ha|exact Hm'].
Defined.

Lemma rest_session_witness :
  ∃ resp a1, ServeHTTP (SampleApp.env 0%Z)
      (mkRequest POST "/api/v1/auth/login" "" [] "Bob@88888") SampleApp.app
      = (Ok (mkResponse StatusOK (BodyLogin resp)), a1) ∧
    (ServeHTTP (SampleApp.env 5%Z)
      (mkRequest POST "/api/v1/auth/logout" ("Bearer " +:+ LResp_Token resp) [] "") a1).1
      = Ok (mkResponse StatusOK (BodyMessage "logged out successfully")).
Proof.
  assert (∃ resp a1, ServeHTTP (SampleApp.env 0%Z)
      (mkRequest POST "/api/v1/auth/login" "" [] "Bob@88888") SampleApp.app
      = (Ok (mkResponse StatusOK (BodyLogin resp)), a1) ∧
      LResp_Expires resp = (-62135510400)%Z ∧ User_ID (LResp_User resp) ≠ "") as (resp & a1 & Hrun & Hexp & Hid).
  { eexists _, _. split; [vm_compute; reflexivity|]. split; [reflexivity|discriminate]. }
  exists resp, a1. split; [exact Hrun|].
  assert (match_route POST "/api/v1/auth/login" = Some (login_route, [])) as Hm1
    by (vm_compute; reflexivity).
  assert (match_route POST "/api/v1/auth/logout" = Some (logout_route, [])) as Hm2
    by (vm_compute; reflexivity).
  pose proof (rest_session (SampleApp.env 0%Z) (SampleApp.env 5%Z) SampleApp.app a1 "Bob@88888" resp
    SampleApp.app_is_ok Hid Hm1 Hm2 Hrun) as [_ H].
  destruct (ServeHTTP (SampleApp.env 5%Z) _ a1) as [r a2]. rewrite Hexp in H.
  rewrite bool_decide_eq_true_2 in H by (vm_compute; reflexivity). exact (proj1 H).
Defined.

Lemma rest_errors_change_nothing_witness :
  let '(r, a') := ServeHTTP (SampleApp.env 0%Z)
    (mkRequest GET "/api/v1/users/9" SampleRest.bob_token [] "") SampleApp.app in
  r = Ok (mkResponse StatusNotFound (BodyError "user not found")) ∧ same SampleApp.app a'.
Proof.
  assert (app_directory SampleApp.app !! "3" = None) as Hfresh by (vm_compute; reflexivity).
  pose proof (rest_errors_change_nothing (SampleApp.env 0%Z)
    (mkRequest GET "/api/v1/users/9" SampleRest.bob_token [] "") SampleApp.app SampleApp.app_is_ok
    Hfresh) as H.
  assert ((ServeHTTP (SampleApp.env 0%Z)
    (mkRequest GET "/api/v1/users/9" SampleRest.bob_token [] "") SampleApp.app).1
    = Ok (mkResponse StatusNotFound (BodyError "user not found"))) as Hr by (vm_compute; reflexivity).
  destruct (ServeHTTP _ _ _) as [r a']. simpl in Hr. split; [exact Hr|].
  destruct (H _ Hr ltac:(vm_compute; discriminate)) as [Hs|(rt & ps & Hm & [Hh|[Hh _]])]; [exact Hs|..];
    vm_compute in Hm; injection Hm as <- <-; discriminate Hh.
Defined.
End witnesses.
