(* ===== verification/Sql.v ===== *)
(** * SQL

    The part of SQL that [internal/user/pg_store.go] writes its statements in, over the table that
    [migrations/001_init.sql] creates: values and NULL, the logic of three truth values, LIKE, one
    table with its constraints, and what a statement does to it. The server that runs statements is
    the class [Database]: its laws allow it to fail at any statement and to order rows as it likes
    where SQL leaves the order open. *)

From Stdlib Require Import ZArith Lia Ascii String Sorting.Sorted.
From stdpp Require Import base tactics numbers list gmap strings sorting.
From S2P Require Import Prelude Model GoStrings GoJson GoJsonText.

(** ** The table *)
Inductive Col : Type :=
| cId | cUsername | cEmail | cPasswordHash | cDisplayName | cStatus | cIsOnline | cExternalId
| cSourceSystem | cCreatedAt | cUpdatedAt.

#[export] Instance Col_eq_dec : EqDecision Col.
Proof. solve_decision. Defined.

Inductive Value : Type :=
| VText (s : string)
| VBool (b : bool)
| VTime (t : Time)
| VInt (n : Z).

#[export] Instance Value_eq_dec : EqDecision Value.
Proof. solve_decision. Defined.

(** A row; [None] is NULL. *)
Record Row : Type := mkRow {
  row_id : option Value;
  row_username : option Value;
  row_email : option Value;
  row_password_hash : option Value;
  row_display_name : option Value;
  row_status : option Value;
  row_is_online : option Value;
  row_external_id : option Value;
  row_source_system : option Value;
  row_created_at : option Value;
  row_updated_at : option Value;
}.

#[export] Instance Row_eq_dec : EqDecision Row.
Proof. solve_decision. Defined.

Definition cell (c : Col) (r : Row) : option Value :=
  match c with
  | cId => row_id r | cUsername => row_username r | cEmail => row_email r
  | cPasswordHash => row_password_hash r | cDisplayName => row_display_name r
  | cStatus => row_status r | cIsOnline => row_is_online r | cExternalId => row_external_id r
  | cSourceSystem => row_source_system r | cCreatedAt => row_created_at r
  | cUpdatedAt => row_updated_at r
  end.

(** The row with the value [f c] in every column [c]. *)
Definition make_row (f : Col → option Value) : Row :=
  mkRow (f cId) (f cUsername) (f cEmail) (f cPasswordHash) (f cDisplayName) (f cStatus) (f cIsOnline)
    (f cExternalId) (f cSourceSystem) (f cCreatedAt) (f cUpdatedAt).

(** The rows by their primary key. *)
Notation Table := (gmap string Row).

Inductive ColType : Type := VARCHAR (n : nat) | BOOLEAN | TIMESTAMP.
Inductive Default : Type := NoDefault | DefaultValue (v : Value) | DefaultNow.
Record Column : Type := mkColumn {
  col_type : ColType;
  col_not_null : bool;
  col_unique : bool;
  col_default : Default;
}.

(** The schema of [users]. *)
Definition users_column (c : Col) : Column :=
  match c with
  | cId => mkColumn (VARCHAR 64) true true NoDefault
  | cUsername => mkColumn (VARCHAR 64) true true NoDefault
  | cEmail => mkColumn (VARCHAR 255) true true NoDefault
  | cPasswordHash => mkColumn (VARCHAR 255) true false NoDefault
  | cDisplayName => mkColumn (VARCHAR 128) false false NoDefault
  | cStatus => mkColumn (VARCHAR 20) false false (DefaultValue (VText "active"))
  | cIsOnline => mkColumn BOOLEAN false false (DefaultValue (VBool false))
  | cExternalId => mkColumn (VARCHAR 128) false false NoDefault
  | cSourceSystem => mkColumn (VARCHAR 64) false false NoDefault
  | cCreatedAt => mkColumn TIMESTAMP false false DefaultNow
  | cUpdatedAt => mkColumn TIMESTAMP false false DefaultNow
  end.

Definition all_columns : list Col :=
  [cId; cUsername; cEmail; cPasswordHash; cDisplayName; cStatus; cIsOnline; cExternalId;
   cSourceSystem; cCreatedAt; cUpdatedAt].

(** ** Text *)

(** The characters of a text, each its bytes. *)
Definition rune_bytes (r : rune) : bytes := match r with Valid t => t | Invalid b => [b] end.
Definition chars (s : string) : list bytes := rune_bytes <$> runes (lit s).
Definition of_chars (l : list bytes) : string := string_of_list_ascii (concat l).

(** Text the server accepts: UTF-8 without the zero byte. *)
Definition text_ok (s : string) : bool :=
  forallb (λ r, match r with Valid t => negb (bool_decide (t = [ascii_of_nat 0])) | Invalid _ => false end)
    (runes (lit s)).

(** A text stored in a [VARCHAR(n)]: too many characters are refused unless they are spaces. *)
Definition varchar (n : nat) (s : string) : option string :=
  if negb (text_ok s) then None
  else if bool_decide (length (chars s) ≤ n) then Some s
  else if bool_decide (Forall (.= [" "%char]) (drop n (chars s))) then Some (of_chars (take n (chars s)))
  else None.

(** [s LIKE p] on characters: [%] is any text, [_] any character, a backslash quotes. *)
Fixpoint like (p : list bytes) : list bytes → bool :=
  match p with
  | [] => λ s, match s with [] => true | _ => false end
  | c :: p' =>
      if bool_decide (c = ["%"%char]) then
        fix go s := like p' s || match s with [] => false | _ :: s' => go s' end
      else if bool_decide (c = ["_"%char]) then
        λ s, match s with [] => false | _ :: s' => like p' s' end
      else if bool_decide (c = ["\"%char]) then
        match p' with
        | [] => λ _, false
        | d :: p'' => λ s, match s with [] => false | x :: s' => bool_decide (x = d) && like p'' s' end
        end
      else λ s, match s with [] => false | x :: s' => bool_decide (x = c) && like p' s' end
  end.

(** [LOWER] follows the collation of the database. *)
Class Collation : Type := { sql_lower : string → string }.

(** ** Expressions and conditions *)
Inductive Expr : Type :=
| EParam (n : nat)
| EText (s : string)
| ECol (c : Col)
| ELower (a : Expr)
| ENullIf (a b : Expr)
| ECoalesce (a b : Expr)
| ENow.

Inductive Cond : Type :=
| CEq (a b : Expr)
| CNe (a b : Expr)
| CLike (a b : Expr)
| CAnd (a b : Cond)
| COr (a b : Cond).

Section eval.
Context `{Collation}.
Variables (now : Time) (args : list Value).

(** [$n]. *)
Definition param (n : nat) : option Value := args !! pred n.

Fixpoint eval (r : Row) (e : Expr) : option Value :=
  match e with
  | EParam n => param n
  | EText s => Some (VText s)
  | ECol c => cell c r
  | ELower a => match eval r a with Some (VText s) => Some (VText (sql_lower s)) | _ => None end
  | ENullIf a b =>
      match eval r a, eval r b with
      | Some v, Some w => if bool_decide (v = w) then None else Some v
      | v, _ => v
      end
  | ECoalesce a b => match eval r a with Some v => Some v | None => eval r b end
  | ENow => Some (VTime now)
  end.

Definition and3 (a b : option bool) : option bool :=
  match a, b with
  | Some false, _ | _, Some false => Some false
  | Some true, Some true => Some true
  | _, _ => None
  end.
Definition or3 (a b : option bool) : option bool :=
  match a, b with
  | Some true, _ | _, Some true => Some true
  | Some false, Some false => Some false
  | _, _ => None
  end.

(** A comparison with NULL is unknown. *)
Fixpoint holds (r : Row) (c : Cond) : option bool :=
  match c with
  | CEq a b => v ← eval r a; w ← eval r b; Some (bool_decide (v = w))
  | CNe a b => v ← eval r a; w ← eval r b; Some (bool_decide (v ≠ w))
  | CLike a b =>
      match eval r a, eval r b with
      | Some (VText s), Some (VText p) => Some (like (chars p) (chars s))
      | _, _ => None
      end
  | CAnd a b => and3 (holds r a) (holds r b)
  | COr a b => or3 (holds r a) (holds r b)
  end.

(** The rows a WHERE clause selects. *)
Definition selected (c : Cond) (r : Row) : Prop := holds r c = Some true.
#[export] Instance selected_dec c r : Decision (selected c r).
Proof. unfold selected. apply _. Defined.
End eval.

(** ** Statements *)
Inductive Stmt : Type :=
| Insert (cols : list Col) (values : list Expr)
| Update (assignments : list (Col * Expr)) (where_ : Cond).

(** What a statement does: rows affected and the new table, a violated uniqueness constraint, or a
    value the table does not take. *)
Inductive Outcome : Type :=
| Done (n : Z) (t : Table)
| Duplicate
| Refused.

(** A value put into a column. *)
Definition store (c : Col) (v : option Value) : option (option Value) :=
  match v, col_type (users_column c) with
  | None, _ => if col_not_null (users_column c) then None else Some None
  | Some (VText s), VARCHAR n => (λ s, Some (VText s)) <$> varchar n s
  | Some (VBool b), BOOLEAN => Some (Some (VBool b))
  | Some (VTime x), TIMESTAMP => Some (Some (VTime x))
  | _, _ => None
  end.

(** The row with the given values stored, column by column. *)
Definition store_row (f : Col → option Value) : option Row :=
  if bool_decide (Forall (λ c, is_Some (store c (f c))) all_columns)
  then Some (make_row (λ c, mjoin (store c (f c)))) else None.

Definition default_value (now : Time) (c : Col) : option Value :=
  match col_default (users_column c) with
  | NoDefault => None
  | DefaultValue v => Some v
  | DefaultNow => Some (VTime now)
  end.

Fixpoint assigned {X} (l : list (Col * X)) (c : Col) : option X :=
  match l with [] => None | (d, x) :: l => if bool_decide (d = c) then Some x else assigned l c end.

(** Two rows with the same value in a column that is unique. *)
Definition clash (x y : string * Row) : Prop :=
  x.1 ≠ y.1 ∧ Exists (λ c, col_unique (users_column c) = true ∧ cell c x.2 ≠ None ∧ cell c x.2 = cell c y.2)
    all_columns.
#[export] Instance clash_dec x y : Decision (clash x y).
Proof. unfold clash. apply _. Defined.
Definition duplicate_in (t : Table) : Prop :=
  Exists (λ x, Exists (clash x) (map_to_list t)) (map_to_list t).
#[export] Instance duplicate_in_dec t : Decision (duplicate_in t).
Proof. unfold duplicate_in. apply _. Defined.

Section run.
Context `{Collation}.

(** The primary key is not assigned to in this fragment. *)
Definition sql_exec (now : Time) (st : Stmt) (args : list Value) (t : Table) : Outcome :=
  match st with
  | Insert cols values =>
      let given := zip cols (eval now args (make_row (λ _, None)) <$> values) in
      match store_row (λ c, default (default_value now c) (assigned given c)) with
      | Some r =>
          match row_id r with
          | Some (VText key) =>
              if decide (is_Some (t !! key)) then Duplicate
              else if decide (duplicate_in (<[key := r]> t)) then Duplicate
              else Done 1 (<[key := r]> t)
          | _ => Refused
          end
      | None => Refused
      end
  | Update assignments where_ =>
      let new r := store_row (λ c, default (cell c r) (eval now args r <$> assigned assignments c)) in
      let hit := selected now args where_ in
      if bool_decide (is_Some (assigned assignments cId)) then Refused
      else if decide (map_Forall (λ _ r, hit r → is_Some (new r)) t) then
        let t' := (λ r, if decide (hit r) then default r (new r) else r) <$> t in
        if decide (duplicate_in t') then Duplicate
        else Done (Z.of_nat (length (filter hit (map_to_list t).*2))) t'
      else Refused
  end.
End run.

(** ** Queries

    A query that counts, or one that lists columns; [sel_newest] is [ORDER BY created_at DESC]. *)
Record Select : Type := mkSelect {
  sel_columns : option (list Col);
  sel_where : Cond;
  sel_newest : bool;
  sel_limit : option (Expr * Expr);
}.

Definition stamp (r : Row) : option Time :=
  match row_created_at r with Some (VTime t) => Some t | _ => None end.

(** Descending order puts NULL first. *)
Definition newer (r r' : Row) : Prop :=
  match stamp r, stamp r' with
  | Some a, Some b => (b ≤ a)%Z
  | Some _, None => False
  | None, _ => True
  end.
#[export] Instance newer_dec r r' : Decision (newer r r').
Proof. unfold newer. destruct (stamp r), (stamp r'); apply _. Defined.
#[export] Instance newer_trans : Transitive newer.
Proof.
  intros r1 r2 r3. unfold newer. destruct (stamp r1), (stamp r2), (stamp r3); try done. lia.
Qed.
#[export] Instance newer_total : Total newer.
Proof. intros r r'. unfold newer. destruct (stamp r), (stamp r'); try tauto. lia. Qed.

Section select.
Context `{Collation}.
Variables (args : list Value).

(** The page of a list; none for a negative limit or offset, which the server refuses. *)
Definition page_of {X} (limit : option (Expr * Expr)) (l : list X) : option (list X) :=
  match limit with
  | None => Some l
  | Some (lim, off) =>
      match eval 0%Z args (make_row (λ _, None)) lim, eval 0%Z args (make_row (λ _, None)) off with
      | Some (VInt n), Some (VInt k) =>
          if bool_decide (0 ≤ n ∧ 0 ≤ k)%Z then Some (take (Z.to_nat n) (drop (Z.to_nat k) l)) else None
      | _, _ => None
      end
  end.

(** The answers to a query: rows in some order, the requested one where there is one. *)
Definition sql_select (q : Select) (t : Table) (rows : list (list (option Value))) : Prop :=
  let found := filter (selected 0%Z args (sel_where q)) (map_to_list t).*2 in
  match sel_columns q with
  | None => rows = [[Some (VInt (Z.of_nat (length found)))]]
  | Some cols =>
      ∃ l page, l ≡ₚ found ∧ (sel_newest q = true → StronglySorted newer l) ∧
        page_of (sel_limit q) l = Some page ∧ rows = (λ r, (λ c, cell c r) <$> cols) <$> page
  end.
End select.

(** ** The server *)
Class Database (D : Type) : Type := {
  db_Exec : Time → Stmt → list Value → D → (string + Z) * D;
  (** The rows that arrived, and the error that ended them early. *)
  db_Query : Select → list Value → D → (string + list (list (option Value)) * option string) * D;
}.

(** The text of [sql.ErrNoRows], an error the server never reports. *)
Definition no_rows_text : string := "sql: no rows in result set".

(** An error that is not a violated uniqueness constraint: refused values, a broken connection. *)
Definition failure (msg : string) : Prop := Contains msg "duplicate" = false ∧ msg ≠ no_rows_text.

Section server.
Context `{Collation}.

(** A violated constraint is reported with the word [duplicate] and changes nothing. A statement can
    also fail, before it has any effect or, when the connection breaks, after. *)
Inductive exec_law (now : Time) (st : Stmt) (args : list Value) (t : Table) : string + Z → Table → Prop :=
| exec_done n t' : sql_exec now st args t = Done n t' → exec_law now st args t (inr n) t'
| exec_duplicate msg : sql_exec now st args t = Duplicate → Contains msg "duplicate" = true →
    exec_law now st args t (inl msg) t
| exec_fails msg : failure msg → exec_law now st args t (inl msg) t
| exec_lost msg n t' : failure msg → sql_exec now st args t = Done n t' →
    exec_law now st args t (inl msg) t'.

Inductive query_law (q : Select) (args : list Value) (t : Table) :
    string + list (list (option Value)) * option string → Prop :=
| query_done rows : sql_select args q t rows → query_law q args t (inr (rows, None))
| query_cut rows more msg : sql_select args q t (rows ++ more) → failure msg →
    query_law q args t (inr (rows, Some msg))
| query_fails msg : failure msg → query_law q args t (inl msg).

Class DatabaseLaws (D : Type) `{Database D} : Type := {
  db_table : D → Table;
  db_exec_law now st args d :
    exec_law now st args (db_table d) (db_Exec now st args d).1 (db_table (db_Exec now st args d).2);
  db_query_law q args d : query_law q args (db_table d) (db_Query q args d).1;
  db_query_keeps q args d : db_table (db_Query q args d).2 = db_table d;
}.
End server.
