(* ===== verification/PgStore.v ===== *)
(** * PostgreSQL user store

    [PGStore] of [internal/user/pg_store.go]: the statements as [Sql] trees, the methods over a
    [Database], and how far they keep to the abstract directory of [UserStore] whatever the server
    does. [main] builds the in-memory store instead; the services take either. *)

From Stdlib Require Import ZArith Lia Ascii String Sorting.Sorted.
From stdpp Require Import base tactics numbers list gmap strings sorting.
From S2P Require Import Prelude Model GoStrings GoJson GoJsonText UserStore UserMem UserHistory SyncJobs Auth UserService Sql.

(** ** Statements *)
Definition not_deleted : Cond := CNe (ECol cStatus) (EText "deleted").

Definition insert_user : Stmt :=
  Insert [cId; cUsername; cEmail; cPasswordHash; cDisplayName; cStatus; cExternalId; cSourceSystem]
    [EParam 1; EParam 2; EParam 3; EParam 4; EParam 5; EParam 6; EParam 7; EParam 8].

Definition user_columns : list Col :=
  [cId; cUsername; cEmail; cPasswordHash; cDisplayName; cStatus; cExternalId; cSourceSystem; cCreatedAt;
   cUpdatedAt].

Definition select_by (c : Col) : Select :=
  mkSelect (Some user_columns) (CAnd (CEq (ECol c) (EParam 1)) not_deleted) false None.

Definition keep_if_empty (c : Col) (n : nat) : Col * Expr :=
  (c, ECoalesce (ENullIf (EParam n) (EText "")) (ECol c)).

Definition update_user : Stmt :=
  Update [keep_if_empty cEmail 2; keep_if_empty cDisplayName 3; keep_if_empty cStatus 4;
          (cIsOnline, EParam 5); (cUpdatedAt, ENow)]
    (CAnd (CEq (ECol cId) (EParam 1)) not_deleted).

Definition delete_user : Stmt :=
  Update [(cStatus, EText "deleted"); (cUpdatedAt, ENow)]
    (CAnd (CEq (ECol cId) (EParam 1)) not_deleted).

Definition count_users : Select := mkSelect None not_deleted false None.
Definition page_users : Select :=
  mkSelect (Some user_columns) not_deleted true (Some (EParam 1, EParam 2)).

Definition search_cond : Cond :=
  CAnd not_deleted
    (COr (COr (CLike (ELower (ECol cUsername)) (EParam 1)) (CLike (ELower (ECol cEmail)) (EParam 1)))
      (CLike (ELower (ECol cDisplayName)) (EParam 1))).
Definition count_found : Select := mkSelect None search_cond false None.
Definition page_found : Select :=
  mkSelect (Some user_columns) search_cond true (Some (EParam 2, EParam 3)).

(** ** [database/sql] *)
Record PGStore (D : Type) : Type := mkPGStore { db : D }.
Arguments mkPGStore {D} _.
Arguments db {D} _.

Definition NewPGStore {D} (d : D) : PGStore D := mkPGStore d.

Definition ErrNoRows : error := ErrorString no_rows_text.

(** A destination of [Scan]: the record with the value, or none for a value it does not take. *)
Definition Dest (X : Type) : Type := Value → X → option X.

Definition text_dest {X} (f : string → X → X) : Dest X := λ v x,
  match v with VText s => Some (f s x) | _ => None end.
Definition time_dest {X} (f : Time → X → X) : Dest X := λ v x,
  match v with VTime t => Some (f t x) | _ => None end.

Definition scan_error : error := ErrorString "sql: Scan error: unsupported conversion".

(** [Scan] fills the destinations in order up to the first cell it cannot convert; NULL goes into
    none of the types used here. *)
Fixpoint Scan {X} (dests : list (Dest X)) (cells : list (option Value)) (x : X) : X * option error :=
  match dests, cells with
  | [], [] => (x, None)
  | f :: dests, Some v :: cells =>
      match f v x with Some x => Scan dests cells x | None => (x, Some scan_error) end
  | _, _ => (x, Some scan_error)
  end.

Definition set_User_ID (v : string) (u : User) : User :=
  mkUser v (User_Username u) (User_Email u) (User_PasswordHash u) (User_DisplayName u) (User_Status u)
    (User_IsOnline u) (User_ExternalID u) (User_SourceSystem u) (User_CreatedAt u) (User_UpdatedAt u).
Definition set_User_Username (v : string) (u : User) : User :=
  mkUser (User_ID u) v (User_Email u) (User_PasswordHash u) (User_DisplayName u) (User_Status u)
    (User_IsOnline u) (User_ExternalID u) (User_SourceSystem u) (User_CreatedAt u) (User_UpdatedAt u).
Definition set_User_PasswordHash (v : string) (u : User) : User :=
  mkUser (User_ID u) (User_Username u) (User_Email u) v (User_DisplayName u) (User_Status u)
    (User_IsOnline u) (User_ExternalID u) (User_SourceSystem u) (User_CreatedAt u) (User_UpdatedAt u).
Definition set_User_ExternalID (v : string) (u : User) : User :=
  mkUser (User_ID u) (User_Username u) (User_Email u) (User_PasswordHash u) (User_DisplayName u)
    (User_Status u) (User_IsOnline u) v (User_SourceSystem u) (User_CreatedAt u) (User_UpdatedAt u).
Definition set_User_SourceSystem (v : string) (u : User) : User :=
  mkUser (User_ID u) (User_Username u) (User_Email u) (User_PasswordHash u) (User_DisplayName u)
    (User_Status u) (User_IsOnline u) (User_ExternalID u) v (User_CreatedAt u) (User_UpdatedAt u).

(** The pointers the methods pass to [Scan]. *)
Definition user_dests : list (Dest User) :=
  [text_dest set_User_ID; text_dest set_User_Username; text_dest set_User_Email;
   text_dest set_User_PasswordHash; text_dest set_User_DisplayName; text_dest set_User_Status;
   text_dest set_User_ExternalID; text_dest set_User_SourceSystem; time_dest set_User_CreatedAt;
   time_dest set_User_UpdatedAt].

Definition count_dest : list (Dest Z) := [λ v _, match v with VInt n => Some n | _ => None end].

Section methods.
Context {D : Type} `{!Database D}.
Notation S := (PGStore D).
Notation M := (GoM error S).

Definition Exec (now : Time) (st : Stmt) (args : list Value) : M Z := λ s,
  let '(r, d) := db_Exec now st args (db s) in
  (match r with inl msg => Err (ErrorString msg) | inr n => Ok n end, mkPGStore d).

(** The rows that arrived and [rows.Err()]. *)
Definition Query (q : Select) (args : list Value) : M (list (list (option Value)) * option string) := λ s,
  let '(r, d) := db_Query q args (db s) in
  (match r with inl msg => Err (ErrorString msg) | inr rows => Ok rows end, mkPGStore d).

(** [QueryRow(...).Scan(...)] into [x]: the record as far as it is filled, and the error. *)
Definition QueryRow {X} (q : Select) (args : list Value) (dests : list (Dest X)) (x : X) :
    M (X * option error) :=
  r ← try (Query q args);
  mret match r with
       | inr err => (x, Some err)
       | inl (cells :: _, _) => Scan dests cells x
       | inl ([], Some msg) => (x, Some (ErrorString msg))
       | inl ([], None) => (x, Some ErrNoRows)
       end.

(** ** Methods

    [now] is what [NOW()] gives the statement. *)
Definition PGStore_Create (now : Time) (user : User) : M User :=
  r ← try (Exec now insert_user
        [VText (User_ID user); VText (User_Username user); VText (User_Email user);
         VText (User_PasswordHash user); VText (User_DisplayName user); VText (User_Status user);
         VText (User_ExternalID user); VText (User_SourceSystem user)]);
  match r with
  | inr err => if Contains (Error err) "duplicate" then throw ErrUserAlreadyExists else throw err
  | inl _ => mret user
  end.

(** The three lookups; a caller looks at the user only when there is no error. *)
Definition get_user (c : Col) (key : string) : M User :=
  r ← QueryRow (select_by c) [VText key] user_dests User_zero;
  match r.2 with
  | Some err => if bool_decide (err = ErrNoRows) then throw ErrUserNotFound else throw err
  | None => mret r.1
  end.
Definition PGStore_GetByID (id : string) : M User := get_user cId id.
Definition PGStore_GetByUsername (username : string) : M User := get_user cUsername username.
Definition PGStore_GetByEmail (email : string) : M User := get_user cEmail email.

Definition PGStore_Update (now : Time) (user : User) : M unit :=
  rows ← Exec now update_user
        [VText (User_ID user); VText (User_Email user); VText (User_DisplayName user);
         VText (User_Status user); VBool (User_IsOnline user)];
  if bool_decide (rows = 0%Z) then throw ErrUserNotFound else mret ().

Definition PGStore_Delete (now : Time) (id : string) : M unit :=
  rows ← Exec now delete_user [VText id];
  if bool_decide (rows = 0%Z) then throw ErrUserNotFound else mret ().

(** The loop over [rows.Next()]: an error of [Scan] is dropped, and so is the one that ends the rows. *)
Definition scan_users (rows : list (list (option Value)) * option string) : list User :=
  (λ cells, (Scan user_dests cells User_zero).1) <$> rows.1.

(** An error of the count is dropped, and the total is then as far as it was filled. *)
Definition count_rows (q : Select) (args : list Value) : M Z :=
  r ← QueryRow q args count_dest 0%Z; mret r.1.

Definition PGStore_List (offset limit : Z) : M (list User * Z) :=
  total ← count_rows count_users [];
  rows ← Query page_users [VInt limit; VInt offset];
  mret (scan_users rows, total).

Definition PGStore_Search `{UnicodeTables} (query : string) (offset limit : Z) : M (list User * Z) :=
  let pattern := "%" +:+ ToLower query +:+ "%" in
  total ← count_rows count_found [VText pattern];
  rows ← Query page_found [VText pattern; VInt limit; VInt offset];
  mret (scan_users rows, total).

#[export] Instance PGStore_UserStore `{UnicodeTables} : UserStore S := {
  us_Create := PGStore_Create;
  us_GetByID := PGStore_GetByID;
  us_GetByUsername := PGStore_GetByUsername;
  us_GetByEmail := PGStore_GetByEmail;
  us_Update := PGStore_Update;
  us_Delete := PGStore_Delete;
  us_List _ := PGStore_List;
  us_Search _ := PGStore_Search;
}.
End methods.

(** ** Tables that hold users *)

(** The row of a user. *)
Definition row_of (u : User) : Row :=
  mkRow (Some (VText (User_ID u))) (Some (VText (User_Username u))) (Some (VText (User_Email u)))
    (Some (VText (User_PasswordHash u))) (Some (VText (User_DisplayName u)))
    (Some (VText (User_Status u))) (Some (VBool (User_IsOnline u))) (Some (VText (User_ExternalID u)))
    (Some (VText (User_SourceSystem u))) (Some (VTime (User_CreatedAt u)))
    (Some (VTime (User_UpdatedAt u))).

(** A text a [VARCHAR(n)] stores as it is. *)
Definition fits (n : nat) (s : string) : Prop := text_ok s = true ∧ length (chars s) ≤ n.

Record user_fits (u : User) : Prop := {
  fits_id : fits 64 (User_ID u);
  fits_username : fits 64 (User_Username u);
  fits_email : fits 255 (User_Email u);
  fits_password_hash : fits 255 (User_PasswordHash u);
  fits_display_name : fits 128 (User_DisplayName u);
  fits_status : fits 20 (User_Status u);
  fits_external_id : fits 128 (User_ExternalID u);
  fits_source_system : fits 64 (User_SourceSystem u);
}.

(** The table holds exactly the users of a consistent directory. *)
Record represents (t : Table) (m : gmap string User) : Prop := {
  rep_rows : t = row_of <$> m;
  rep_ok : dir_ok m;
  rep_fits : map_Forall (λ _ u, user_fits u) m;
}.

(** *** Storing *)
Lemma varchar_fits n s : fits n s → varchar n s = Some s.
Proof. intros [Ht Hl]. unfold varchar. by rewrite Ht, bool_decide_eq_true_2. Qed.

Lemma store_cell u c : user_fits u → store c (cell c (row_of u)) = Some (cell c (row_of u)).
Proof.
  intros [? ? ? ? ? ? ? ?]. unfold store.
  destruct c; cbn [cell row_of users_column col_type col_not_null row_id row_username row_email
    row_password_hash row_display_name row_status row_is_online row_external_id row_source_system
    row_created_at row_updated_at]; rewrite ?varchar_fits by done; done.
Qed.

Lemma store_row_of f u : user_fits u → (∀ c, f c = cell c (row_of u)) → store_row f = Some (row_of u).
Proof.
  intros Hu Hf. assert (∀ c, store c (f c) = Some (cell c (row_of u))) as Hs.
  { intros c. rewrite Hf. by apply store_cell. }
  unfold store_row. rewrite bool_decide_eq_true_2.
  - unfold make_row. rewrite !Hs. by destruct u.
  - apply Forall_forall. intros c _. rewrite Hs. by eexists.
Qed.

(** *** Selecting *)
Section conditions.
Context `{Collation}.

(** The text of a column of a user. *)
Definition col_text (c : Col) (u : User) : string :=
  match cell c (row_of u) with Some (VText s) => s | _ => "" end.
Definition text_col (c : Col) : Prop := c ∈ [cId; cUsername; cEmail; cDisplayName; cStatus].

Lemma text_col_cell c u : text_col c → cell c (row_of u) = Some (VText (col_text c u)).
Proof. unfold text_col. rewrite !elem_of_cons, elem_of_nil. by intros [->|[->|[->|[->|[->|[]]]]]]. Qed.

Lemma selected_live now args u : selected now args not_deleted (row_of u) ↔ live u.
Proof.
  unfold selected, not_deleted, live. cbn [holds eval cell row_of row_status].
  unfold mbind, option_bind. split.
  - intros [= Hd%bool_decide_eq_true]. by intros Hs; apply Hd; rewrite Hs.
  - intros Hs. f_equal. apply bool_decide_eq_true. by intros [= Hv].
Qed.

Lemma selected_key now c key args u : text_col c →
  selected now (VText key :: args) (CAnd (CEq (ECol c) (EParam 1)) not_deleted) (row_of u)
    ↔ col_text c u = key ∧ live u.
Proof.
  intros Hc. rewrite <- (selected_live now (VText key :: args)). unfold selected. cbn [holds eval].
  rewrite (text_col_cell c u Hc). unfold param. cbn [pred lookup list_lookup mbind option_bind].
  unfold and3. case_bool_decide as E.
  - injection E as Hk. destruct (holds now (VText key :: args) (row_of u) not_deleted) as [[]|]; naive_solver.
  - split; [by destruct (holds now (VText key :: args) (row_of u) not_deleted) as [[]|]|].
    intros [Hk _]. by destruct E; rewrite Hk.
Qed.

Lemma filter_fmap_iff {A B} (f : A → B) (P : B → Prop) (Q : A → Prop) `{!∀ x, Decision (P x), !∀ x, Decision (Q x)}
    (l : list A) : (∀ x, P (f x) ↔ Q x) → filter P (f <$> l) = f <$> filter Q l.
Proof.
  intros HPQ. induction l as [|x l IH]; [done|]. csimpl. rewrite !filter_cons.
  destruct (decide (P (f x))) as [Hp|Hp], (decide (Q x)) as [Hq|Hq]; csimpl; rewrite ?IH; naive_solver.
Qed.

Lemma values_fmap (m : gmap string User) : (map_to_list (row_of <$> m)).*2 = row_of <$> (map_to_list m).*2.
Proof.
  rewrite map_to_list_fmap, <- !list_fmap_compose. apply list_fmap_ext. by intros i [k u] _.
Qed.

(** The rows a condition selects are those of the users it is true of. *)
Lemma found_rows now args c (P : User → Prop) `{!∀ u, Decision (P u)} (m : gmap string User) :
  (∀ u, selected now args c (row_of u) ↔ P u) →
  filter (selected now args c) (map_to_list (row_of <$> m)).*2 = row_of <$> filter P (map_to_list m).*2.
Proof. intros HP. rewrite values_fmap. by apply filter_fmap_iff. Qed.
End conditions.

(** *** Uniqueness *)
Lemma duplicate_iff (m : gmap string User) :
  duplicate_in (row_of <$> m) ↔ ∃ i j u v, m !! i = Some u ∧ m !! j = Some v ∧ i ≠ j ∧
    (User_ID u = User_ID v ∨ User_Username u = User_Username v ∨ User_Email u = User_Email v).
Proof.
  unfold duplicate_in. rewrite Exists_exists. setoid_rewrite Exists_exists. split.
  - intros ([i r] & Hi & [j r'] & Hj & Hne & Hc). cbn [fst snd] in *.
    apply elem_of_map_to_list in Hi, Hj. rewrite lookup_fmap in Hi, Hj.
    apply fmap_Some in Hi as (u & Hi & ->), Hj as (v & Hj & ->).
    exists i, j, u, v. split_and!; [done..|].
    apply Exists_exists in Hc as (c & _ & Hu & _ & Hcell).
    destruct c; try discriminate Hu; injection Hcell; tauto.
  - intros (i & j & u & v & Hi & Hj & Hne & Hc).
    exists (i, row_of u). split; [apply elem_of_map_to_list; by rewrite lookup_fmap, Hi|].
    exists (j, row_of v). split; [apply elem_of_map_to_list; by rewrite lookup_fmap, Hj|].
    split; [done|]. apply Exists_exists. cbn [fst snd].
    destruct Hc as [Hc|[Hc|Hc]]; [exists cId|exists cUsername|exists cEmail]; cbn;
      (split; [set_solver|]); (split; [done|]); (split; [done|]); by rewrite Hc.
Qed.

Lemma not_duplicate m : dir_ok m → ¬ duplicate_in (row_of <$> m).
Proof.
  intros Hm (i & j & u & v & Hi & Hj & Hne & Hc)%duplicate_iff. apply Hne.
  destruct Hc as [Hc|[Hc|Hc]].
  - by rewrite <- (dir_ids _ Hm _ _ Hi), Hc, (dir_ids _ Hm _ _ Hj).
  - by apply (dir_usernames _ Hm i j u v).
  - by apply (dir_emails _ Hm i j u v).
Qed.

(** A user put under its own key clashes exactly with other users of its name or address. *)
Lemma insert_clash (m : gmap string User) (u : User) : dir_ok m →
  duplicate_in (row_of <$> <[User_ID u := u]> m) ↔ ∃ j v, m !! j = Some v ∧ j ≠ User_ID u ∧
    (User_Username v = User_Username u ∨ User_Email v = User_Email u).
Proof.
  intros Hm. rewrite duplicate_iff. split.
  - intros (i & j & x & y & Hi & Hj & Hne & Hc).
    destruct (decide (i = User_ID u)) as [->|Hiu].
    + rewrite lookup_insert_eq in Hi. injection Hi as <-. rewrite lookup_insert_ne in Hj by done.
      exists j, y. split; [done|]. split; [done|]. pose proof (dir_ids _ Hm _ _ Hj) as Hid.
      destruct Hc as [Hc|[Hc|Hc]]; [congruence|by left|by right].
    + rewrite lookup_insert_ne in Hi by done. pose proof (dir_ids _ Hm _ _ Hi) as Hid.
      destruct (decide (j = User_ID u)) as [->|Hju].
      * rewrite lookup_insert_eq in Hj. injection Hj as <-.
        exists i, x. split; [done|]. split; [done|].
        destruct Hc as [Hc|[Hc|Hc]]; [congruence|by left|by right].
      * rewrite lookup_insert_ne in Hj by done. exfalso. apply (not_duplicate m Hm), duplicate_iff.
        by exists i, j, x, y.
  - intros (j & v & Hj & Hne & Hc). exists j, (User_ID u), v, u.
    rewrite lookup_insert_ne, lookup_insert_eq by done. naive_solver.
Qed.

(** Without a clash the directory stays consistent. *)
Lemma insert_ok (m : gmap string User) (u : User) : dir_ok m →
  ¬ duplicate_in (row_of <$> <[User_ID u := u]> m) → dir_ok (<[User_ID u := u]> m).
Proof.
  intros Hm Hd. assert (∀ i j x y, <[User_ID u:=u]> m !! i = Some x → <[User_ID u:=u]> m !! j = Some y →
    (User_Username x = User_Username y ∨ User_Email x = User_Email y) → i = j) as Huniq.
  { intros i j x y Hi Hj Hc. destruct (decide (i = j)) as [|Hne]; [done|]. exfalso. apply Hd.
    apply duplicate_iff. exists i, j, x, y. naive_solver. }
  split.
  - intros i x. rewrite lookup_insert. case_decide; [by intros [= <-]|]. apply (dir_ids _ Hm).
  - intros i j x y Hi Hj Hc. apply (Huniq i j x y); auto.
  - intros i j x y Hi Hj Hc. apply (Huniq i j x y); auto.
Qed.

(** ** What the statements do *)
Definition insert_args (u : User) : list Value :=
  [VText (User_ID u); VText (User_Username u); VText (User_Email u); VText (User_PasswordHash u);
   VText (User_DisplayName u); VText (User_Status u); VText (User_ExternalID u);
   VText (User_SourceSystem u)].
Definition update_args (u : User) : list Value :=
  [VText (User_ID u); VText (User_Email u); VText (User_DisplayName u); VText (User_Status u);
   VBool (User_IsOnline u)].

(** The user a table holds after an insertion: stamped by the server, offline. *)
Definition inserted (now : Time) (u : User) : User :=
  set_User_UpdatedAt now (set_User_CreatedAt now (set_User_IsOnline false u)).

Definition deleted (now : Time) (u : User) : User :=
  set_User_UpdatedAt now (set_User_Status UserStatusDeleted u).

Section statements.
Context `{Collation}.

Lemma insert_exec now u (m : gmap string User) : user_fits u →
  sql_exec now insert_user (insert_args u) (row_of <$> m)
    = if decide (is_Some (m !! User_ID u)) then Duplicate
      else if decide (duplicate_in (row_of <$> <[User_ID u := inserted now u]> m)) then Duplicate
      else Done 1 (row_of <$> <[User_ID u := inserted now u]> m).
Proof.
  intros Hu. unfold sql_exec, insert_user.
  rewrite (store_row_of _ (inserted now u)); [|by destruct Hu|by intros []].
  cbn [row_of row_id inserted set_User_UpdatedAt set_User_CreatedAt set_User_IsOnline User_ID].
  rewrite lookup_fmap, fmap_insert.
  destruct (decide (is_Some (m !! User_ID u))) as [[v Hv]|Hn].
  - rewrite Hv. cbn. by rewrite decide_True by (by eexists).
  - apply eq_None_not_Some in Hn. rewrite Hn. cbn. rewrite decide_False by (by intros [? ?]). done.
Qed.

Lemma key_filter (m : gmap string User) key : dir_ok m →
  filter (λ u, User_ID u = key ∧ live u) (map_to_list m).*2
    = match m !! key with Some u => if decide (live u) then [u] else [] | None => [] end.
Proof.
  intros Hm. assert (∀ m' : gmap string User, m' ⊆ m → m' !! key = None →
    filter (λ u, User_ID u = key ∧ live u) (map_to_list m').*2 = []) as Hnone.
  { intros m' Hsub Hk. apply elem_of_nil_inv. intros u [[Hid _] [i Hi]%elem_of_values]%list_elem_of_filter.
    pose proof (lookup_weaken _ _ _ _ Hi Hsub) as Hi'. apply (dir_ids _ Hm) in Hi'. congruence. }
  destruct (m !! key) as [u|] eqn:Hk; [|by apply Hnone].
  assert (filter (λ u, User_ID u = key ∧ live u) (map_to_list m).*2
    ≡ₚ (if decide (live u) then [u] else [])) as Hp.
  { rewrite <- (map_to_list_delete m key u Hk). csimpl. rewrite filter_cons, (Hnone (delete key m));
      [|apply delete_subseteq|apply lookup_delete_eq].
    pose proof (dir_ids _ Hm _ _ Hk). repeat case_decide; naive_solver. }
  destruct (decide (live u)).
  - by apply Permutation_singleton_r in Hp.
  - by apply Permutation_nil_r in Hp.
Qed.

(** An update of the row with a key, in terms of what it makes of a user. *)
Lemma update_exec now assignments args key rest (f : User → User) (m : gmap string User) :
  args = VText key :: rest → assigned assignments cId = None → dir_ok m →
  (∀ u, m !! key = Some u → live u → user_fits (f u)) →
  (∀ u c, default (cell c (row_of u)) (eval now args (row_of u) <$> assigned assignments c)
     = cell c (row_of (f u))) →
  sql_exec now (Update assignments (CAnd (CEq (ECol cId) (EParam 1)) not_deleted)) args (row_of <$> m)
    = match m !! key with
      | Some u =>
          if decide (live u) then
            if decide (duplicate_in (row_of <$> <[key := f u]> m)) then Duplicate
            else Done 1 (row_of <$> <[key := f u]> m)
          else Done 0 (row_of <$> m)
      | None => Done 0 (row_of <$> m)
      end.
Proof.
  intros -> Hid Hm Hfit Hf. unfold sql_exec. rewrite Hid, bool_decide_eq_false_2 by (by intros [? ?]).
  set (hit := selected now (VText key :: rest) (CAnd (CEq (ECol cId) (EParam 1)) not_deleted)).
  set (new := λ r, store_row (λ c, default (cell c r)
    (eval now (VText key :: rest) r <$> assigned assignments c))).
  assert (∀ u, hit (row_of u) ↔ User_ID u = key ∧ live u) as Hhit.
  { intros u. apply (selected_key now cId key rest u). unfold text_col. set_solver. }
  assert (∀ i u, m !! i = Some u → hit (row_of u) → i = key ∧ live u ∧ new (row_of u) = Some (row_of (f u))) as Hnew.
  { intros i u Hi [Hk Hl]%Hhit. assert (i = key) as -> by (by rewrite <- (dir_ids _ Hm _ _ Hi)).
    split; [done|]. split; [done|]. apply store_row_of; [by apply Hfit|apply Hf]. }
  rewrite decide_True.
  2:{ intros i r Hi. rewrite lookup_fmap in Hi. apply fmap_Some in Hi as (u & Hi & ->). intros Hh.
      destruct (Hnew i u Hi Hh) as (_ & _ & Hn). unfold new in Hn. rewrite Hn. by eexists. }
  unfold hit. rewrite (found_rows now _ _ (λ u, User_ID u = key ∧ live u)) by exact Hhit.
  rewrite length_fmap, (key_filter m key Hm).
  assert (∀ m' : gmap string User, (∀ i, i ≠ key → m' !! i = m !! i) →
    m' !! key = match m !! key with Some u => Some (if decide (live u) then f u else u) | None => None end →
    (λ r, if decide (hit r) then default r (new r) else r) <$> (row_of <$> m) = row_of <$> m') as Hmap.
  { intros m' Hother Hkey. apply map_eq. intros i. rewrite !lookup_fmap.
    destruct (decide (i = key)) as [->|Hne].
    - rewrite Hkey. destruct (m !! key) as [u|] eqn:Hk; [|done]. csimpl. f_equal.
      pose proof (dir_ids _ Hm _ _ Hk) as Hu. destruct (decide (live u)) as [Hl|Hl].
      + rewrite decide_True by (by apply Hhit). destruct (Hnew key u Hk) as (_ & _ & ->); [by apply Hhit|done].
      + rewrite decide_False; [done|]. by intros [_ ?]%Hhit.
    - rewrite (Hother i Hne). destruct (m !! i) as [u|] eqn:Hi; [|done]. csimpl. f_equal.
      rewrite decide_False; [done|]. intros [Hk _]%Hhit. apply Hne. by rewrite <- (dir_ids _ Hm _ _ Hi). }
  destruct (m !! key) as [u|] eqn:Hk; [destruct (decide (live u)) as [Hl|Hl]|].
  - unfold new, hit in Hmap. rewrite (Hmap (<[key := f u]> m)); [done|..].
    + intros i Hi. by rewrite lookup_insert_ne.
    + by rewrite lookup_insert_eq.
  - unfold new, hit in Hmap. rewrite (Hmap m) by (by rewrite ?Hk).
    by rewrite decide_False by (by apply not_duplicate).
  - unfold new, hit in Hmap. rewrite (Hmap m) by (by rewrite ?Hk).
    by rewrite decide_False by (by apply not_duplicate).
Qed.

Lemma keep_if_empty_eval now args r c n s v : cell c r = Some v → args !! pred n = Some (VText s) →
  eval now args r (keep_if_empty c n).2 = Some (if bool_decide (s ≠ "") then VText s else v).
Proof.
  intros Hc Hn. unfold keep_if_empty. cbn [snd eval]. unfold param. rewrite Hn, Hc.
  destruct (decide (s = "")) as [->|Hs].
  - rewrite bool_decide_eq_true_2 by done. rewrite bool_decide_eq_false_2; [done|]. intros Hx. by apply Hx.
  - by rewrite bool_decide_eq_false_2, bool_decide_eq_true_2 by congruence.
Qed.

Lemma update_row now p u c :
  default (cell c (row_of u)) (eval now (update_args p) (row_of u) <$>
    assigned [keep_if_empty cEmail 2; keep_if_empty cDisplayName 3; keep_if_empty cStatus 4;
      (cIsOnline, EParam 5); (cUpdatedAt, ENow)] c)
  = cell c (row_of (merge_user now p u)).
Proof.
  unfold merge_user. destruct c;
    match goal with |- context [assigned ?l ?c] =>
      let v := eval vm_compute in (assigned l c) in change (assigned l c) with v end;
    cbn; repeat case_bool_decide; try reflexivity; congruence.
Qed.
End statements.

(** ** The store and the directory *)
Lemma inserted_fits now u : user_fits u → user_fits (inserted now u).
Proof. by intros []. Qed.
Lemma deleted_fits now u : user_fits u → user_fits (deleted now u).
Proof. intros []. split; try done. by vm_compute; split; [|lia]. Qed.

(** The fields of a patch that an update stores. *)
Definition patch_fits (p : User) : Prop :=
  fits 255 (User_Email p) ∧ fits 128 (User_DisplayName p) ∧ fits 20 (User_Status p).

Lemma merge_fits now p u : patch_fits p → user_fits u → user_fits (merge_user now p u).
Proof.
  intros (He & Hd & Hs) [? ? ? ? ? ? ? ?]. unfold merge_user. by repeat case_bool_decide.
Qed.

Lemma represents_insert m u : dir_ok m → map_Forall (λ _ u, user_fits u) m → user_fits u →
  ¬ duplicate_in (row_of <$> <[User_ID u := u]> m) →
  represents (row_of <$> <[User_ID u := u]> m) (<[User_ID u := u]> m).
Proof.
  intros Hm Hf Hu Hd. split; [done|by apply insert_ok|]. by apply map_Forall_insert_2.
Qed.

(** An error of the connection or of the server. *)
Definition failed {A} (r : res error A) : Prop := ∃ msg, r = Err (ErrorString msg) ∧ failure msg.

Section refinement.
Context `{UnicodeTables} `{Collation} {D : Type} `{!Database D, !DatabaseLaws D}.
Notation S := (PGStore D).
Implicit Types (s : S) (m : gmap string User).

Definition table (s : S) : Table := db_table (db s).

(** The outcomes of a statement. *)
Lemma Exec_law now st args s r s' : Exec now st args s = (r, s') →
  match r with
  | Ok n => sql_exec now st args (table s) = Done n (table s')
  | Err err => ∃ msg, err = ErrorString msg ∧
      (Contains msg "duplicate" = true ∧ sql_exec now st args (table s) = Duplicate ∧ table s' = table s ∨
       failure msg ∧ (table s' = table s ∨ ∃ n, sql_exec now st args (table s) = Done n (table s')))
  | Panic => False
  end.
Proof.
  unfold Exec, table. pose proof (db_exec_law now st args (db s)) as Hl.
  destruct (db_Exec now st args (db s)) as [x d]. cbn [fst snd] in Hl.
  intros [= <- <-]. cbn [db]. inversion Hl; subst; [done|..]; eexists; (split; [done|]); eauto 8.
Qed.

(** The users whose rows a lookup can return. *)
Definition found_users m (c : Col) (key : string) : list User :=
  filter (λ u, col_text c u = key ∧ live u) (map_to_list m).*2.


(** The cells of a listed row. *)
Definition cells_of (u : User) : list (option Value) := (λ c, cell c (row_of u)) <$> user_columns.

Lemma Scan_cells u : Scan user_dests (cells_of u) User_zero = (set_User_IsOnline false u, None).
Proof. by destruct u. Qed.

Lemma select_users m c key rows : text_col c →
  sql_select [VText key] (select_by c) (row_of <$> m) rows →
  ∃ us, rows = cells_of <$> us ∧ us ≡ₚ found_users m c key.
Proof.
  intros Hc (rs & page & Hp & _ & [= <-] & ->). cbn [sel_where select_by] in Hp.
  rewrite (found_rows 0%Z [VText key] _ (λ u, col_text c u = key ∧ live u) m) in Hp
    by (intros u; by apply selected_key).
  apply Permutation_map_inv in Hp as (us & -> & Hp). exists us. split; [|by symmetry].
  rewrite <- list_fmap_compose. done.
Qed.

Lemma lookup_row c key m s : text_col c → represents (table s) m →
  ∃ x s', QueryRow (select_by c) [VText key] user_dests User_zero s = (Ok x, s') ∧ table s' = table s ∧
    ((∃ u, x = (set_User_IsOnline false u, None) ∧ u ∈ found_users m c key) ∨
     x.2 = Some ErrNoRows ∧ found_users m c key = [] ∨
     ∃ msg, x.2 = Some (ErrorString msg) ∧ failure msg).
Proof.
  intros Hc [Hrows _ _]. unfold QueryRow, Query, try, mbind, gom_bind, mret, gom_ret.
  pose proof (db_query_law (select_by c) [VText key] (db s)) as Hl.
  pose proof (db_query_keeps (select_by c) [VText key] (db s)) as Hk.
  destruct (db_Query (select_by c) [VText key] (db s)) as [x d]. cbn [fst snd] in Hl, Hk.
  change (db_table (db s)) with (table s) in Hl. rewrite Hrows in Hl.
  inversion Hl as [rows Hrs|rows more msg Hrs Hf|msg Hf]; subst; eexists _, _; (split; [reflexivity|]);
    (split; [exact Hk|]); [..|by right; right; eauto].
  - apply (select_users m c key _ Hc) in Hrs as (us & -> & Hp). destruct us as [|u us]; csimpl.
    + right. left. split; [done|]. by apply Permutation_nil_l in Hp.
    + left. exists u. split; [apply Scan_cells|]. rewrite <- Hp. left.
  - apply (select_users m c key _ Hc) in Hrs as (us & Hus & Hp). destruct rows as [|cells rows].
    + right. right. eauto.
    + destruct us as [|u us]; [done|]. injection Hus as -> _. left. exists u.
      split; [apply Scan_cells|]. rewrite <- Hp. left.
Qed.

(** A lookup returns a live user with that key, offline; [ErrUserNotFound] when there is none; or the
    server's error. *)
Lemma get_law c key m s r s' : text_col c → represents (table s) m →
  get_user c key s = (r, s') → table s' = table s ∧
  ((∃ u, r = Ok (set_User_IsOnline false u) ∧ u ∈ found_users m c key) ∨
   r = Err ErrUserNotFound ∧ found_users m c key = [] ∨ failed r).
Proof.
  intros Hc Hrep. destruct (lookup_row c key m s Hc Hrep) as (x & s1 & Hq & Ht & Hx).
  unfold get_user. rewrite (bind_ok _ _ _ _ _ Hq).
  destruct Hx as [(u & -> & Hu)|[[Hx Hnil]|(msg & Hx & Hf)]].
  - intros [= <- <-]. split; [done|]. left. by exists u.
  - rewrite Hx, bool_decide_eq_true_2 by done. intros [= <- <-]. split; [done|]. right. by left.
  - rewrite Hx, bool_decide_eq_false_2.
    + intros [= <- <-]. split; [done|]. right. right. by exists msg.
    + destruct Hf as [_ Hm]. by intros [= ?].
Qed.

(** *** Calls *)


(** How an answer of the store relates to the one of the directory: the created user comes back
    without the server's stamps, users are read as offline, and a taken address is reported with the
    text of the server. *)
Definition pg_answer (c : call) (b a : answer) : Prop :=
  match c, b with
  | CallCreate _ u, AnsUser (Ok _) => a = AnsUser (Ok u)
  | CallUpdate _ _, AnsUnit (Err ErrUserAlreadyExists) =>
      ∃ msg, a = AnsUnit (Err (ErrorString msg)) ∧ Contains msg "duplicate" = true
  | _, AnsUser (Ok v) => a = AnsUser (Ok (set_User_IsOnline false v))
  | _, _ => a = b
  end.

Definition answer_failed (a : answer) : Prop :=
  match a with AnsUser r => failed r | AnsUnit r => failed r | AnsPage r => failed r end.

(** The store answers a call as the directory does, or the server fails; a failed call has its whole
    effect or none. *)
Definition follows (c : call) (s : S) m : Prop :=
  let '(a, s') := do_call c s in
  let '(b, m1) := do_call c m in
  ∃ m', represents (table s') m' ∧ (pg_answer c b a ∧ m' = m1 ∨ answer_failed a ∧ (m' = m ∨ m' = m1)).

(** What is left to show for a statement that stores [m1] or violates a constraint. *)
Lemma exec_cases now st args s r s' m m1 n (dup : Prop) `{!Decision dup} :
  Exec now st args s = (r, s') → represents (table s) m → (¬ dup → represents (row_of <$> m1) m1) →
  sql_exec now st args (table s) = (if decide dup then Duplicate else Done n (row_of <$> m1)) →
  (¬ dup ∧ r = Ok n ∧ represents (table s') m1) ∨
  (dup ∧ represents (table s') m ∧ ∃ msg, r = Err (ErrorString msg) ∧ Contains msg "duplicate" = true) ∨
  (failed r ∧ (represents (table s') m ∨ ¬ dup ∧ represents (table s') m1)).
Proof.
  intros He Hrep Hrep1 Hx. pose proof (Exec_law _ _ _ _ _ _ He) as Hl. rewrite Hx in Hl.
  destruct r as [k|err|]; [|destruct Hl as (msg & -> & [(Hd & Hx' & Ht)|[Hf Ht]])|done].
  - left. destruct (decide dup) as [|Hn]; [done|]. injection Hl as -> <-. auto.
  - right. left. destruct (decide dup) as [Hdup|]; [|done]. rewrite Ht. eauto.
  - right. right. split; [by exists msg|]. destruct Ht as [->|[k Ht]]; [by left|].
    destruct (decide dup) as [|Hn]; [done|]. injection Ht as _ <-. right. auto.
Qed.


(** The statements that change the row with a key. *)
Lemma keyed_follows now assignments args key rest (f : User → User) s m (impl : GoM error S unit) :
  impl = (rows ← Exec now (Update assignments (CAnd (CEq (ECol cId) (EParam 1)) not_deleted)) args;
          if bool_decide (rows = 0%Z) then throw ErrUserNotFound else mret ()) →
  args = VText key :: rest → assigned assignments cId = None → represents (table s) m →
  (∀ u, m !! key = Some u → user_fits (f u)) → (∀ u, User_ID (f u) = User_ID u) →
  (∀ u c, default (cell c (row_of u)) (eval now args (row_of u) <$> assigned assignments c)
     = cell c (row_of (f u))) →
  let '(r, s') := impl s in
  (∃ u, m !! key = Some u ∧ live u ∧ ¬ duplicate_in (row_of <$> <[key := f u]> m) ∧ r = Ok () ∧
     represents (table s') (<[key := f u]> m)) ∨
  (∃ u, m !! key = Some u ∧ live u ∧ duplicate_in (row_of <$> <[key := f u]> m) ∧
     represents (table s') m ∧ ∃ msg, r = Err (ErrorString msg) ∧ Contains msg "duplicate" = true) ∨
  (r = Err ErrUserNotFound ∧ (∀ u, m !! key = Some u → ¬ live u) ∧ represents (table s') m) ∨
  (failed r ∧ (represents (table s') m ∨ ∃ u, m !! key = Some u ∧ live u ∧
     ¬ duplicate_in (row_of <$> <[key := f u]> m) ∧ represents (table s') (<[key := f u]> m))).
Proof.
  intros -> Hargs Hid Hrep Hfits Hkey Hrow. pose proof Hrep as [Hrows Hok Hall].
  pose proof (update_exec now assignments args key rest f m Hargs Hid Hok (λ u Hu _, Hfits u Hu) Hrow) as Hx.
  rewrite <- Hrows in Hx at 1.
  destruct (Exec now (Update assignments (CAnd (CEq (ECol cId) (EParam 1)) not_deleted)) args s) as [r s'] eqn:He.
  unfold mbind, gom_bind. rewrite He.
  assert (∀ u, m !! key = Some u → ¬ duplicate_in (row_of <$> <[key := f u]> m) →
    represents (row_of <$> <[key := f u]> m) (<[key := f u]> m)) as Hins.
  { intros u Hu. pose proof (dir_ids _ Hok _ _ Hu) as Hk. rewrite <- Hkey in Hk. rewrite <- Hk.
    apply represents_insert; auto. }
  assert ((∀ u, m !! key = Some u → ¬ live u) → sql_exec now (Update assignments
    (CAnd (CEq (ECol cId) (EParam 1)) not_deleted)) args (table s)
      = if decide (duplicate_in (row_of <$> m)) then Duplicate else Done 0 (row_of <$> m)) as Hnone.
  { intros Hn. rewrite Hx. rewrite decide_False by (by apply not_duplicate). destruct (m !! key) as [u|]; [|done].
    by rewrite decide_False by exact (Hn u eq_refl). }
  assert ((∃ u, m !! key = Some u ∧ live u) ∨ (∀ u, m !! key = Some u → ¬ live u)) as [(u & Hu & Hl)|Hn].
  { destruct (m !! key) as [u|]; [|right; intros u Hu; discriminate Hu].
    destruct (decide (live u)); [left; eauto|right]. by intros v [= <-]. }
  - rewrite Hu, decide_True in Hx by done.
    destruct (exec_cases _ _ _ _ _ _ _ _ _ _ He Hrep (Hins u Hu) Hx)
      as [(Hd & -> & Hr)|[(Hd & Hr & msg & -> & Hmsg)|[(msg & -> & Hf) Hr]]].
    + left. exists u. split_and!; done.
    + right. left. exists u. split_and!; eauto.
    + right. right. right. split; [by exists msg|]. destruct Hr as [Hr|[Hd Hr]]; [by left|right]. eauto.
  - destruct (exec_cases _ _ _ _ _ _ _ m 0%Z _ He Hrep (λ _, {| rep_rows := eq_refl; rep_ok := Hok; rep_fits := Hall |})
      (Hnone Hn)) as [(_ & -> & Hr)|[(Hd & _)|[(msg & -> & Hf) Hr]]].
    + right. right. left. split_and!; done.
    + by destruct (not_duplicate m Hok).
    + right. right. right. split; [by exists msg|]. left. tauto.
Qed.

Lemma update_clash now p u m : dir_ok m → m !! User_ID p = Some u →
  duplicate_in (row_of <$> <[User_ID p := merge_user now p u]> m) ↔
    User_Email p ≠ "" ∧ User_Email p ≠ User_Email u ∧ is_Some (find_user (λ v, User_Email v = User_Email p) m).
Proof.
  intros Hm Hu. pose proof (dir_ids _ Hm _ _ Hu) as Hid.
  assert (User_ID (merge_user now p u) = User_ID p) as Hk
    by (rewrite <- Hid; unfold merge_user; by repeat case_bool_decide).
  rewrite <- Hk at 1. rewrite insert_clash, Hk by done.
  assert (User_Username (merge_user now p u) = User_Username u) as ->
    by (unfold merge_user; by repeat case_bool_decide).
  assert (User_Email (merge_user now p u) = if bool_decide (User_Email p ≠ "") then User_Email p else User_Email u) as ->
    by (unfold merge_user; by repeat case_bool_decide).
  split.
  - intros (j & v & Hj & Hne & [Hv|Hv]); [by destruct Hne; apply (dir_usernames _ Hm j (User_ID p) v u)|].
    case_bool_decide as He; [|by destruct Hne; apply (dir_emails _ Hm j (User_ID p) v u)].
    split; [done|]. split; [intros Hx; destruct Hne; apply (dir_emails _ Hm j (User_ID p) v u); congruence|].
    destruct (find_user _ m) eqn:E; [by eexists|]. rewrite find_user_None in E. by destruct (E j v Hj).
  - intros (He & Hne & [v Hv]). apply find_user_Some in Hv as (Hv & j & Hj). exists j, v.
    rewrite bool_decide_eq_true_2 by done. split; [done|]. split; [congruence|by right].
Qed.

Lemma delete_clash now u m : dir_ok m → m !! User_ID u = Some u →
  ¬ duplicate_in (row_of <$> <[User_ID u := deleted now u]> m).
Proof.
  intros Hm Hu. change (User_ID u) with (User_ID (deleted now u)). rewrite insert_clash by done.
  intros (j & v & Hj & Hne & [Hv|Hv]); apply Hne.
  - by apply (dir_usernames _ Hm j (User_ID u) v u).
  - by apply (dir_emails _ Hm j (User_ID u) v u).
Qed.

Lemma update_follows now p s m : represents (table s) m → patch_fits p →
  follows (CallUpdate now p) s m.
Proof.
  intros Hrep Hp. unfold follows. cbn [do_call us_Update PGStore_UserStore dir_UserStore].
  pose proof Hrep as [_ Hok Hall].
  pose proof (keyed_follows now _ (update_args p) (User_ID p) _ (merge_user now p) s m
    (PGStore_Update now p) eq_refl eq_refl eq_refl Hrep
    (λ u Hu, merge_fits now p u Hp (map_Forall_lookup_1 _ _ _ _ Hall Hu))
    ltac:(intros u; unfold merge_user; by repeat case_bool_decide) (update_row now p)) as Hk.
  destruct (PGStore_Update now p s) as [r s']. unfold dir_update.
  destruct Hk as [(u & Hu & Hl & Hd & -> & Hr)|[(u & Hu & Hl & Hd & Hr & msg & -> & Hmsg)|
    [(-> & Hn & Hr)|(Hf & Hr)]]].
  - rewrite Hu, decide_True by done. rewrite (update_clash now p u m Hok Hu) in Hd.
    rewrite bool_decide_eq_false_2 by done. eexists. split; [exact Hr|]. by left.
  - rewrite Hu, decide_True by done. rewrite (update_clash now p u m Hok Hu) in Hd.
    rewrite bool_decide_eq_true_2 by done. exists m. split; [exact Hr|]. left. split; [by exists msg|done].
  - destruct (m !! User_ID p) as [u|] eqn:Hu; [rewrite decide_False by (by apply Hn)|];
      (exists m; split; [exact Hr|]; by left).
  - destruct Hr as [Hr|(u & Hu & Hl & Hd & Hr)].
    + destruct (dir_update now p m) as [b m1] eqn:Eb. unfold dir_update in Eb. rewrite Eb.
      exists m. split; [exact Hr|]. right. split; [exact Hf|by left].
    + rewrite Hu, decide_True by done. rewrite (update_clash now p u m Hok Hu) in Hd.
      rewrite bool_decide_eq_false_2 by done. eexists. split; [exact Hr|]. right. split; [done|by right].
Qed.

Lemma delete_follows now id s m : represents (table s) m → follows (CallDelete now id) s m.
Proof.
  intros Hrep. unfold follows. cbn [do_call us_Delete PGStore_UserStore dir_UserStore].
  pose proof Hrep as [_ Hok Hall].
  pose proof (keyed_follows now _ [VText id] id [] (deleted now) s m
    (PGStore_Delete now id) eq_refl eq_refl eq_refl Hrep
    (λ u Hu, deleted_fits now u (map_Forall_lookup_1 _ _ _ _ Hall Hu)) (λ u, eq_refl)
    ltac:(by intros u [])) as Hk.
  destruct (PGStore_Delete now id s) as [r s']. unfold dir_delete. fold (deleted now).
  destruct Hk as [(u & Hu & Hl & Hd & -> & Hr)|[(u & Hu & Hl & Hd & Hr & msg & -> & Hmsg)|
    [(-> & Hn & Hr)|(Hf & Hr)]]].
  - rewrite Hu, decide_True by done. eexists. split; [exact Hr|]. by left.
  - pose proof (dir_ids _ Hok _ _ Hu) as <-. by destruct (delete_clash now u m Hok Hu).
  - destruct (m !! id) as [u|] eqn:Hu; [rewrite decide_False by (by apply Hn)|];
      (exists m; split; [exact Hr|]; by left).
  - destruct Hr as [Hr|(u & Hu & Hl & Hd & Hr)].
    + destruct (dir_delete now id m) as [b m1] eqn:Eb. unfold dir_delete in Eb. fold (deleted now) in Eb.
      rewrite Eb. exists m. split; [exact Hr|]. right. split; [exact Hf|by left].
    + rewrite Hu, decide_True by done. eexists. split; [exact Hr|]. right. split; [done|by right].
Qed.







(** ** Pages *)
Definition newest (u v : User) : Prop := (User_CreatedAt v ≤ User_CreatedAt u)%Z.

Lemma newer_sorted l : StronglySorted newer (row_of <$> l) → StronglySorted newest l.
Proof.
  induction l as [|u l IH]; [constructor|]. inversion 1 as [|? ? Hs Hf]; subst. constructor; [by apply IH|].
  rewrite Forall_fmap in Hf. eapply Forall_impl; [exact Hf|]. by intros v.
Qed.

(** A listing of the users with [P]: the total counts all of them or, when the count failed, none; the
    page is cut from one arrangement of them, newest first, and may end early. *)
Definition listing m (P : User → Prop) `{!∀ u, Decision (P u)} (offset limit : Z)
    (r : res error (list User * Z)) : Prop :=
  match r with
  | Ok (page, total) => (0 ≤ offset)%Z ∧ (0 ≤ limit)%Z ∧ ∃ l, l ≡ₚ filter P (map_to_list m).*2 ∧
      StronglySorted newest l ∧ (total = Z.of_nat (length l) ∨ total = 0%Z) ∧
      page `prefix_of` (set_User_IsOnline false <$> take (Z.to_nat limit) (drop (Z.to_nat offset) l))
  | Err _ => failed r
  | Panic => False
  end.

Section listings.
Variables (cond : Cond) (P : User → Prop) (count_args page_args : list Value) (lim off : Expr).
Context `{!∀ u, Decision (P u)}.
Hypothesis count_selects : ∀ u, selected 0%Z count_args cond (row_of u) ↔ P u.
Hypothesis page_selects : ∀ u, selected 0%Z page_args cond (row_of u) ↔ P u.

Lemma count_law s m : represents (table s) m →
  ∃ n s', count_rows (mkSelect None cond false None) count_args s = (Ok n, s') ∧ table s' = table s ∧
    (n = Z.of_nat (length (filter P (map_to_list m).*2)) ∨ n = 0%Z).
Proof.
  intros [Hrows _ _]. unfold count_rows, QueryRow, Query, try, mbind, gom_bind, mret, gom_ret.
  set (q := mkSelect None cond false None).
  pose proof (db_query_law q count_args (db s)) as Hl. pose proof (db_query_keeps q count_args (db s)) as Hk.
  destruct (db_Query q count_args (db s)) as [x d]. cbn [fst snd] in Hl, Hk.
  change (db_table (db s)) with (table s) in Hl. rewrite Hrows in Hl.
  assert (∀ rows, sql_select count_args q (row_of <$> m) rows →
    rows = [[Some (VInt (Z.of_nat (length (filter P (map_to_list m).*2))))]]) as Hsel.
  { unfold sql_select. cbn [sel_columns sel_where q]. intros rows ->.
    by rewrite (found_rows 0%Z count_args cond P m count_selects), length_fmap. }
  inversion Hl as [rows Hrs|rows more msg Hrs Hf|msg Hf]; subst; eexists _, _; (split; [reflexivity|]);
    (split; [exact Hk|]).
  - rewrite (Hsel _ Hrs). by left.
  - apply Hsel in Hrs. destruct rows as [|cells rows]; [by right|]. injection Hrs as -> _. by left.
  - by right.
Qed.

Lemma listing_law (offset limit : Z) s m : represents (table s) m →
  eval 0%Z page_args (make_row (λ _, None)) lim = Some (VInt limit) →
  eval 0%Z page_args (make_row (λ _, None)) off = Some (VInt offset) →
  let '(r, s') := (total ← count_rows (mkSelect None cond false None) count_args;
                   rows ← Query (mkSelect (Some user_columns) cond true (Some (lim, off))) page_args;
                   mret (scan_users rows, total)) s in
  table s' = table s ∧ listing m P offset limit r.
Proof.
  intros Hrep Hlim Hoff. destruct (count_law s m Hrep) as (n & s1 & Hc & Ht & Hn).
  rewrite (bind_ok _ _ _ _ _ Hc). destruct Hrep as [Hrows _ _]. rewrite <- Ht in Hrows |- *. clear Hc Ht.
  unfold Query, mbind, gom_bind, mret, gom_ret.
  set (q := mkSelect (Some user_columns) cond true (Some (lim, off))).
  pose proof (db_query_law q page_args (db s1)) as Hl. pose proof (db_query_keeps q page_args (db s1)) as Hk.
  destruct (db_Query q page_args (db s1)) as [x d]. cbn [fst snd] in Hl, Hk.
  change (db_table (db s1)) with (table s1) in Hl. rewrite Hrows in Hl.
  assert (∀ rows more, sql_select page_args q (row_of <$> m) (rows ++ more) → (0 ≤ offset)%Z ∧ (0 ≤ limit)%Z ∧
    ∃ l, l ≡ₚ filter P (map_to_list m).*2 ∧ StronglySorted newest l ∧
      rows `prefix_of` (cells_of <$> take (Z.to_nat limit) (drop (Z.to_nat offset) l))) as Hsel.
  { intros rows more (rs & page & Hp & Hs & Hpage & Happ). cbn [sel_where sel_limit sel_newest q] in *.
    rewrite (found_rows 0%Z page_args cond P m page_selects) in Hp.
    apply Permutation_map_inv in Hp as (us & -> & Hp). unfold page_of in Hpage. rewrite Hlim, Hoff in Hpage.
    case_bool_decide as Hpos; [|done]. injection Hpage as <-. split; [tauto|]. split; [tauto|]. exists us.
    split; [by symmetry|]. split; [by apply newer_sorted, Hs|]. exists more.
    rewrite Happ. change (map row_of us) with (row_of <$> us).
    rewrite <- fmap_drop, <- fmap_take, <- list_fmap_compose. done. }
  assert (∀ rows err l, rows `prefix_of` (cells_of <$> l) →
    scan_users (rows, err) `prefix_of` (set_User_IsOnline false <$> l)) as Hscan.
  { intros rows err l [k Hkl]. unfold scan_users. cbn [fst].
    exists ((λ cells, (Scan user_dests cells User_zero).1) <$> k).
    rewrite <- fmap_app, <- Hkl, <- list_fmap_compose. apply list_fmap_ext. intros i u _.
    unfold compose. by rewrite Scan_cells. }
  inversion Hl as [rows Hrs|rows more msg Hrs Hf|msg Hf]; subst; (split; [exact Hk|]); cbn [listing].
  - rewrite <- (app_nil_r rows) in Hrs. destruct (Hsel _ _ Hrs) as (? & ? & l & Hl1 & Hl2 & Hl3).
    split_and!; [done..|]. exists l. rewrite <- Hl1 in Hn. auto.
  - destruct (Hsel _ _ Hrs) as (? & ? & l & Hl1 & Hl2 & Hl3).
    split_and!; [done..|]. exists l. rewrite <- Hl1 in Hn. auto.
  - by exists msg.
Qed.
End listings.


(** A text of a user as the search looks at it. *)
Definition hit (q x : string) : Prop := like (chars ("%" +:+ q +:+ "%")) (chars (sql_lower x)) = true.
#[export] Instance hit_dec q x : Decision (hit q x).
Proof. unfold hit. apply _. Defined.
Definition search_hit (q : string) (u : User) : Prop :=
  live u ∧ (hit q (User_Username u) ∨ hit q (User_Email u) ∨ hit q (User_DisplayName u)).
#[export] Instance search_hit_dec q u : Decision (search_hit q u).
Proof. unfold search_hit. apply _. Defined.

Lemma selected_search q args u :
  selected 0%Z (VText ("%" +:+ q +:+ "%") :: args) search_cond (row_of u) ↔ search_hit q u.
Proof.
  unfold search_hit. rewrite <- (selected_live 0%Z (VText ("%" +:+ q +:+ "%") :: args)).
  unfold selected, search_cond, hit. cbn [holds eval cell row_of row_username row_email row_display_name].
  unfold param. cbn [pred lookup list_lookup]. set (p := chars ("%" +:+ q +:+ "%")).
  destruct (holds 0%Z (VText ("%" +:+ q +:+ "%") :: args) (row_of u) not_deleted) as [[]|];
    destruct (like p (chars (sql_lower (User_Username u)))), (like p (chars (sql_lower (User_Email u)))),
      (like p (chars (sql_lower (User_DisplayName u)))); cbn; naive_solver.
Qed.
End refinement.











(** ** Searches, histories and the online count *)
Section calls.
Context `{UnicodeTables} `{Collation} {D : Type} `{!Database D, !DatabaseLaws D}.
Notation S := (PGStore D).
Implicit Types (s : S) (m : gmap string User).

(** The run of a listing on [s], in the goal and in what [listing_law] says of it. *)
Ltac split_listing s r s' Hl :=
  revert Hl; unfold count_users, page_users, count_found, page_found; match goal with |- context [(count_rows ?a ?b ≫= ?k) s] =>
    destruct ((count_rows a b ≫= k) s) as [r s'] end; intros Hl.


(** What a call may store. *)
Definition call_fits (c : call) : Prop :=
  match c with CallCreate _ u => user_fits u | CallUpdate _ p => patch_fits p | _ => True end.

Lemma create_keeps now u s m : represents (table s) m → user_fits u →
  ∃ m', represents (table (PGStore_Create now u s).2) m'.
Proof.
  intros Hrep Hu. pose proof Hrep as [Hrows Hok Hall].
  unfold PGStore_Create. fold (insert_args u). unfold mbind, gom_bind, try.
  destruct (Exec now insert_user (insert_args u) s) as [r s'] eqn:He.
  pose proof (Exec_law _ _ _ _ _ _ He) as Hl. rewrite Hrows, insert_exec in Hl by done.
  assert (∀ n t, (if decide (is_Some (m !! User_ID u)) then Duplicate
      else if decide (duplicate_in (row_of <$> <[User_ID u := inserted now u]> m)) then Duplicate
      else Done 1 (row_of <$> <[User_ID u := inserted now u]> m)) = Done n t → ∃ m', represents t m') as Hdone.
  { intros n t. destruct (decide (is_Some _)); [done|]. destruct (decide (duplicate_in _)) as [|Hd]; [done|].
    intros [= _ <-]. eexists. apply (represents_insert m (inserted now u)); auto using inserted_fits. }
  assert (table s' = table s ∨ ∃ m', represents (table s') m') as Hs.
  { destruct r as [n|err|]; [right; by eapply Hdone| |done].
    destruct Hl as (msg & _ & [(_ & _ & Ht)|[_ [Ht|[n Ht]]]]); [left; by rewrite Hrows..|right; by eapply Hdone]. }
  assert (∃ m', represents (table s') m') as Hex by (destruct Hs as [->|?]; [by exists m|done]).
  destruct r as [n|err|]; [exact Hex| |done]. by destruct (Contains (Error err) "duplicate").
Qed.

Lemma call_keeps c s m : represents (table s) m → call_fits c →
  ∃ m', represents (table (do_call c s).2) m'.
Proof.
  intros Hrep Hc. assert (∀ c', follows c' s m → ∃ m', represents (table (do_call c' s).2) m') as Hf.
  { intros c'. unfold follows. destruct (do_call c' s) as [a s'], (do_call c' m) as [b m1].
    intros (m' & Hr & _). by exists m'. }
  assert (∀ key k, text_col k → ∃ m', represents (table (get_user k key s).2) m') as Hget.
  { intros key k Hk. destruct (get_user k key s) as [r s'] eqn:E.
    destruct (get_law k key m s r s' Hk Hrep E) as [Ht _]. exists m. cbn [snd]. by rewrite Ht. }
  destruct c as [now u|id|n|e|now p|now id|iter off lim|iter q off lim].
  - cbn [do_call us_Create PGStore_UserStore]. pose proof (create_keeps now u s m Hrep Hc) as Hk.
    by destruct (PGStore_Create now u s).
  - pose proof (Hget id cId ltac:(unfold text_col; set_solver)) as Hk.
    cbn [do_call us_GetByID PGStore_UserStore]. unfold PGStore_GetByID. by destruct (get_user cId id s).
  - pose proof (Hget n cUsername ltac:(unfold text_col; set_solver)) as Hk.
    cbn [do_call us_GetByUsername PGStore_UserStore]. unfold PGStore_GetByUsername. by destruct (get_user cUsername n s).
  - pose proof (Hget e cEmail ltac:(unfold text_col; set_solver)) as Hk.
    cbn [do_call us_GetByEmail PGStore_UserStore]. unfold PGStore_GetByEmail. by destruct (get_user cEmail e s).
  - by apply Hf, update_follows.
  - by apply Hf, delete_follows.
  - pose proof (listing_law not_deleted live [] [VInt lim; VInt off] (EParam 1) (EParam 2)
      (selected_live 0%Z []) (selected_live 0%Z _) off lim s m Hrep eq_refl eq_refl) as Hl.
    cbn [do_call us_List PGStore_UserStore]. unfold PGStore_List. split_listing s r s' Hl.
    destruct Hl as [Ht _]. exists m. cbn [snd]. by rewrite Ht.
  - pose proof (listing_law search_cond (search_hit (ToLower q)) [VText ("%" +:+ ToLower q +:+ "%")]
      [VText ("%" +:+ ToLower q +:+ "%"); VInt lim; VInt off] (EParam 2) (EParam 3)
      (selected_search (ToLower q) []) (selected_search (ToLower q) _) off lim s m Hrep eq_refl eq_refl) as Hl.
    cbn [do_call us_Search PGStore_UserStore]. unfold PGStore_Search. split_listing s r s' Hl.
    destruct Hl as [Ht _]. exists m. cbn [snd]. by rewrite Ht.
Qed.

Lemma calls_keep cs s m : represents (table s) m → Forall call_fits cs →
  ∃ m', represents (table (do_calls cs s).2) m'.
Proof.
  intros Hrep Hcs. revert s m Hrep. induction Hcs as [|c cs Hc _ IH]; intros s m Hrep; [by exists m|].
  cbn [do_calls]. destruct (call_keeps c s m Hrep Hc) as [m1 Hm1]. destruct (do_call c s) as [a s1].
  destruct (IH s1 m1 Hm1) as [m2 Hm2]. destruct (do_calls cs s1) as [l s2]. by exists m2.
Qed.

(** C27. Over any history of calls, failures of the server included, the table stays the table of a
    consistent directory: no NULL where the code cannot read one, keys as in the rows, and usernames
    and addresses unique, deleted users counted, even when an identifier is drawn twice. *)
Theorem pg_history_consistent (cs : list call) s :
  table s = ∅ → Forall call_fits cs →
  ∃ m, represents (table (do_calls cs s).2) m ∧ dir_ok m.
Proof.
  intros Hs Hcs. destruct (calls_keep cs s ∅) as [m Hm]; [|done|].
  - rewrite Hs. split; [by rewrite fmap_empty| |by apply map_Forall_empty]. split; intros *; by rewrite lookup_empty.
  - exists m. split; [exact Hm|]. by destruct Hm.
Qed.
End calls.

Section online.
Context `{UnicodeTables} {D SS : Type} `{!Database D, !SyncJobStore SS}.

Lemma Scan_offline cells : User_IsOnline (Scan user_dests cells User_zero).1 = false.
Proof.
  assert (∀ dests, (∀ f, f ∈ dests → ∀ v u u', f v u = Some u' → User_IsOnline u' = User_IsOnline u) →
    ∀ cells u, User_IsOnline (Scan dests cells u).1 = User_IsOnline u) as Hs.
  { induction dests as [|f dests IH]; intros Hf cs u; [by destruct cs|].
    destruct cs as [|[v|] cs]; cbn [Scan]; try done. destruct (f v u) as [u'|] eqn:E; [|done].
    rewrite IH by (intros g Hg; apply Hf; by right). by apply (Hf f) with v; [left|]. }
  rewrite Hs; [done|]. intros f Hf v u u'.
  repeat (apply elem_of_cons in Hf as [->|Hf]; [by destruct v; intros [= <-]|]). by apply elem_of_nil in Hf.
Qed.

(** C39. On this store nobody is ever online: no query lists the column, so the count of online users
    is zero whatever the table holds. *)
Theorem pg_online_count_zero (iter : list string) (s s' : UserService (PGStore D) SS) (n : Z) :
  UserService_GetOnlineCount iter s = (Ok n, s') → n = 0%Z.
Proof.
  unfold UserService_GetOnlineCount, on_users. cbn [us_List PGStore_UserStore]. unfold PGStore_List.
  unfold mbind, gom_bind, zoom, mret, gom_ret.
  destruct (count_rows count_users [] (userStore s)) as [[total|err|] d]; [|done|done].
  destruct (Query page_users _ d) as [[rows|err|] d']; [|done|done]. intros [= <- _]. cbn [fst].
  unfold count_online, scan_users. generalize 0%Z. generalize (rows.1). intros l k.
  revert k. induction l as [|cells l IH]; intros k; [done|]. cbn [fmap list_fmap foldl]. rewrite Scan_offline. apply IH.
Qed.
End online.

Section credentials.
Context `{UnicodeTables} `{Collation} {D SS : Type} `{!Database D, !DatabaseLaws D, !SyncJobStore SS}.

End credentials.

(** ** Concrete instances *)
Module SampleDb.
#[export] Instance ascii_collation : Collation := { sql_lower := string_map lower_byte }.

(** A server that never fails: it keeps the table and runs what [Sql] says. *)
Definition run_exec (now : Time) (st : Stmt) (args : list Value) (t : Table) : (string + Z) * Table :=
  match sql_exec now st args t with
  | Done n t' => (inr n, t')
  | Duplicate => (inl "pq: duplicate key value violates unique constraint", t)
  | Refused => (inl "pq: value not accepted", t)
  end.

Definition run_query (q : Select) (args : list Value) (t : Table) :
    (string + list (list (option Value)) * option string) * Table :=
  let found := filter (selected 0%Z args (sel_where q)) (map_to_list t).*2 in
  (match sel_columns q with
   | None => inr ([[Some (VInt (Z.of_nat (length found)))]], None)
   | Some cols =>
       match page_of args (sel_limit q) (merge_sort newer found) with
       | Some page => inr ((λ r, (λ c, cell c r) <$> cols) <$> page, None)
       | None => inl "pq: LIMIT must not be negative"
       end
   end, t).

#[export] Instance server : Database Table := {
  db_Exec := run_exec;
  db_Query := run_query;
}.

Lemma run_exec_law now st args d :
  exec_law now st args d (run_exec now st args d).1 (run_exec now st args d).2.
Proof.
  unfold run_exec. destruct (sql_exec now st args d) as [n t'| |] eqn:E; cbn [fst snd].
  - by constructor.
  - by constructor.
  - by apply exec_fails.
Qed.

Lemma run_query_law q args d : query_law q args d (run_query q args d).1.
Proof.
  unfold run_query. cbn [fst]. destruct (sel_columns q) as [cols|] eqn:Ec.
  - destruct (page_of args _ _) as [page|] eqn:Ep; [|by apply query_fails].
    apply query_done. unfold sql_select. rewrite Ec. exists (merge_sort newer (filter (selected 0%Z args (sel_where q)) (map_to_list d).*2)), page.
    split; [apply merge_sort_Permutation|].
    split; [intros _; apply (StronglySorted_merge_sort newer)|]. by split.
  - apply query_done. unfold sql_select. by rewrite Ec.
Qed.

#[export] Instance server_laws : DatabaseLaws Table := {
  db_table t := t;
  db_exec_law := run_exec_law;
  db_query_law := run_query_law;
  db_query_keeps q args d := eq_refl;
}.

Definition users : gmap string User := UserMem.users Sample.store.
Definition empty : PGStore Table := mkPGStore ∅.
Definition store : PGStore Table := mkPGStore (row_of <$> users).

(** Bob takes the address of Alice. *)
Definition take_address : User := set_User_Email "a@x.io" (mkUser "2" "" "" "" "" "" false "" "" 0%Z 0%Z).
Definition history : list call :=
  [CallCreate 10%Z Sample.alice; CallCreate 11%Z Sample.bob; CallCreate 12%Z (set_User_Email "c@x.io" Sample.bob);
   CallUpdate 13%Z take_address; CallDelete 14%Z "1"; CallList [] 0%Z 20%Z].
Definition service : UserService (PGStore Table) MemorySyncJobStore :=
  mkUserService store NewMemorySyncJobStore sample_auth.
End SampleDb.

Section witnesses.
#[local] Existing Instance Sample.ascii_tables.
#[local] Existing Instance SampleDb.ascii_collation.
#[local] Existing Instance SampleDb.server.
#[local] Existing Instance SampleDb.server_laws.

Lemma fits_decide n s : text_ok s && bool_decide (length (chars s) ≤ n) = true → fits n s.
Proof. intros [Ht Hl%bool_decide_eq_true]%andb_true_iff. by split. Qed.





Lemma pg_history_consistent_witness : ∃ m,
  represents (table (do_calls SampleDb.history SampleDb.empty).2) m ∧ dir_ok m ∧
  size (table (do_calls SampleDb.history SampleDb.empty).2) = 2.
Proof.
  destruct (pg_history_consistent SampleDb.history SampleDb.empty) as (m & Hm & Hok).
  - reflexivity.
  - repeat (apply Forall_cons; split); [..|by apply Forall_nil];
      (repeat split; apply fits_decide; vm_compute; reflexivity).
  - exists m. split; [exact Hm|]. split; [exact Hok|]. vm_compute. reflexivity.
Defined.

(** Bob's row says that he is online, and the count is zero. *)
Lemma pg_online_count_zero_witness :
  let s := (UserService_SetOnline 30%Z "2" true SampleDb.service).2 in
  (r ← (table (userStore s) !! "2"); row_is_online r) = Some (VBool true) ∧
  (UserService_GetOnlineCount [] s).1 = Ok 0%Z.
Proof.
  cbv zeta. set (s := (UserService_SetOnline 30%Z "2" true SampleDb.service).2).
  split; [vm_compute; reflexivity|].
  assert (is_ok (UserService_GetOnlineCount [] s).1 = true) as Hok by (vm_compute; reflexivity).
  destruct (UserService_GetOnlineCount [] s) as [[n|err|] s'] eqn:E; [|discriminate Hok|discriminate Hok].
  cbn [fst]. by rewrite (pg_online_count_zero [] s s' n E).
Defined.

End witnesses.
