(* ===== verification/Idpctl.v ===== *)
(** * Command-line client

    [cmd/idpctl]: the two helpers that talk to the service over HTTP and over the local socket, the
    [RunE] function of every command, and the client put together with the servers of this
    library. Cobra parses the command line and checks the number of arguments; a command starts with
    the arguments it is given. *)

From Stdlib Require Import ZArith Lia Ascii String.
From stdpp Require Import base tactics numbers list gmap strings.
From S2P Require Import Prelude Model GoStrings GoJson GoJsonText GoIO UserStore UserMem UserHistory SyncJobs Membership OrgStore GroupStore Auth UserService DirectoryService App Udp UdsMessages UdsCodec UdsHandshake UdsHandler UdsServer Rest.

Notation quote_mark := (ascii_of_nat 34).

(** A JSON text of the source, written with ['] for the double quote. *)
Definition tpl (s : string) : bytes :=
  (λ c, if bool_decide (c = "'"%char) then quote_mark else c) <$> lit s.

(** ** The standard library *)

(** [strings.Trim(s, cutset)] for a cutset of one byte. *)
Fixpoint trim_left (c : ascii) (s : bytes) : bytes :=
  match s with b :: r => if bool_decide (b = c) then trim_left c r else s | [] => [] end.
Definition Trim (c : ascii) (s : bytes) : bytes := reverse (trim_left c (reverse (trim_left c s))).

(** The part of [strings.Split(s, sep)] before the first line break. *)
Fixpoint first_line (s : bytes) : bytes :=
  match s with [] => [] | b :: r => if is_newline b then [] else b :: first_line r end.

(** [net/url]: percent escapes of a path; a plus sign stands for itself. *)
Fixpoint PathUnescape (s : string) : option string :=
  match s with
  | EmptyString => Some ""
  | String "%" s' =>
      match s' with
      | String a (String b r) =>
          match unhex a, unhex b with
          | Some x, Some y => String (ascii_of_nat (16 * x + y)) <$> PathUnescape r
          | _, _ => None
          end
      | _ => None
      end
  | String c r => String c <$> PathUnescape r
  end.

(** An ASCII control byte. *)
Definition is_ctl (c : ascii) : bool := bool_decide (nat_of_ascii c < 32 ∨ nat_of_ascii c = 127).

(** [url.Parse] of what follows the authority of a URL: the path and the raw query. *)
Definition parse_target (s : string) : option (string * string) :=
  if string_forallb (λ c, negb (is_ctl c)) s then
    let '(s, fragment, _) := Cut s "#" in
    let '(p, q, _) := Cut s "?" in
    match PathUnescape p, PathUnescape fragment with
    | Some p, Some _ => Some (p, q)
    | _, _ => None
    end
  else None.

(** A Go map with string keys: its entries by key, and [None] for the nil map. [json.Marshal]
    writes them in this order. *)
Definition GoMap : Type := option (list (string * json)).

Fixpoint map_set (k : string) (v : json) (m : list (string * json)) : list (string * json) :=
  match m with
  | [] => [(k, v)]
  | (k', v') :: m =>
      match String.compare k k' with
      | Eq => (k, v) :: m
      | Lt => (k, v) :: (k', v') :: m
      | Gt => (k', v') :: map_set k v m
      end
  end.
Definition map_of (l : list (string * json)) : list (string * json) :=
  foldl (λ m kv, map_set kv.1 kv.2 m) [] l.
Definition string_map (l : list (string * string)) : GoMap :=
  Some (map_of ((λ kv, (kv.1, JString kv.2)) <$> l)).

(** How the package decodes a number into an [interface{}] (a [float64], or nothing when it is out of
    range): the value that is encoded again. *)
Class Float64 : Type := float_json : string → json.

(** A decoded [interface{}], as it is encoded again: objects become maps. *)
Fixpoint interface_value `{Float64} (v : json) : json :=
  match v with
  | JObject l => JObject (map_of ((λ kv, (kv.1, interface_value kv.2)) <$> l))
  | JArray l => JArray (interface_value <$> l)
  | JNumber t => float_json t
  | v => v
  end.

(** [json.Unmarshal(data, &payload)] into a nil map, the error dropped. *)
Definition unmarshal_map `{Float64} (data : bytes) : GoMap :=
  match decode data with
  | Some (JObject l) => Some (map_of ((λ kv, (kv.1, interface_value kv.2)) <$> l))
  | _ => None
  end.

(** [json.Marshal(payload)]. *)
Definition marshal_map (m : GoMap) : bytes :=
  match m with Some l => marshal (JObject l) | None => marshal JNull end.

(** ** State *)

(** The global flags. The base URL is taken to be a scheme and an authority. *)
Record Flags : Type := mkFlags {
  apiURL : string;
  udsPath : string;
  token : string;
  useUDS : bool;
}.
Definition default_flags : Flags := mkFlags "http://localhost:8080" "/tmp/idp-uds.sock" "" false.

Record HttpRequest : Type := mkHttpRequest {
  hq_method : string;
  hq_base : string;
  hq_path : string;
  hq_query : string;
  hq_auth : bytes;
  hq_body : bytes;
}.

(** [http.NewRequest]: [None] is its error, for a URL that does not parse. *)
Definition NewRequest (method base target : string) (body : bytes) : option HttpRequest :=
  '(p, q) ← parse_target target; Some (mkHttpRequest method base p q [] body).

(** [http.DefaultClient.Do] with a server in state [S], redirections followed, and the body read to
    its end. *)
Class HttpClient (S : Type) : Type := Do : HttpRequest → GoM io_error S (Z * bytes).

(** What a command reaches: the HTTP server, the connection a dial gets, and the standard output. *)
Record World (S : Type) : Type := mkWorld {
  w_http : S;
  w_dial : io_error + Conn;
  w_out : list bytes;
}.
Arguments mkWorld {S} _ _ _.
Arguments w_http {S} _.
Arguments w_dial {S} _.
Arguments w_out {S} _.

Section commands.
Context {S : Type} `{!HttpClient S} `{Float64}.
Notation M := (GoM io_error (World S)).

(** ** Helpers *)
Definition on_http {A} (m : GoM io_error S A) : M A :=
  zoom w_http (λ s w, mkWorld s (w_dial w) (w_out w)) m.

Definition println (line : bytes) : M unit := λ w,
  (Ok (), mkWorld (w_http w) (w_dial w) (w_out w ++ [line])).

(** The request is dereferenced without a look at the error. *)
Definition restCall (f : Flags) (method path : string) (body : bytes) : M bytes :=
  match NewRequest method (apiURL f) path body with
  | None => panic
  | Some req =>
      let auth := if bool_decide (token f ≠ "") then lit "Bearer " ++ Trim quote_mark (lit (token f)) else [] in
      resp ← on_http (Do (mkHttpRequest (hq_method req) (hq_base req) (hq_path req) (hq_query req) auth (hq_body req)));
      if bool_decide (400 ≤ resp.1)%Z
      then throw (ErrText ("HTTP " +:+ FormatInt resp.1 +:+ ": " +:+ string_of_list_ascii resp.2))
      else mret resp.2
  end.

(** [conn.Read(buf)] with a buffer of 4096 bytes. *)
Definition read_once : GoM io_error Conn bytes := λ c,
  let '(bs, err, c) := Conn_Read 4096 c in
  match err with Some e => (Err e, c) | None => (Ok bs, c) end.

Definition handshake_line : bytes := tpl "{'version':'1.0','format':'json'}" ++ [newline].
Definition request_line (action : string) (payload : bytes) : bytes :=
  tpl "{'action':'" ++ lit action ++ tpl "','payload':" ++ payload ++ tpl "}" ++ [newline].

(** The exchange on a connection. *)
Definition exchange (action : string) (payload : GoMap) : GoM io_error Conn bytes :=
  _ ← Write handshake_line;
  _ ← read_once;
  _ ← Write (request_line action (marshal_map payload));
  resp ← read_once;
  mret (first_line resp).

Definition udsCall (f : Flags) (action : string) (payload : GoMap) : M bytes := λ w,
  match w_dial w with
  | inl err => (Err err, w)
  | inr conn =>
      let '(r, conn) := exchange action payload conn in
      (r, mkWorld (w_http w) (inr conn) (w_out w))
  end.

(** [args[i]]. *)
Definition arg (args : list string) (i : nat) : M string :=
  match args !! i with Some a => mret a | None => panic end.

(** A call whose answer is printed. *)
Definition print_answer (m : M bytes) : M unit := resp ← m; println resp.

(** ** [auth.go] *)
Definition auth_login (f : Flags) (args : list string) : M unit :=
  a0 ← arg args 0; a1 ← arg args 1;
  if useUDS f then
    print_answer (udsCall f "auth" (string_map [("username", a0); ("password", a1)]))
  else
    let body := tpl "{'username':'" ++ lit a0 ++ tpl "','password':'" ++ lit a1 ++ tpl "'}" in
    print_answer (restCall f "POST" "/api/v1/auth/login" body).

(** ** [user.go] *)
Definition user_create (f : Flags) (args : list string) : M unit :=
  a0 ← arg args 0; a1 ← arg args 1; a2 ← arg args 2;
  let body := tpl "{'username':'" ++ lit a0 ++ tpl "','password':'" ++ lit a1 ++ tpl "','email':'" ++
                lit a2 ++ tpl "'}" in
  print_answer (restCall f "POST" "/api/v1/users" body).

Definition user_get (f : Flags) (args : list string) : M unit :=
  a0 ← arg args 0;
  if useUDS f then print_answer (udsCall f "get_user" (string_map [("username", a0)]))
  else print_answer (restCall f "GET" ("/api/v1/users/" +:+ a0) []).

(** [page] and [pageSize] are the flags of the command. *)
Definition user_list (page pageSize : Z) (f : Flags) (args : list string) : M unit :=
  let url := "/api/v1/users?page=" +:+ FormatInt page +:+ "&page_size=" +:+ FormatInt pageSize in
  print_answer (restCall f "GET" url []).

Definition user_update (f : Flags) (args : list string) : M unit :=
  a0 ← arg args 0; a1 ← arg args 1;
  print_answer (restCall f "PUT" ("/api/v1/users/" +:+ a0) (lit a1)).

Definition user_delete (f : Flags) (args : list string) : M unit :=
  a0 ← arg args 0;
  _ ← restCall f "DELETE" ("/api/v1/users/" +:+ a0) [];
  println (lit "User deleted").

Definition user_online_count (f : Flags) (args : list string) : M unit :=
  print_answer (restCall f "GET" "/api/v1/users/online/count" []).

(** ** [org.go] *)
Definition organizations : string := "/api/v1/directory/organizations".





(** The assignment [payload["org_id"] = ...] panics on a nil map. *)
Definition org_add_member (f : Flags) (args : list string) : M unit :=
  a0 ← arg args 0; a1 ← arg args 1;
  let role := default "member" (args !! 2) in
  let body := tpl "{'user_id':'" ++ lit a1 ++ tpl "','role':'" ++ lit role ++ tpl "'}" in
  if useUDS f then
    match unmarshal_map body with
    | None => panic
    | Some m => print_answer (udsCall f "add_org_member" (Some (map_set "org_id" (JString a0) m)))
    end
  else print_answer (restCall f "POST" (organizations +:+ "/" +:+ a0 +:+ "/members") body).










End commands.

(** ** The table of commands

    [cmd_min] and [cmd_max] are the bounds cobra checks the number of arguments against. *)
Record Command (S : Type) : Type := mkCommand {
  cmd_use : string;
  cmd_min : nat;
  cmd_max : option nat;
  cmd_run : Flags → list string → GoM io_error (World S) unit;
}.
Arguments mkCommand {S} _ _ _ _.
Arguments cmd_use {S} _.
Arguments cmd_min {S} _.
Arguments cmd_max {S} _.
Arguments cmd_run {S} _ _ _.

Section table.
Context {S : Type} `{!HttpClient S} `{Float64}.

Definition authCmd : list (Command S) := [mkCommand "login" 2 (Some 2) auth_login].

(** [page] and [pageSize] are the flags of the listing. *)
Definition userCmd (page pageSize : Z) : list (Command S) :=
  [mkCommand "create" 3 (Some 3) user_create; mkCommand "get" 1 (Some 1) user_get;
   mkCommand "list" 0 None (user_list page pageSize); mkCommand "update" 2 (Some 2) user_update;
   mkCommand "delete" 1 (Some 1) user_delete; mkCommand "online-count" 0 (Some 0) user_online_count].


End table.


(** ** The client in front of the service *)
Section engine.
Context {US SS OS GS : Type} `{!UserStore US, !SyncJobStore SS, !OrgStore OS, !GroupStore GS}.
Context `{JWT} `{!Router}.
Context `{!BindJSON CreateUserRequest, !BindJSON UpdateUserRequest, !BindJSON LoginRequest,
  !BindJSON CreateSyncJobRequest, !BindJSON CreateOrgRequest, !BindJSON UpdateOrgRequest,
  !BindJSON AddOrgMemberRequest, !BindJSON CreateGroupRequest, !BindJSON UpdateGroupRequest,
  !BindJSON AddGroupMemberRequest}.

Definition method_of (m : string) : option Method :=
  if bool_decide (m = "GET") then Some GET
  else if bool_decide (m = "POST") then Some POST
  else if bool_decide (m = "PUT") then Some PUT
  else if bool_decide (m = "DELETE") then Some DELETE
  else None.

(** [url.URL.Query()]: the pieces of a query that parse. *)
Definition url_query (raw : string) : list (string * string) :=
  let '(h, t) := split_byte "&" raw in omap (λ piece, mjoin (parse_piece piece)) (h :: t).

Definition received (m : Method) (rq : HttpRequest) : Request :=
  mkRequest m (hq_path rq) (string_of_list_ascii (hq_auth rq)) (url_query (hq_query rq))
    (string_of_list_ascii (hq_body rq)).

(** The HTTP server is the engine of [Rest] on an application, at the surroundings [e]; [render] is
    the text of an answer. A redirection, which only a path with a stray slash meets, is an answer
    here, and a token is taken to hold no byte that a header cannot carry. *)
Definition engine (e : Env) (render : Body → bytes) : HttpClient (App US SS OS GS) := λ rq a,
  match method_of (hq_method rq) with
  | Some m =>
      match ServeHTTP e (received m rq) a with
      | (Ok rs, a) => (Ok (rs_status rs, render (rs_body rs)), a)
      | (_, a) => (Err EOF, a)
      end
  | None => (Err EOF, a)
  end.
End engine.

(** ** Facts *)
#[local] Arguments String.append : simpl nomatch.

(** An argument a URL carries as it is: no control byte and no percent sign. *)
Definition plain_arg (s : string) : bool :=
  string_forallb (λ c, negb (is_ctl c) && negb (Ascii.eqb c "%")) s.






(** *** The paths of the organization and group commands *)
Notation dir_root := "/api/v1/directory/".





Lemma segments_nonempty p : segments p ≠ [].
Proof. unfold segments. by destruct (split_byte "/" p). Qed.




(** *** Formatted integers in a query *)
Lemma string_forallb_impl (f g : ascii → bool) s :
  (∀ c, f c = true → g c = true) → string_forallb f s = true → string_forallb g s = true.
Proof.
  intros Hfg. induction s as [|c s IH]; [done|]. cbn [string_forallb].
  intros [Hc Hs]%andb_true_iff. by rewrite (Hfg c Hc), IH.
Qed.

Definition int_byte (c : ascii) : bool := bool_decide (48 ≤ nat_of_ascii c ≤ 57) || Ascii.eqb c "-".

Lemma FormatInt_bytes n : is_int n → string_forallb int_byte (FormatInt n) = true.
Proof.
  unfold is_int, min_int, max_int. intros Hn.
  assert (∀ m, (0 ≤ m < 10 ^ 20)%Z → string_forallb int_byte (format_uint 20 m "") = true) as Hu.
  { intros m Hm. destruct (format_uint_digits 20 m "" Hm ltac:(done)) as (d & s & -> & Hs & _).
    rewrite string_app_nil_r. apply (string_forallb_impl _ _ _ (λ c H, proj2 (orb_true_iff _ _) (or_introl H)) Hs). }
  unfold FormatInt. case_bool_decide; [cbn [string_forallb]|]; apply Hu; lia.
Qed.

(** Such bytes are harmless in a URL. *)
Definition harmless (c : ascii) : bool :=
  unreserved c && query_byte c && negb (is_ctl c) &&
  negb (Ascii.eqb c "%" || Ascii.eqb c "#" || Ascii.eqb c "?").
Lemma int_byte_harmless c : int_byte c = true → harmless c = true.
Proof.
  rewrite <- (ascii_nat_embedding c). pose proof (nat_ascii_bounded c) as Hc. revert Hc.
  generalize (nat_of_ascii c). intros n Hn.
  assert (forallb (λ n, implb (int_byte (ascii_of_nat n)) (harmless (ascii_of_nat n))) (seq 0 256) = true)
    as Hall by (vm_compute; reflexivity).
  rewrite forallb_forall in Hall. specialize (Hall n ltac:(apply in_seq; lia)). intros Hi. by rewrite Hi in Hall.
Qed.

Lemma FormatInt_harmless n : is_int n → string_forallb harmless (FormatInt n) = true.
Proof. intros Hn. apply (string_forallb_impl int_byte), FormatInt_bytes, Hn. apply int_byte_harmless. Qed.

Lemma harmless_parts c : harmless c = true →
  unreserved c = true ∧ query_byte c = true ∧ is_ctl c = false ∧ Ascii.eqb c "#" = false ∧ Ascii.eqb c "?" = false.
Proof.
  unfold harmless. rewrite !andb_true_iff, !negb_true_iff, !orb_false_iff. tauto.
Qed.

Lemma QueryEscape_harmless s : string_forallb harmless s = true → QueryEscape s = s.
Proof.
  induction s as [|c s IH]; [done|]. cbn [string_forallb QueryEscape].
  intros [Hc Hs]%andb_true_iff. destruct (harmless_parts c Hc) as [Hu _]. unfold escape_byte. rewrite Hu, IH by done.
  done.
Qed.

Lemma harmless_free c s : c ∈ ["#"%char; "?"%char] → string_forallb harmless s = true → free_of c s = true.
Proof.
  intros Hc. apply string_forallb_impl. intros x (_ & _ & _ & H1 & H2)%harmless_parts.
  repeat (apply elem_of_cons in Hc as [->|Hc]; [by rewrite ?H1, ?H2|]). by apply elem_of_nil in Hc.
Qed.

Lemma harmless_no_ctl s : string_forallb harmless s = true → string_forallb (λ c, negb (is_ctl c)) s = true.
Proof. apply string_forallb_impl. intros c (_ & _ & H & _)%harmless_parts. by rewrite H. Qed.

Lemma page_target page size : is_int page → is_int size →
  parse_target ("/api/v1/users?page=" +:+ FormatInt page +:+ "&page_size=" +:+ FormatInt size)
    = Some ("/api/v1/users", "page=" +:+ FormatInt page +:+ "&page_size=" +:+ FormatInt size).
Proof.
  intros Hp%FormatInt_harmless Hs%FormatInt_harmless. unfold parse_target.
  rewrite !string_forallb_app, (harmless_no_ctl (FormatInt page)), (harmless_no_ctl (FormatInt size)) by done.
  change (string_forallb (λ c, negb (is_ctl c)) "/api/v1/users?page=") with true.
  change (string_forallb (λ c, negb (is_ctl c)) "&page_size=") with true. cbn [andb].
  assert (free_of "#" ("/api/v1/users?page=" +:+ FormatInt page +:+ "&page_size=" +:+ FormatInt size) = true) as Hf.
  { rewrite !free_of_app, (harmless_free "#" (FormatInt page)), (harmless_free "#" (FormatInt size))
      by (done || set_solver). done. }
  rewrite (Cut_none _ _ Hf). change ("/api/v1/users?page=" +:+ FormatInt page +:+ "&page_size=" +:+ FormatInt size)
    with ("/api/v1/users" +:+ String "?" ("page=" +:+ FormatInt page +:+ "&page_size=" +:+ FormatInt size)).
  by rewrite Cut_first.
Qed.

Lemma omap_mapM {A B} (f : A → option (option B)) l k : mapM f l = Some k →
  omap (λ x, mjoin (f x)) l = omap id k.
Proof.
  revert k. induction l as [|x l IH]; intros k; simpl; [by intros [= <-]|].
  destruct (f x) as [y|]; simpl; [|done]. destruct (mapM f l) as [k'|]; simpl; [|done].
  intros [= <-]. specialize (IH k' eq_refl). destruct y; simpl; [f_equal|]; exact IH.
Qed.

Lemma page_query page size : is_int page → is_int size →
  url_query ("page=" +:+ FormatInt page +:+ "&page_size=" +:+ FormatInt size)
    = [("page", FormatInt page); ("page_size", FormatInt size)].
Proof.
  intros Hp%FormatInt_harmless Hs%FormatInt_harmless.
  pose proof (ParseQuery_two "page" (FormatInt page) "page_size" (FormatInt size)
    eq_refl eq_refl eq_refl eq_refl) as Hq.
  rewrite !QueryEscape_harmless in Hq by done.
  unfold ParseQuery in Hq. unfold url_query.
  change ("page=" +:+ FormatInt page +:+ "&page_size=" +:+ FormatInt size)
    with ("page" +:+ String "=" (FormatInt page) +:+ String "&" ("page_size" +:+ String "=" (FormatInt size))).
  destruct (split_byte "&" _) as [h t]. destruct (mapM parse_piece (h :: t)) as [k|] eqn:Em; [|done].
  rewrite (omap_mapM _ _ _ Em). by injection Hq.
Qed.

(** *** Commands over HTTP *)
Section rest_commands.
Context {US SS OS GS : Type} `{!UserStore US, !SyncJobStore SS, !OrgStore OS, !GroupStore GS}.
Context `{JWT} `{!Router} `{Float64}.
Context `{!BindJSON CreateUserRequest, !BindJSON UpdateUserRequest, !BindJSON LoginRequest,
  !BindJSON CreateSyncJobRequest, !BindJSON CreateOrgRequest, !BindJSON UpdateOrgRequest,
  !BindJSON AddOrgMemberRequest, !BindJSON CreateGroupRequest, !BindJSON UpdateGroupRequest,
  !BindJSON AddGroupMemberRequest}.
Context (e : Env) (render : Body → bytes).
#[local] Instance the_engine : HttpClient (App US SS OS GS) := engine e render.
Notation W := (World (App US SS OS GS)).
Implicit Types (w : W).





Lemma plain_args (ok : Prop) args a :
  (ok → Forall (λ a, plain_arg a = true) args) → a ∈ args → ok → plain_arg a = true.
Proof. intros Hp Ha Hok. specialize (Hp Hok). rewrite Forall_forall in Hp. by apply Hp. Qed.



(** *** The listing of users *)

(** A handler sees of the query only the values of three keys. *)
Lemma run_handler_query h m p auth q1 q2 body ps uid :
  (∀ k, k ∈ ["q"; "offset"; "limit"] → assoc k q1 = assoc k q2) →
  run_handler h e (mkContext (mkRequest m p auth q1 body) ps uid)
    = run_handler h e (mkContext (mkRequest m p auth q2 body) ps uid).
Proof.
  intros Hq. assert (assoc "q" q1 = assoc "q" q2) as Hq1 by (apply Hq; set_solver).
  assert (assoc "offset" q1 = assoc "offset" q2) as Hq2 by (apply Hq; set_solver).
  assert (assoc "limit" q1 = assoc "limit" q2) as Hq3 by (apply Hq; set_solver).
  destruct h; cbn [run_handler]; try reflexivity;
    unfold Handler_ListUsers, DirectoryHandler_ListOrgs, DirectoryHandler_ListOrgChildren,
      DirectoryHandler_ListGroups, DefaultQuery, Query; cbn [ctx_request rq_query];
    by rewrite ?Hq1, ?Hq2, ?Hq3.
Qed.

Lemma ServeHTTP_query m p auth q1 q2 body a :
  (∀ k, k ∈ ["q"; "offset"; "limit"] → assoc k q1 = assoc k q2) →
  ServeHTTP e (mkRequest m p auth q1 body) a = ServeHTTP e (mkRequest m p auth q2 body) a.
Proof.
  intros Hq. unfold ServeHTTP. cbn [rq_method rq_path].
  destruct (match_route m p) as [[rt ps]|]; [|done].
  unfold Recovery, JWTMiddleware. cbv zeta. cbn [ctx_request rq_auth ctx_params].
  destruct (rt_protected rt); [|by rewrite (run_handler_query _ _ _ _ _ _ _ _ _ Hq)].
  case_bool_decide; [done|]. rewrite !bind_get.
  destruct (ValidateToken _ _ _) as [err|cl]; [done|].
  by rewrite (run_handler_query _ _ _ _ _ _ _ _ _ Hq).
Qed.

(** The flags [--page] and [--page-size] of the user listing have no effect: the service knows an
    offset and a limit by other names, so every page is the listing without a query. *)
Theorem list_ignores_pages (f : Flags) (args : list string) (page size : Z) w :
  is_int page → is_int size →
  user_list page size f args w = print_answer (restCall f "GET" "/api/v1/users" []) w.
Proof.
  intros Hp Hs. unfold user_list. cbv zeta. unfold print_answer, mbind, gom_bind.
  enough (restCall f "GET" ("/api/v1/users?page=" +:+ FormatInt page +:+ "&page_size=" +:+ FormatInt size) [] w
    = restCall f "GET" "/api/v1/users" [] w) as -> by done.
  unfold restCall, NewRequest. rewrite (page_target page size Hp Hs).
  change (parse_target "/api/v1/users") with (Some ("/api/v1/users", "")). cbn [mbind option_bind].
  unfold mbind, gom_bind, on_http, zoom, Do, the_engine, engine.
  cbn [hq_method hq_path hq_query hq_auth hq_body hq_base]. change (method_of "GET") with (Some GET).
  unfold received. cbn [hq_method hq_path hq_query hq_auth hq_body].
  rewrite (page_query page size Hp Hs).
  rewrite (ServeHTTP_query GET "/api/v1/users" _ [("page", FormatInt page); ("page_size", FormatInt size)]
    (url_query "")); [done|].
  intros k Hk. repeat (apply elem_of_cons in Hk as [->|Hk]; [reflexivity|]). by apply elem_of_nil in Hk.
Qed.
End rest_commands.

(** *** Commands over the local socket *)

(** An action name JSON writes as it is; those of the client are. *)
Definition plain_action (action : string) : Prop := quote action = quote_mark :: lit action ++ [quote_mark].

Definition call_tree (action : string) (l : list (string * json)) : json :=
  JObject [("action", JString action); ("payload", JObject l)].

Lemma request_line_text action l : plain_action action →
  request_line action (marshal_map (Some l)) = marshal (call_tree action l) ++ [newline].
Proof.
  intros Ha. unfold request_line, call_tree, marshal_map. set (payload := JObject l).
  cbn [marshal fmap list_fmap join fst snd]. change (quote "payload") with (tpl "'payload'").
  change (quote "action") with (tpl "'action'"). rewrite Ha.
  change (tpl "{'action':'") with (lit "{" ++ tpl "'action'" ++ lit ":" ++ [quote_mark]).
  change (tpl "','payload':") with ([quote_mark] ++ lit "," ++ tpl "'payload'" ++ lit ":").
  change (tpl "}") with (lit "}").
  rewrite <- !(assoc_L app). cbn [app]. rewrite <- !(assoc_L app). done.
Qed.

Lemma unmarshal_call action l : json_ok (JObject l) → (N.succ (height (JObject l)) ≤ maxNestingDepth)%N →
  unmarshal_text (marshal (call_tree action l))
    = (mkJSONRequest (clean_string action) (Some (clean (JObject l))) "", true).
Proof.
  intros Hok Hh. unfold unmarshal_text, call_tree. rewrite decode_marshal.
  - generalize (JObject l). intros v. reflexivity.
  - split; [done|]. split; [exact Hok|done].
  - revert Hh. generalize (JObject l). intros v Hh. cbn [height foldr snd]. lia.
Qed.

Lemma first_line_printable s : printable s → first_line s = s.
Proof.
  induction 1 as [|c s Hc _ IH]; [done|]. cbn [first_line]. unfold is_newline.
  rewrite bool_decide_eq_false_2 by lia. by rewrite IH.
Qed.

Lemma first_line_take n s : printable s → first_line (take n (s ++ [newline])) = take n s.
Proof.
  intros Hs. destruct (decide (n ≤ length s)) as [Hn|Hn].
  - rewrite take_app_le by done. apply first_line_printable, Forall_take, Hs.
  - rewrite !take_ge by (rewrite ?length_app; simpl; lia). clear Hn.
    induction Hs as [|c s Hc Hs IH]; [done|]. cbn [app first_line]. unfold is_newline.
    rewrite bool_decide_eq_false_2 by lia. by rewrite IH.
Qed.

(** The server's answer to the client's handshake. *)
Definition accepted_line : bytes := tpl "{'status':'ok','version':'1.0','format':'json'}" ++ [newline].

Lemma client_handshake line en :
  performHandshake (mkConn [handshake_line; line] en [] None)
    = (Ok (FormatJSON, JSONCodec), mkConn [line] en [accepted_line] None).
Proof. vm_compute. reflexivity. Qed.

Lemma read_once_chunk b l en ws wr :
  read_once (mkConn (b :: l) en ws wr)
    = (Ok (take 4096 b), if bool_decide (len b ≤ 4096)%Z then mkConn l en ws wr
                         else mkConn (drop 4096 b :: l) en ws wr).
Proof.
  unfold read_once, Conn_Read. cbn [conn_chunks conn_ending conn_written conn_writes].
  change (Z.to_nat 4096) with 4096. case_bool_decide as Hb; [|done].
  by rewrite take_ge by (unfold len in Hb; lia).
Qed.

(** The client's side of the exchange, when the two answers arrive in a piece each. *)
Lemma exchange_answered action l answer en :
  exchange action (Some l) (mkConn [accepted_line; answer] en [] None)
    = (Ok (first_line (take 4096 answer)),
       if bool_decide (len answer ≤ 4096)%Z
       then mkConn [] en [handshake_line; request_line action (marshal_map (Some l))] None
       else mkConn [drop 4096 answer] en [handshake_line; request_line action (marshal_map (Some l))] None).
Proof.
  unfold exchange. rewrite (bind_ok _ _ _ _ _ (Write_ok handshake_line (mkConn [accepted_line; answer] en [] None) eq_refl)).
  cbn [conn_chunks conn_ending conn_written app]. rewrite (bind_ok _ _ _ _ _ (read_once_chunk _ _ _ _ _)).
  rewrite bool_decide_eq_true_2 by decided.
  rewrite (bind_ok _ _ _ _ _ (Write_ok (request_line action (marshal_map (Some l)))
    (mkConn [answer] en [handshake_line] None) eq_refl)).
  cbn [conn_chunks conn_ending conn_written app]. rewrite (bind_ok _ _ _ _ _ (read_once_chunk _ _ _ _ _)).
  done.
Qed.

Section uds_commands.
Context {US SS OS GS : Type} `{!UserStore US, !SyncJobStore SS, !OrgStore OS, !GroupStore GS}.
Context {S : Type}.
Notation A := (App US SS OS GS).

(** The connection of the server the client talks to, and the one of the client. *)
Definition server_conn (action : string) (l : list (string * json)) : Conn :=
  mkConn [handshake_line; request_line action (marshal_map (Some l))] EOF [] None.

(** C25. The client and the server of the local socket, put together: what the client writes makes the
    server negotiate the JSON format and hand exactly that action and payload to its handler; what
    the server writes makes the client return the text of the handler's answer, but only its first
    4096 bytes, since it reads once into a buffer of that size. *)
Theorem uds_call_end_to_end (f : Flags) (e : Env) (action : string) (l : list (string * json))
    (a a' : A) (resp : JSONResponse) :
  plain_action action → json_ok (JObject l) → (N.succ (height (JObject l)) ≤ maxNestingDepth)%N →
  (len (marshal (call_tree action l)) < MaxJSONMessageSize)%Z → payload_ok (JResp_Payload resp) →
  Handle NewHandlerRegistry e (mkJSONRequest (clean_string action) (Some (clean (JObject l))) "") a
    = (Ok resp, a') →
  ∃ c1 c2, performHandshake (server_conn action l) = (Ok (FormatJSON, JSONCodec), c1) ∧
    serve_request e JSONCodec c1 a = (Answered, c2, a') ∧
    (∀ w : World S, w_dial w = inr (mkConn (conn_written c2) EOF [] None) →
     ∃ c3, udsCall f action (Some l) w
         = (Ok (take 4096 (marshal (response_tree resp))), mkWorld (w_http w) (inr c3) (w_out w)) ∧
       conn_written c3 = conn_chunks (server_conn action l)).
Proof.
  intros Hact Hok Hh Hfit Hpay Hresp. unfold server_conn. rewrite client_handshake.
  set (answer := marshal (response_tree resp) ++ [newline]).
  eexists _, (mkConn [] EOF [accepted_line; answer] None). split; [done|]. split.
  - unfold serve_request, ReadRequest, JSONCodec_ReadRequest. rewrite request_line_text by done.
    assert (printable (marshal (call_tree action l))) as Hpr by (apply marshal_printable; split; [done|split; done]).
    pose proof (scan_line_segment (marshal (call_tree action l)) [] []
      (mkConn [marshal (call_tree action l) ++ [newline]] EOF [accepted_line] None) eq_refl) as Hs.
    rewrite dropCR_printable, len_app in Hs by done. change (len [newline]) with 1%Z in Hs.
    rewrite (bind_ok _ _ _ _ _ (Hs (λ Hn, printable_no_newline _ _ Hpr Hn eq_refl) ltac:(lia))).
    rewrite bool_decide_eq_false_2 by lia. unfold decoded. rewrite unmarshal_call by done.
    cbn [mret gom_ret]. rewrite Hresp. unfold WriteResponse, JSONCodec_WriteResponse.
    by rewrite Write_ok.
  - cbn [conn_written conn_chunks]. intros w Hw. unfold udsCall. rewrite Hw, exchange_answered.
    unfold answer. rewrite first_line_take by apply marshal_printable, (response_tree_ok resp Hpay).
    eexists. split; [done|]. by case_bool_decide.
Qed.
End uds_commands.

(** *** Bodies made by formatting *)

(** Printable ASCII without the bytes JSON escapes: the double quote, the backslash, and [<], [>]
    and [&]. *)
Definition plain_byte (c : ascii) : bool :=
  let n := nat_of_ascii c in
  bool_decide (32 ≤ n ≤ 126) && negb (bool_decide (n ∈ [34; 92; 60; 62; 38])).
Definition plain_text (s : string) : bool := string_forallb plain_byte s.

Lemma plain_byte_quote c : plain_byte c = true → is_ascii_byte c = true ∧ quote_byte c = [c].
Proof.
  rewrite <- (ascii_nat_embedding c). pose proof (nat_ascii_bounded c) as Hc. revert Hc.
  generalize (nat_of_ascii c). intros n Hn.
  assert (forallb (λ n, implb (plain_byte (ascii_of_nat n))
    (is_ascii_byte (ascii_of_nat n) && bool_decide (quote_byte (ascii_of_nat n) = [ascii_of_nat n])))
    (seq 0 256) = true) as Hall by (vm_compute; reflexivity).
  rewrite forallb_forall in Hall. specialize (Hall n ltac:(apply in_seq; lia)). intros Hi. rewrite Hi in Hall.
  by apply andb_true_iff in Hall as [? ?%bool_decide_eq_true].
Qed.

Lemma plain_runes s : plain_text s = true → runes (lit s) = (λ c, Valid [c]) <$> lit s.
Proof.
  induction s as [|c s IH]; [done|]. cbn [plain_text string_forallb lit list_ascii_of_string].
  intros [[Hc _]%plain_byte_quote Hs]%andb_true_iff. cbn [runes]. fold (lit s). by rewrite Hc, IH.
Qed.

Lemma plain_quote s : plain_text s = true → plain_action s.
Proof.
  intros Hs. unfold plain_action, quote. rewrite plain_runes by done. do 2 f_equal. unfold plain_text in Hs.
  induction s as [|c s IH]; [done|]. cbn [string_forallb] in Hs. apply andb_true_iff in Hs as [Hc Hs].
  cbn [lit list_ascii_of_string fmap list_fmap concat quote_rune]. destruct (plain_byte_quote c Hc) as [_ ->].
  cbn [app]. f_equal. by apply IH.
Qed.

Lemma plain_clean s : plain_text s = true → clean_string s = s.
Proof.
  intros Hs. unfold clean_string, to_valid. rewrite plain_runes by done.
  rewrite <- (string_of_list_ascii_of_string s) at 2. f_equal. fold (lit s).
  induction (lit s) as [|c l IH]; [done|]. cbn [fmap list_fmap concat rune_text app]. f_equal. exact IH.
Qed.

(** The members a body is made of. *)
Definition text_object (l : list (string * string)) : json := JObject ((λ kv, (kv.1, JString kv.2)) <$> l).

Definition body_members (l : list (string * string)) : bytes :=
  join (lit ",") ((λ kv, tpl "'" ++ lit kv.1 ++ tpl "':'" ++ lit kv.2 ++ tpl "'") <$> l).

Lemma text_object_ok l : json_ok (text_object l) ∧ (height (text_object l) ≤ 1)%N.
Proof.
  unfold text_object. split.
  - induction l; [done|]. by split.
  - induction l; [done|]. cbn in *. lia.
Qed.

Lemma body_is_json l : Forall (λ kv, plain_text kv.1 = true ∧ plain_text kv.2 = true) l →
  tpl "{" ++ body_members l ++ tpl "}" = marshal (text_object l) ∧
  decode (marshal (text_object l)) = Some (text_object l).
Proof.
  intros Hl. split.
  - unfold text_object, body_members. cbn [marshal]. change (tpl "{") with (lit "{").
    change (tpl "}") with (lit "}"). do 2 f_equal. f_equal. rewrite <- list_fmap_compose.
    apply list_fmap_ext. intros i [k v] Hkv. cbn [fst snd compose marshal].
    rewrite Forall_forall in Hl. destruct (Hl (k, v)) as [Hk Hv]; [by eapply list_elem_of_lookup_2|].
    rewrite (plain_quote k Hk), (plain_quote v Hv). change (tpl "'") with [quote_mark].
    change (tpl "':'") with ([quote_mark] ++ lit ":" ++ [quote_mark]). cbn [app].
    f_equal. rewrite <- !(assoc_L app). done.
  - destruct (text_object_ok l) as [Hok Hh]. rewrite decode_marshal; [|done|unfold maxNestingDepth; lia].
    clear Hok Hh. f_equal. unfold text_object. cbn [clean]. f_equal. rewrite <- list_fmap_compose.
    induction Hl as [|[k v] l [Hk Hv] _ IH]; [done|]. cbn [fmap list_fmap compose fst snd clean] in *.
    rewrite (plain_clean k Hk), (plain_clean v Hv). f_equal. exact IH.
Qed.

Lemma login_body n p :
  tpl "{'username':'" ++ lit n ++ tpl "','password':'" ++ lit p ++ tpl "'}"
    = tpl "{" ++ body_members [("username", n); ("password", p)] ++ tpl "}".
Proof. unfold body_members. cbn [fmap list_fmap join fst snd]. rewrite <- !(assoc_L app). reflexivity. Qed.

Lemma user_body n p m :
  tpl "{'username':'" ++ lit n ++ tpl "','password':'" ++ lit p ++ tpl "','email':'" ++ lit m ++ tpl "'}"
    = tpl "{" ++ body_members [("username", n); ("password", p); ("email", m)] ++ tpl "}".
Proof. unfold body_members. cbn [fmap list_fmap join fst snd]. rewrite <- !(assoc_L app). reflexivity. Qed.

Section bodies.
Context {S : Type} `{!HttpClient S} `{Float64}.

(** For arguments of printable characters other than the double quote, the backslash and [<],
    [>], [&], the body of a login or of a new user is the JSON text of the object that names
    them. *)
Theorem bodies_are_json (f : Flags) (n p m : string) :
  useUDS f = false → plain_text n = true → plain_text p = true → plain_text m = true →
  let login := text_object [("username", n); ("password", p)] in
  let user := text_object [("username", n); ("password", p); ("email", m)] in
  decode (marshal login) = Some login ∧ decode (marshal user) = Some user ∧
  (∀ w : World S, auth_login f [n; p] w
     = print_answer (restCall f "POST" "/api/v1/auth/login" (marshal login)) w) ∧
  (∀ w : World S, user_create f [n; p; m] w
     = print_answer (restCall f "POST" "/api/v1/users" (marshal user)) w).
Proof.
  intros Hf Hn Hp Hm. cbv zeta.
  destruct (body_is_json [("username", n); ("password", p)]) as [Hl Hdl]; [by repeat constructor|].
  destruct (body_is_json [("username", n); ("password", p); ("email", m)]) as [Hu Hdu]; [by repeat constructor|].
  split; [exact Hdl|]. split; [exact Hdu|]. rewrite <- Hl, <- Hu, <- login_body, <- user_body. split.
  - intros w. unfold auth_login. cbv [arg lookup list_lookup mbind gom_bind mret gom_ret]. rewrite Hf. reflexivity.
  - intros w. reflexivity.
Qed.
End bodies.

(** *** Adding a member over the local socket *)
Section add_member.
Context {S : Type} `{Float64}.

Lemma member_body u r :
  tpl "{'user_id':'" ++ lit u ++ tpl "','role':'" ++ lit r ++ tpl "'}"
    = tpl "{" ++ body_members [("user_id", u); ("role", r)] ++ tpl "}".
Proof. unfold body_members. cbn [fmap list_fmap join fst snd]. rewrite <- !(assoc_L app). reflexivity. Qed.

Lemma unmarshal_members u r : plain_text u = true → plain_text r = true →
  unmarshal_map (tpl "{'user_id':'" ++ lit u ++ tpl "','role':'" ++ lit r ++ tpl "'}")
    = string_map [("user_id", u); ("role", r)].
Proof.
  intros Hu Hr. rewrite member_body.
  destruct (body_is_json [("user_id", u); ("role", r)]) as [-> Hd]; [by repeat constructor|].
  unfold unmarshal_map. by rewrite Hd.
Qed.
End add_member.

Section add_member_command.
Context {S : Type} `{!HttpClient S} `{Float64}.

(** Over the socket, [org add-member] sends the organization, the user and the role (a member
    when none is given) for arguments that need no escape. An argument that breaks the body it
    formats leaves the map of the payload nil, and the command panics before it dials. *)
Theorem add_member_over_socket (f : Flags) (o u : string) (role : option string) (w : World S) :
  useUDS f = true → plain_text u = true → (∀ r, role = Some r → plain_text r = true) →
  org_add_member f (o :: u :: option_list role) w
    = print_answer (udsCall f "add_org_member"
        (string_map [("user_id", u); ("role", default "member" role); ("org_id", o)])) w ∧
  org_add_member f [o; String quote_mark ""] w = (Panic, w).
Proof.
  intros Hf Hu Hr. split.
  - unfold org_add_member. cbv [arg lookup list_lookup mbind gom_bind mret gom_ret]. rewrite Hf.
    destruct role as [r|]; cbn [option_list default from_option id].
    + rewrite (unmarshal_members u r Hu (Hr r eq_refl)). reflexivity.
    + rewrite (unmarshal_members u "member" Hu eq_refl). reflexivity.
  - unfold org_add_member. cbv [arg lookup list_lookup mbind gom_bind mret gom_ret]. rewrite Hf.
    cbn [default from_option id]. unfold unmarshal_map.
    replace (decode _) with (@None json) by (vm_compute; reflexivity). reflexivity.
Qed.
End add_member_command.

(** *** Logging in over HTTP *)
Section login.
Context {US SS OS GS : Type} `{!UserStore US, !SyncJobStore SS, !OrgStore OS, !GroupStore GS}.
Context `{JWT} `{!Router}.
Context `{!BindJSON CreateUserRequest, !BindJSON UpdateUserRequest, !BindJSON LoginRequest,
  !BindJSON CreateSyncJobRequest, !BindJSON CreateOrgRequest, !BindJSON UpdateOrgRequest,
  !BindJSON AddOrgMemberRequest, !BindJSON CreateGroupRequest, !BindJSON UpdateGroupRequest,
  !BindJSON AddGroupMemberRequest}.
Context (e : Env) (render : Body → bytes).

End login.

(** ** Concrete instances *)
Module SampleClient.
#[export] Instance float : Float64 := JNumber.
#[export] Instance http : HttpClient unit := λ _ s, (Ok (200%Z, lit "ok"), s).
Definition socket : Flags := mkFlags "http://localhost:8080" "/tmp/idp-uds.sock" "" true.
Definition flags : Flags := mkFlags "http://localhost:8080" "/tmp/idp-uds.sock" SampleRest.bob_token false.
Definition world : World unit := mkWorld () (inl EOF) [].
Definition render (b : Body) : bytes := match b with BodyError t => lit t | _ => lit "{}" end.
Definition service := mkWorld SampleApp.app (inl EOF) [].
Definition credentials : list (string * json) :=
  [("password", JString "Bob@88888"); ("username", JString "bob")].
End SampleClient.

#[local] Existing Instance SampleClient.float.
#[local] Existing Instance SampleClient.http.

Lemma bodies_are_json_witness :
  plain_text "bob" = true ∧
  decode (lit "" ++ tpl "{'username':'bob','password':'Bob@88888'}")
    = Some (text_object [("username", "bob"); ("password", "Bob@88888")]) ∧
  auth_login default_flags ["bob"; "Bob@88888"] SampleClient.world
    = (Ok (), mkWorld () (inl EOF) [lit "ok"]).
Proof.
  destruct (bodies_are_json (S := unit) default_flags "bob" "Bob@88888" "b@x.io" eq_refl
    ltac:(vm_compute; reflexivity) ltac:(vm_compute; reflexivity) ltac:(vm_compute; reflexivity))
    as (Hd & _ & Hrun & _).
  split; [vm_compute; reflexivity|]. split; [exact Hd|].
  rewrite Hrun. vm_compute. reflexivity.
Defined.

Lemma add_member_over_socket_witness :
  org_add_member SampleClient.socket ["o1"; "u1"] SampleClient.world = (Err EOF, SampleClient.world).
Proof.
  destruct (add_member_over_socket (S := unit) SampleClient.socket "o1" "u1" None SampleClient.world eq_refl
    ltac:(vm_compute; reflexivity) ltac:(intros r Hr; discriminate Hr)) as [Hrun _].
  change ("o1" :: "u1" :: option_list None) with ["o1"; "u1"] in Hrun. rewrite Hrun. vm_compute. reflexivity.
Defined.

Section witnesses.
#[local] Existing Instance Sample.ascii_tables.
#[local] Existing Instance Clear.jwt.
#[local] Existing Instance SampleRest.router.
#[local] Existing Instance SampleRest.bind_login.
#[local] Existing Instance SampleRest.bind_update.
#[local] Existing Instance SampleRest.bind_none | 100.
#[local] Instance sample_engine : HttpClient (App MemoryStore MemorySyncJobStore MemoryOrgStore MemoryGroupStore) :=
  the_engine (SampleApp.env 0%Z) SampleClient.render.


Lemma list_ignores_pages_witness :
  user_list 3 50 SampleClient.flags [] SampleClient.service
    = print_answer (restCall SampleClient.flags "GET" "/api/v1/users" []) SampleClient.service ∧
  (user_list 3 50 SampleClient.flags [] SampleClient.service).1 = Ok ().
Proof.
  pose proof (list_ignores_pages (SampleApp.env 0%Z) SampleClient.render SampleClient.flags [] 3 50
    SampleClient.service ltac:(decided) ltac:(decided)) as H.
  split; [exact H|]. transitivity (fst (print_answer (restCall SampleClient.flags "GET" "/api/v1/users" []) SampleClient.service));
    [exact (f_equal fst H)|vm_compute; reflexivity].
Defined.

Lemma uds_call_end_to_end_witness : ∃ resp a' c2 out,
  Handle NewHandlerRegistry (SampleApp.env 0%Z)
    (mkJSONRequest "auth" (Some (JObject SampleClient.credentials)) "") SampleApp.app = (Ok resp, a') ∧
  JResp_Status resp = "success" ∧
  (udsCall SampleClient.socket "auth" (Some SampleClient.credentials)
    (mkWorld () (inr (mkConn (conn_written c2) EOF [] None)) [])).1 = Ok out ∧
  out = take 4096 (marshal (response_tree resp)).
Proof.
  destruct (Handle NewHandlerRegistry (SampleApp.env 0%Z)
    (mkJSONRequest "auth" (Some (JObject SampleClient.credentials)) "") SampleApp.app) as [r a'] eqn:E.
  assert (match r with
    | Ok resp => bool_decide (JResp_Status resp = "success") &&
        match JResp_Payload resp with
        | PListOrgs _ | PListOrgMembers _ | PListGroups _ | PListGroupMembers _ => false
        | _ => true
        end
    | _ => false
    end = true) as Hr.
  { transitivity (match (Handle NewHandlerRegistry (SampleApp.env 0%Z)
      (mkJSONRequest "auth" (Some (JObject SampleClient.credentials)) "") SampleApp.app).1 with
    | Ok resp => bool_decide (JResp_Status resp = "success") &&
        match JResp_Payload resp with
        | PListOrgs _ | PListOrgMembers _ | PListGroups _ | PListGroupMembers _ => false
        | _ => true
        end
    | _ => false
    end); [by rewrite E|vm_compute; reflexivity]. }
  destruct r as [resp| |]; [|discriminate Hr|discriminate Hr].
  apply andb_true_iff in Hr as [Hs%bool_decide_eq_true Hp].
  assert (payload_ok (JResp_Payload resp)) as Hpay by (destruct (JResp_Payload resp); done).
  assert (clean_string "auth" = "auth" ∧ clean (JObject SampleClient.credentials)
    = JObject SampleClient.credentials) as [Hc1 Hc2] by (split; vm_compute; reflexivity).
  destruct (uds_call_end_to_end (S := unit) SampleClient.socket (SampleApp.env 0%Z) "auth" SampleClient.credentials
    SampleApp.app a' resp
    ltac:(vm_compute; reflexivity) ltac:(cbn; tauto) ltac:(decided) ltac:(decided) Hpay
    ltac:(rewrite Hc1, Hc2; exact E)) as (c1 & c2 & _ & _ & Hu).
  exists resp, a', c2, (take 4096 (marshal (response_tree resp))).
  split; [reflexivity|]. split; [exact Hs|].
  destruct (Hu (mkWorld () (inr (mkConn (conn_written c2) EOF [] None)) []) eq_refl) as (c3 & Hcall & _).
  split; [by rewrite Hcall|reflexivity].
Defined.


End witnesses.
