(* ===== verification/AppInterfaces.v ===== *)
(** * What the interfaces preserve

    The handlers of the REST interface, the UDS actions and the UDP packets, on the invariant of
    [AppHistory]: every request keeps the stores consistent; the UDS actions change no user; a
    REST request adds at most the user its creation route draws an identifier for. *)

From Stdlib Require Import ZArith Lia Ascii.
From stdpp Require Import base tactics numbers list gmap strings.
From S2P Require Import Prelude Model GoStrings GoJson UserStore UserMem UserHistory SyncJobs Membership OrgStore GroupStore Auth UserService DirectoryService App AppHistory Udp UdsMessages UdsHandler Rest.

(** ** UDS actions *)
Section uds.
Context `{UT : UnicodeTables} {US : Type} `{!UserStore US, !UserStoreLaws US}.
Notation A := (App US MemorySyncJobStore MemoryOrgStore MemoryGroupStore).
Implicit Types (a : A).

(** A handler that keeps the stores consistent and the users as they are. *)
Definition users_untouched (h : ActionHandler (US := US)) : Prop :=
  ∀ e payload id a, consistent a → keeps (=) a (h e payload id).

Tactic Notation "uds_walk" reference(h) := intros e payload id a Ha; unfold h; repeat case_match; keeps_walk.

Lemma uds_auth : users_untouched handleAuth.
Proof. uds_walk handleAuth. Qed.
Lemma uds_get_user : users_untouched handleGetUser.
Proof. uds_walk handleGetUser. Qed.
Lemma uds_trigger_sync : users_untouched handleTriggerSync.
Proof. uds_walk handleTriggerSync. Qed.
Lemma uds_ping : users_untouched handlePing.
Proof. uds_walk handlePing. Qed.
Lemma uds_create_org : users_untouched handleCreateOrg.
Proof. uds_walk handleCreateOrg. Qed.
Lemma uds_get_org : users_untouched handleGetOrg.
Proof. uds_walk handleGetOrg. Qed.
Lemma uds_list_orgs : users_untouched handleListOrgs.
Proof. uds_walk handleListOrgs. Qed.
Lemma uds_add_org_member : users_untouched handleAddOrgMember.
Proof. uds_walk handleAddOrgMember. Qed.
Lemma uds_remove_org_member : users_untouched handleRemoveOrgMember.
Proof. uds_walk handleRemoveOrgMember. Qed.
Lemma uds_list_org_members : users_untouched handleListOrgMembers.
Proof. uds_walk handleListOrgMembers. Qed.
Lemma uds_user_orgs : users_untouched handleGetUserOrgs.
Proof. uds_walk handleGetUserOrgs. Qed.
Lemma uds_create_group : users_untouched handleCreateGroup.
Proof. uds_walk handleCreateGroup. Qed.
Lemma uds_get_group : users_untouched handleGetGroup.
Proof. uds_walk handleGetGroup. Qed.
Lemma uds_list_groups : users_untouched handleListGroups.
Proof. uds_walk handleListGroups. Qed.
Lemma uds_add_group_member : users_untouched handleAddGroupMember.
Proof. uds_walk handleAddGroupMember. Qed.
Lemma uds_remove_group_member : users_untouched handleRemoveGroupMember.
Proof. uds_walk handleRemoveGroupMember. Qed.
Lemma uds_list_group_members : users_untouched handleListGroupMembers.
Proof. uds_walk handleListGroupMembers. Qed.
Lemma uds_user_groups : users_untouched handleGetUserGroups.
Proof. uds_walk handleGetUserGroups. Qed.
Create HintDb untouched.
#[local] Hint Resolve uds_auth uds_get_user uds_trigger_sync uds_ping uds_create_org uds_get_org
  uds_list_orgs uds_add_org_member uds_remove_org_member uds_list_org_members uds_user_orgs
  uds_create_group uds_get_group uds_list_groups uds_add_group_member uds_remove_group_member
  uds_list_group_members uds_user_groups : untouched.

Lemma registry_untouched : map_Forall (K := string) (A := ActionHandler) (λ _, users_untouched)
  (NewHandlerRegistry : gmap string ActionHandler).
Proof.
  unfold NewHandlerRegistry, register.
  repeat (apply map_Forall_insert_2; [solve [eauto 1 with untouched]|]). apply map_Forall_empty.
Qed.

Lemma handle_keeps e req a : consistent a → keeps (=) a (Handle NewHandlerRegistry e req).
Proof.
  intros Ha. unfold Handle. destruct (NewHandlerRegistry !! JReq_Action req) as [h|] eqn:E;
    [|by apply keeps_mret; [apply _|]].
  pose proof (registry_untouched _ _ E) as Hh. by apply Hh.
Qed.
End uds.

(** ** UDP packets *)
Section udp.
Context `{UT : UnicodeTables} {US SS : Type} `{!UserStore US, !UserStoreLaws US, !SyncJobStore SS}.

Lemma packet_keeps X now data (s : UserService US SS) :
  service_ok s → svc_keeps (evolves X) s (processPacket now data).
Proof. intros. unfold processPacket. repeat case_match; svc_walk. Qed.
End udp.

(** ** REST requests *)
Section rest.
Context `{UT : UnicodeTables} {US : Type} `{!UserStore US, !UserStoreLaws US}.
Context `{JWT} `{!Router}.
Context `{!BindJSON CreateUserRequest, !BindJSON UpdateUserRequest, !BindJSON LoginRequest,
  !BindJSON CreateSyncJobRequest, !BindJSON CreateOrgRequest, !BindJSON UpdateOrgRequest,
  !BindJSON AddOrgMemberRequest, !BindJSON CreateGroupRequest, !BindJSON UpdateGroupRequest,
  !BindJSON AddGroupMemberRequest}.
Notation A := (App US MemorySyncJobStore MemoryOrgStore MemoryGroupStore).
Implicit Types (a : A).

(** The identifier a handler may add to the users. *)
Definition new_users (h : HandlerName) (e : Env) : gset string :=
  match h with HCreateUser => {[env_uuid e]} | _ => ∅ end.

Lemma create_user_keeps e c a : consistent a → app_directory a !! env_uuid e = None →
  keeps (evolves {[env_uuid e]}) a (Handler_CreateUser e c).
Proof.
  intros Ha Hid. unfold Handler_CreateUser, with_body, JSON. case_match; [by keeps_walk|].
  apply keeps_bind; [typeclasses eauto| |intros; by keeps_walk].
  apply keeps_try, keeps_userSvc; [apply _|done|].
  by apply svc_create_user; [|by apply consistent_service].
Qed.

(** Every other handler adds nobody. *)
Lemma handler_keeps X h e c a : h ≠ HCreateUser → consistent a →
  keeps (evolves X) a (run_handler h e c).
Proof.
  intros Hh Ha. destruct h; try done; cbn [run_handler];
    unfold Handler_Login, Handler_Logout, Handler_Online, Handler_ListUsers, Handler_GetOnlineCount,
      Handler_GetUser, Handler_UpdateUser, Handler_DeleteUser, DirectoryHandler_GetUserOrgs,
      DirectoryHandler_GetUserGroups, DirectoryHandler_CreateOrg, DirectoryHandler_ListOrgs,
      DirectoryHandler_GetOrg, DirectoryHandler_UpdateOrg, DirectoryHandler_DeleteOrg,
      DirectoryHandler_ListOrgChildren, DirectoryHandler_AddOrgMember,
      DirectoryHandler_ListOrgMembers, DirectoryHandler_RemoveOrgMember,
      DirectoryHandler_CreateGroup, DirectoryHandler_ListGroups, DirectoryHandler_GetGroup,
      DirectoryHandler_UpdateGroup, DirectoryHandler_DeleteGroup, DirectoryHandler_AddGroupMember,
      DirectoryHandler_ListGroupMembers, DirectoryHandler_RemoveGroupMember, Handler_CreateSyncJob,
      Handler_GetSyncJob, with_body, JSON; cbv zeta; keeps_walk.
Qed.

Lemma run_handler_keeps h e c a : consistent a → app_directory a !! env_uuid e = None →
  keeps (evolves (new_users h e)) a (run_handler h e c).
Proof.
  intros Ha Hid. destruct (decide (h = HCreateUser)) as [->|Hh]; [by apply create_user_keeps|].
  by apply handler_keeps.
Qed.

(** The identifier a request may add: that of a creation whose token validates. *)
Definition created_by (auth : AuthService) (e : Env) (rq : Request) : gset string :=
  match match_route (rq_method rq) (rq_path rq) with
  | Some (rt, _) =>
      match ValidateToken auth (env_now e) (bearer_token (rq_auth rq)) with
      | inr _ => new_users (rt_handler rt) e
      | inl _ => ∅
      end
  | None => ∅
  end.

(** Creating a user is behind the middleware. *)
Lemma create_is_protected rt : rt ∈ routes → rt_handler rt = HCreateUser → rt_protected rt = true.
Proof.
  intros Hr Hh. destruct (rt_protected rt) eqn:Ep; [done|].
  destruct (open_routes rt Hr Ep) as [E|E]; by rewrite E in Hh.
Qed.

Lemma recovery_keeps R `{!Keeping R} a (m : GoM error A Response) :
  keeps R a m → keeps R a (Recovery m).
Proof. intros [Hc Hu Hs]. unfold Recovery. by split; destruct (m a) as [[] ?]. Qed.

Lemma serve_keeps e rq a : consistent a → app_directory a !! env_uuid e = None →
  keeps (evolves (created_by (app_auth a) e rq)) a (ServeHTTP e rq).
Proof.
  intros Ha Hid. unfold ServeHTTP, created_by.
  destruct (match_route (rq_method rq) (rq_path rq)) as [[rt ps]|] eqn:Em; [|by apply keeps_mret; [apply _|]].
  apply match_route_sound in Em as [Hin _]. apply recovery_keeps; [apply _|].
  destruct (rt_protected rt) eqn:Ep.
  - unfold JWTMiddleware. cbv zeta. cbn [ctx_request]. case_bool_decide; [by apply keeps_mret; [apply _|]|].
    destruct (ValidateToken (app_auth a) (env_now e) (bearer_token (rq_auth rq))) as [err|cl] eqn:Ev.
    + eapply keeps_at; [by rewrite bind_get, Ev|]. by apply keeps_mret; [apply _|].
    + eapply keeps_at; [by rewrite bind_get, Ev|]. by apply run_handler_keeps.
  - apply handler_keeps; [|done]. intros Hh. rewrite (create_is_protected rt Hin Hh) in Ep. done.
Qed.

Lemma router_keeps `{!Pprof} x e rq a : consistent a → app_directory a !! env_uuid e = None →
  keeps (evolves (created_by (app_auth a) e rq)) a (SetupRouter x e rq).
Proof.
  intros Ha Hid. destruct (SetupRouter_cases x e rq a) as [E|[rs E]].
  - destruct (serve_keeps e rq a Ha Hid) as [Hc Hu Hs]. by split; rewrite E.
  - assert (keeps (evolves (created_by (app_auth a) e rq)) a (mret rs)) as [Hc Hu Hs]
      by (by apply keeps_mret; [apply _|]).
    by split; rewrite E.
Qed.
End rest.

(** ** Logging in over the three interfaces *)
Section agreement.
Context `{UT : UnicodeTables} {US : Type} `{!UserStore US, !UserStoreLaws US}.
Context `{JWT} `{!Router}.
Context `{!BindJSON CreateUserRequest, !BindJSON UpdateUserRequest, !BindJSON LoginRequest,
  !BindJSON CreateSyncJobRequest, !BindJSON CreateOrgRequest, !BindJSON UpdateOrgRequest,
  !BindJSON AddOrgMemberRequest, !BindJSON CreateGroupRequest, !BindJSON UpdateGroupRequest,
  !BindJSON AddGroupMemberRequest}.
Notation A := (App US MemorySyncJobStore MemoryOrgStore MemoryGroupStore).
Implicit Types (a : A).

(** The users after an accepted and after a refused login. *)
Definition after_login (now : Time) (m : gmap string User) (n p : string) : gmap string User :=
  match verify_spec m n p with Ok u => with_online now (User_ID u) true m | _ => m end.

Definition accepted (m : gmap string User) (n p : string) : bool := is_ok (verify_spec m n p).

Lemma packet_login now data n p (s : UserService US MemorySyncJobStore) :
  service_ok s → parseAuthRequest data = inr (n, p) → ∃ s',
  processPacket now data s = (Ok (if accepted (directory s) n p then "OK" else "FAIL"), s') ∧
  directory s' = after_login now (directory s) n p.
Proof.
  intros Hs Hp. unfold processPacket, accepted, after_login. rewrite Hp.
  destruct (verify_run n p s Hs) as (us & Hrun & Hok & Hd). rewrite bind_try, Hrun.
  pose proof (verify_credentials_live n p (directory s)) as Hlive.
  destruct (verify_spec (directory s) n p) as [u|e|] eqn:Ev; [|by eexists|].
  - destruct (set_online_run now (User_ID u) true _ Hok) as (us' & Hset & _ & Hd').
    destruct (Hlive u (us_ok _ Hs) eq_refl) as [Hi Hl]. rewrite Hd, Hi in Hset, Hd'.
    rewrite bind_try, Hset. destruct (decide (live u)); [|done]. by eexists.
  - exfalso. unfold verify_spec in Ev. repeat case_match; done.
Qed.

Lemma login_run now now1 now2 n p (s : UserService US MemorySyncJobStore) :
  service_ok s → (∀ key c, ∃ tok, SignedString key c = inr tok) → ∃ r s',
  UserService_Login now now1 now2 n p s = (r, s') ∧ is_ok r = accepted (directory s) n p ∧ r ≠ Panic ∧
  directory s' = after_login now (directory s) n p.
Proof.
  intros Hs Hsign. unfold UserService_Login, accepted, after_login.
  destruct (verify_run n p s Hs) as (us & Hrun & Hok & Hd).
  pose proof (verify_credentials_live n p (directory s)) as Hlive.
  destruct (verify_spec (directory s) n p) as [u|e|] eqn:Ev.
  - rewrite (bind_ok _ _ _ _ _ Hrun), bind_try. destruct (Hlive u (us_ok _ Hs) eq_refl) as [Hi Hl].
    destruct (on_users_update_run now (online_patch (User_ID u) true) _ Hok) as (us' & -> & _ & Hd').
    rewrite Hd, (online_patch_update _ _ _ _ u) in Hd' |- * by done. simpl. rewrite bind_get.
    unfold GenerateToken. destruct (Hsign (jwtSecret (authSvc s)) (mkClaims (User_ID u) (User_Username u)
      (Some (NewNumericDate (now1 + tokenExpiry (authSvc s))%Z)) (Some (NewNumericDate now2)) (User_ID u)))
      as [tok Htok]. simpl. rewrite Htok. eexists _, _. split; [done|]. split; [done|]. split; [done|].
    simpl in Hd'. rewrite Hd'. unfold with_online. by rewrite (alter_Some _ _ _ u).
  - rewrite (bind_err _ _ _ _ _ Hrun). by eexists _, _.
  - exfalso. unfold verify_spec in Ev. repeat case_match; done.
Qed.

Lemma registry_auth :
  (NewHandlerRegistry : gmap string (ActionHandler (US := US) (SS := MemorySyncJobStore)
    (OS := MemoryOrgStore) (GS := MemoryGroupStore))) !! "auth" = Some handleAuth.
Proof.
  unfold NewHandlerRegistry, register.
  repeat rewrite lookup_insert_ne by done. by rewrite lookup_insert_eq.
Qed.

(** C5. The three interfaces accept the same names and passwords: the UDS action answers success, the
    UDP packet is answered OK and the REST login is answered 200 exactly when [VerifyCredentials]
    accepts. The UDP packet and the REST login then leave the same users, the one that logged in
    marked online; the UDS action leaves the users as they were. *)
Theorem interfaces_agree (a : A) (e : Env) (n p data body rid : string) (payload : RawMessage) :
  app_ok a → n ≠ "" → p ≠ "" →
  Unmarshal (P := AuthPayload) payload = (mkAuthPayload n p, true) →
  parseAuthRequest data = inr (n, p) →
  ShouldBindJSON body = inr (mkLoginRequest n p) →
  match_route POST "/api/v1/auth/login" = Some (login_route, []) →
  (∀ key c, ∃ tok, SignedString key c = inr tok) →
  ∃ accepts resp a1 answer s2 rs a3,
    is_ok (UserService_VerifyCredentials n p (user_svc a)).1 = accepts ∧
    Handle NewHandlerRegistry e (mkJSONRequest "auth" payload rid) a = (Ok resp, a1) ∧
    processPacket (env_now e) data (user_svc a) = (Ok answer, s2) ∧
    ServeHTTP e (mkRequest POST "/api/v1/auth/login" "" [] body) a = (Ok rs, a3) ∧
    JResp_Status resp = (if accepts then "success" else "error") ∧
    answer = (if accepts then "OK" else "FAIL") ∧
    rs_status rs = (if accepts then StatusOK else StatusUnauthorized) ∧
    app_directory a1 = app_directory a ∧
    app_directory a3 = directory s2 ∧ (accepts = false → app_directory a3 = app_directory a).
Proof.
  intros Ha Hn Hp Hpay Hdata Hbody Hroute Hsign.
  destruct (verify_run n p (user_svc a) Ha) as (us & Hrun & Hok & Hd).
  destruct (packet_login (env_now e) data n p (user_svc a) Ha Hdata) as (s2 & Hpk & Hd2).
  destruct (login_run (env_now e) (env_now1 e) (env_now2 e) n p (user_svc a) Ha Hsign)
    as (r & s3 & Hlog & Hr & Hnp & Hd3).
  exists (accepted (app_directory a) n p).
  assert (∃ resp, Handle NewHandlerRegistry e (mkJSONRequest "auth" payload rid) a
      = (Ok resp, set_user_svc (set_userStore us (user_svc a)) a) ∧
    JResp_Status resp = (if accepted (app_directory a) n p then "success" else "error"))
    as (resp & Hresp & Hstatus).
  { rewrite (Handle_registered e (mkJSONRequest "auth" payload rid) _ registry_auth).
    cbn [JReq_Payload JReq_RequestID]. unfold handleAuth. rewrite Hpay. cbn [negb AP_Username AP_Password].
    rewrite bool_decide_eq_false_2 by tauto. rewrite bind_try, userSvc_run, Hrun. unfold accepted.
    cbn [fst snd]. change (directory (user_svc a)) with (app_directory a).
    destruct (verify_spec (app_directory a) n p) eqn:Ev; [by eexists..|].
    exfalso. unfold verify_spec in Ev. repeat case_match; done. }
  assert (∃ rs, ServeHTTP e (mkRequest POST "/api/v1/auth/login" "" [] body) a = (Ok rs, set_user_svc s3 a) ∧
    rs_status rs = (if accepted (app_directory a) n p then StatusOK else StatusUnauthorized))
    as (rs & Hrs & Hcode).
  { unfold ServeHTTP. cbn [rq_method rq_path]. rewrite Hroute. cbn [rt_protected rt_handler login_route run_handler].
    unfold Recovery, Handler_Login, with_body. cbn [ctx_request rq_body]. rewrite Hbody.
    cbn [LR_Username LR_Password]. rewrite bind_try, userSvc_run, Hlog. cbn [fst snd].
    change (app_directory a) with (directory (user_svc a)). rewrite <- Hr.
    destruct r; [by eexists..|done]. }
  eexists resp, _, _, s2, rs, _. rewrite Hrun. split; [done|]. split; [exact Hresp|]. split; [exact Hpk|].
  split; [exact Hrs|]. split; [done|]. split; [done|]. split; [done|].
  split; [exact Hd|]. change (app_directory (set_user_svc s3 a)) with (directory s3).
  rewrite Hd2, Hd3. split; [done|]. unfold accepted, after_login.
  change (directory (user_svc a)) with (app_directory a). by destruct (verify_spec _ n p).
Qed.
End agreement.

Section witnesses.
#[local] Existing Instance Sample.ascii_tables.
#[local] Existing Instance Clear.jwt.
#[local] Existing Instance SampleRest.router.
#[local] Existing Instance SampleRest.bind_login.
#[local] Existing Instance SampleRest.bind_update.
#[local] Existing Instance SampleRest.bind_none | 100.

Lemma interfaces_agree_witness :
  ∃ resp a1 rs a3,
    Handle NewHandlerRegistry (SampleApp.env 0%Z) (mkJSONRequest "auth"
      (Some (JObject [("username", JString "bob"); ("password", JString "Bob@88888")])) "1") SampleApp.app
      = (Ok resp, a1) ∧
    ServeHTTP (SampleApp.env 0%Z) (mkRequest POST "/api/v1/auth/login" "" [] "Bob@88888") SampleApp.app
      = (Ok rs, a3) ∧
    JResp_Status resp = "success" ∧ rs_status rs = 200%Z.
Proof.
  destruct (interfaces_agree SampleApp.app (SampleApp.env 0%Z) "bob" "Bob@88888"
    "auth -d username=bob&pass_word=Bob%4088888" "Bob@88888" "1"
    (Some (JObject [("username", JString "bob"); ("password", JString "Bob@88888")]))
    SampleApp.app_is_ok ltac:(discriminate) ltac:(discriminate) ltac:(vm_compute; reflexivity)
    ltac:(vm_compute; reflexivity) ltac:(reflexivity) ltac:(vm_compute; reflexivity)
    ltac:(intros key c; eexists; reflexivity))
    as (accepts & resp & a1 & answer & s2 & rs & a3 & Hacc & Hh & _ & Hs & H1 & _ & H2 & _).
  assert (accepts = true) as -> by (rewrite <- Hacc; vm_compute; reflexivity).
  exists resp, a1, rs, a3. split; [exact Hh|]. split; [exact Hs|]. split; [exact H1|exact H2].
Defined.
End witnesses.
