(* ===== verification/Main.v ===== *)
(** * The program

    [cmd/main.go]: the resource limits, the first account, the wiring of the servers and the
    shutdown; then the whole program as a transition system that interleaves HTTP requests, the
    goroutines of the UDS server and the UDP packets on the one state they share. *)

From Stdlib Require Import ZArith Lia Ascii String.
From stdpp Require Import base tactics numbers list gmap strings.
From S2P Require Import Prelude Model GoStrings GoJson GoJsonText GoIO UserStore UserMem UserHistory SyncJobs Membership OrgStore GroupStore Auth UserService DirectoryService App AppHistory Udp UdsMessages UdsCodec UdsHandshake UdsHandler UdsServer Rest AppInterfaces.

Definition bootstrapAdminUser : string := "admin".
Definition bootstrapAdminPassword : string := "Admin@123456".
Definition bootstrapAdminEmail : string := "admin@example.com".

(** How the process ends before it serves: [log.Fatalf] with its message and error, or a panic. *)
Inductive Fatal : Type :=
| FatalService (msg : string) (err : error)
| FatalSocket (msg : string) (err : io_error)
| FatalPanic.

(** ** Resource limits *)
Definition getEnvInt (env : string → string) (key : string) (defaultVal : Z) : Z :=
  let val := env key in
  if bool_decide (val ≠ "") then
    let '(i, ok) := ParseInt val in if ok then i else defaultVal
  else defaultVal.

(** The two settings of the Go runtime; a call with a value out of range changes nothing. *)
Record Runtime : Type := mkRuntime { rt_procs : Z; rt_memory_limit : Z }.
Definition GOMAXPROCS (n : Z) (r : Runtime) : Runtime :=
  if bool_decide (n < 1)%Z then r else mkRuntime n (rt_memory_limit r).
Definition SetMemoryLimit (limit : Z) (r : Runtime) : Runtime :=
  if bool_decide (limit < 0)%Z then r else mkRuntime (rt_procs r) limit.

(** The products of the memory limit are taken in 64 bits. *)
Definition setResourceLimits (env : string → string) (r : Runtime) : Runtime :=
  let cpuLimit := getEnvInt env "CPU_LIMIT" 1 in
  let r := GOMAXPROCS cpuLimit r in
  let memLimit := getEnvInt env "MEM_LIMIT_MB" 50 in
  SetMemoryLimit (int_wrap (int_wrap (memLimit * 1024) * 1024)) r.

(** ** The first account *)
Section bootstrap.
Context {US : Type} `{!UserStore US}.

Definition bootstrapAdmin (now : Time) (id : string) (authSvc : AuthService) : GoM Fatal US unit := λ store,
  match HashPassword authSvc bootstrapAdminPassword with
  | inl err => (Err (FatalService "Failed to hash bootstrap password" err), store)
  | inr hash =>
      let admin := mkUser id bootstrapAdminUser bootstrapAdminEmail hash "System Administrator"
                     UserStatusActive false "" "" zero_time zero_time in
      match us_Create now admin store with
      | (Ok _, store) => (Ok (), store)
      | (Err err, store) => (Err (FatalService "Failed to create bootstrap admin" err), store)
      | (Panic, store) => (Panic, store)
      end
  end.
End bootstrap.

(** ** Wiring *)

(** What the start of the program meets: the environment, the runtime as it is, the clock, the
    identifier drawn for the account, and the outcomes of the calls on the two sockets. *)
Record Boot : Type := mkBoot {
  b_env : string → string;
  b_runtime : Runtime;
  b_now : Time;
  b_uuid : string;
  b_socket : SocketCalls;
  b_resolve : option error;
  b_listen : option error;
}.

Notation MainApp := (App MemoryStore MemorySyncJobStore MemoryOrgStore MemoryGroupStore).
Notation UdsState := (UdsServer.Server (US := MemoryStore) (SS := MemorySyncJobStore)
  (OS := MemoryOrgStore) (GS := MemoryGroupStore)).
Notation UdpState := (Udp.Server (US := MemoryStore) (SS := MemorySyncJobStore)).

(** The running program. The stores are shared by pointer: their state is kept in the UDS server,
    and the UDP server gets it before each of its steps. [pg_http] are the answers of the engine. *)
Record Program : Type := mkProgram {
  pg_runtime : Runtime;
  pg_uds : UdsState;
  pg_udp : UdpState;
  pg_http : list Response;
  pg_pprof : string;
}.
Definition pg_app (p : Program) : MainApp := srv_app (pg_uds p).

Definition authConfig : Auth.Config := Auth.mkConfig "dev-secret-key-change-in-production" 0%Z 0%Z.
Definition uds_config : UdsServer.Config := UdsServer.mkConfig "/tmp/idp-uds.sock" 100.

Section program.
Context `{UT : UnicodeTables}.

(** [main] up to the start of the HTTP engine. *)
Definition main (b : Boot) : Fatal + Program :=
  let runtime := setResourceLimits (b_env b) (b_runtime b) in
  let userStore := NewMemoryStore in
  let syncStore := NewMemorySyncJobStore in
  let orgStore := NewMemoryOrgStore in
  let groupStore := NewMemoryGroupStore in
  let authSvc := NewService authConfig in
  match bootstrapAdmin (b_now b) (b_uuid b) authSvc userStore with
  | (Err fatal, _) => inl fatal
  | (Panic, _) => inl FatalPanic
  | (Ok _, userStore) =>
      let a := mkApp userStore syncStore orgStore groupStore authSvc in
      let udsServer := UdsServer.NewServer uds_config a in
      match UdsServer.Start (b_socket b) udsServer with
      | (Ok _, udsServer) =>
          let udpServer := Udp.NewServer ":8888" (user_svc a) in
          match Udp.Start (b_resolve b) (b_listen b) udpServer with
          | (Ok _, udpServer) => inr (mkProgram runtime udsServer udpServer [] (b_env b "ENABLE_PPROF"))
          | (Err err, _) => inl (FatalService "Failed to start UDP server" err)
          | (Panic, _) => inl FatalPanic
          end
      | (Err err, _) => inl (FatalSocket "Failed to start UDS server" err)
      | (Panic, _) => inl FatalPanic
      end
  end.

(** ** The running program *)
Context `{JWT} `{!Router, !Pprof}.
Context `{!BindJSON CreateUserRequest, !BindJSON UpdateUserRequest, !BindJSON LoginRequest,
  !BindJSON CreateSyncJobRequest, !BindJSON CreateOrgRequest, !BindJSON UpdateOrgRequest,
  !BindJSON AddOrgMemberRequest, !BindJSON CreateGroupRequest, !BindJSON UpdateGroupRequest,
  !BindJSON AddGroupMemberRequest}.










(** ** Facts *)












(** ** Boot *)

(** The first account as stored. *)
Definition first_user (b : Boot) : User :=
  mkUser (b_uuid b) bootstrapAdminUser bootstrapAdminEmail bootstrapAdminPassword
    "System Administrator" UserStatusActive false "" "" (b_now b) (b_now b).

Lemma bootstrap_run b : ∃ us,
  bootstrapAdmin (b_now b) (b_uuid b) (NewService authConfig) NewMemoryStore = (Ok (), us) ∧
  us_inv us ∧ us_users us = {[b_uuid b := first_user b]}.
Proof.
  unfold bootstrapAdmin. change (HashPassword _ _) with (inr (A := error) bootstrapAdminPassword).
  cbv iota zeta. set (u := mkUser _ _ _ _ _ _ _ _ _ _ _).
  pose proof (us_create_refines (b_now b) u NewMemoryStore store_inv_empty (lookup_empty _)) as Hr.
  destruct (us_Create (b_now b) u NewMemoryStore) as [r us]. destruct Hr as [Hinv Hr].
  change (us_users NewMemoryStore) with (∅ : gmap string User) in Hr.
  unfold dir_create in Hr. rewrite !(proj2 (find_user_None _ ∅)) in Hr by (by intros ??; rewrite lookup_empty).
  cbn in Hr. rewrite insert_empty in Hr. injection Hr as <- Hus. exists us.
  split; [done|]. split; [done|]. exact (eq_sym Hus).
Qed.

Lemma main_run b :
  ∃ us, us_inv us ∧ us_users us = {[b_uuid b := first_user b]} ∧
  main b =
    let a := mkApp us NewMemorySyncJobStore NewMemoryOrgStore NewMemoryGroupStore (NewService authConfig) in
    match UdsServer.Start (b_socket b) (UdsServer.NewServer uds_config a) with
    | (Ok _, uds) =>
        match Udp.Start (b_resolve b) (b_listen b) (Udp.NewServer ":8888" (user_svc a)) with
        | (Ok _, udp) => inr (mkProgram (setResourceLimits (b_env b) (b_runtime b)) uds udp [] (b_env b "ENABLE_PPROF"))
        | (Err err, _) => inl (FatalService "Failed to start UDP server" err)
        | (Panic, _) => inl FatalPanic
        end
    | (Err err, _) => inl (FatalSocket "Failed to start UDS server" err)
    | (Panic, _) => inl FatalPanic
    end.
Proof.
  destruct (bootstrap_run b) as (us & Hrun & Hinv & Hus). exists us. split; [done|]. split; [done|].
  unfold main. by rewrite Hrun.
Qed.

(** Every call on the two sockets succeeds. *)
Definition sockets_ok (b : Boot) : Prop :=
  call_Remove (b_socket b) = None ∧ call_Listen (b_socket b) = None ∧ call_Chmod (b_socket b) = None ∧
  b_resolve b = None ∧ b_listen b = None.

Lemma main_ok b p : main b = inr p →
  sockets_ok b ∧ consistent (pg_app p) ∧ app_directory (pg_app p) = {[b_uuid b := first_user b]} ∧
  app_auth (pg_app p) = NewService authConfig ∧ srv_crashed (pg_uds p) = false.
Proof.
  destruct (main_run b) as (us & Hinv & Hus & ->). cbv zeta. unfold UdsServer.Start.
  destruct (call_Remove (b_socket b)) eqn:E1; [done|]. destruct (call_Listen (b_socket b)) eqn:E2; [done|].
  destruct (call_Chmod (b_socket b)) eqn:E3; [done|]. unfold Udp.Start.
  destruct (b_resolve b) eqn:E4; [done|]. destruct (b_listen b) eqn:E5; [done|]. intros [= <-].
  split; [done|]. split; [|done].
  apply (ds_reachable_inv (mkDirectoryService NewMemoryOrgStore NewMemoryGroupStore us)).
  by apply ds_start.
Qed.

(** ** Properties *)

(** C14. The program starts exactly when the calls on its two sockets succeed; the first account is
    always created. It then has one account, which the documented name and password open and
    nothing else does. *)
Theorem boot_admin_only (b : Boot) :
  match main b with
  | inr p =>
      sockets_ok b ∧ consistent (pg_app p) ∧
      ∀ n pw, (UserService_VerifyCredentials n pw (user_svc (pg_app p))).1
        = if bool_decide (n = "admin" ∧ pw = "Admin@123456") then Ok (first_user b)
          else Err ErrInvalidCredentials
  | inl fatal =>
      ¬ sockets_ok b ∧ ((∃ err, fatal = FatalSocket "Failed to start UDS server" err) ∨
        ∃ err, fatal = FatalService "Failed to start UDP server" err)
  end.
Proof.
  destruct (main b) as [fatal|p] eqn:Em.
  - destruct (main_run b) as (us & Hinv & Hus & E). rewrite E in Em. clear E. revert Em.
    unfold sockets_ok, UdsServer.Start, Udp.Start. cbv zeta.
    destruct (call_Remove (b_socket b)); [intros [= <-]; naive_solver|].
    destruct (call_Listen (b_socket b)); [intros [= <-]; naive_solver|].
    destruct (call_Chmod (b_socket b)); [intros [= <-]; naive_solver|].
    destruct (b_resolve b); [intros [= <-]; naive_solver|].
    destruct (b_listen b); [intros [= <-]; naive_solver|done].
  - destruct (main_ok b p Em) as (Hs & Hc & Hd & _). split; [done|]. split; [done|]. intros n pw.
    destruct (verify_run n pw (user_svc (pg_app p)) (consistent_service _ Hc)) as (us & -> & _).
    change (directory (user_svc (pg_app p))) with (app_directory (pg_app p)). rewrite Hd.
    unfold verify_spec, account. cbn [fst].
    destruct (decide (n = "admin")) as [->|Hn].
    + rewrite (find_user_unique _ _ (b_uuid b) (first_user b)); [|apply lookup_singleton_eq|done|].
      * cbn. repeat case_bool_decide; naive_solver.
      * intros j v. rewrite lookup_singleton_Some. naive_solver.
    + rewrite (proj2 (find_user_None _ _)); [by rewrite bool_decide_eq_false_2 by naive_solver|].
      intros i u. rewrite lookup_singleton_Some. intros [_ <-] [Hx _]. by apply Hn.
Qed.


End program.

(** C35. The memory limit is the configured number of megabytes exactly below 2^43 of them; from there
    on the 64-bit product wraps and the limit is another one. *)
Theorem memory_limit_exact (env : string → string) (r : Runtime) (m : Z) :
  is_int (rt_memory_limit r) → (0 ≤ m ≤ max_int)%Z → env "MEM_LIMIT_MB" = FormatInt m →
  rt_memory_limit (setResourceLimits env r) = (m * 2 ^ 20)%Z ↔ (m < 2 ^ 43)%Z.
Proof.
  intros Hr Hm Henv. assert (ParseInt (FormatInt m) = (m, true)) as Hp.
  { apply ParseInt_FormatInt. unfold is_int, min_int in *. lia. }
  assert (FormatInt m ≠ "") as Hne by (intros E; by rewrite E in Hp).
  unfold setResourceLimits, getEnvInt. rewrite Henv, Hp, (bool_decide_eq_true_2 (FormatInt m ≠ "")) by done.
  unfold SetMemoryLimit. cbv zeta. set (g := GOMAXPROCS _ r).
  assert (rt_memory_limit g = rt_memory_limit r) as Hg by (unfold g, GOMAXPROCS; by case_bool_decide).
  split.
  - pose proof (int_wrap_is_int (int_wrap (m * 1024) * 1024)) as Hw. unfold is_int, max_int in *.
    case_bool_decide; simpl; lia.
  - intros Hlt. rewrite (int_wrap_id (m * 1024)), int_wrap_id by (unfold is_int, min_int, max_int in *; lia).
    rewrite bool_decide_eq_false_2 by lia. simpl. lia.
Qed.

(** ** A run of the program *)
Module SampleMain.
#[export] Instance bind_login : BindJSON LoginRequest := λ body, inr (mkLoginRequest "admin" body).
#[export] Instance bind_create : BindJSON CreateUserRequest := λ body,
  inr (mkCreateUserRequest "carol" "c@x.io" body "Carol").
#[export] Instance bind_none {A} : BindJSON A | 100 := λ _, inl (ErrorString "EOF").
#[export] Instance profile : Pprof := { pprof _ := mkResponse StatusOK BodyNone }.

Definition boot : Boot :=
  mkBoot (λ key, if String.eqb key "MEM_LIMIT_MB" then "64" else "") (mkRuntime 8 max_int) 0%Z "1"
    (mkSocketCalls None None None) None None.
Definition env : Env := mkEnv 1%Z 1%Z 1%Z "2" ["1"] [] [].

End SampleMain.

Section witnesses.
#[local] Existing Instance Sample.ascii_tables.
#[local] Existing Instance Clear.jwt.
#[local] Existing Instance SampleRest.router.
#[local] Existing Instance SampleMain.profile.
#[local] Existing Instance SampleMain.bind_login.
#[local] Existing Instance SampleMain.bind_create.
#[local] Existing Instance SampleMain.bind_none | 100.




Lemma memory_limit_exact_witness :
  rt_memory_limit (setResourceLimits (b_env SampleMain.boot) (b_runtime SampleMain.boot)) = (64 * 2 ^ 20)%Z ∧
  rt_memory_limit (setResourceLimits (λ _, "17592186044416") (b_runtime SampleMain.boot)) ≠ (17592186044416 * 2 ^ 20)%Z.
Proof.
  split.
  - apply (memory_limit_exact (b_env SampleMain.boot) (b_runtime SampleMain.boot) 64); [decided|decided|vm_compute; reflexivity|decided].
  - intros H. apply (memory_limit_exact (λ _, "17592186044416") (b_runtime SampleMain.boot) 17592186044416) in H;
      [|decided|decided|vm_compute; reflexivity]. vm_compute in H. discriminate H.
Defined.
End witnesses.
